(* ===== verification/_CoqProject ===== *)
-Q . S2P
Prelude.v
Bytes.v
BTree.v
Types.v
Identity.v
Sample.v
Wire.v
Codec.v
Conn.v
Config.v
Client.v
Server.v
Transport.v
Str.v
WebRtc.v
Peering.v
Abi.v
Boundary.v
Wasm.v
Python.v
Domain.v
Totp.v
Clock.v
Auth.v
Delivery.v
Db.v
Ingress.v
StoreAccounts.v
StoreSessions.v
Sessions.v
StoreLogin.v
StorePasskeys.v
StoreStepUp.v
LoginService.v
Passkeys.v
StepUp.v
Browser.v
Http.v
StoreEffects.v
Store.v
Login.v
Growth.v
Kms.v
Routes.v
Provenance.v
Launch.v
Cli.v
