(* ===== verification/Prelude.v ===== *)
(** * Verification of the Federated CFR Connect Protocol (libfcp)

    The repository holds two systems.  The portable protocol ([libfcp-core],
    [libfcp], [libfcp-server], [libfcp-webrtc]) lets two endpoints pinned to each
    other negotiate one WebRTC connection through signed envelopes and carry CFR
    messages over it; a configuration authority signs the member sets that say
    who the endpoints are.  The Fabric authority ([fcp-fabric-domain],
    [fcp-fabric-auth], [fcp-fabric-store], [fcp-fabric-service]) is an HTTP
    service over a PostgreSQL database: accounts log in with a password and a
    second factor or a passkey, hold rotating session credentials, and
    administrators change roles after a step-up; it also admits signed deliveries
    of peer authorities.  Every path below is under [src/crates], that of the
    Python binding under [src/bindings].

    ** The portable protocol

    - [Bytes], [BTree], [Str]: machine integers, arrays, ordered maps, strings
      and UTF-8, as the standard library has them.
    - [Types], [Identity]: identifiers, bindings, errors and hybrid identities
      ([libfcp-core/src/types.rs], [error.rs], [identity.rs]).  Ed25519, ML-DSA-65
      and BLAKE3 are the class [Crypto]; [CryptoLaws] states that signatures of
      a key verify.  [Sample] is a concrete instance, for the witnesses.
    - [Wire], [Codec]: the envelope grammar, signing and verified decoding
      ([envelope.rs]).  Decoding is the inverse of encoding, the scan that
      verifies without copying agrees with it, and the signed transcript
      determines what it covers.
    - [Conn]: the per-peer state machine ([connection.rs]), each method as state
      passing.  Well-formedness, the window of the last 1,024 envelopes, exactly
      which envelopes act, and the handshake between two endpoints.
    - [Config], [Client], [Server]: signed member sets ([configuration.rs]), the
      client that adopts them and routes CFR messages ([libfcp/src]), and the
      authority that publishes them ([libfcp-server/src/server.rs]).  Indexing
      that could panic is a value, and decoding is shown never to panic.
    - [Transport]: the adapter contract as a type class, the dispatcher and the
      queue-backed adapter ([libfcp/src/transport]).
    - [WebRtc], [Peering]: the native session ([libfcp-webrtc/src]).  A method,
      a callback or an iteration of the control pump is a tree of critical
      sections, engine calls and channel sends; a session is its shared state
      and its tasks, and [step] takes one step of one task, begins a call that
      Rust's borrows allow, invokes a callback or drops a future.  Engine calls
      return what the label of the step says.  [Peering] has a logic for such
      programs with a budget of steps; it yields the authenticity of what
      reaches the engine and the application, the bounds of the queues, that
      calls return, and, by tokens, that a session ends once.  Three further
      theorems exhibit behaviour the code does not mean to have.
    - [Abi], [Boundary]: the functions exported to C ([libfcp-ffi/src]) over an
      explicit memory, the ranges the caller lends, the boxes handed out and
      the objects behind handles.  Each function on a connection is shown to be
      an operation of the state machine on the arguments it reads, actions to
      leave in order and whole, and a caller that passes back the slots it was
      given to be free of undefined behaviour and of leaks.
    - [Wasm]: the browser façade ([libfcp-wasm/src]).  It and the C ABI are two
      translations of the same calls, shown to succeed together and to leave the
      same connections and queues.
    - [Python]: the Python binding ([bindings/python]), a client of the ABI as
      modelled in [Abi].  Whatever a program calls, no native call is undefined
      and no buffer is left behind, and each method is the façade's method on the
      same bytes.

    ** The Fabric authority

    - [Domain], [Totp], [Auth], [Clock]: domain types and the administration
      policy ([fcp-fabric-domain/src]), one-time passwords, password verifiers
      and opaque tokens ([fcp-fabric-auth/src]), and times.  Unicode and IDNA,
      HMAC, AES-GCM, Argon2id, base64, UUID text and JSON are parameters with
      the behaviour their crates document.
    - [Db]: the tables of [fcp-fabric-store/migrations] as lists of rows with
      their keys, foreign keys and checks, the lists of texts as the schema
      spells them, transactions that roll back on an error, and the audit log
      ([helpers.rs]).
    - [StoreAccounts], [StoreSessions], [StoreLogin], [StorePasskeys],
      [StoreStepUp]: one definition per store operation
      ([fcp-fabric-store/src]), its guards in the order of the code.
      [StoreEffects] gives for each the exact database it leaves.
    - [Sessions]: rotation refines a chain of digests of which only the last is
      unspent; reuse revokes the family; revocation is final.
    - [Store], [Login]: every mutation as one operation type, the invariant of
      all tables over every history, failures that change nothing, the audit
      log, and the single use of login transactions, time steps, recovery codes,
      ceremonies and grants.
    - [LoginService], [Passkeys], [StepUp]: the services
      ([fcp-fabric-service/src]); the [webauthn-rs] and [url] crates and the key
      management service are parameters.
    - [Delivery], [Ingress]: signed deliveries between authorities and their
      admission, once each ([federation.rs], [federation_ingress.rs]).
    - [Browser], [Http]: cookies, headers and the routes ([transport.rs] and
      [transport/]); [serve] is the router with its middleware.
    - [Growth], [Routes], [Provenance]: a logic of how programs move the store;
      what each route may add, given what the request presented; and over every
      history of requests, that sessions need a password or a challenged passkey,
      second factors are enforced and role changes are stepped up.
    - [Kms]: data keys wrapped by a key management service ([aws_kms.rs]), whose
      documented behaviour is the class [KmsLaws].  A factor sealed under a
      provisioned key opens over every later history of the store and of the
      service, and a wrapped key moved to another reference does not.
    - [Launch]: the process ([main.rs]): exactly which environments configure it,
      and what a process so configured serves.
    - [Cli]: the offline client ([fcp-fabricctl/src/main.rs]): a tenant is
      bootstrapped once, whatever happens to the store afterwards.

    ** Conventions

    A method on [&mut self] that can fail is [M S E A] of this file: it returns
    the state it leaves also when it fails.  Drawn random values, identifiers and
    readings of the clock are arguments.  Lock poisoning, memory exhaustion and
    log lines are left out.  Fuel appears where recursion is not structural: the
    UTF-8 decoder takes the length of its input, of which every character
    consumes a byte; a theorem states that it is enough.

    ** Not modelled

    The connection pool and migration runner (calls into [sqlx]), the argument
    parser, the signal handler and the log lines of the two binaries; loading the
    native library in Python, and the bindings of the other languages, which
    marshal the same calls of the C ABI; the signer handle of the browser façade, a box around one
    identity; the version getters and the allocation failures of the C ABI;
    network and browser behaviour beyond the values exchanged. *)

From Stdlib Require Import ZArith Lia.
From stdpp Require Import base list option numbers decidable.

(** ** Results

    [Result<T, E>] of the source.  [Ok] and [Err] keep their Rust names. *)
Inductive result (E A : Type) : Type :=
| Ok (a : A)
| Err (e : E).
Arguments Ok {E A} a.
Arguments Err {E A} e.

#[export] Instance result_eq_dec {E A} `{EqDecision E, EqDecision A} :
  EqDecision (result E A).
Proof. solve_decision. Defined.

Definition res_bind {E A B} (r : result E A) (k : A -> result E B) : result E B :=
  match r with
  | Ok a => k a
  | Err e => Err e
  end.

(** [Result::map_err]. *)
Definition map_err {E F A} (f : E -> F) (r : result E A) : result F A :=
  match r with
  | Ok a => Ok a
  | Err e => Err (f e)
  end.

(** [Option::ok_or]. *)
Definition ok_or {E A} (o : option A) (e : E) : result E A :=
  match o with
  | Some a => Ok a
  | None => Err e
  end.

(** [Result::ok]. *)
Definition res_ok {E A} (r : result E A) : option A :=
  match r with
  | Ok a => Some a
  | Err _ => None
  end.

Definition is_ok {E A} (r : result E A) : bool :=
  match r with
  | Ok _ => true
  | Err _ => false
  end.

(** ** Methods on [&mut self]

    A method that borrows its receiver mutably and can fail returns the state
    it leaves behind together with its result: an early return with an error
    keeps every assignment that was executed before it. *)
Definition M (S E A : Type) : Type := S -> S * result E A.

Definition ret {S E A} (a : A) : M S E A := fun s => (s, Ok a).
Definition fail {S E A} (e : E) : M S E A := fun s => (s, Err e).
Definition get {S E} : M S E S := fun s => (s, Ok s).
Definition modify {S E} (f : S -> S) : M S E unit := fun s => (f s, Ok tt).
Definition lift {S E A} (r : result E A) : M S E A := fun s => (s, r).
Definition bind {S E A B} (m : M S E A) (k : A -> M S E B) : M S E B :=
  fun s =>
    match m s with
    | (s', Ok a) => k a s'
    | (s', Err e) => (s', Err e)
    end.

(** The value a computation returns, its final state being dropped. *)
Definition eval {S E A} (m : M S E A) (s : S) : result E A := snd (m s).

(** ** Code that indexes slices

    A computation that may also panic: [None] is the panic of an index or a
    slice range that is out of bounds. *)
Definition X (E A : Type) : Type := option (result E A).

Definition xret {E A} (r : result E A) : X E A := Some r.
Definition xbind {E A B} (m : X E A) (k : A -> X E B) : X E B :=
  match m with
  | Some (Ok a) => k a
  | Some (Err e) => Some (Err e)
  | None => None
  end.

Declare Scope fcp_scope.
Delimit Scope fcp_scope with fcp.

Notation "'let?' x ':=' r 'in' k" := (res_bind r (fun x => k))
  (at level 10, x pattern, r at level 100, k at level 200) : fcp_scope.
Notation "'do' x <- m ; k" := (bind m (fun x => k))
  (at level 10, x pattern, m at level 100, k at level 200) : fcp_scope.
Notation "'do_' m ; k" := (bind m (fun _ => k))
  (at level 10, m at level 100, k at level 200) : fcp_scope.
Notation "'let*' x ':=' m 'in' k" := (xbind m (fun x => k))
  (at level 10, x pattern, m at level 100, k at level 200) : fcp_scope.
Open Scope fcp_scope.

(** ** Inversion of successful runs *)
Lemma res_bind_ok {E A B} (r : result E A) (k : A -> result E B) b :
  res_bind r k = Ok b <-> exists a, r = Ok a /\ k a = Ok b.
Proof.
  destruct r as [a|e]; simpl; split; [eauto | | done |].
  - by intros (a' & [= ->] & H).
  - by intros (a' & H & _).
Qed.

Lemma res_bind_err {E A B} (r : result E A) (k : A -> result E B) e :
  res_bind r k = Err e <-> r = Err e \/ exists a, r = Ok a /\ k a = Err e.
Proof.
  destruct r as [a|e']; simpl; split.
  - eauto.
  - by intros [?|(a' & [= ->] & H)].
  - intros [= ->]. by left.
  - intros [H|(a' & H & _)]; congruence.
Qed.

Lemma map_err_ok {E F A} (f : E -> F) (r : result E A) a :
  map_err f r = Ok a <-> r = Ok a.
Proof. destruct r; simpl; naive_solver. Qed.

Lemma ok_or_ok {E A} (o : option A) (e : E) a : ok_or o e = Ok a <-> o = Some a.
Proof. destruct o; simpl; naive_solver. Qed.

Lemma ok_or_err {E A} (o : option A) (e e' : E) :
  ok_or o e = Err e' <-> o = None /\ e' = e.
Proof. destruct o; simpl; naive_solver. Qed.

Lemma bind_ok {S E A B} (m : M S E A) (k : A -> M S E B) s s' b :
  bind m k s = (s', Ok b) <-> exists s1 a, m s = (s1, Ok a) /\ k a s1 = (s', Ok b).
Proof.
  unfold bind. destruct (m s) as [s1 [a|e]]; split; [eauto | | done |].
  - by intros (s2 & a' & [= -> ->] & H).
  - by intros (s2 & a' & H & _).
Qed.

Lemma bind_err {S E A B} (m : M S E A) (k : A -> M S E B) s s' e :
  bind m k s = (s', Err e) <->
  m s = (s', Err e) \/ exists s1 a, m s = (s1, Ok a) /\ k a s1 = (s', Err e).
Proof.
  unfold bind. destruct (m s) as [s1 [a|e']]; split.
  - eauto 10.
  - by intros [?|(s2 & a' & [= -> ->] & H)].
  - intros [= -> ->]. by left.
  - by intros [[= -> ->]|(s2 & a' & H & _)].
Qed.

Lemma bind_step {S E A B} (m : M S E A) (k : A -> M S E B) s s1 a :
  m s = (s1, Ok a) -> bind m k s = k a s1.
Proof. intros H. unfold bind. by rewrite H. Qed.

Lemma is_ok_run {S E A} (p : S * result E A) : is_ok (snd p) = true -> exists a, p = (fst p, Ok a).
Proof. destruct p as [s [a|e]]; [by exists a|done]. Qed.

Lemma xbind_ok {E A B} (m : X E A) (k : A -> X E B) b :
  xbind m k = Some (Ok b) <-> exists a, m = Some (Ok a) /\ k a = Some (Ok b).
Proof.
  destruct m as [[a|e]|]; simpl; split; try done; eauto.
  - by intros (a' & [= ->] & H).
  - by intros (a' & ? & H).
  - by intros (a' & ? & H).
Qed.

(** ** Lists *)
Lemma tail_drop {A} n (l : list A) : tail (drop n l) = drop (S n) l.
Proof. revert l. induction n as [|n IH]; intros [|x l]; [done..|]. apply IH. Qed.

(** [Iterator::find_map]. *)
Fixpoint find_map {A B} (f : A -> option B) (l : list A) : option B :=
  match l with
  | [] => None
  | x :: l' => match f x with Some b => Some b | None => find_map f l' end
  end.

Lemma find_map_fmap {A B D} (f : B -> option D) (g : A -> B) l :
  find_map f (g <$> l) = find_map (fun x => f (g x)) l.
Proof. induction l as [|x l IH]; [done|]. simpl. by rewrite <- IH. Qed.

(** ** Automation

    [fcp_inv] opens every equation between a run of a monadic program and its
    outcome; [fcp_run] reduces the goal's programs one step at a time. *)
Create HintDb fcp discriminated.

Ltac fcp_case :=
  match goal with
  | H : context [if decide ?P then _ else _] |- _ => destruct (decide P)
  | H : context [if ?b then _ else _] |- _ => destruct b eqn:?
  end.

Ltac fcp_inv_step :=
  match goal with
  | H : Ok _ = Ok _ |- _ => injection H as H; try subst
  | H : Err _ = Err _ |- _ => injection H as H; try subst
  | H : Ok _ = Err _ |- _ => discriminate H
  | H : Err _ = Ok _ |- _ => discriminate H
  | H : Some _ = Some _ |- _ => injection H as H; try subst
  | H : (_, _) = (_, _) |- _ => first [injection H as ? ? | injection H as ?]; try subst
  | H : res_bind _ _ = Ok _ |- _ => apply res_bind_ok in H as (? & ? & H)
  | H : map_err _ _ = Ok _ |- _ => apply map_err_ok in H
  | H : ok_or _ _ = Ok _ |- _ => apply ok_or_ok in H
  | H : xbind _ _ = Some (Ok _) |- _ => apply xbind_ok in H as (? & ? & H)
  | H : xret _ = Some _ |- _ => unfold xret in H
  | H : bind _ _ _ = (_, Ok _) |- _ => apply bind_ok in H as (? & ? & ? & H)
  | H : ret _ _ = (_, _) |- _ => unfold ret in H
  | H : fail _ _ = (_, _) |- _ => unfold fail in H
  | H : get _ = (_, _) |- _ => unfold get in H
  | H : modify _ _ = (_, _) |- _ => unfold modify in H
  | H : lift _ _ = (_, _) |- _ => unfold lift in H
  end.
Ltac fcp_inv := repeat fcp_inv_step.
