(* ===== verification/Bytes.v ===== *)
(** * Bytes, fixed-size arrays and machine integers

    [u8] is [Byte.byte]; [Vec<u8>] and [&[u8]] are [list byte]; [[u8; N]] is
    [array N], a list with a boolean proof of its length; [u16], [u32] and
    [u64] are [uint 16], [uint 32] and [uint 64].  A [usize] is an integer of
    type [Z] bounded by [USIZE_MAX] of a 64-bit target. *)

From Stdlib Require Import ZArith Lia.
From Stdlib Require Export Strings.Byte.
From stdpp Require Import base list option numbers decidable countable.
From S2P Require Import Prelude.

Open Scope Z_scope.

#[export] Instance byte_eq_dec : EqDecision byte := Byte.byte_eq_dec.

Abbreviation bytes := (list byte).

(** [slice::len]. *)
Definition blen {A} (l : list A) : Z := Z.of_nat (length l).

Lemma blen_nonneg {A} (l : list A) : 0 <= blen l.
Proof. unfold blen. lia. Qed.

Lemma blen_nil {A} : blen (@nil A) = 0.
Proof. done. Qed.

Lemma blen_cons {A} (x : A) l : blen (x :: l) = 1 + blen l.
Proof. unfold blen. simpl. lia. Qed.

Lemma blen_app {A} (k l : list A) : blen (k ++ l) = blen k + blen l.
Proof. unfold blen. rewrite length_app. lia. Qed.

Lemma blen_take {A} n (l : list A) : 0 <= n <= blen l -> blen (take (Z.to_nat n) l) = n.
Proof. unfold blen. rewrite length_take. lia. Qed.

Create Rewrite HintDb blen.
#[export] Hint Rewrite @blen_nil @blen_cons @blen_app : blen.

(** ** Bytes and integers *)
Definition Z_of_byte (b : byte) : Z := Z.of_N (Byte.to_N b).

Definition byte_of_Z (z : Z) : byte :=
  match Byte.of_N (Z.to_N (z mod 256)) with
  | Some b => b
  | None => x00
  end.

Lemma Z_of_byte_range b : 0 <= Z_of_byte b < 256.
Proof.
  unfold Z_of_byte. pose proof (Byte.to_N_bounded b). lia.
Qed.

Lemma Z_of_byte_of_Z z : Z_of_byte (byte_of_Z z) = z mod 256.
Proof.
  unfold Z_of_byte, byte_of_Z.
  pose proof (Z.mod_pos_bound z 256 ltac:(lia)) as Hb.
  destruct (Byte.of_N (Z.to_N (z mod 256))) as [b|] eqn:E.
  - apply Byte.to_of_N in E. rewrite E. lia.
  - apply Byte.of_N_None_iff in E. lia.
Qed.

Lemma byte_of_Z_of_byte b : byte_of_Z (Z_of_byte b) = b.
Proof.
  unfold byte_of_Z. rewrite Z.mod_small by apply Z_of_byte_range.
  unfold Z_of_byte. rewrite N2Z.id, Byte.of_to_N. done.
Qed.

Lemma Z_of_byte_inj a b : Z_of_byte a = Z_of_byte b -> a = b.
Proof. intros H. by rewrite <- (byte_of_Z_of_byte a), H, byte_of_Z_of_byte. Qed.

(** ** Big-endian encoding

    [to_be_bytes] and [from_be_bytes] of the unsigned integers. *)
Fixpoint be_bytes (n : nat) (z : Z) : bytes :=
  match n with
  | O => []
  | S m => byte_of_Z (z / 256 ^ Z.of_nat m) :: be_bytes m z
  end.

Fixpoint be_val (l : bytes) : Z :=
  match l with
  | [] => 0
  | b :: l' => Z_of_byte b * 256 ^ blen l' + be_val l'
  end.

Lemma length_be_bytes n z : length (be_bytes n z) = n.
Proof. induction n; simpl; congruence. Qed.

Lemma blen_be_bytes n z : blen (be_bytes n z) = Z.of_nat n.
Proof. unfold blen. by rewrite length_be_bytes. Qed.
#[export] Hint Rewrite blen_be_bytes : blen.

Lemma be_val_range l : 0 <= be_val l < 256 ^ blen l.
Proof.
  induction l as [|b l IH]; simpl; [done|].
  pose proof (Z_of_byte_range b). rewrite blen_cons.
  rewrite Z.pow_add_r by (pose proof (blen_nonneg l); lia). nia.
Qed.

Lemma be_val_app k l : be_val (k ++ l) = be_val k * 256 ^ blen l + be_val l.
Proof.
  induction k as [|b k IH]; simpl; [lia|]. rewrite IH, blen_app, Z.pow_add_r by apply blen_nonneg. lia.
Qed.

Lemma be_val_be_bytes n z : be_val (be_bytes n z) = z mod 256 ^ Z.of_nat n.
Proof.
  induction n as [|n IH]; simpl be_val.
  - by rewrite Z.mod_1_r.
  - rewrite IH, Z_of_byte_of_Z, blen_be_bytes.
    replace (Z.of_nat (S n)) with (Z.of_nat n + 1) by lia.
    rewrite Z.pow_add_r by lia.
    rewrite (Z.rem_mul_r z) by lia. change (256 ^ 1) with 256. lia.
Qed.

Lemma be_bytes_mod n m z :
  (n <= m)%nat -> be_bytes n (z mod 256 ^ Z.of_nat m) = be_bytes n z.
Proof.
  intros Hnm. induction n as [|n IH]; [done|]. simpl. f_equal; [|apply IH; lia].
  apply Z_of_byte_inj. rewrite !Z_of_byte_of_Z.
  replace (Z.of_nat m) with (Z.of_nat n + (1 + (Z.of_nat m - Z.of_nat n - 1))) by lia.
  rewrite !Z.pow_add_r by lia.
  rewrite Z.rem_mul_r by lia.
  rewrite (Z.mul_comm (256 ^ Z.of_nat n)), Z.div_add by lia.
  rewrite (Z.div_small (z mod _)) by (apply Z.mod_pos_bound; lia).
  rewrite Z.add_0_l, Z.pow_1_r, Z.rem_mul_r by lia.
  by rewrite Z.mul_comm, Z.mod_add, Z.mod_mod by lia.
Qed.

Lemma be_bytes_be_val l : be_bytes (length l) (be_val l) = l.
Proof.
  induction l as [|b l IH]; [done|]. simpl. unfold blen.
  pose proof (be_val_range l) as Hr. unfold blen in Hr.
  f_equal.
  - apply Z_of_byte_inj. rewrite Z_of_byte_of_Z, Z.div_add_l by lia.
    rewrite Z.div_small by lia. rewrite Z.add_0_r.
    apply Z.mod_small, Z_of_byte_range.
  - rewrite <- (be_bytes_mod _ (length l)) by lia.
    rewrite Z.add_comm, Z.mod_add, Z.mod_small by lia. done.
Qed.

(** ** Unsigned machine integers *)
Record uint (w : Z) : Type := UInt {
  uval : Z;
  uint_ok : (0 <=? uval) && (uval <? 2 ^ w) = true;
}.
Arguments UInt {w} _ _.
Arguments uval {w} _.

Lemma uint_range {w} (u : uint w) : 0 <= uval u < 2 ^ w.
Proof. destruct u as [z H]. simpl. apply andb_true_iff in H. lia. Qed.

Lemma uint_eq {w} (a b : uint w) : uval a = uval b -> a = b.
Proof.
  destruct a as [x p], b as [y q]; simpl; intros ->.
  f_equal. apply Eqdep_dec.UIP_dec, bool_dec.
Qed.

#[export] Instance uint_eq_dec w : EqDecision (uint w).
Proof.
  refine (fun a b => cast_if (decide (uval a = uval b)));
    [by apply uint_eq | congruence].
Defined.

(** [TryFrom] between integer types: [None] when the value does not fit. *)
Definition uint_try (w z : Z) : option (uint w) :=
  match (0 <=? z) && (z <? 2 ^ w) as b
        return (0 <=? z) && (z <? 2 ^ w) = b -> option (uint w) with
  | true => fun H => Some (UInt z H)
  | false => fun _ => None
  end eq_refl.

Lemma uint_try_some w z u : uint_try w z = Some u <-> 0 <= z < 2 ^ w /\ uval u = z.
Proof.
  unfold uint_try.
  generalize (eq_refl ((0 <=? z) && (z <? 2 ^ w))).
  set (b := (0 <=? z) && (z <? 2 ^ w)) at 2 3. destruct b; intros H; split.
  - intros [= <-]. simpl. apply andb_true_iff in H. lia.
  - intros [_ Hu]. f_equal. apply uint_eq. by simpl.
  - done.
  - intros [Hr _]. apply andb_false_iff in H. lia.
Qed.

Abbreviation u8 := (uint 8).
Abbreviation u16 := (uint 16).
Abbreviation u32 := (uint 32).
Abbreviation u64 := (uint 64).

(** ** [usize] *)
Definition USIZE_MAX : Z := 2 ^ 64 - 1.

Definition checked_add (a b : Z) : option Z :=
  if a + b <=? USIZE_MAX then Some (a + b) else None.

Definition checked_mul (a b : Z) : option Z :=
  if a * b <=? USIZE_MAX then Some (a * b) else None.

Lemma checked_add_some a b c : checked_add a b = Some c <-> c = a + b /\ a + b <= USIZE_MAX.
Proof. unfold checked_add. destruct (Z.leb_spec (a + b) USIZE_MAX); naive_solver lia. Qed.

Lemma checked_add_ok a b : a + b <= USIZE_MAX -> checked_add a b = Some (a + b).
Proof. intros. by apply checked_add_some. Qed.

Lemma checked_mul_some a b c : checked_mul a b = Some c <-> c = a * b /\ a * b <= USIZE_MAX.
Proof. unfold checked_mul. destruct (Z.leb_spec (a * b) USIZE_MAX); naive_solver lia. Qed.

(** ** Slices

    [get_range l a b] is [l.get(a..b)]; [range l a b] is [l[a..b]] where the
    bounds are known to hold. *)
Definition range {A} (l : list A) (a b : Z) : list A :=
  take (Z.to_nat (b - a)) (drop (Z.to_nat a) l).

Definition get_range {A} (l : list A) (a b : Z) : option (list A) :=
  if (a <=? b) && (b <=? blen l) then Some (range l a b) else None.

Lemma blen_range {A} (l : list A) a b :
  0 <= a <= b -> b <= blen l -> blen (range l a b) = b - a.
Proof. unfold range, blen. rewrite length_take, length_drop. lia. Qed.

Lemma get_range_some {A} (l : list A) a b s :
  get_range l a b = Some s <-> a <= b <= blen l /\ s = range l a b.
Proof.
  unfold get_range.
  destruct (Z.leb_spec a b), (Z.leb_spec b (blen l)); simpl; naive_solver lia.
Qed.

Lemma range_app_mid {A} (p x q : list A) :
  range (p ++ x ++ q) (blen p) (blen p + blen x) = x.
Proof.
  unfold range, blen. replace (Z.to_nat _) with (length x) by lia.
  rewrite Nat2Z.id, drop_app_length, take_app_length. done.
Qed.

Lemma take_range {A} (l : list A) a b :
  0 <= a <= b ->
  take (Z.to_nat b) l = take (Z.to_nat a) l ++ range l a b.
Proof.
  intros H. unfold range.
  replace (Z.to_nat b) with (Z.to_nat a + Z.to_nat (b - a))%nat by lia.
  by rewrite take_take_drop.
Qed.

Lemma range_full {A} (l : list A) a : 0 <= a -> range l a (blen l) = drop (Z.to_nat a) l.
Proof.
  intros H. unfold range, blen. apply take_ge. rewrite length_drop. lia.
Qed.

Lemma get_range_at {A} (l p x q : list A) a b :
  l = p ++ x ++ q -> blen p = a -> a + blen x = b -> get_range l a b = Some x.
Proof.
  intros -> <- <-. apply get_range_some. rewrite !blen_app, range_app_mid.
  pose proof (blen_nonneg x). pose proof (blen_nonneg q). split; [lia|done].
Qed.

Lemma range_split {A} (l : list A) a b c :
  0 <= a <= b -> b <= c -> range l a c = range l a b ++ range l b c.
Proof.
  intros Hab Hbc. unfold range.
  replace (Z.to_nat (c - a)) with (Z.to_nat (b - a) + Z.to_nat (c - b))%nat by lia.
  rewrite <- take_take_drop, drop_drop.
  do 3 f_equal. lia.
Qed.

(** [&l[a..b]], [&l[a..]], [&l[..b]] and [l[i]]: out of bounds they panic. *)
Definition slice {E A} (l : list A) (a b : Z) : X E (list A) :=
  match get_range l a b with
  | Some s => Some (Ok s)
  | None => None
  end.
Definition slice_from {E A} (l : list A) (a : Z) : X E (list A) := slice l a (blen l).
Definition slice_to {E A} (l : list A) (b : Z) : X E (list A) := slice l 0 b.
Definition index {E A} (l : list A) (i : Z) : X E A :=
  match l !! Z.to_nat i with
  | Some x => Some (Ok x)
  | None => None
  end.

Lemma slice_ok {E A} (l : list A) a b s :
  @slice E A l a b = Some (Ok s) <-> a <= b <= blen l /\ s = range l a b.
Proof. unfold slice. rewrite <- get_range_some. destruct (get_range l a b); naive_solver. Qed.

Lemma slice_at {E A} (l p x q : list A) a b :
  l = p ++ x ++ q -> blen p = a -> a + blen x = b -> @slice E A l a b = Some (Ok x).
Proof. intros. unfold slice. by erewrite get_range_at. Qed.

Lemma slice_in {E A} (l : list A) a b :
  a <= b <= blen l -> @slice E A l a b = Some (Ok (range l a b)).
Proof. intros. by apply slice_ok. Qed.

(** [slice::chunks_exact]: consecutive pieces of [n] elements, what remains
    being left out.  The first argument bounds the number of pieces. *)
Fixpoint chunks_exact_fuel {A} (fuel : nat) (n : nat) (l : list A) : list (list A) :=
  match fuel with
  | O => []
  | S f =>
      if (length l <? n)%nat then [] else take n l :: chunks_exact_fuel f n (drop n l)
  end.
Definition chunks_exact {A} (n : Z) (l : list A) : list (list A) :=
  chunks_exact_fuel (length l) (Z.to_nat n) l.

Lemma chunks_exact_concat {A} fuel n (ls : list (list A)) :
  (0 < n)%nat -> Forall (fun x => length x = n) ls -> (length (concat ls) <= fuel)%nat ->
  chunks_exact_fuel fuel n (concat ls) = ls.
Proof.
  intros Hn. revert fuel. induction ls as [|x ls IH]; intros fuel Hall Hf; simpl in *.
  - destruct fuel; simpl; [done|]. destruct n; [lia|done].
  - apply Forall_cons_1 in Hall as [Hx Hall]. rewrite length_app in Hf.
    destruct fuel as [|fuel]; [lia|]. simpl. rewrite length_app.
    rewrite (proj2 (Nat.ltb_ge _ _)) by lia.
    rewrite <- Hx, take_app_length, drop_app_length, Hx, IH by (done || lia). done.
Qed.

Lemma concat_chunks_exact {A} fuel n k (l : list A) :
  (0 < n)%nat -> length l = (k * n)%nat -> (k <= fuel)%nat ->
  concat (chunks_exact_fuel fuel n l) = l /\
  Forall (fun x => length x = n) (chunks_exact_fuel fuel n l) /\
  length (chunks_exact_fuel fuel n l) = k.
Proof.
  intros Hn. revert k l. induction fuel as [|fuel IH]; intros k l Hl Hk; simpl.
  - assert (k = 0)%nat as -> by lia. destruct l; [done|simpl in Hl; lia].
  - destruct k as [|k].
    + destruct l; [|simpl in Hl; lia]. simpl. by destruct n; [lia|].
    + rewrite (proj2 (Nat.ltb_ge _ _)) by lia. simpl.
      destruct (IH k (drop n l)) as (H1 & H2 & H3); [rewrite length_drop; lia | lia|].
      rewrite H1, H3, take_drop. split_and!; [done| |done].
      constructor; [|done]. rewrite length_take. lia.
Qed.

(** ** Fixed-size arrays *)
Record array (n : Z) : Type := Array {
  abytes : bytes;
  array_ok : (blen abytes =? n) = true;
}.
Arguments Array {n} _ _.
Arguments abytes {n} _.

Lemma array_len {n} (a : array n) : blen (abytes a) = n.
Proof. destruct a as [l H]. simpl. lia. Qed.
#[export] Hint Rewrite @array_len : blen.

Lemma array_eq {n} (a b : array n) : abytes a = abytes b -> a = b.
Proof.
  destruct a as [x p], b as [y q]; simpl; intros ->.
  f_equal. apply Eqdep_dec.UIP_dec, bool_dec.
Qed.

#[export] Instance array_eq_dec n : EqDecision (array n).
Proof.
  refine (fun a b => cast_if (decide (abytes a = abytes b)));
    [by apply array_eq | congruence].
Defined.

(** [<[u8; N]>::try_from(slice)]. *)
Definition array_try (n : Z) (l : bytes) : option (array n) :=
  match blen l =? n as b return (blen l =? n) = b -> option (array n) with
  | true => fun H => Some (Array l H)
  | false => fun _ => None
  end eq_refl.

Lemma array_try_some n l a : array_try n l = Some a <-> abytes a = l.
Proof.
  unfold array_try. generalize (eq_refl (blen l =? n)).
  set (b := blen l =? n) at 2 3. destruct b; intros H; split.
  - by intros [= <-].
  - intros Ha. f_equal. apply array_eq. by simpl.
  - done.
  - intros <-. pose proof (array_len a). lia.
Qed.

Lemma array_try_abytes {n} (a : array n) : array_try n (abytes a) = Some a.
Proof. by apply array_try_some. Qed.

Lemma array_try_none n l : array_try n l = None <-> blen l <> n.
Proof.
  split.
  - intros H Hl. assert (Hb : (blen l =? n) = true) by lia.
    assert (E : array_try n l = Some (Array l Hb)) by by apply array_try_some.
    congruence.
  - intros H. destruct (array_try n l) as [a|] eqn:E; [|done].
    apply array_try_some in E. subst. by rewrite array_len in H.
Qed.

Lemma array_exists n l : blen l = n -> exists a : array n, abytes a = l.
Proof. intros H. assert (Hb : (blen l =? n) = true) by lia. by exists (Array l Hb). Qed.

(** An array filled with one byte, [[b; N]]. *)
Lemma array_fill_ok (n : positive) (b : byte) :
  (blen (replicate (Pos.to_nat n) b) =? Zpos n) = true.
Proof. unfold blen. rewrite length_replicate, positive_nat_Z. apply Z.eqb_refl. Qed.

Definition array_fill (n : positive) (b : byte) : array (Zpos n) :=
  Array (replicate (Pos.to_nat n) b) (array_fill_ok n b).

(** ** Integers on the wire *)
Definition to_be {w} (n : nat) (u : uint w) : bytes := be_bytes n (uval u).

Lemma be_val_uint_ok (n : nat) (l : bytes) :
  blen l = Z.of_nat n ->
  (0 <=? be_val l) && (be_val l <? 2 ^ (8 * Z.of_nat n)) = true.
Proof.
  intros H. pose proof (be_val_range l) as Hr. rewrite H in Hr.
  rewrite Z.pow_mul_r by lia. change (2 ^ 8) with 256. lia.
Qed.

(** [uN::from_be_bytes] on an array of the right width. *)
Definition from_be (n : nat) (a : array (Z.of_nat n)) : uint (8 * Z.of_nat n) :=
  UInt (be_val (abytes a)) (be_val_uint_ok n (abytes a) (array_len a)).

Lemma from_be_to_be n (a : array (Z.of_nat n)) (u : uint (8 * Z.of_nat n)) :
  abytes a = to_be n u -> from_be n a = u.
Proof.
  intros H. apply uint_eq. simpl. rewrite H. unfold to_be.
  rewrite be_val_be_bytes. apply Z.mod_small.
  pose proof (uint_range u) as Hr. rewrite Z.pow_mul_r in Hr by lia. done.
Qed.

Lemma to_be_from_be n (a : array (Z.of_nat n)) : to_be n (from_be n a) = abytes a.
Proof.
  unfold to_be, from_be; simpl.
  rewrite <- (be_bytes_be_val (abytes a)) at 2. f_equal.
  pose proof (array_len a) as H. unfold blen in H. lia.
Qed.

Lemma blen_to_be {w} n (u : uint w) : blen (to_be n u) = Z.of_nat n.
Proof. apply blen_be_bytes. Qed.
#[export] Hint Rewrite @blen_to_be : blen.

#[global] Arguments to_be {w} n u : simpl never.
#[global] Arguments be_bytes n z : simpl never.
