(* ===== verification/BTree.v ===== *)
(** * Ordered maps and sets

    [BTreeMap] and [BTreeSet] of the standard library as association lists in
    strictly ascending key order, so that iteration visits the entries in the
    order the program does.  The order of a key type is an instance of [Ord],
    its laws an instance of [TotalOrder]; [[u8; N]] has the lexicographic order
    its derived [Ord] has. *)

From Stdlib Require Import ZArith Lia Sorted.
From stdpp Require Import base list option numbers decidable.
From S2P Require Import Prelude Bytes.

Class Ord (K : Type) : Type := cmp : K -> K -> comparison.

Class TotalOrder (K : Type) `{Ord K} : Prop := {
  cmp_eq : forall a b, cmp a b = Eq <-> a = b;
  cmp_opp : forall a b, cmp b a = CompOpp (cmp a b);
  cmp_trans : forall a b c, cmp a b = Lt -> cmp b c = Lt -> cmp a c = Lt;
}.

Section lemmas.
Context `{TotalOrder K}.

Lemma cmp_refl a : cmp a a = Eq.
Proof. by apply cmp_eq. Qed.

Lemma cmp_gt_lt a b : cmp a b = Gt <-> cmp b a = Lt.
Proof. rewrite (cmp_opp a b). destruct (cmp a b); simpl; naive_solver. Qed.

Lemma cmp_irrefl a : cmp a a <> Lt.
Proof. by rewrite cmp_refl. Qed.

Lemma cmp_lt_ne a b : cmp a b = Lt -> a <> b.
Proof. intros Hl ->. by apply cmp_irrefl in Hl. Qed.
End lemmas.

(** ** Lexicographic order of byte strings *)
#[export] Instance byte_ord : Ord byte := fun a b => Z.compare (Z_of_byte a) (Z_of_byte b).

#[export] Instance byte_order : TotalOrder byte.
Proof.
  split; unfold cmp, byte_ord.
  - intros a b. rewrite Z.compare_eq_iff. split; [apply Z_of_byte_inj | congruence].
  - intros a b. apply Z.compare_antisym.
  - intros a b c. rewrite !Z.compare_lt_iff. lia.
Qed.

Fixpoint lex_cmp {A} `{Ord A} (k l : list A) : comparison :=
  match k, l with
  | [], [] => Eq
  | [], _ :: _ => Lt
  | _ :: _, [] => Gt
  | a :: k', b :: l' =>
      match cmp a b with
      | Eq => lex_cmp k' l'
      | c => c
      end
  end.

#[export] Instance list_ord {A} `{Ord A} : Ord (list A) := lex_cmp.

#[export] Instance list_order {A} `{TotalOrder A} : TotalOrder (list A).
Proof.
  split; unfold cmp, list_ord.
  - induction a as [|x a IH]; intros [|y b]; simpl; try done.
    destruct (cmp x y) eqn:E.
    + apply cmp_eq in E as ->. rewrite IH. naive_solver.
    + split; [done|]. intros [= -> ->]. by rewrite cmp_refl in E.
    + split; [done|]. intros [= -> ->]. by rewrite cmp_refl in E.
  - induction a as [|x a IH]; intros [|y b]; simpl; try done.
    rewrite (cmp_opp x y). destruct (cmp x y); simpl; auto.
  - induction a as [|x a IH]; intros [|y b] [|z c]; simpl; try done.
    destruct (cmp x y) eqn:E1; destruct (cmp y z) eqn:E2; try done; intros H1 H2.
    + apply cmp_eq in E1 as ->. apply cmp_eq in E2 as ->. rewrite cmp_refl. eauto.
    + apply cmp_eq in E1 as ->. by rewrite E2.
    + apply cmp_eq in E2 as ->. by rewrite E1.
    + by rewrite (cmp_trans x y z).
Qed.

#[export] Instance array_ord n : Ord (array n) := fun a b => cmp (abytes a) (abytes b).

#[export] Instance array_order n : TotalOrder (array n).
Proof.
  split; unfold cmp, array_ord.
  - intros a b. rewrite cmp_eq. split; [apply array_eq | congruence].
  - intros a b. apply (cmp_opp (abytes a)).
  - intros a b c. apply cmp_trans.
Qed.

(** ** [BTreeMap] *)
Definition BTreeMap (K V : Type) : Type := list (K * V).

Section btree.
Context {K V : Type} `{EqDecision K, TotalOrder K}.
Implicit Types (m : BTreeMap K V) (k : K) (v : V).

Definition bt_empty : BTreeMap K V := [].

Fixpoint bt_get (k : K) (m : BTreeMap K V) : option V :=
  match m with
  | [] => None
  | (k', v') :: m' =>
      match cmp k k' with
      | Lt => None
      | Eq => Some v'
      | Gt => bt_get k m'
      end
  end.

Fixpoint bt_put (k : K) (v : V) (m : BTreeMap K V) : BTreeMap K V :=
  match m with
  | [] => [(k, v)]
  | (k', v') :: m' =>
      match cmp k k' with
      | Lt => (k, v) :: (k', v') :: m'
      | Eq => (k, v) :: m'
      | Gt => (k', v') :: bt_put k v m'
      end
  end.

Fixpoint bt_del (k : K) (m : BTreeMap K V) : BTreeMap K V :=
  match m with
  | [] => []
  | (k', v') :: m' =>
      match cmp k k' with
      | Lt => (k', v') :: m'
      | Eq => m'
      | Gt => (k', v') :: bt_del k m'
      end
  end.

(** [insert] and [remove] also return the value that was stored. *)
Definition bt_insert k v m : BTreeMap K V * option V := (bt_put k v m, bt_get k m).
Definition bt_remove k m : BTreeMap K V * option V := (bt_del k m, bt_get k m).

Definition bt_keys m : list K := fst <$> m.

(** Keys are strictly ascending. *)
Fixpoint bt_wf (m : BTreeMap K V) : Prop :=
  match m with
  | [] => True
  | (k, _) :: m' => Forall (fun p => cmp k (fst p) = Lt) m' /\ bt_wf m'
  end.

Lemma bt_get_none_lt k m :
  Forall (fun p => cmp k (fst p) = Lt) m -> bt_get k m = None.
Proof. destruct m as [|[k' v'] m]; [done|]. intros [Hk _]%Forall_cons_1. simpl in *. by rewrite Hk. Qed.

Lemma bt_get_put k j v m :
  bt_wf m -> bt_get j (bt_put k v m) = if decide (j = k) then Some v else bt_get j m.
Proof.
  induction m as [|[k' v'] m IH]; simpl; intros Hwf.
  - case_decide as E; [subst; by rewrite cmp_refl|].
    destruct (cmp j k) eqn:C; [|done|done]. by apply cmp_eq in C.
  - destruct Hwf as [Hall Hwf]. destruct (cmp k k') eqn:C; simpl.
    + apply cmp_eq in C as ->. case_decide as E.
      * subst. by rewrite cmp_refl.
      * destruct (cmp j k') eqn:C; [|done|done]. by apply cmp_eq in C.
    + case_decide as E.
      * subst. by rewrite cmp_refl.
      * destruct (cmp j k) eqn:C'.
        -- by apply cmp_eq in C'.
        -- by rewrite (cmp_trans j k k').
        -- done.
    + rewrite IH by done. case_decide as E; [|done]. subst. by rewrite C.
Qed.

Lemma bt_put_forall_lt j k v m :
  cmp j k = Lt -> Forall (fun p => cmp j (fst p) = Lt) m ->
  Forall (fun p => cmp j (fst p) = Lt) (bt_put k v m).
Proof.
  intros Hj. induction m as [|[k' v'] m IH]; simpl; intros Hall.
  - by constructor.
  - apply Forall_cons_1 in Hall as [Hk Hall].
    destruct (cmp k k'); repeat constructor; auto.
Qed.

Lemma bt_put_wf k v m : bt_wf m -> bt_wf (bt_put k v m).
Proof.
  induction m as [|[k' v'] m IH]; simpl; [by repeat constructor|].
  intros [Hall Hwf]. destruct (cmp k k') eqn:C; simpl.
  - apply cmp_eq in C as ->. done.
  - split; [|done]. constructor; [done|].
    eapply Forall_impl; [|exact Hall]. intros [j w] Hj. simpl in *. by eapply cmp_trans.
  - split; [|by apply IH]. apply bt_put_forall_lt; [|done]. by apply cmp_gt_lt.
Qed.

Lemma bt_get_del k j m :
  bt_wf m -> bt_get j (bt_del k m) = if decide (j = k) then None else bt_get j m.
Proof.
  induction m as [|[k' v'] m IH]; simpl; intros Hwf; [by case_decide|].
  destruct Hwf as [Hall Hwf]. destruct (cmp k k') eqn:C; simpl.
  - apply cmp_eq in C as ->. case_decide as E.
    + subst. by apply bt_get_none_lt.
    + destruct (cmp j k') eqn:C; [by apply cmp_eq in C| |done].
      apply bt_get_none_lt. eapply Forall_impl; [|exact Hall].
      intros [i w] Hi. simpl in *. by eapply cmp_trans.
  - case_decide as E; [subst; by rewrite C|done].
  - rewrite IH by done. case_decide as E; [|done]. subst. by rewrite C.
Qed.

Lemma bt_del_wf k m : bt_wf m -> bt_wf (bt_del k m).
Proof.
  induction m as [|[k' v'] m IH]; simpl; [done|]. intros [Hall Hwf].
  destruct (cmp k k') eqn:C; simpl; [done|done|]. split; [|by apply IH].
  clear -Hall. induction m as [|[k2 v2] m IH]; simpl; [done|].
  apply Forall_cons_1 in Hall as [Hk Hall].
  destruct (cmp k k2); [done|by constructor|]. constructor; [done|]. by apply IH.
Qed.

Lemma bt_get_in k v m : bt_wf m -> bt_get k m = Some v <-> (k, v) ∈ m.
Proof.
  induction m as [|[k' v'] m IH]; simpl; intros Hwf; [by rewrite elem_of_nil|].
  destruct Hwf as [Hall Hwf]. rewrite elem_of_cons. destruct (cmp k k') eqn:C.
  - apply cmp_eq in C as ->. split; [naive_solver|]. intros [[= ->]|Hin]; [done|].
    rewrite list.Forall_forall in Hall. by apply Hall, cmp_irrefl in Hin.
  - split; [done|]. intros [[= -> ->]|Hin]; [by apply cmp_irrefl in C|].
    rewrite list.Forall_forall in Hall. apply Hall in Hin. simpl in Hin.
    exfalso. by eapply (cmp_irrefl k), cmp_trans.
  - rewrite IH by done. split; [by right|]. intros [[= -> ->]|Hin]; [|done].
    by rewrite cmp_refl in C.
Qed.

Lemma bt_keys_spec k m : bt_wf m -> k ∈ bt_keys m <-> is_Some (bt_get k m).
Proof.
  intros Hwf. unfold bt_keys. rewrite list_elem_of_fmap. split.
  - intros ([k' v] & -> & Hin). exists v. by apply bt_get_in.
  - intros [v Hv]. exists (k, v). split; [done|]. by apply bt_get_in.
Qed.

Lemma bt_keys_sorted m : bt_wf m -> StronglySorted (fun a b => cmp a b = Lt) (bt_keys m).
Proof.
  induction m as [|[k v] m IH]; simpl; intros Hwf; constructor; [naive_solver|].
  destruct Hwf as [Hall _]. by apply Forall_fmap.
Qed.

Lemma bt_keys_nodup m : bt_wf m -> NoDup (bt_keys m).
Proof.
  induction m as [|[k v] m IH]; simpl; intros Hwf; constructor; [|naive_solver].
  destruct Hwf as [Hall _]. intros ([k' v'] & -> & Hin)%list_elem_of_fmap.
  rewrite list.Forall_forall in Hall. by apply Hall, cmp_irrefl in Hin.
Qed.
End btree.

(** ** [BTreeSet] *)
Definition BTreeSet (K : Type) : Type := BTreeMap K unit.

(** [insert] returns whether the value was newly inserted. *)
Definition bs_insert `{Ord K} (k : K) (s : BTreeSet K) : BTreeSet K * bool :=
  match bt_get k s with
  | Some _ => (s, false)
  | None => (bt_put k tt s, true)
  end.

Lemma bs_insert_spec `{EqDecision K, TotalOrder K} (k : K) (s : BTreeSet K) :
  bt_wf s ->
  bt_wf (fst (bs_insert k s)) /\
  (snd (bs_insert k s) = true <-> k ∉ bt_keys s) /\
  (forall x, x ∈ bt_keys (fst (bs_insert k s)) <-> x = k \/ x ∈ bt_keys s).
Proof.
  intros Hwf. pose proof (bt_keys_spec k s Hwf) as Hk. unfold bs_insert.
  destruct (bt_get k s) as [[]|] eqn:Hg; simpl.
  - split_and!; [done|naive_solver|]. intros x. split; [tauto|]. intros [->|]; [|done].
    apply Hk. eauto.
  - split_and!; [by apply bt_put_wf| |].
    + rewrite Hk. split; [|done]. intros _ [? ?]. done.
    + intros x. rewrite !bt_keys_spec, bt_get_put by auto using bt_put_wf.
      case_decide; [|naive_solver]. split; [by left | by eexists].
Qed.
