(* ===== verification/Types.v ===== *)
(** * Identifiers, constants and errors of the portable core

    [crates/libfcp-core/src/types.rs] and [error.rs], and the interface of the
    primitives the core takes from other crates ([blake3], [ed25519-dalek],
    [ml-dsa]). *)

From Stdlib Require Import ZArith Lia String.
From stdpp Require Import base list option numbers decidable.
From S2P Require Import Prelude Bytes BTree.

(** ** Errors *)
Inductive Error : Type :=
| TooLarge
| FieldTooLarge
| Truncated
| TrailingBytes
| BadMarker
| UnsupportedVersion
| UnknownKind
| BadSenderKey
| BadSignature
| NonCanonical
| WrongFederation
| WrongAttempt
| WrongSender
| WrongRecipient
| SameEndpoint
| WrongLocalSigner
| InvalidState
| Glare
| WrongCandidateParent
| BadConfigurationMarker
| UnsupportedConfigurationVersion
| BadConfigurationAuthority
| WrongConfigurationAuthority
| BadConfigurationSignature
| TooManyFederationMembers
| DuplicateFederationMember
| BadPostQuantumKey
| BadPostQuantumSignatureEncoding
| BadPostQuantumSignature.

#[export] Instance Error_eq_dec : EqDecision Error.
Proof. solve_decision. Defined.

(** ** Constants *)
Definition FCP_WIRE_MARKER : bytes := [x46; x43; x50].
Definition PROTOCOL_ID : string := "org.nixort.cfr.fcp".
Definition FCP_WIRE_VERSION : byte := x01.
Definition MAX_DESCRIPTION_BYTES : Z := 96 * 1024.
Definition MAX_CANDIDATE_BYTES : Z := 4 * 1024.
Definition MAX_CFR_CONTROL_BYTES : Z := 4 * 1024 * 1024.
Definition MAX_ENVELOPE_BYTES : Z := MAX_CFR_CONTROL_BYTES + 8 * 1024.
Definition MAX_SEEN_ENVELOPES : Z := 1024.

(** FIPS 204 widths, [identity.rs]. *)
Definition ML_DSA_65_PUBLIC_KEY_BYTES : Z := 1952.
Definition ML_DSA_65_SIGNATURE_BYTES : Z := 3309.

Abbreviation mldsa_public := (array 1952).
Abbreviation mldsa_signature := (array 3309).

(** ** Identifiers *)
Record FederationId : Type := FederationId_from_bytes { federation_as_bytes : array 32 }.
Record AttemptId : Type := AttemptId_from_bytes { attempt_as_bytes : array 16 }.
Record EndpointKey : Type := EndpointKey_from_bytes { endpoint_key_as_bytes : array 32 }.
Record WebRtcBinding : Type := WebRtcBinding_from_bytes { binding_as_bytes : array 32 }.
Record EnvelopeId : Type := EnvelopeId_from_bytes { envelope_id_as_bytes : array 32 }.
Record CloseCode : Type := CloseCode_from_u16 { close_code_as_u16 : u16 }.

#[export] Instance FederationId_eq_dec : EqDecision FederationId.
Proof. solve_decision. Defined.
#[export] Instance AttemptId_eq_dec : EqDecision AttemptId.
Proof. solve_decision. Defined.
#[export] Instance EndpointKey_eq_dec : EqDecision EndpointKey.
Proof. solve_decision. Defined.
#[export] Instance WebRtcBinding_eq_dec : EqDecision WebRtcBinding.
Proof. solve_decision. Defined.
#[export] Instance EnvelopeId_eq_dec : EqDecision EnvelopeId.
Proof. solve_decision. Defined.
#[export] Instance CloseCode_eq_dec : EqDecision CloseCode.
Proof. solve_decision. Defined.

Definition CloseCode_NORMAL : CloseCode := CloseCode_from_u16 (@UInt 16 0 eq_refl).
Definition CloseCode_RESTART : CloseCode := CloseCode_from_u16 (@UInt 16 1 eq_refl).
Definition CloseCode_PROTOCOL_ERROR : CloseCode := CloseCode_from_u16 (@UInt 16 2 eq_refl).

(** ** Primitives of other crates

    The operations of [ed25519-dalek], [ml-dsa] and [blake3] the core calls. *)
Class Crypto : Type := {
  (** [VerifyingKey::from_bytes] succeeds. *)
  ed25519_key_ok : array 32 -> bool;
  (** [VerifyingKey::verify_strict]. *)
  ed25519_verify_strict : array 32 -> bytes -> array 64 -> bool;
  (** [EncodedVerifyingKey::<MlDsa65>::try_from] succeeds. *)
  mldsa_key_ok : mldsa_public -> bool;
  (** [Signature::<MlDsa65>::try_from] succeeds. *)
  mldsa_signature_ok : mldsa_signature -> bool;
  (** [VerifyingKey::verify] of [ml-dsa]. *)
  mldsa_verify : mldsa_public -> bytes -> mldsa_signature -> bool;
  (** [blake3::hash]; a [Hasher] fed piecewise hashes the concatenation. *)
  blake3_hash : bytes -> array 32;
  Ed25519SigningKey : Type;
  ed25519_verifying_key : Ed25519SigningKey -> array 32;
  ed25519_sign : Ed25519SigningKey -> bytes -> array 64;
  MlDsaSigningKey : Type;
  mldsa_verifying_key : MlDsaSigningKey -> mldsa_public;
  mldsa_sign : MlDsaSigningKey -> bytes -> mldsa_signature;
}.

(** What the signature crates document: a public key derived from a signing
    key is well formed, an emitted signature is canonically encoded, and it
    verifies under that public key over the message it was made for. *)
Class CryptoLaws `(C : Crypto) : Prop := {
  ed25519_key_derived : forall sk, ed25519_key_ok (ed25519_verifying_key sk) = true;
  ed25519_sign_verifies : forall sk m,
    ed25519_verify_strict (ed25519_verifying_key sk) m (ed25519_sign sk m) = true;
  mldsa_key_derived : forall sk, mldsa_key_ok (mldsa_verifying_key sk) = true;
  mldsa_sign_encoded : forall sk m, mldsa_signature_ok (mldsa_sign sk m) = true;
  mldsa_sign_verifies : forall sk m,
    mldsa_verify (mldsa_verifying_key sk) m (mldsa_sign sk m) = true;
}.

(** ** Description bindings *)
Module WebRtcBinding.

(** The domain tag [b"org.nixort.cfr.fcp/webrtc-binding"]. *)
Definition tag : bytes :=
  list_byte_of_string "org.nixort.cfr.fcp/webrtc-binding".

(** The bytes the hasher is fed with, in order. *)
Definition transcript (description dtls_fingerprint : bytes) : bytes :=
  tag
  ++ be_bytes 8 (blen description) ++ description
  ++ be_bytes 8 (blen dtls_fingerprint) ++ dtls_fingerprint.

Definition derive `{Crypto} (description dtls_fingerprint : bytes) : WebRtcBinding :=
  WebRtcBinding_from_bytes (blake3_hash (transcript description dtls_fingerprint)).

Lemma be8_inj a b :
  0 <= a < 2 ^ 64 -> 0 <= b < 2 ^ 64 -> be_bytes 8 a = be_bytes 8 b -> a = b.
Proof.
  intros Ha Hb H. apply (f_equal be_val) in H. rewrite !be_val_be_bytes in H.
  rewrite !Z.mod_small in H by done. done.
Qed.

Lemma length_prefix_inj d d' s s' :
  blen d < 2 ^ 64 -> blen d' < 2 ^ 64 ->
  be_bytes 8 (blen d) ++ d ++ s = be_bytes 8 (blen d') ++ d' ++ s' -> d = d' /\ s = s'.
Proof.
  intros Hd Hd' H.
  apply app_inj_1 in H as [Hl H]; [|by rewrite !length_be_bytes].
  apply be8_inj in Hl; [|split; [apply blen_nonneg|done]..].
  apply app_inj_1 in H as [-> ->]; [done|]. unfold blen in Hl. lia.
Qed.

(** the transcript hashed into a WebRTC binding is unambiguous: two
    transcripts of descriptions and fingerprints whose lengths fit the 64-bit
    length prefix are equal only when both the description and the fingerprint
    are, so a binding digest commits to the exact pair. *)
Theorem transcript_injective d f d' f' :
  blen d < 2 ^ 64 -> blen f < 2 ^ 64 -> blen d' < 2 ^ 64 -> blen f' < 2 ^ 64 ->
  transcript d f = transcript d' f' -> d = d' /\ f = f'.
Proof.
  unfold transcript. intros Hd Hf Hd' Hf' H%app_inv_head.
  apply length_prefix_inj in H as [-> H]; [|done..].
  split; [done|]. apply (length_prefix_inj f f' [] []); [done..|].
  by rewrite !app_nil_r.
Qed.

Lemma transcript_injective_witness : [x01; x02] = [x01; x02] /\ [x03] = [x03].
Proof. by apply (transcript_injective [x01; x02] [x03] [x01; x02] [x03]). Defined.

End WebRtcBinding.
