(* ===== verification/Identity.v ===== *)
(** * Endpoint identities and dual signatures

    [crates/libfcp-core/src/identity.rs]: the identity pair, verification under
    both algorithms, the [EndpointSigner] trait and the signing identity that
    implements it. *)

From Stdlib Require Import ZArith Lia.
From stdpp Require Import base list option numbers decidable.
From S2P Require Import Prelude Bytes BTree Types.

Record EndpointIdentity : Type := EndpointIdentity_new {
  classical : EndpointKey;
  post_quantum : mldsa_public;
}.

#[export] Instance EndpointIdentity_eq_dec : EqDecision EndpointIdentity.
Proof. solve_decision. Defined.

(** The derived order compares the fields in declaration order. *)
Definition identity_key (i : EndpointIdentity) : list bytes :=
  [abytes (endpoint_key_as_bytes (classical i)); abytes (post_quantum i)].

#[export] Instance EndpointIdentity_ord : Ord EndpointIdentity :=
  fun a b => cmp (identity_key a) (identity_key b).

Lemma identity_key_inj a b : identity_key a = identity_key b -> a = b.
Proof.
  destruct a as [[a] p], b as [[b] q]. unfold identity_key. simpl.
  intros [= ->%array_eq ->%array_eq]. done.
Qed.

#[export] Instance EndpointIdentity_order : TotalOrder EndpointIdentity.
Proof.
  split; unfold cmp, EndpointIdentity_ord.
  - intros a b. rewrite cmp_eq. split; [apply identity_key_inj | congruence].
  - intros a b. apply (cmp_opp (identity_key a)).
  - intros a b c. apply cmp_trans.
Qed.

(** The identity as it is laid out on every wire format: both keys in order. *)
Definition identity_bytes (i : EndpointIdentity) : bytes :=
  abytes (endpoint_key_as_bytes (classical i)) ++ abytes (post_quantum i).

Lemma blen_identity_bytes i : blen (identity_bytes i) = 1984.
Proof. unfold identity_bytes. by autorewrite with blen. Qed.
#[export] Hint Rewrite blen_identity_bytes : blen.

Section verification.
Context `{Crypto}.

Definition verify_classical (self : EndpointIdentity) (message : bytes)
    (signature : array 64) : result Error unit :=
  let key := endpoint_key_as_bytes (classical self) in
  if ed25519_key_ok key then
    if ed25519_verify_strict key message signature then Ok tt else Err BadSignature
  else Err BadSenderKey.

Definition verify_post_quantum (self : EndpointIdentity) (message : bytes)
    (signature : mldsa_signature) : result Error unit :=
  if mldsa_key_ok (post_quantum self) then
    if mldsa_signature_ok signature then
      if mldsa_verify (post_quantum self) message signature then Ok tt
      else Err BadPostQuantumSignature
    else Err BadPostQuantumSignatureEncoding
  else Err BadPostQuantumKey.

(** Both mandatory signatures over one transcript, classical first. *)
Definition dual_verify (self : EndpointIdentity) (message : bytes)
    (classical_signature : array 64) (post_quantum_signature : mldsa_signature) :
    result Error unit :=
  let? _ := verify_classical self message classical_signature in
  verify_post_quantum self message post_quantum_signature.

Lemma verify_classical_ok i m s :
  verify_classical i m s = Ok tt <->
  ed25519_key_ok (endpoint_key_as_bytes (classical i)) = true /\
  ed25519_verify_strict (endpoint_key_as_bytes (classical i)) m s = true.
Proof. unfold verify_classical. repeat case_match; naive_solver. Qed.

Lemma verify_post_quantum_ok i m s :
  verify_post_quantum i m s = Ok tt <->
  mldsa_key_ok (post_quantum i) = true /\ mldsa_signature_ok s = true /\
  mldsa_verify (post_quantum i) m s = true.
Proof. unfold verify_post_quantum. repeat case_match; naive_solver. Qed.

Lemma dual_verify_ok i m cs ps :
  dual_verify i m cs ps = Ok tt <->
  verify_classical i m cs = Ok tt /\ verify_post_quantum i m ps = Ok tt.
Proof.
  unfold dual_verify. rewrite res_bind_ok. split.
  - intros ([] & H1 & H2). done.
  - intros [H1 H2]. eauto.
Qed.
End verification.

(** ** Signers *)
Class EndpointSigner (S : Type) : Type := {
  endpoint : S -> EndpointIdentity;
  sign_classical : S -> bytes -> array 64;
  sign_post_quantum : S -> bytes -> mldsa_signature;
}.

(** What an endpoint that signs owes its peers: both signatures it emits
    verify under the identity it announces. *)
Class LawfulSigner `{Crypto} (S : Type) `{EndpointSigner S} : Prop :=
  signer_verifies : forall (s : S) (m : bytes),
    dual_verify (endpoint s) m (sign_classical s m) (sign_post_quantum s m) = Ok tt.

Record SigningIdentity `{Crypto} : Type := SigningIdentity_new {
  signing_classical : Ed25519SigningKey;
  signing_post_quantum : MlDsaSigningKey;
}.

Definition SigningIdentity_endpoint `{Crypto} (self : SigningIdentity) : EndpointIdentity :=
  EndpointIdentity_new
    (EndpointKey_from_bytes (ed25519_verifying_key (signing_classical self)))
    (mldsa_verifying_key (signing_post_quantum self)).

#[export] Instance SigningIdentity_signer `{Crypto} : EndpointSigner SigningIdentity := {
  endpoint := SigningIdentity_endpoint;
  sign_classical self message := ed25519_sign (signing_classical self) message;
  sign_post_quantum self message := mldsa_sign (signing_post_quantum self) message;
}.

#[export] Instance SigningIdentity_lawful `{CryptoLaws} : LawfulSigner SigningIdentity.
Proof.
  intros s m. apply dual_verify_ok. split.
  - apply verify_classical_ok. simpl. split; [apply ed25519_key_derived | apply ed25519_sign_verifies].
  - apply verify_post_quantum_ok. simpl.
    split_and!; [apply mldsa_key_derived | apply mldsa_sign_encoded | apply mldsa_sign_verifies].
Qed.
