(* ===== verification/Sample.v ===== *)
(** * A concrete instance of the primitives

    A small executable instance of the interface [Crypto]: keyed checksums in
    place of the signature schemes and of BLAKE3.  It satisfies [CryptoLaws],
    so the hypotheses of the theorems that rely on those laws can hold, and it
    lets the operations of the model run on concrete inputs.  It says nothing
    about the security of the real primitives. *)

From Stdlib Require Import ZArith Lia.
From stdpp Require Import base list option numbers decidable.
From S2P Require Import Prelude Bytes BTree Types Identity.

Module Sample.

(** The sum of the bytes of a message. *)
Definition checksum (seed : Z) (l : bytes) : Z :=
  fold_left (fun h b => h + Z_of_byte b) l seed.

Definition key_seed {n} (k : array n) : Z := checksum 0 (take 32 (abytes k)).

(** The 8 bytes of a checksum followed by [k] zero bytes. *)
Lemma padded_ok (k : nat) z :
  (blen (be_bytes 8 z ++ replicate k x00) =? 8 + Z.of_nat k) = true.
Proof. autorewrite with blen. unfold blen. rewrite length_replicate. apply Z.eqb_refl. Qed.

Definition padded (k : nat) (z : Z) : array (8 + Z.of_nat k) :=
  Array (be_bytes 8 z ++ replicate k x00) (padded_ok k z).

Definition crypto : Crypto := {|
  ed25519_key_ok _ := true;
  ed25519_verify_strict k m s := bool_decide (s = padded 56 (checksum (key_seed k) m));
  mldsa_key_ok _ := true;
  mldsa_signature_ok _ := true;
  mldsa_verify k m s := bool_decide (s = padded 3301 (checksum (key_seed k) m));
  blake3_hash m := padded 24 (checksum 0 m);
  Ed25519SigningKey := array 32;
  ed25519_verifying_key k := k;
  ed25519_sign k m := padded 56 (checksum (key_seed k) m);
  MlDsaSigningKey := mldsa_public;
  mldsa_verifying_key k := k;
  mldsa_sign k m := padded 3301 (checksum (key_seed k) m);
|}.

#[export] Instance crypto_laws : CryptoLaws crypto.
Proof. split; intros; simpl; try done; by apply bool_decide_eq_true. Qed.

(** Endpoints and identifiers, one for each byte. *)
Definition signer (b : byte) : @SigningIdentity crypto :=
  @SigningIdentity_new crypto (array_fill 32 b) (array_fill 1952 b).

Definition identity (b : byte) : EndpointIdentity :=
  EndpointIdentity_new (EndpointKey_from_bytes (array_fill 32 b)) (array_fill 1952 b).

Definition federation (b : byte) : FederationId := FederationId_from_bytes (array_fill 32 b).
Definition attempt (b : byte) : AttemptId := AttemptId_from_bytes (array_fill 16 b).
Definition envelope_id (b : byte) : EnvelopeId := EnvelopeId_from_bytes (array_fill 32 b).
Definition binding (b : byte) : WebRtcBinding := WebRtcBinding_from_bytes (array_fill 32 b).

Lemma identity_signer b : @endpoint _ (@SigningIdentity_signer crypto) (signer b) = identity b.
Proof. done. Qed.

Lemma identity_inj a b : identity a = identity b -> a = b.
Proof.
  intros H. exact (f_equal (fun i => hd x00 (abytes (endpoint_key_as_bytes (classical i)))) H).
Qed.

End Sample.
