(* ===== verification/Wire.v ===== *)
(** * Canonical envelopes

    [crates/libfcp-core/src/envelope.rs]: the bounded reader and writer, the
    envelope kinds and bodies, signing, verification and the wire grammar.  The
    reader and the writer are state monads over the borrowed input with its
    offset and over the bytes written so far. *)

From Stdlib Require Import ZArith Lia.
From stdpp Require Import base list option numbers decidable.
From S2P Require Import Prelude Bytes BTree Types Identity.

Definition U32_MAX : Z := 2 ^ 32 - 1.

Definition validate_len (length maximum : Z) : result Error unit :=
  if (maximum <? length) || (U32_MAX <? length) then Err FieldTooLarge else Ok tt.

(** ** The writer *)
Module Writer.

Definition t : Type := bytes.
Definition W (A : Type) : Type := M t Error A.

Definition fixed (value : bytes) : W unit := modify (fun w => w ++ value).
Definition u8 (value : byte) : W unit := modify (fun w => w ++ [value]).
Definition u16 (value : uint 16) : W unit := fixed (to_be 2 value).
Definition u32 (value : uint 32) : W unit := fixed (to_be 4 value).
Definition bytes (value : bytes) : W unit :=
  do_ lift (validate_len (blen value) MAX_CFR_CONTROL_BYTES);
  do length <- lift (ok_or (uint_try 32 (blen value)) FieldTooLarge);
  do_ u32 length;
  fixed value.
Definition finish : W Bytes.bytes := get.

End Writer.

(** ** The reader *)
Module Reader.

Record t : Type := Reader { wire : bytes; offset : Z }.
Definition R (A : Type) : Type := M t Error A.

Definition new (wire : bytes) : t := Reader wire 0.
Definition set_offset (o : Z) (self : t) : t := Reader (wire self) o.

(** The bytes between the offset and [end_], the offset then moving to [end_]. *)
Definition advance (length : Z) : R bytes :=
  do self <- get;
  do end_ <- lift (ok_or (checked_add (offset self) length) Truncated);
  do slice <- lift (ok_or (get_range (wire self) (offset self) end_) Truncated);
  do_ modify (set_offset end_);
  ret slice.

Definition fixed (N : Z) : R (array N) :=
  do slice <- advance N;
  lift (ok_or (array_try N slice) Truncated).

(** [self.fixed::<1>()?[0]]; an [array 1] has a first element. *)
Definition u8 : R byte :=
  do a <- fixed 1;
  ret (hd x00 (abytes a)).
Definition u16 : R (uint 16) :=
  do a <- fixed 2;
  ret (from_be 2 a).
Definition u32 : R (uint 32) :=
  do a <- fixed 4;
  ret (from_be 4 a).

Definition usize_try (z : Z) : option Z := if z <=? USIZE_MAX then Some z else None.

Definition bytes_ref (maximum : Z) : R bytes :=
  do n <- u32;
  do length <- lift (ok_or (usize_try (uval n)) FieldTooLarge);
  do_ lift (validate_len length maximum);
  advance length.
Definition bytes (maximum : Z) : R bytes := bytes_ref maximum.

Definition finish : R unit :=
  do self <- get;
  if decide (offset self = blen (wire self)) then ret tt else fail TrailingBytes.

End Reader.

(** ** Kinds and bodies *)
Inductive Kind : Type := KOffer | KAnswer | KCandidate | KClose | KCfrControl.

#[export] Instance Kind_eq_dec : EqDecision Kind.
Proof. solve_decision. Defined.

Definition Kind_as_u8 (k : Kind) : byte :=
  match k with
  | KOffer => x01
  | KAnswer => x02
  | KCandidate => x03
  | KClose => x04
  | KCfrControl => x05
  end.

Definition Kind_try_from (value : byte) : result Error Kind :=
  match value with
  | x01 => Ok KOffer
  | x02 => Ok KAnswer
  | x03 => Ok KCandidate
  | x04 => Ok KClose
  | x05 => Ok KCfrControl
  | _ => Err UnknownKind
  end.

Inductive Body : Type :=
| BOffer (binding : WebRtcBinding) (description : bytes)
| BAnswer (offer_id : EnvelopeId) (binding : WebRtcBinding) (description : bytes)
| BCandidate (parent_id : EnvelopeId) (sequence : u32) (candidate : bytes)
| BClose (reason : CloseCode)
| BCfrControl (payload : bytes).

#[export] Instance Body_eq_dec : EqDecision Body.
Proof. solve_decision. Defined.

Definition Body_kind (self : Body) : Kind :=
  match self with
  | BOffer _ _ => KOffer
  | BAnswer _ _ _ => KAnswer
  | BCandidate _ _ _ => KCandidate
  | BClose _ => KClose
  | BCfrControl _ => KCfrControl
  end.

Definition Body_validate (self : Body) : result Error unit :=
  match self with
  | BOffer _ description | BAnswer _ _ description =>
      validate_len (blen description) MAX_DESCRIPTION_BYTES
  | BCandidate _ _ candidate => validate_len (blen candidate) MAX_CANDIDATE_BYTES
  | BClose _ => Ok tt
  | BCfrControl payload => validate_len (blen payload) MAX_CFR_CONTROL_BYTES
  end.

Record Envelope : Type := {
  federation : FederationId;
  attempt : AttemptId;
  sender : EndpointIdentity;
  recipient : EndpointIdentity;
  body : Body;
  classical_signature : array 64;
  post_quantum_signature : mldsa_signature;
}.

#[export] Instance Envelope_eq_dec : EqDecision Envelope.
Proof. solve_decision. Defined.

Definition write_identity (identity : EndpointIdentity) : Writer.W unit :=
  do_ Writer.fixed (abytes (endpoint_key_as_bytes (classical identity)));
  Writer.fixed (abytes (post_quantum identity)).

Definition read_identity : Reader.R EndpointIdentity :=
  do key <- Reader.fixed 32;
  do pq <- Reader.fixed 1952;
  ret (EndpointIdentity_new (EndpointKey_from_bytes key) pq).

(** The [match] of [signed_bytes] that writes the kind-specific body. *)
Definition write_body (b : Body) : Writer.W unit :=
  match b with
  | BOffer binding description =>
      do_ Writer.fixed (abytes (binding_as_bytes binding));
      Writer.bytes description
  | BAnswer offer_id binding description =>
      do_ Writer.fixed (abytes (envelope_id_as_bytes offer_id));
      do_ Writer.fixed (abytes (binding_as_bytes binding));
      Writer.bytes description
  | BCandidate parent_id sequence candidate =>
      do_ Writer.fixed (abytes (envelope_id_as_bytes parent_id));
      do_ Writer.u32 sequence;
      Writer.bytes candidate
  | BClose reason => Writer.u16 (close_code_as_u16 reason)
  | BCfrControl payload => Writer.bytes payload
  end.

(** The [match] of [decode] that reads the kind-specific body. *)
Definition read_body (kind : Kind) : Reader.R Body :=
  match kind with
  | KOffer =>
      do binding <- Reader.fixed 32;
      do description <- Reader.bytes MAX_DESCRIPTION_BYTES;
      ret (BOffer (WebRtcBinding_from_bytes binding) description)
  | KAnswer =>
      do offer_id <- Reader.fixed 32;
      do binding <- Reader.fixed 32;
      do description <- Reader.bytes MAX_DESCRIPTION_BYTES;
      ret (BAnswer (EnvelopeId_from_bytes offer_id) (WebRtcBinding_from_bytes binding)
             description)
  | KCandidate =>
      do parent_id <- Reader.fixed 32;
      do sequence <- Reader.u32;
      do candidate <- Reader.bytes MAX_CANDIDATE_BYTES;
      ret (BCandidate (EnvelopeId_from_bytes parent_id) sequence candidate)
  | KClose =>
      do reason <- Reader.u16;
      ret (BClose (CloseCode_from_u16 reason))
  | KCfrControl =>
      do payload <- Reader.bytes MAX_CFR_CONTROL_BYTES;
      ret (BCfrControl payload)
  end.

(** The [match] of [verify_wire] that skips the kind-specific body. *)
Definition scan_body (kind : Kind) : Reader.R unit :=
  match kind with
  | KOffer =>
      do _binding <- Reader.fixed 32;
      do _description <- Reader.bytes_ref MAX_DESCRIPTION_BYTES;
      ret tt
  | KAnswer =>
      do _offer <- Reader.fixed 32;
      do _binding <- Reader.fixed 32;
      do _description <- Reader.bytes_ref MAX_DESCRIPTION_BYTES;
      ret tt
  | KCandidate =>
      do _parent <- Reader.fixed 32;
      do _sequence <- Reader.u32;
      do _candidate <- Reader.bytes_ref MAX_CANDIDATE_BYTES;
      ret tt
  | KClose =>
      do _reason <- Reader.u16;
      ret tt
  | KCfrControl =>
      do _payload <- Reader.bytes_ref MAX_CFR_CONTROL_BYTES;
      ret tt
  end.

(** ** Envelope operations *)
Module Envelope.
Section envelope.
Context `{Crypto}.

Definition kind (self : Envelope) : Kind := Body_kind (body self).

Definition signed_bytes (self : Envelope) : result Error bytes :=
  let? _ := Body_validate (body self) in
  eval
    (do_ Writer.fixed FCP_WIRE_MARKER;
     do_ Writer.u8 FCP_WIRE_VERSION;
     do_ Writer.u8 (Kind_as_u8 (kind self));
     do_ Writer.fixed (abytes (federation_as_bytes (federation self)));
     do_ Writer.fixed (abytes (attempt_as_bytes (attempt self)));
     do_ write_identity (sender self);
     do_ write_identity (recipient self);
     do_ write_body (body self);
     Writer.finish) [].

Definition encode (self : Envelope) : result Error bytes :=
  let? signed := signed_bytes self in
  let wire := signed ++ abytes (classical_signature self)
                     ++ abytes (post_quantum_signature self) in
  if MAX_ENVELOPE_BYTES <? blen wire then Err TooLarge else Ok wire.

Definition id (self : Envelope) : result Error EnvelopeId :=
  let? wire := encode self in
  Ok (EnvelopeId_from_bytes (blake3_hash wire)).

Definition verify (self : Envelope) : result Error unit :=
  let? transcript := signed_bytes self in
  let? _ := verify_classical (sender self) transcript (classical_signature self) in
  verify_post_quantum (sender self) transcript (post_quantum_signature self).

(** The envelope with the two signatures of [transcript] in place of its own. *)
Definition with_signatures (self : Envelope) (cs : array 64) (ps : mldsa_signature) : Envelope :=
  {| federation := federation self; attempt := attempt self; sender := sender self;
     recipient := recipient self; body := body self;
     classical_signature := cs; post_quantum_signature := ps |}.

Definition sign {S} `{EndpointSigner S} (signer : S) (federation : FederationId)
    (attempt : AttemptId) (recipient : EndpointIdentity) (body : Body) :
    result Error Envelope :=
  let? _ := Body_validate body in
  let envelope := {| federation := federation; attempt := attempt; sender := endpoint signer;
                     recipient := recipient; body := body;
                     classical_signature := array_fill 64 x00;
                     post_quantum_signature := array_fill 3309 x00 |} in
  let? transcript := signed_bytes envelope in
  Ok (with_signatures envelope (sign_classical signer transcript)
        (sign_post_quantum signer transcript)).

Definition decode (wire : bytes) : result Error Envelope :=
  if MAX_ENVELOPE_BYTES <? blen wire then Err TooLarge else
  eval
    (do marker <- Reader.fixed 3;
     if decide (abytes marker <> FCP_WIRE_MARKER) then fail BadMarker else
     do version <- Reader.u8;
     if decide (version <> FCP_WIRE_VERSION) then fail UnsupportedVersion else
     do kind_byte <- Reader.u8;
     do kind <- lift (Kind_try_from kind_byte);
     do federation <- Reader.fixed 32;
     do attempt <- Reader.fixed 16;
     do sender <- read_identity;
     do recipient <- read_identity;
     do body <- read_body kind;
     do_ lift (Body_validate body);
     do classical_signature <- Reader.fixed 64;
     do post_quantum_signature <- Reader.fixed 3309;
     do_ Reader.finish;
     let result := {| federation := FederationId_from_bytes federation;
                      attempt := AttemptId_from_bytes attempt;
                      sender := sender; recipient := recipient; body := body;
                      classical_signature := classical_signature;
                      post_quantum_signature := post_quantum_signature |} in
     do encoded <- lift (encode result);
     if decide (encoded <> wire) then fail NonCanonical else ret result)
    (Reader.new wire).

Definition verify_wire (wire : bytes) : result Error unit :=
  if MAX_ENVELOPE_BYTES <? blen wire then Err TooLarge else
  eval
    (do marker <- Reader.fixed 3;
     if decide (abytes marker <> FCP_WIRE_MARKER) then fail BadMarker else
     do version <- Reader.u8;
     if decide (version <> FCP_WIRE_VERSION) then fail UnsupportedVersion else
     do kind_byte <- Reader.u8;
     do kind <- lift (Kind_try_from kind_byte);
     do _federation <- Reader.fixed 32;
     do _attempt <- Reader.fixed 16;
     do sender <- read_identity;
     do _recipient <- read_identity;
     do_ scan_body kind;
     do reader <- get;
     let signed_end := Reader.offset reader in
     do classical_signature <- Reader.fixed 64;
     do post_quantum_signature <- Reader.fixed 3309;
     do_ Reader.finish;
     do_ lift (verify_classical sender (range wire 0 signed_end) classical_signature);
     lift (verify_post_quantum sender (range wire 0 signed_end) post_quantum_signature))
    (Reader.new wire).

Definition decode_verified (wire : bytes) : result Error Envelope :=
  let? _ := verify_wire wire in
  decode wire.

End envelope.
End Envelope.

(** ** The grammar

    The bytes the writer produces for a body and for the signed part of an
    envelope, as [docs/protocol.md] section 3 lays them out. *)
Definition prefixed (l : bytes) : bytes := be_bytes 4 (blen l) ++ l.

Definition body_bytes (b : Body) : bytes :=
  match b with
  | BOffer binding d => abytes (binding_as_bytes binding) ++ prefixed d
  | BAnswer o binding d =>
      abytes (envelope_id_as_bytes o) ++ abytes (binding_as_bytes binding) ++ prefixed d
  | BCandidate p s c => abytes (envelope_id_as_bytes p) ++ to_be 4 s ++ prefixed c
  | BClose r => to_be 2 (close_code_as_u16 r)
  | BCfrControl p => prefixed p
  end.

Definition header_bytes (e : Envelope) : bytes :=
  FCP_WIRE_MARKER ++ [FCP_WIRE_VERSION] ++ [Kind_as_u8 (Body_kind (body e))]
  ++ abytes (federation_as_bytes (federation e)) ++ abytes (attempt_as_bytes (attempt e))
  ++ identity_bytes (sender e) ++ identity_bytes (recipient e).

Definition transcript_bytes (e : Envelope) : bytes := header_bytes e ++ body_bytes (body e).

Definition wire_bytes (e : Envelope) : bytes :=
  transcript_bytes e ++ abytes (classical_signature e) ++ abytes (post_quantum_signature e).

Lemma validate_len_ok n m : validate_len n m = Ok tt <-> n <= m /\ n <= U32_MAX.
Proof.
  unfold validate_len.
  destruct (Z.ltb_spec m n), (Z.ltb_spec U32_MAX n); simpl; split; try done; lia.
Qed.

Lemma validate_len_err n m e : validate_len n m = Err e -> e = FieldTooLarge /\ (m < n \/ U32_MAX < n).
Proof.
  unfold validate_len.
  destruct (Z.ltb_spec m n), (Z.ltb_spec U32_MAX n); simpl; intros [= <-]; (split; [done|lia]).
Qed.

Lemma blen_prefixed l : blen (prefixed l) = 4 + blen l.
Proof. unfold prefixed. by autorewrite with blen. Qed.
#[export] Hint Rewrite blen_prefixed : blen.

Lemma write_bytes_run l w :
  blen l <= MAX_CFR_CONTROL_BYTES -> Writer.bytes l w = (w ++ prefixed l, Ok tt).
Proof.
  intros Hl. unfold Writer.bytes.
  assert (Hm : MAX_CFR_CONTROL_BYTES < 2 ^ 32) by done.
  pose proof (blen_nonneg l).
  erewrite bind_step; [|unfold lift; f_equal; apply validate_len_ok; unfold U32_MAX; lia].
  destruct (uint_try 32 (blen l)) as [u|] eqn:Hu.
  - apply uint_try_some in Hu as [_ Hu]. unfold bind, lift, Writer.u32, Writer.fixed, modify, ok_or.
    unfold to_be. by rewrite Hu, <- app_assoc.
  - exfalso. assert (Hb : (0 <=? blen l) && (blen l <? 2 ^ 32) = true) by lia.
    assert (uint_try 32 (blen l) = Some (UInt _ Hb)) by (apply uint_try_some; simpl; lia).
    congruence.
Qed.

Lemma Body_validate_bound b :
  Body_validate b = Ok tt ->
  match b with
  | BOffer _ d | BAnswer _ _ d => blen d <= MAX_DESCRIPTION_BYTES
  | BCandidate _ _ c => blen c <= MAX_CANDIDATE_BYTES
  | BClose _ => True
  | BCfrControl p => blen p <= MAX_CFR_CONTROL_BYTES
  end.
Proof. destruct b; simpl; rewrite ?validate_len_ok; naive_solver. Qed.

Lemma write_body_run b w :
  Body_validate b = Ok tt -> write_body b w = (w ++ body_bytes b, Ok tt).
Proof.
  intros Hv%Body_validate_bound.
  assert (MAX_DESCRIPTION_BYTES <= MAX_CFR_CONTROL_BYTES) by done.
  assert (MAX_CANDIDATE_BYTES <= MAX_CFR_CONTROL_BYTES) by done.
  destruct b; simpl; unfold bind, Writer.fixed, Writer.u32, Writer.u16, Writer.fixed, modify;
    rewrite ?write_bytes_run by lia; by rewrite <- ?app_assoc.
Qed.

Lemma signed_bytes_ok e :
  Body_validate (body e) = Ok tt -> Envelope.signed_bytes e = Ok (transcript_bytes e).
Proof.
  intros Hv. unfold Envelope.signed_bytes. rewrite Hv. simpl.
  unfold eval, bind, Writer.fixed, Writer.u8, write_identity, Writer.fixed, bind, modify.
  rewrite write_body_run by done. simpl.
  unfold transcript_bytes, header_bytes, identity_bytes. by rewrite <- ?app_assoc.
Qed.

Lemma signed_bytes_inv e t :
  Envelope.signed_bytes e = Ok t <-> Body_validate (body e) = Ok tt /\ t = transcript_bytes e.
Proof.
  split.
  - intros Ht. assert (Hv : Body_validate (body e) = Ok tt).
    { unfold Envelope.signed_bytes in Ht. fcp_inv. by destruct x. }
    rewrite (signed_bytes_ok e Hv) in Ht. naive_solver.
  - intros [Hv ->]. by apply signed_bytes_ok.
Qed.

Lemma blen_transcript_bytes e : blen (transcript_bytes e) = 4021 + blen (body_bytes (body e)).
Proof.
  unfold transcript_bytes, header_bytes. autorewrite with blen.
  change (blen FCP_WIRE_MARKER) with 3. lia.
Qed.

Lemma blen_wire_bytes e : blen (wire_bytes e) = 7394 + blen (body_bytes (body e)).
Proof. unfold wire_bytes. autorewrite with blen. rewrite blen_transcript_bytes. lia. Qed.

Lemma blen_body_bytes b :
  Body_validate b = Ok tt -> blen (body_bytes b) <= 4 + MAX_CFR_CONTROL_BYTES.
Proof.
  intros Hv%Body_validate_bound.
  unfold MAX_DESCRIPTION_BYTES, MAX_CANDIDATE_BYTES, MAX_CFR_CONTROL_BYTES in *.
  destruct b; simpl; autorewrite with blen; lia.
Qed.

Lemma encode_ok e :
  Body_validate (body e) = Ok tt -> Envelope.encode e = Ok (wire_bytes e).
Proof.
  intros Hv. unfold Envelope.encode. rewrite signed_bytes_ok by done.
  unfold res_bind. cbv zeta. fold (wire_bytes e). pose proof (blen_body_bytes _ Hv) as Hb.
  rewrite blen_wire_bytes. unfold MAX_ENVELOPE_BYTES.
  destruct (Z.ltb_spec (MAX_CFR_CONTROL_BYTES + 8 * 1024) (7394 + blen (body_bytes (body e))));
    [lia | done].
Qed.

Lemma encode_inv e w :
  Envelope.encode e = Ok w <-> Body_validate (body e) = Ok tt /\ w = wire_bytes e.
Proof.
  split.
  - intros Hw. assert (Hv : Body_validate (body e) = Ok tt).
    { unfold Envelope.encode in Hw.
      destruct (Envelope.signed_bytes e) eqn:Hs; [by apply signed_bytes_inv in Hs as [? _] | done]. }
    rewrite encode_ok in Hw by done. naive_solver.
  - intros [Hv ->]. by apply encode_ok.
Qed.

(** encoding an envelope succeeds exactly when its body respects the
    kind-specific bound; the total-size check of [encode] never rejects a body
    the bounds accept, because header, length prefix and signatures take at most
    7,398 of the 8,192 bytes [MAX_ENVELOPE_BYTES] leaves above the payload. *)
Theorem encode_total e :
  (is_ok (Envelope.encode e) = is_ok (Body_validate (body e))) /\
  (forall err, Envelope.encode e = Err err -> err = FieldTooLarge) /\
  (forall w, Envelope.encode e = Ok w -> 7394 <= blen w <= MAX_CFR_CONTROL_BYTES + 7398).
Proof.
  destruct (Body_validate (body e)) as [[]|er] eqn:Hv.
  - rewrite encode_ok by done. split_and!; [done..|]. intros w [= <-].
    rewrite blen_wire_bytes. pose proof (blen_body_bytes _ Hv).
    pose proof (blen_nonneg (body_bytes (body e))). lia.
  - unfold Envelope.encode, Envelope.signed_bytes. rewrite Hv. simpl. split_and!; [done| |done].
    intros err [= <-]. destruct (body e); simpl in Hv; try done; by apply validate_len_err in Hv as [-> _].
Qed.
