(* ===== verification/Codec.v ===== *)
(** * Round trips of the envelope grammar

    The reader and the writer of [envelope.rs] are inverse to each other, the
    borrowed scan of [verify_wire] agrees with decoding and verifying, and the
    signed transcript determines every field it covers. *)

From Stdlib Require Import ZArith Lia.
From stdpp Require Import base list option numbers decidable sets.
From S2P Require Import Prelude Bytes BTree Types Identity Sample Wire.

(** ** Reading what was written

    [parses m enc a]: wherever [enc] stands in the input, [m] started at its
    first byte returns [a] and stops after its last byte.  [cuts m enc]: on an
    input that ends inside [enc] it reports a truncated field. *)
Definition parses {A} (m : Reader.R A) (enc : bytes) (a : A) : Prop :=
  forall pre suf, blen (pre ++ enc ++ suf) <= USIZE_MAX ->
    m (Reader.Reader (pre ++ enc ++ suf) (blen pre)) =
    (Reader.Reader (pre ++ enc ++ suf) (blen pre + blen enc), Ok a).

Definition cuts {A} (m : Reader.R A) (enc : bytes) : Prop :=
  forall pre x y, enc = x ++ y -> y <> [] -> blen (pre ++ enc) <= USIZE_MAX ->
    eval m (Reader.Reader (pre ++ x) (blen pre)) = Err Truncated.

Lemma parses_ret {A} (a : A) : parses (ret a) [] a.
Proof. intros pre suf _. unfold ret. by rewrite blen_nil, Z.add_0_r. Qed.

Lemma parses_bind {A B} (m : Reader.R A) (k : A -> Reader.R B) e1 e2 a b :
  parses m e1 a -> parses (k a) e2 b -> parses (bind m k) (e1 ++ e2) b.
Proof.
  intros Hm Hk pre suf Hl. rewrite <- app_assoc in *.
  erewrite bind_step by (by apply Hm).
  specialize (Hk (pre ++ e1) suf). rewrite <- !app_assoc, (blen_app pre e1) in Hk.
  rewrite Hk by done. by rewrite blen_app, Z.add_assoc.
Qed.

Lemma parses_bind_ret {A B} (m : Reader.R A) (f : A -> B) e a :
  parses m e a -> parses (do x <- m; ret (f x)) e (f a).
Proof.
  intros Hm. rewrite <- (app_nil_r e). eapply parses_bind; [done | apply parses_ret].
Qed.

Lemma parses_lift {A} (r : result Error A) a : r = Ok a -> parses (lift r) [] a.
Proof. intros ->. apply parses_ret. Qed.

(** A strict prefix of a concatenation ends inside its first or second part. *)
Lemma prefix_split {A} (e1 e2 x y : list A) :
  e1 ++ e2 = x ++ y -> y <> [] ->
  (exists y', e1 = x ++ y' /\ y' <> []) \/ (exists x', x = e1 ++ x' /\ e2 = x' ++ y).
Proof.
  intros H Hy. apply app_eq_inv in H as [(l & -> & ->)|(l & -> & ->)].
  - destruct l as [|a l]; [right|left; eauto].
    exists []. simpl. by rewrite !app_nil_r.
  - right. eauto.
Qed.

Lemma cuts_bind {A B} (m : Reader.R A) (k : A -> Reader.R B) e1 e2 a :
  parses m e1 a -> cuts m e1 -> cuts (k a) e2 -> cuts (bind m k) (e1 ++ e2).
Proof.
  intros Hm Hc Hk pre x y He Hy Hl. unfold eval.
  apply prefix_split in He as [(y' & -> & Hy')|(x' & -> & ->)]; [| |done].
  - assert (Hl' : blen (pre ++ x ++ y') <= USIZE_MAX).
    { autorewrite with blen in *. pose proof (blen_nonneg e2). lia. }
    specialize (Hc pre x y' eq_refl Hy' Hl'). unfold eval, bind in *.
    destruct (m _) as [s [?|?]]; simpl in *; [done | congruence].
  - erewrite bind_step.
    2:{ apply Hm. autorewrite with blen in *. pose proof (blen_nonneg y). lia. }
    specialize (Hk (pre ++ e1) x' y eq_refl Hy). unfold eval in Hk.
    rewrite <- !app_assoc, (blen_app pre e1) in Hk. by apply Hk.
Qed.

Lemma cuts_nil {A} (m : Reader.R A) : cuts m [].
Proof. intros pre x y He Hy. destruct x, y; naive_solver. Qed.

Lemma cuts_bind_nil {A B} (m : Reader.R A) (k : A -> Reader.R B) e :
  cuts m e -> cuts (bind m k) e.
Proof.
  intros Hc pre x y He Hy Hl. specialize (Hc pre x y He Hy Hl).
  unfold eval, bind in *. destruct (m _) as [s [?|?]]; simpl in *; [done|congruence].
Qed.

Lemma parses_advance x : parses (Reader.advance (blen x)) x x.
Proof.
  intros pre suf Hl. autorewrite with blen in Hl. pose proof (blen_nonneg suf).
  unfold Reader.advance, bind, get, lift, modify, ret. simpl.
  rewrite checked_add_ok by lia. simpl.
  unfold get_range. autorewrite with blen. pose proof (blen_nonneg x).
  rewrite (proj2 (Z.leb_le _ _)), (proj2 (Z.leb_le _ _)) by lia. simpl.
  by rewrite range_app_mid.
Qed.

Lemma cuts_advance e : cuts (Reader.advance (blen e)) e.
Proof.
  intros pre x y -> Hy Hl. autorewrite with blen in Hl.
  unfold eval, Reader.advance, bind, get, lift, modify, ret. simpl.
  rewrite checked_add_ok by (autorewrite with blen; lia). simpl.
  unfold get_range. autorewrite with blen.
  destruct y as [|b y]; [done|]. autorewrite with blen. pose proof (blen_nonneg y).
  rewrite (proj2 (Z.leb_gt _ (blen pre + blen x))) by lia.
  by rewrite andb_false_r.
Qed.

Lemma parses_fixed {n} (a : array n) : parses (Reader.fixed n) (abytes a) a.
Proof.
  unfold Reader.fixed. rewrite <- (app_nil_r (abytes a)).
  eapply parses_bind.
  - rewrite <- (array_len a) at 1. apply parses_advance.
  - apply parses_lift. by rewrite array_try_abytes.
Qed.

Lemma cuts_fixed {n} (a : array n) : cuts (Reader.fixed n) (abytes a).
Proof. apply cuts_bind_nil. rewrite <- (array_len a) at 1. apply cuts_advance. Qed.

Lemma byte_array (b : byte) : exists a : array 1, abytes a = [b].
Proof. by exists (@Array 1 [b] eq_refl). Qed.

Lemma parses_u8 b : parses Reader.u8 [b] b.
Proof.
  destruct (byte_array b) as [a Ha]. unfold Reader.u8. rewrite <- Ha.
  replace b with (hd x00 (abytes a)) at 1 by by rewrite Ha.
  apply (parses_bind_ret _ (fun a => hd x00 (abytes a))), parses_fixed.
Qed.

Lemma cuts_u8 b : cuts Reader.u8 [b].
Proof. destruct (byte_array b) as [a <-]. apply cuts_bind_nil, cuts_fixed. Qed.

Lemma to_be_array {w} n (u : uint w) : exists a : array (Z.of_nat n), abytes a = to_be n u.
Proof.
  assert (H : (blen (to_be n u) =? Z.of_nat n) = true) by (autorewrite with blen; lia).
  by exists (Array _ H).
Qed.

Lemma parses_uint n (u : uint (8 * Z.of_nat n)) :
  parses (do a <- Reader.fixed (Z.of_nat n); ret (from_be n a)) (to_be n u) u.
Proof.
  destruct (to_be_array n u) as [a Ha]. rewrite <- Ha.
  replace u with (from_be n a) at 1 by by apply from_be_to_be.
  apply (parses_bind_ret _ (from_be n)), parses_fixed.
Qed.

Lemma cuts_uint n (u : uint (8 * Z.of_nat n)) :
  cuts (do a <- Reader.fixed (Z.of_nat n); ret (from_be n a)) (to_be n u).
Proof. destruct (to_be_array n u) as [a <-]. apply cuts_bind_nil, cuts_fixed. Qed.

Lemma parses_u16 : forall u : u16, parses Reader.u16 (to_be 2 u) u.
Proof. exact (parses_uint 2). Qed.
Lemma parses_u32 : forall u : u32, parses Reader.u32 (to_be 4 u) u.
Proof. exact (parses_uint 4). Qed.
Lemma cuts_u16 : forall u : u16, cuts Reader.u16 (to_be 2 u).
Proof. exact (cuts_uint 2). Qed.
Lemma cuts_u32 : forall u : u32, cuts Reader.u32 (to_be 4 u).
Proof. exact (cuts_uint 4). Qed.

(** The 32-bit length of a field that respects its bound. *)
Lemma length_u32 (l : bytes) : blen l <= U32_MAX -> exists u : u32, uval u = blen l.
Proof.
  intros Hl. pose proof (blen_nonneg l). unfold U32_MAX in Hl.
  assert (Hb : (0 <=? blen l) && (blen l <? 2 ^ 32) = true) by lia.
  by exists (UInt _ Hb).
Qed.

Lemma bytes_ref_tail (u : u32) (l : bytes) maximum :
  blen l <= maximum -> uval u = blen l ->
  (do length <- lift (ok_or (Reader.usize_try (uval u)) FieldTooLarge);
   do_ lift (validate_len length maximum);
   Reader.advance length) = Reader.advance (blen l) :> Reader.R bytes.
Proof.
  intros Hl Hu. pose proof (uint_range u).
  unfold bind, lift, Reader.usize_try, USIZE_MAX.
  rewrite (proj2 (Z.leb_le _ _)) by lia. simpl.
  rewrite (proj2 (validate_len_ok _ _)); [by rewrite Hu|]. unfold U32_MAX. lia.
Qed.

Lemma parses_bytes (l : bytes) maximum :
  blen l <= maximum -> blen l <= U32_MAX -> parses (Reader.bytes maximum) (prefixed l) l.
Proof.
  intros Hl Hm. destruct (length_u32 l Hm) as [u Hu].
  unfold Reader.bytes, Reader.bytes_ref, prefixed. rewrite <- Hu.
  eapply parses_bind; [apply parses_u32|].
  rewrite (bytes_ref_tail u l) by done. apply parses_advance.
Qed.

Lemma cuts_bytes (l : bytes) maximum :
  blen l <= maximum -> blen l <= U32_MAX -> cuts (Reader.bytes maximum) (prefixed l).
Proof.
  intros Hl Hm. destruct (length_u32 l Hm) as [u Hu].
  unfold Reader.bytes, Reader.bytes_ref, prefixed. rewrite <- Hu.
  eapply cuts_bind; [apply parses_u32 | apply cuts_u32 |].
  rewrite (bytes_ref_tail u l) by done. apply cuts_advance.
Qed.

#[export] Hint Resolve parses_ret parses_fixed parses_u8 parses_u16 parses_u32 : fcp.
#[export] Hint Resolve cuts_nil cuts_fixed cuts_u8 cuts_u16 cuts_u32 : fcp.

Lemma parses_identity i : parses read_identity (identity_bytes i) i.
Proof.
  destruct i as [[k] p]. unfold read_identity, identity_bytes. simpl.
  eapply parses_bind; [apply parses_fixed|].
  apply (parses_bind_ret _ (fun q => EndpointIdentity_new (EndpointKey_from_bytes k) q)).
  apply parses_fixed.
Qed.

Lemma cuts_identity i : cuts read_identity (identity_bytes i).
Proof.
  destruct i as [[k] p]. unfold read_identity, identity_bytes. simpl.
  eapply cuts_bind; [apply parses_fixed | apply cuts_fixed |].
  apply cuts_bind_nil, cuts_fixed.
Qed.

(** The bound of a valid body is also a 32-bit bound. *)
Lemma valid_lengths b :
  Body_validate b = Ok tt ->
  match b with
  | BOffer _ d | BAnswer _ _ d => blen d <= MAX_DESCRIPTION_BYTES /\ blen d <= U32_MAX
  | BCandidate _ _ c => blen c <= MAX_CANDIDATE_BYTES /\ blen c <= U32_MAX
  | BClose _ => True
  | BCfrControl p => blen p <= MAX_CFR_CONTROL_BYTES /\ blen p <= U32_MAX
  end.
Proof. destruct b; simpl; rewrite ?validate_len_ok; done. Qed.

Lemma parses_body b :
  Body_validate b = Ok tt -> parses (read_body (Body_kind b)) (body_bytes b) b.
Proof.
  intros Hv%valid_lengths. destruct b as [[bi] d|[o] [bi] d|[p] s c|[r]|p];
    cbn [Body_kind read_body body_bytes binding_as_bytes envelope_id_as_bytes close_code_as_u16] in *.
  - eapply parses_bind; [apply parses_fixed|].
    apply (parses_bind_ret _ (BOffer (WebRtcBinding_from_bytes bi))).
    apply parses_bytes; apply Hv.
  - eapply parses_bind; [apply parses_fixed|]. eapply parses_bind; [apply parses_fixed|].
    apply (parses_bind_ret _ (BAnswer (EnvelopeId_from_bytes o) (WebRtcBinding_from_bytes bi))).
    apply parses_bytes; apply Hv.
  - eapply parses_bind; [apply parses_fixed|]. eapply parses_bind; [apply parses_u32|].
    apply (parses_bind_ret _ (BCandidate (EnvelopeId_from_bytes p) s)).
    apply parses_bytes; apply Hv.
  - apply (parses_bind_ret _ (fun r => BClose (CloseCode_from_u16 r))), parses_u16.
  - apply (parses_bind_ret _ BCfrControl). apply parses_bytes; apply Hv.
Qed.

Lemma cuts_body b :
  Body_validate b = Ok tt -> cuts (read_body (Body_kind b)) (body_bytes b).
Proof.
  intros Hv%valid_lengths. destruct b as [[bi] d|[o] [bi] d|[p] s c|[r]|p];
    cbn [Body_kind read_body body_bytes binding_as_bytes envelope_id_as_bytes close_code_as_u16] in *.
  - eapply cuts_bind; [apply parses_fixed | apply cuts_fixed |].
    apply cuts_bind_nil, cuts_bytes; apply Hv.
  - eapply cuts_bind; [apply parses_fixed | apply cuts_fixed |].
    eapply cuts_bind; [apply parses_fixed | apply cuts_fixed |].
    apply cuts_bind_nil, cuts_bytes; apply Hv.
  - eapply cuts_bind; [apply parses_fixed | apply cuts_fixed |].
    eapply cuts_bind; [apply parses_u32 | apply cuts_u32 |].
    apply cuts_bind_nil, cuts_bytes; apply Hv.
  - apply cuts_bind_nil, cuts_u16.
  - apply cuts_bind_nil, cuts_bytes; apply Hv.
Qed.

(** Skipping a body is reading it without keeping the value. *)
Lemma scan_body_read kind s :
  scan_body kind s =
  match read_body kind s with
  | (s', Ok _) => (s', Ok tt)
  | (s', Err e) => (s', Err e)
  end.
Proof.
  destruct kind; simpl; unfold bind, Reader.bytes, ret; repeat case_match; naive_solver.
Qed.

Lemma parses_scan_body b :
  Body_validate b = Ok tt -> parses (scan_body (Body_kind b)) (body_bytes b) tt.
Proof. intros Hv pre suf Hl. by rewrite scan_body_read, parses_body. Qed.

Lemma cuts_scan_body b :
  Body_validate b = Ok tt -> cuts (scan_body (Body_kind b)) (body_bytes b).
Proof.
  intros Hv pre x y He Hy Hl. unfold eval. rewrite scan_body_read.
  pose proof (cuts_body b Hv pre x y He Hy Hl) as Hc. unfold eval in Hc.
  destruct (read_body _ _) as [? [?|?]]; simpl in *; congruence.
Qed.

Lemma Kind_roundtrip k : Kind_try_from (Kind_as_u8 k) = Ok k.
Proof. by destruct k. Qed.

(** ** Writing what was read

    [follows s s' l]: between the reader states [s] and [s'] exactly the bytes
    [l] of the same input were consumed. *)
Definition bounded (s : Reader.t) : Prop := 0 <= Reader.offset s <= blen (Reader.wire s).

Definition follows (s s' : Reader.t) (l : bytes) : Prop :=
  Reader.wire s' = Reader.wire s /\ bounded s' /\
  take (Z.to_nat (Reader.offset s')) (Reader.wire s) =
  take (Z.to_nat (Reader.offset s)) (Reader.wire s) ++ l.

(** A successful run of [m] consumed the encoding [f] of its result, which has
    the property [P]. *)
Definition yields {A} (m : Reader.R A) (f : A -> bytes) (P : A -> Prop) : Prop :=
  forall s s' a, bounded s -> m s = (s', Ok a) -> follows s s' (f a) /\ P a.

Lemma follows_refl s : bounded s -> follows s s [].
Proof. intros H. split_and!; [done.. |]. by rewrite app_nil_r. Qed.

Lemma follows_trans s1 s2 s3 l l' :
  follows s1 s2 l -> follows s2 s3 l' -> follows s1 s3 (l ++ l').
Proof.
  intros (W1 & _ & T1) (W2 & B2 & T2). split_and!; [congruence | done |].
  rewrite W1 in T2. by rewrite T2, T1, app_assoc.
Qed.

(** From the first byte to the last, the input is what was consumed. *)
Lemma follows_all w s l :
  follows (Reader.new w) s l -> Reader.offset s = blen w -> w = l.
Proof.
  intros (_ & _ & T) Ho. simpl in T. rewrite Ho in T. unfold blen in T.
  rewrite Nat2Z.id, firstn_all in T. done.
Qed.

Lemma yields_weaken {A} (m : Reader.R A) f (P Q : A -> Prop) :
  yields m f P -> (forall a, P a -> Q a) -> yields m f Q.
Proof. intros Hm HQ s s' a Hb Hr. destruct (Hm s s' a Hb Hr). auto. Qed.

Lemma yields_bind {A B} (m : Reader.R A) (k : A -> Reader.R B) f g (P : A -> Prop) Q :
  yields m f P -> (forall a, P a -> yields (k a) (g a) (Q a)) ->
  forall s s' b, bounded s -> bind m k s = (s', Ok b) ->
  exists a, follows s s' (f a ++ g a b) /\ P a /\ Q a b.
Proof.
  intros Hm Hk s s' b Hb (s1 & a & H1 & H2)%bind_ok.
  apply Hm in H1 as [F1 HP]; [|done]. exists a.
  apply Hk in H2 as [F2 HQ]; [|done|apply F1]. eauto using follows_trans.
Qed.

Lemma yields_map {A B} (m : Reader.R A) (h : A -> B) f g (P : A -> Prop) (Q : B -> Prop) :
  yields m f P -> (forall a, g (h a) = f a) -> (forall a, P a -> Q (h a)) ->
  yields (do a <- m; ret (h a)) g Q.
Proof.
  intros Hm Hg HQ s s' b Hb (s1 & a & H1 & [= <- <-])%bind_ok.
  apply Hm in H1 as [F1 HP]; [|done]. rewrite Hg. auto.
Qed.

Lemma yields_advance n :
  0 <= n -> yields (Reader.advance n) (fun l => l) (fun l => blen l = n).
Proof.
  intros Hn s s' l Hb Hr. unfold Reader.advance in Hr. unfold bounded in Hb. fcp_inv.
  apply checked_add_some in H0 as [-> ?].
  apply get_range_some in H1 as [? ->]. simpl in *.
  rewrite blen_range by lia. split; [|lia].
  split_and!; [done | split; simpl; lia |]. simpl. apply take_range. lia.
Qed.

Lemma yields_fixed n : 0 <= n -> yields (Reader.fixed n) abytes (fun _ => True).
Proof.
  intros Hn s s' a Hb (s1 & l & H1 & H2)%bind_ok. fcp_inv.
  apply array_try_some in H0 as <-. apply yields_advance in H1 as [F _]; done.
Qed.

Lemma yields_u8 : yields Reader.u8 (fun b => [b]) (fun _ => True).
Proof.
  eapply yields_map; [by apply yields_fixed | | done].
  intros a. pose proof (array_len a) as Hl. unfold blen in Hl.
  destruct (abytes a) as [|b [|? ?]]; simpl in *; [lia | done | lia].
Qed.

Lemma yields_u16 : yields Reader.u16 (to_be 2) (fun _ => True).
Proof. eapply yields_map; [by apply yields_fixed | apply (to_be_from_be 2) | done]. Qed.

Lemma yields_u32 : yields Reader.u32 (to_be 4) (fun _ => True).
Proof. eapply yields_map; [by apply yields_fixed | apply (to_be_from_be 4) | done]. Qed.

Lemma yields_bytes maximum :
  yields (Reader.bytes maximum) prefixed
    (fun l => validate_len (blen l) maximum = Ok tt).
Proof.
  intros s s' l Hb (s1 & n & H1 & H2)%bind_ok.
  apply yields_u32 in H1 as [F1 _]; [|done].
  fcp_inv. unfold Reader.usize_try in H0. fcp_case; [|done]. fcp_inv.
  pose proof (uint_range n) as Hn.
  apply yields_advance in H2 as [F2 Hl]; [| lia | apply F1]. rewrite Hl. split; [|by destruct x2].
  eapply follows_trans in F2; [|exact F1]. unfold prefixed. by rewrite Hl.
Qed.

Lemma yields_identity : yields read_identity identity_bytes (fun _ => True).
Proof.
  intros s s' i Hb Hr.
  eapply (yields_bind _ _ abytes (fun k i => abytes (post_quantum i)) (fun _ => True)
            (fun k i => classical i = EndpointKey_from_bytes k)) in Hr
    as (k & F & _ & Hk); [| by apply yields_fixed | | done].
  - split; [|done]. unfold identity_bytes. by rewrite Hk.
  - intros k _. eapply yields_map; [by apply yields_fixed | done | done].
Qed.

(** A body read from the input has the kind that was asked for and respects
    the bound its validation checks again. *)
Lemma yields_body kind :
  yields (read_body kind) body_bytes
    (fun b => Body_kind b = kind /\ Body_validate b = Ok tt).
Proof.
  intros s s' b Hb Hr. destruct kind; cbn [read_body] in Hr.
  - apply bind_ok in Hr as (s1 & bi & [F1 _]%yields_fixed & (s2 & d & [F2 Hd]%yields_bytes & Hr)%bind_ok);
      [|apply F1|done|done].
    fcp_inv. split; [by eapply follows_trans | done].
  - apply bind_ok in Hr as (s1 & o & [F1 _]%yields_fixed & (s2 & bi & [F2 _]%yields_fixed
      & (s3 & d & [F3 Hd]%yields_bytes & Hr)%bind_ok)%bind_ok); [|apply F2|done|apply F1|done|done].
    fcp_inv. split; [by repeat (eapply follows_trans; [done|]) | done].
  - apply bind_ok in Hr as (s1 & p & [F1 _]%yields_fixed & (s2 & n & [F2 _]%yields_u32
      & (s3 & c & [F3 Hc]%yields_bytes & Hr)%bind_ok)%bind_ok); [|apply F2|apply F1|done|done].
    fcp_inv. split; [by repeat (eapply follows_trans; [done|]) | done].
  - apply bind_ok in Hr as (s1 & r & [F1 _]%yields_u16 & Hr); [|done]. by fcp_inv.
  - apply bind_ok in Hr as (s1 & p & [F1 Hp]%yields_bytes & Hr); [|done]. by fcp_inv.
Qed.

(** ** Decoding as parsing followed by a comparison

    [parse_signed] and [parse] are the readers shared by [decode] and
    [verify_wire]: the signed part, with a given treatment of the body, and the
    two signatures after it. *)
Definition parse_signed {B} (read : Kind -> Reader.R B) :
    Reader.R (FederationId * AttemptId * EndpointIdentity * EndpointIdentity * B) :=
  do marker <- Reader.fixed 3;
  if decide (abytes marker <> FCP_WIRE_MARKER) then fail BadMarker else
  do version <- Reader.u8;
  if decide (version <> FCP_WIRE_VERSION) then fail UnsupportedVersion else
  do kind_byte <- Reader.u8;
  do kind <- lift (Kind_try_from kind_byte);
  do federation <- Reader.fixed 32;
  do attempt <- Reader.fixed 16;
  do sender <- read_identity;
  do recipient <- read_identity;
  do body <- read kind;
  ret (FederationId_from_bytes federation, AttemptId_from_bytes attempt, sender, recipient, body).

Definition parse_signatures : Reader.R (array 64 * mldsa_signature) :=
  do cs <- Reader.fixed 64;
  do ps <- Reader.fixed 3309;
  do_ Reader.finish;
  ret (cs, ps).

Section envelopes.
Context `{Crypto}.

Lemma decode_split w :
  Envelope.decode w =
  if MAX_ENVELOPE_BYTES <? blen w then Err TooLarge else
  match parse_signed read_body (Reader.new w) with
  | (s, Ok (f, a, i, j, b)) =>
      match Body_validate b with
      | Ok _ =>
          match parse_signatures s with
          | (_, Ok (cs, ps)) =>
              let result := {| federation := f; attempt := a; sender := i; recipient := j;
                body := b; classical_signature := cs; post_quantum_signature := ps |} in
              match Envelope.encode result with
              | Ok encoded => if decide (encoded <> w) then Err NonCanonical else Ok result
              | Err er => Err er
              end
          | (_, Err er) => Err er
          end
      | Err er => Err er
      end
  | (_, Err er) => Err er
  end.
Proof.
  unfold Envelope.decode, parse_signed, parse_signatures, eval, bind, lift, fail, ret.
  repeat (case_match; simplify_eq/=; try done).
Qed.

Lemma verify_wire_split w :
  Envelope.verify_wire w =
  if MAX_ENVELOPE_BYTES <? blen w then Err TooLarge else
  match parse_signed scan_body (Reader.new w) with
  | (s, Ok (_, _, i, _, _)) =>
      match parse_signatures s with
      | (_, Ok (cs, ps)) => dual_verify i (range w 0 (Reader.offset s)) cs ps
      | (_, Err er) => Err er
      end
  | (_, Err er) => Err er
  end.
Proof.
  unfold Envelope.verify_wire, parse_signed, parse_signatures, eval, bind, lift, fail, ret,
    dual_verify, get, res_bind.
  repeat (case_match; simplify_eq/=; try done).
Qed.

Lemma marker_array : exists a : array 3, abytes a = FCP_WIRE_MARKER.
Proof. by exists (@Array 3 FCP_WIRE_MARKER eq_refl). Qed.

Lemma decide_refl {A B} `{EqDecision A} (x : A) (m n : B) :
  (if decide (x <> x) then m else n) = n.
Proof. by case_decide. Qed.

(** The signed part of every encodable envelope is read back. *)
Lemma parses_signed {B} (read : Kind -> Reader.R B) e b :
  parses (read (Body_kind (body e))) (body_bytes (body e)) b ->
  parses (parse_signed read) (transcript_bytes e)
    (federation e, attempt e, sender e, recipient e, b).
Proof.
  intros Hb. unfold parse_signed, transcript_bytes, header_bytes. rewrite <- !app_assoc.
  destruct marker_array as [m Hm].
  eapply parses_bind; [rewrite <- Hm; apply parses_fixed|].
  rewrite Hm, decide_refl.
  eapply parses_bind; [apply parses_u8|]. rewrite decide_refl.
  eapply parses_bind; [apply parses_u8|].
  rewrite <- (app_nil_l (_ ++ _)).
  eapply parses_bind; [apply parses_lift, Kind_roundtrip|].
  do 2 (eapply parses_bind; [apply parses_fixed|]).
  do 2 (eapply parses_bind; [apply parses_identity|]).
  destruct e as [[f] [a] i j bd ? ?]. simpl in *.
  by apply (parses_bind_ret _
    (fun b => (FederationId_from_bytes f, AttemptId_from_bytes a, i, j, b))).
Qed.

Lemma parse_signatures_run pre (cs : array 64) (ps : mldsa_signature) :
  blen (pre ++ abytes cs ++ abytes ps) <= USIZE_MAX ->
  parse_signatures (Reader.Reader (pre ++ abytes cs ++ abytes ps) (blen pre)) =
  (Reader.Reader (pre ++ abytes cs ++ abytes ps) (blen pre + 64 + 3309), Ok (cs, ps)).
Proof.
  intros Hl. unfold parse_signatures.
  erewrite bind_step by by apply (parses_fixed cs pre (abytes ps)).
  pose proof (parses_fixed ps (pre ++ abytes cs) []) as Hp.
  rewrite app_nil_r, <- app_assoc, (blen_app pre (abytes cs)) in Hp. specialize (Hp Hl).
  erewrite bind_step by exact Hp. rewrite !array_len.
  erewrite bind_step; [done|]. unfold Reader.finish, bind, get. simpl.
  case_decide as E; [done|]. autorewrite with blen in E. lia.
Qed.

Lemma parse_signed_scan s :
  parse_signed scan_body s =
  match parse_signed read_body s with
  | (s', Ok (f, a, i, j, _)) => (s', Ok (f, a, i, j, tt))
  | (s', Err er) => (s', Err er)
  end.
Proof.
  unfold parse_signed, bind, lift, fail, ret.
  repeat (case_match; simplify_eq/=; try done);
    rewrite scan_body_read in *; repeat (case_match; simplify_eq/=; try done).
Qed.

Lemma Kind_try_from_inv b k : Kind_try_from b = Ok k -> b = Kind_as_u8 k.
Proof. by destruct b; simpl; intros [= <-]. Qed.

(** A parsed signed part is the transcript of the values it returned. *)
Lemma yields_signed cs ps :
  yields (parse_signed read_body)
    (fun '(f, a, i, j, b) => transcript_bytes {| federation := f; attempt := a; sender := i;
       recipient := j; body := b; classical_signature := cs; post_quantum_signature := ps |})
    (fun '(_, _, _, _, b) => Body_validate b = Ok tt).
Proof.
  intros s s' [[[[f a] i] j] b] Hb Hr. unfold parse_signed in Hr.
  apply bind_ok in Hr as (s1 & m & [F1 _]%yields_fixed & Hr); [|done..].
  fcp_case; [done|].
  apply bind_ok in Hr as (s2 & v & [F2 _]%yields_u8 & Hr); [|apply F1].
  fcp_case; [done|].
  apply bind_ok in Hr as (s3 & kb & [F3 _]%yields_u8 & Hr); [|apply F2].
  apply bind_ok in Hr as (? & k & [= <- ->%Kind_try_from_inv] & Hr).
  apply bind_ok in Hr as (s4 & fb & [F4 _]%yields_fixed & Hr); [|done|apply F3].
  apply bind_ok in Hr as (s5 & ab & [F5 _]%yields_fixed & Hr); [|done|apply F4].
  apply bind_ok in Hr as (s6 & i' & [F6 _]%yields_identity & Hr); [|apply F5].
  apply bind_ok in Hr as (s7 & j' & [F7 _]%yields_identity & Hr); [|apply F6].
  apply bind_ok in Hr as (s8 & b' & [F8 [Hk Hv]]%yields_body & Hr); [|apply F7].
  fcp_inv. split; [|done]. unfold transcript_bytes, header_bytes.
  cbn [federation attempt sender recipient body federation_as_bytes attempt_as_bytes].
  destruct (decide (abytes m = FCP_WIRE_MARKER)) as [Hm|]; [|done]. rewrite <- Hm.
  destruct (decide (v = FCP_WIRE_VERSION)) as [->|]; [|done].
  rewrite <- !app_assoc. by repeat (eapply follows_trans; [done|]).
Qed.

Lemma yields_signatures s s' cs ps :
  bounded s -> parse_signatures s = (s', Ok (cs, ps)) ->
  follows s s' (abytes cs ++ abytes ps) /\ Reader.offset s' = blen (Reader.wire s').
Proof.
  intros Hb Hr. unfold parse_signatures in Hr.
  apply bind_ok in Hr as (s1 & cs' & [F1 _]%yields_fixed & Hr); [|done..].
  apply bind_ok in Hr as (s2 & ps' & [F2 _]%yields_fixed & Hr); [|done|apply F1].
  apply bind_ok in Hr as (s3 & [] & Hf & Hr). fcp_inv.
  unfold Reader.finish, bind, get, fail, ret in Hf. fcp_case; [|done]. fcp_inv.
  split; [by eapply follows_trans | done].
Qed.

(** What both parsers accept is the wire image of what they return. *)
Lemma parse_wire_image w s s' f a i j b cs ps :
  parse_signed read_body (Reader.new w) = (s, Ok (f, a, i, j, b)) ->
  parse_signatures s = (s', Ok (cs, ps)) ->
  let e := {| federation := f; attempt := a; sender := i; recipient := j; body := b;
              classical_signature := cs; post_quantum_signature := ps |} in
  w = wire_bytes e /\ Body_validate b = Ok tt /\ range w 0 (Reader.offset s) = transcript_bytes e.
Proof.
  intros Hs Hp e. apply (yields_signed cs ps) in Hs as [F1 Hv].
  2:{ split; simpl; [lia | apply blen_nonneg]. }
  apply yields_signatures in Hp as [F2 Ho]; [|apply F1].
  pose proof (follows_trans _ _ _ _ _ F1 F2) as F.
  split_and!; [| done |].
  - eapply follows_all; [exact F|]. rewrite Ho. f_equal. apply F.
  - destruct F1 as (_ & _ & T). unfold range. rewrite Z.sub_0_r. exact T.
Qed.

Lemma wire_size (w : bytes) : (MAX_ENVELOPE_BYTES <? blen w) = false -> blen w <= USIZE_MAX.
Proof. intros Hw%Z.ltb_ge. assert (MAX_ENVELOPE_BYTES <= USIZE_MAX) by done. lia. Qed.

Lemma encoded_size e :
  Body_validate (body e) = Ok tt -> (MAX_ENVELOPE_BYTES <? blen (wire_bytes e)) = false.
Proof.
  intros Hv. pose proof (blen_body_bytes _ Hv). rewrite blen_wire_bytes.
  unfold MAX_ENVELOPE_BYTES in *. apply Z.ltb_ge. lia.
Qed.

Lemma parse_signed_run {B} (read : Kind -> Reader.R B) e b :
  Body_validate (body e) = Ok tt ->
  parses (read (Body_kind (body e))) (body_bytes (body e)) b ->
  parse_signed read (Reader.new (wire_bytes e)) =
  (Reader.Reader (wire_bytes e) (blen (transcript_bytes e)),
   Ok (federation e, attempt e, sender e, recipient e, b)).
Proof.
  intros Hv Hb. pose proof (parses_signed read e b Hb []
    (abytes (classical_signature e) ++ abytes (post_quantum_signature e))) as Hp.
  apply Hp, wire_size, encoded_size, Hv.
Qed.

Lemma parse_signatures_wire e :
  Body_validate (body e) = Ok tt ->
  exists s, parse_signatures (Reader.Reader (wire_bytes e) (blen (transcript_bytes e))) =
    (s, Ok (classical_signature e, post_quantum_signature e)).
Proof.
  intros Hv. eexists. apply parse_signatures_run, wire_size, encoded_size, Hv.
Qed.

Lemma decode_encode e :
  Body_validate (body e) = Ok tt -> Envelope.decode (wire_bytes e) = Ok e.
Proof.
  intros Hv. rewrite decode_split, encoded_size by done.
  rewrite (parse_signed_run _ _ _ Hv (parses_body _ Hv)), Hv.
  destruct (parse_signatures_wire e Hv) as [s ->].
  destruct e. cbn -[Envelope.encode wire_bytes]. rewrite encode_ok by done.
  by rewrite decide_refl.
Qed.

Lemma verify_signed_bytes e :
  Body_validate (body e) = Ok tt ->
  Envelope.verify e =
  dual_verify (sender e) (transcript_bytes e) (classical_signature e) (post_quantum_signature e).
Proof. intros Hv. unfold Envelope.verify. by rewrite signed_bytes_ok. Qed.

Lemma verify_wire_encode e :
  Body_validate (body e) = Ok tt -> Envelope.verify_wire (wire_bytes e) = Envelope.verify e.
Proof.
  intros Hv. rewrite verify_wire_split, encoded_size by done.
  rewrite (parse_signed_run _ _ _ Hv (parses_scan_body _ Hv)).
  destruct (parse_signatures_wire e Hv) as [s ->].
  rewrite verify_signed_bytes by done. f_equal.
  change (Reader.offset _) with (blen (transcript_bytes e)).
  apply (range_app_mid [] (transcript_bytes e)).
Qed.

Lemma decode_inv w e : Envelope.decode w = Ok e -> Envelope.encode e = Ok w.
Proof.
  rewrite decode_split. intros Hd.
  repeat (case_match; simplify_eq/=; try done).
  match goal with Hn : ¬ _ <> w |- _ => rewrite <- (dec_stable Hn) end. done.
Qed.

Lemma decode_ok w e : Envelope.decode w = Ok e <-> Envelope.encode e = Ok w.
Proof.
  split; [apply decode_inv|]. intros [Hv ->]%encode_inv. by apply decode_encode.
Qed.

(** *** Errors of the reader *)
Definition reader_errors : list Error :=
  [Truncated; FieldTooLarge; TrailingBytes; BadMarker; UnsupportedVersion; UnknownKind].

Definition errs {A} (m : Reader.R A) : Prop :=
  forall s s' er, m s = (s', Err er) -> er ∈ reader_errors.

Lemma errs_bind {A B} (m : Reader.R A) (k : A -> Reader.R B) :
  errs m -> (forall a, errs (k a)) -> errs (bind m k).
Proof. intros Hm Hk s s' er [?|(s1 & a & _ & ?)]%bind_err; [by eapply Hm | by eapply Hk]. Qed.

Lemma errs_lift {A} (r : result Error A) :
  (forall er, r = Err er -> er ∈ reader_errors) -> errs (lift r).
Proof. intros Hr s s' er [= _ H1]. auto. Qed.

Lemma errs_ok {A} (a : A) : errs (ret a).
Proof. done. Qed.

Lemma errs_fail {A} er : er ∈ reader_errors -> errs (@fail _ _ A er).
Proof. intros Hr s s' er' [= _ <-]. done. Qed.

Lemma errs_get : errs get.
Proof. done. Qed.

Lemma errs_ok_or {A} (o : option A) er : er ∈ reader_errors -> errs (lift (ok_or o er)).
Proof. intros Hr. apply errs_lift. by intros er' [_ ->]%ok_or_err. Qed.

Create HintDb errs discriminated.
#[local] Hint Resolve errs_bind errs_ok errs_fail errs_get errs_ok_or : errs.
#[local] Hint Extern 1 (_ ∈ reader_errors) => unfold reader_errors; set_solver : errs.

Lemma errs_modify f : errs (modify f).
Proof. done. Qed.

Lemma errs_advance n : errs (Reader.advance n).
Proof. unfold Reader.advance. auto 10 using errs_modify with errs. Qed.

Lemma errs_fixed n : errs (Reader.fixed n).
Proof. unfold Reader.fixed. auto using errs_advance with errs. Qed.
#[local] Hint Resolve errs_modify errs_advance errs_fixed : errs.

Lemma errs_u8 : errs Reader.u8.
Proof. unfold Reader.u8. auto with errs. Qed.
Lemma errs_u16 : errs Reader.u16.
Proof. unfold Reader.u16. auto with errs. Qed.
Lemma errs_u32 : errs Reader.u32.
Proof. unfold Reader.u32. auto with errs. Qed.

Lemma errs_validate_len n maximum : errs (lift (validate_len n maximum)).
Proof. apply errs_lift. intros er [-> _]%validate_len_err. unfold reader_errors. set_solver. Qed.
#[local] Hint Resolve errs_u8 errs_u16 errs_u32 errs_validate_len : errs.

Lemma errs_bytes maximum : errs (Reader.bytes maximum).
Proof. unfold Reader.bytes, Reader.bytes_ref. auto with errs. Qed.
#[local] Hint Resolve errs_bytes : errs.

Lemma errs_body k : errs (read_body k).
Proof. destruct k; cbn [read_body]; auto with errs. Qed.

Lemma errs_kind b : errs (lift (Kind_try_from b)).
Proof. apply errs_lift. destruct b; simpl; intros er [= <-]; unfold reader_errors; set_solver. Qed.

Lemma errs_identity : errs read_identity.
Proof. unfold read_identity. auto with errs. Qed.

Lemma errs_finish : errs Reader.finish.
Proof. apply errs_bind; [apply errs_get|]. intros s. case_decide; auto with errs. Qed.
#[local] Hint Resolve errs_body errs_kind errs_identity errs_finish : errs.

Lemma errs_signed : errs (parse_signed read_body).
Proof.
  unfold parse_signed. apply errs_bind; [auto with errs|]. intros m.
  case_decide; [auto with errs|]. apply errs_bind; [auto with errs|]. intros v.
  case_decide; auto 20 with errs.
Qed.

Lemma errs_signatures : errs parse_signatures.
Proof. unfold parse_signatures. auto with errs. Qed.

Lemma decode_verified_ok w e :
  Envelope.decode_verified w = Ok e <->
  Envelope.encode e = Ok w /\ Envelope.verify e = Ok tt.
Proof.
  unfold Envelope.decode_verified. rewrite res_bind_ok. split.
  - intros ([] & Hw & Hd%decode_ok). pose proof Hd as [Hv ->]%encode_inv.
    by rewrite verify_wire_encode in Hw.
  - intros [Hd Hve]. pose proof Hd as [Hv ->]%encode_inv. exists tt.
    by rewrite verify_wire_encode, decode_encode.
Qed.

(** *** Signing *)
Section signing.
Context {S : Type} `{EndpointSigner S}.

Definition signed_envelope (signer : S) f a r b : Envelope :=
  let e := {| federation := f; attempt := a; sender := endpoint signer; recipient := r;
              body := b; classical_signature := array_fill 64 x00;
              post_quantum_signature := array_fill 3309 x00 |} in
  Envelope.with_signatures e (sign_classical signer (transcript_bytes e))
    (sign_post_quantum signer (transcript_bytes e)).

Lemma sign_ok signer f a r b e :
  Envelope.sign signer f a r b = Ok e <->
  Body_validate b = Ok tt /\ e = signed_envelope signer f a r b.
Proof.
  unfold Envelope.sign. destruct (Body_validate b) as [[]|] eqn:Hv; [|naive_solver].
  unfold res_bind. rewrite signed_bytes_ok by done. naive_solver.
Qed.

Lemma sign_err signer f a r b er :
  Envelope.sign signer f a r b = Err er <-> Body_validate b = Err er.
Proof.
  unfold Envelope.sign. destruct (Body_validate b) as [[]|] eqn:Hv; [|naive_solver].
  unfold res_bind. rewrite signed_bytes_ok by done. naive_solver.
Qed.

Lemma sign_verifies `{!LawfulSigner S} signer f a r b e :
  Envelope.sign signer f a r b = Ok e -> Envelope.verify e = Ok tt.
Proof.
  intros [Hv ->]%sign_ok. rewrite verify_signed_bytes by done. apply signer_verifies.
Qed.

Lemma sign_decodes `{!LawfulSigner S} signer f a r b e :
  Envelope.sign signer f a r b = Ok e ->
  exists w, Envelope.encode e = Ok w /\ Envelope.decode_verified w = Ok e.
Proof.
  intros He. pose proof He as [Hv ->]%sign_ok. eexists. rewrite encode_ok by done.
  split; [done|]. apply decode_verified_ok. rewrite encode_ok by done.
  split; [done|]. by eapply sign_verifies.
Qed.
End signing.

(** ** Theorems *)

(** C20: decoding and encoding are inverse: a byte string decodes to an envelope
    exactly when it is that envelope's canonical encoding.  No other byte string
    decodes to it, and every envelope that can be encoded is decoded back field
    for field, signatures included. *)
Theorem decode_iff_encode w e : Envelope.decode w = Ok e <-> Envelope.encode e = Ok w.
Proof. apply decode_ok. Qed.

(** the strict reader is canonical by construction: decoding fails only with
    one of the size, marker, version, kind, field or trailing-bytes errors, so
    the final comparison with the re-encoded envelope never reports a
    non-canonical encoding. *)
Theorem decode_errors w er :
  Envelope.decode w = Err er -> er ∈ TooLarge :: reader_errors.
Proof.
  rewrite decode_split. case_match; [intros [= <-]; set_solver|].
  destruct (parse_signed read_body (Reader.new w)) as [s [[[[[f a] i] j] b]|er']] eqn:Hs.
  2:{ intros [= <-]. apply errs_signed in Hs. set_solver. }
  destruct (parse_signatures s) as [s' [[cs ps]|er']] eqn:Hp.
  - destruct (parse_wire_image _ _ _ _ _ _ _ _ _ _ Hs Hp) as (Hw & Hv & _).
    rewrite Hv. cbv zeta. rewrite encode_ok, <- Hw by done. by rewrite decide_refl.
  - apply (yields_signed (array_fill 64 x00) (array_fill 3309 x00)) in Hs as [_ Hv].
    2:{ split; simpl; [lia | apply blen_nonneg]. }
    rewrite Hv. intros [= <-]. apply errs_signatures in Hp. set_solver.
Qed.

(** the borrowed scan that checks signatures before anything is allocated
    accepts exactly the inputs that decode to an envelope whose two signatures
    verify over its canonical transcript. *)
Theorem verify_wire_iff w :
  Envelope.verify_wire w = Ok tt <->
  exists e, Envelope.decode w = Ok e /\ Envelope.verify e = Ok tt.
Proof.
  split.
  - intros Hw. pose proof Hw as Hw'. rewrite verify_wire_split, parse_signed_scan in Hw'.
    destruct (_ <? _); [done|].
    destruct (parse_signed read_body (Reader.new w)) as [s [[[[[f a] i] j] b]|?]] eqn:Hs; [|done].
    destruct (parse_signatures s) as [s' [[cs ps]|?]] eqn:Hp; [|done].
    destruct (parse_wire_image _ _ _ _ _ _ _ _ _ _ Hs Hp) as (-> & Hv & _).
    eexists. rewrite decode_encode by done. split; [done|].
    by rewrite <- verify_wire_encode.
  - intros (e & [Hv ->]%decode_ok%encode_inv & He). by rewrite verify_wire_encode.
Qed.

(** C1: verified decoding returns an envelope exactly when the input is its
    canonical encoding and both of its signatures verify under the sender it
    names; in particular the check over the borrowed bytes is the same as
    verifying the materialised envelope. *)
Theorem decode_verified_iff w e :
  Envelope.decode_verified w = Ok e <->
  Envelope.encode e = Ok w /\ Envelope.verify e = Ok tt.
Proof. apply decode_verified_ok. Qed.

(** what a lawful signer signs is accepted end to end: whenever signing
    succeeds the envelope encodes, its encoding passes verified decoding and
    yields the same envelope, with the fields that were asked to be signed. *)
Theorem sign_encode_decode_verified {S} `{EndpointSigner S} `{!LawfulSigner S}
    (signer : S) f a r b :
  Body_validate b = Ok tt ->
  exists e w, Envelope.sign signer f a r b = Ok e /\ Envelope.encode e = Ok w /\
    Envelope.decode_verified w = Ok e /\
    (federation e, attempt e, sender e, recipient e, body e) = (f, a, endpoint signer, r, b).
Proof.
  intros Hv. exists (signed_envelope signer f a r b).
  assert (Hs : Envelope.sign signer f a r b = Ok (signed_envelope signer f a r b))
    by by apply sign_ok.
  destruct (sign_decodes _ _ _ _ _ _ Hs) as (w & ? & ?). by exists w.
Qed.
End envelopes.

(** The signed transcript is injective: two envelopes with the same signed
    bytes agree on federation, attempt, sender, recipient and body, so neither
    signature can be moved to an envelope with another kind, addressee or
    payload. *)
Theorem signed_bytes_injective e e' t :
  Envelope.signed_bytes e = Ok t -> Envelope.signed_bytes e' = Ok t ->
  (federation e, attempt e, sender e, recipient e, body e) =
  (federation e', attempt e', sender e', recipient e', body e').
Proof.
  intros [Hv Ht]%signed_bytes_inv [Hv' Ht']%signed_bytes_inv. subst t.
  pose (cs := classical_signature e). pose (ps := post_quantum_signature e).
  assert (Hw : wire_bytes (Envelope.with_signatures e cs ps) =
               wire_bytes (Envelope.with_signatures e' cs ps)).
  { unfold wire_bytes. f_equal. exact Ht'. }
  pose proof (decode_encode (Envelope.with_signatures e cs ps) Hv) as Hd.
  rewrite Hw, decode_encode in Hd by done.
  injection Hd as -> -> -> -> ->. done.
Qed.

(** *** Truncated input *)
Lemma cuts_signed {B} (read : Kind -> Reader.R B) e b :
  parses (read (Body_kind (body e))) (body_bytes (body e)) b ->
  cuts (read (Body_kind (body e))) (body_bytes (body e)) ->
  cuts (parse_signed read) (transcript_bytes e).
Proof.
  intros Hb Hc. unfold parse_signed, transcript_bytes, header_bytes. rewrite <- !app_assoc.
  destruct marker_array as [m Hm].
  eapply (cuts_bind _ _ _ _ m); [rewrite <- Hm; apply parses_fixed | rewrite <- Hm; apply cuts_fixed |].
  rewrite Hm, decide_refl.
  eapply cuts_bind; [apply parses_u8 | apply cuts_u8 |]. rewrite decide_refl.
  eapply cuts_bind; [apply parses_u8 | apply cuts_u8 |].
  rewrite <- (app_nil_l (_ ++ _)).
  eapply cuts_bind; [apply parses_lift, Kind_roundtrip | apply cuts_nil |].
  do 2 (eapply cuts_bind; [apply parses_fixed | apply cuts_fixed |]).
  do 2 (eapply cuts_bind; [apply parses_identity | apply cuts_identity |]).
  by apply cuts_bind_nil.
Qed.

Lemma cuts_signatures (cs : array 64) (ps : mldsa_signature) :
  cuts parse_signatures (abytes cs ++ abytes ps).
Proof.
  unfold parse_signatures. eapply cuts_bind; [apply parses_fixed | apply cuts_fixed |].
  apply cuts_bind_nil, cuts_fixed.
Qed.

(** On a strict prefix of an encoding one of the two parsers is cut off. *)
Lemma truncated_parse {B} (read : Kind -> Reader.R B) e b x y :
  Body_validate (body e) = Ok tt -> wire_bytes e = x ++ y -> y <> [] ->
  parses (read (Body_kind (body e))) (body_bytes (body e)) b ->
  cuts (read (Body_kind (body e))) (body_bytes (body e)) ->
  (MAX_ENVELOPE_BYTES <? blen x) = false /\
  (eval (parse_signed read) (Reader.new x) = Err Truncated \/
   exists s, parse_signed read (Reader.new x) =
      (s, Ok (federation e, attempt e, sender e, recipient e, b)) /\
     eval parse_signatures s = Err Truncated).
Proof.
  intros Hv Hw Hy Hp Hc. pose proof (encoded_size e Hv) as Hsz.
  pose proof (wire_size _ Hsz) as Hu.
  assert (Ht : blen (transcript_bytes e) <= USIZE_MAX).
  { rewrite blen_wire_bytes in Hu. rewrite blen_transcript_bytes. lia. }
  rewrite Hw in Hsz, Hu. autorewrite with blen in Hsz, Hu. pose proof (blen_nonneg y).
  apply Z.ltb_ge in Hsz. split; [apply Z.ltb_ge; lia|].
  unfold wire_bytes in Hw. apply prefix_split in Hw as [(y' & He & Hy')|(x' & -> & Hs)]; [| |done].
  - left. by apply (cuts_signed read e b Hp Hc [] x y' He Hy').
  - right. eexists. split; [apply (parses_signed read e b Hp [] x'); rewrite app_nil_l, blen_app in *; lia|].
    apply (cuts_signatures _ _ _ _ _ Hs Hy). rewrite Hs. autorewrite with blen in *. lia.
Qed.

(** every strict prefix of an encoded envelope is rejected as truncated, by
    decoding as well as by the scan that precedes verified decoding. *)
Theorem decode_truncated `{Crypto} e x y :
  Envelope.encode e = Ok (x ++ y) -> y <> [] ->
  Envelope.decode x = Err Truncated /\ Envelope.decode_verified x = Err Truncated.
Proof.
  intros [Hv Hw]%encode_inv Hy. split.
  - destruct (truncated_parse _ _ _ _ _ Hv (eq_sym Hw) Hy (parses_body _ Hv) (cuts_body _ Hv))
      as [Hsz [Hs|(s & Hs & Hp)]]; rewrite decode_split, Hsz; unfold eval in *.
    + destruct (parse_signed _ _) as [? [?|?]]; naive_solver.
    + rewrite Hs, Hv. destruct (parse_signatures s) as [? [?|?]]; naive_solver.
  - unfold Envelope.decode_verified.
    destruct (truncated_parse _ _ _ _ _ Hv (eq_sym Hw) Hy (parses_scan_body _ Hv) (cuts_scan_body _ Hv))
      as [Hsz [Hs|(s & Hs & Hp)]]; rewrite verify_wire_split, Hsz; unfold eval in *.
    + destruct (parse_signed _ _) as [? [?|?]]; naive_solver.
    + rewrite Hs. destruct (parse_signatures s) as [? [?|?]]; naive_solver.
Qed.

Lemma parse_signatures_trailing pre (cs : array 64) (ps : mldsa_signature) y :
  y <> [] -> blen (pre ++ abytes cs ++ abytes ps ++ y) <= USIZE_MAX ->
  eval parse_signatures (Reader.Reader (pre ++ abytes cs ++ abytes ps ++ y) (blen pre)) =
  Err TrailingBytes.
Proof.
  intros Hy Hl. unfold eval, parse_signatures.
  erewrite bind_step by by apply (parses_fixed cs pre (abytes ps ++ y)).
  pose proof (parses_fixed ps (pre ++ abytes cs) y) as Hp.
  rewrite <- app_assoc, (blen_app pre (abytes cs)) in Hp. specialize (Hp Hl).
  erewrite bind_step by exact Hp.
  unfold Reader.finish, bind, get, fail. simpl. case_decide as E; [|done].
  exfalso. destruct y as [|c y]; [done|]. autorewrite with blen in E. pose proof (blen_nonneg y). lia.
Qed.

(** bytes after an encoded envelope are never ignored: the extended input is
    rejected with [TrailingBytes], or with [TooLarge] when it exceeds the bound
    on a whole envelope. *)
Theorem decode_trailing `{Crypto} e w y :
  Envelope.encode e = Ok w -> y <> [] ->
  let er := if MAX_ENVELOPE_BYTES <? blen (w ++ y) then TooLarge else TrailingBytes in
  Envelope.decode (w ++ y) = Err er /\ Envelope.decode_verified (w ++ y) = Err er.
Proof.
  intros [Hv ->]%encode_inv Hy er. unfold Envelope.decode_verified.
  rewrite decode_split, verify_wire_split. unfold er.
  destruct (_ <? _) eqn:Hsz; [done|]. apply wire_size in Hsz.
  unfold wire_bytes in *. rewrite <- !app_assoc in *. unfold Reader.new.
  pose proof (parse_signatures_trailing _ _ _ _ Hy Hsz) as Ht. unfold eval in Ht.
  pose proof (parses_signed _ e _ (parses_body _ Hv) [] _ Hsz) as Hr.
  pose proof (parses_signed _ e _ (parses_scan_body _ Hv) [] _ Hsz) as Hs.
  change (blen (@nil byte)) with 0 in Hr, Hs. cbn [app Z.add] in Hr, Hs. rewrite Hr, Hs, Hv.
  destruct (parse_signatures _) as [? [?|?]]; naive_solver.
Qed.

(** ** Concrete runs *)
Definition sample_envelope : Envelope :=
  {| federation := Sample.federation x01; attempt := Sample.attempt x02;
     sender := Sample.identity x03; recipient := Sample.identity x04;
     body := BCfrControl [x05; x06];
     classical_signature := array_fill 64 x07; post_quantum_signature := array_fill 3309 x08 |}.

Lemma sample_encode : Envelope.encode sample_envelope = Ok (wire_bytes sample_envelope).
Proof. by apply encode_ok. Qed.

Lemma decode_errors_witness : Truncated ∈ TooLarge :: reader_errors.
Proof. apply (decode_errors []). vm_compute. reflexivity. Defined.

Lemma sign_encode_decode_verified_witness :
  exists e w,
    @Envelope.sign _ (@SigningIdentity_signer Sample.crypto) (Sample.signer x03)
      (Sample.federation x01) (Sample.attempt x02) (Sample.identity x04)
      (BCfrControl [x05; x06]) = Ok e /\
    Envelope.encode e = Ok w /\ @Envelope.decode_verified Sample.crypto w = Ok e /\
    (federation e, attempt e, sender e, recipient e, body e) =
    (Sample.federation x01, Sample.attempt x02, Sample.identity x03, Sample.identity x04,
     BCfrControl [x05; x06]).
Proof.
  exact (@sign_encode_decode_verified Sample.crypto _ _
    (@SigningIdentity_lawful _ Sample.crypto_laws) (Sample.signer x03) (Sample.federation x01)
    (Sample.attempt x02) (Sample.identity x04) (BCfrControl [x05; x06]) eq_refl).
Defined.

Lemma signed_bytes_injective_witness :
  let e := sample_envelope in
  let e' := Envelope.with_signatures e (array_fill 64 x00) (array_fill 3309 x00) in
  (federation e, attempt e, sender e, recipient e, body e) =
  (federation e', attempt e', sender e', recipient e', body e').
Proof.
  intros e e'. apply (signed_bytes_injective e e' (transcript_bytes e)).
  - by apply signed_bytes_ok.
  - by apply (signed_bytes_ok e').
Defined.

Lemma decode_truncated_witness :
  let x := take 7000 (wire_bytes sample_envelope) in
  Envelope.decode x = Err Truncated /\ @Envelope.decode_verified Sample.crypto x = Err Truncated.
Proof.
  apply (decode_truncated sample_envelope _ (drop 7000 (wire_bytes sample_envelope))).
  - rewrite take_drop. apply sample_encode.
  - by vm_compute.
Defined.

Lemma decode_trailing_witness :
  let w := wire_bytes sample_envelope ++ [x00] in
  Envelope.decode w = Err TrailingBytes /\
  @Envelope.decode_verified Sample.crypto w = Err TrailingBytes.
Proof.
  apply (decode_trailing sample_envelope (wire_bytes sample_envelope) [x00]);
    [apply sample_encode | done].
Defined.
