(* ===== verification/Conn.v ===== *)
(** * The per-peer connection state machine

    [crates/libfcp-core/src/connection.rs]: one connection attempt between two
    pinned endpoints, its negotiation phases, the actions it asks of a platform
    adapter and the bounded window of envelopes it has already processed. *)

From Stdlib Require Import ZArith Lia String.
From stdpp Require Import base list option numbers decidable sets relations.
From S2P Require Import Prelude Bytes BTree Types Identity Sample Wire Codec.

Inductive Phase : Type :=
| Idle
| OfferSent
| OfferReceived
| AnswerSent
| AnswerReceived
| Established
| Closed.

#[export] Instance Phase_eq_dec : EqDecision Phase.
Proof. solve_decision. Defined.

Record NegotiationIds : Type := { offer : EnvelopeId; answer_id : option EnvelopeId }.

#[export] Instance NegotiationIds_eq_dec : EqDecision NegotiationIds.
Proof. solve_decision. Defined.

Inductive Action : Type :=
| Send (envelope : Envelope)
| ApplyOffer (binding : WebRtcBinding) (description : bytes)
| ApplyAnswer (binding : WebRtcBinding) (description : bytes)
| AddCandidate (sequence : u32) (candidate : bytes)
| OpenControlChannel
| DeliverCfr (envelope_id : EnvelopeId) (remote_endpoint : EndpointIdentity) (payload : bytes)
| CloseTransport (reason : CloseCode).

#[export] Instance Action_eq_dec : EqDecision Action.
Proof. solve_decision. Defined.

Record ControlChannelConfig : Type := {
  label : string;
  protocol : string;
  ordered : bool;
  reliable : bool;
  binary : bool;
}.

Definition CONTROL_CHANNEL : ControlChannelConfig :=
  {| label := "org.nixort.cfr.fcp.control/1"; protocol := PROTOCOL_ID;
     ordered := true; reliable := true; binary := true |}.

Module Connection.

Record t : Type := {
  federation : FederationId;
  attempt : AttemptId;
  local : EndpointIdentity;
  remote : EndpointIdentity;
  phase : Phase;
  negotiation : option NegotiationIds;
  seen : list EnvelopeId;
}.

Definition C (A : Type) : Type := M t Error A.

Definition set_phase (p : Phase) (self : t) : t :=
  {| federation := federation self; attempt := attempt self; local := local self;
     remote := remote self; phase := p; negotiation := negotiation self; seen := seen self |}.
Definition set_negotiation (n : option NegotiationIds) (self : t) : t :=
  {| federation := federation self; attempt := attempt self; local := local self;
     remote := remote self; phase := phase self; negotiation := n; seen := seen self |}.
Definition set_seen (l : list EnvelopeId) (self : t) : t :=
  {| federation := federation self; attempt := attempt self; local := local self;
     remote := remote self; phase := phase self; negotiation := negotiation self; seen := l |}.

Definition new (federation : FederationId) (attempt : AttemptId)
    (local remote : EndpointIdentity) : result Error t :=
  if decide (local = remote) then Err SameEndpoint else
  Ok {| federation := federation; attempt := attempt; local := local; remote := remote;
        phase := Idle; negotiation := None; seen := [] |}.

(** The [matches!] of the phases that have a live negotiation. *)
Definition negotiating (p : Phase) : bool :=
  match p with
  | OfferSent | OfferReceived | AnswerSent | AnswerReceived | Established => true
  | Idle | Closed => false
  end.

(** The [matches!] of the phases in which nothing can be closed. *)
Definition inactive (p : Phase) : bool :=
  match p with
  | Idle | Closed => true
  | _ => false
  end.

Definition note_seen (id : EnvelopeId) : C unit :=
  do self <- get;
  do_ (if decide (blen (seen self) = MAX_SEEN_ENVELOPES)
       then modify (set_seen (tail (seen self))) else ret tt);
  modify (fun self => set_seen (seen self ++ [id]) self).

Definition validate_candidate_parent (parent : EnvelopeId) : C unit :=
  do self <- get;
  do ids <- lift (ok_or (negotiation self) InvalidState);
  if negb (negotiating (phase self)) then fail InvalidState else
  if decide (parent <> offer ids /\ answer_id ids <> Some parent)
  then fail WrongCandidateParent else ret tt.

Section operations.
Context `{Crypto}.

Definition validate_inbound (envelope : Envelope) : C unit :=
  do self <- get;
  if decide (Wire.federation envelope <> federation self) then fail WrongFederation else
  if decide (Wire.attempt envelope <> attempt self) then fail WrongAttempt else
  if decide (sender envelope <> remote self) then fail WrongSender else
  if decide (recipient envelope <> local self) then fail WrongRecipient else
  lift (Envelope.verify envelope).

(** The [match] of [receive] on the body of a fresh envelope. *)
Definition receive_body (id : EnvelopeId) (remote_endpoint : EndpointIdentity) (body : Body) :
    C (list Action) :=
  do self <- get;
  match body with
  | BOffer binding description =>
      if decide (phase self = OfferSent) then fail Glare else
      if decide (phase self <> Idle) then fail InvalidState else
      do_ modify (set_negotiation (Some {| offer := id; answer_id := None |}));
      do_ modify (set_phase OfferReceived);
      ret [ApplyOffer binding description]
  | BAnswer offer_id binding description =>
      if decide (phase self <> OfferSent) then fail InvalidState else
      do ids <- lift (ok_or (negotiation self) InvalidState);
      if decide (offer ids <> offer_id) then fail InvalidState else
      do ids <- lift (ok_or (negotiation self) InvalidState);
      do_ modify (set_negotiation (Some {| offer := offer ids; answer_id := Some id |}));
      do_ modify (set_phase AnswerReceived);
      ret [ApplyAnswer binding description]
  | BCandidate parent_id sequence candidate =>
      do_ validate_candidate_parent parent_id;
      ret [AddCandidate sequence candidate]
  | BClose reason =>
      if inactive (phase self) then fail InvalidState else
      do_ modify (set_phase Closed);
      ret [CloseTransport reason]
  | BCfrControl payload =>
      if decide (phase self <> Established) then fail InvalidState else
      ret [DeliverCfr id remote_endpoint payload]
  end.

Definition receive (envelope : Envelope) : C (list Action) :=
  do_ validate_inbound envelope;
  do id <- lift (Envelope.id envelope);
  let remote_endpoint := sender envelope in
  do self <- get;
  if decide (id ∈ seen self) then ret [] else
  do actions <- receive_body id remote_endpoint (body envelope);
  do_ note_seen id;
  ret actions.

Definition transport_connected : C (list Action) :=
  do self <- get;
  match phase self with
  | AnswerSent | AnswerReceived =>
      do_ modify (set_phase Established);
      ret []
  | _ => fail InvalidState
  end.

Definition transport_failed : C unit :=
  do self <- get;
  if inactive (phase self) then fail InvalidState else modify (set_phase Closed).

Context {S : Type} `{EndpointSigner S}.

Definition require_local_signer (signer : S) : C unit :=
  do self <- get;
  if decide (endpoint signer <> local self) then fail WrongLocalSigner else ret tt.

Definition begin_offer (signer : S) (binding : WebRtcBinding) (description : bytes) :
    C (list Action) :=
  do_ require_local_signer signer;
  do self <- get;
  if decide (phase self <> Idle) then fail InvalidState else
  do offer <- lift (Envelope.sign signer (federation self) (attempt self) (remote self)
                      (BOffer binding description));
  do id <- lift (Envelope.id offer);
  do_ modify (set_negotiation (Some {| offer := id; answer_id := None |}));
  do_ modify (set_phase OfferSent);
  ret [OpenControlChannel; Send offer].

Definition answer (signer : S) (binding : WebRtcBinding) (description : bytes) : C Action :=
  do_ require_local_signer signer;
  do self <- get;
  if decide (phase self <> OfferReceived) then fail InvalidState else
  do ids <- lift (ok_or (negotiation self) InvalidState);
  let offer_id := offer ids in
  do answer <- lift (Envelope.sign signer (federation self) (attempt self) (remote self)
                       (BAnswer offer_id binding description));
  do id <- lift (Envelope.id answer);
  do_ modify (set_negotiation (Some {| offer := offer_id; answer_id := Some id |}));
  do_ modify (set_phase AnswerSent);
  ret (Send answer).

Definition candidate (signer : S) (sequence : u32) (candidate : bytes) : C Action :=
  do_ require_local_signer signer;
  do self <- get;
  if negb (negotiating (phase self)) then fail InvalidState else
  do ids <- lift (ok_or (negotiation self) InvalidState);
  let parent_id := default (offer ids) (answer_id ids) in
  do envelope <- lift (Envelope.sign signer (federation self) (attempt self) (remote self)
                         (BCandidate parent_id sequence candidate));
  ret (Send envelope).

Definition cfr_control (signer : S) (payload : bytes) : C Action :=
  do_ require_local_signer signer;
  do self <- get;
  if decide (phase self <> Established) then fail InvalidState else
  do envelope <- lift (Envelope.sign signer (federation self) (attempt self) (remote self)
                         (BCfrControl payload));
  ret (Send envelope).

Definition close (signer : S) (reason : CloseCode) : C Action :=
  do_ require_local_signer signer;
  do self <- get;
  if inactive (phase self) then fail InvalidState else
  do_ modify (set_phase Closed);
  do self <- get;
  do envelope <- lift (Envelope.sign signer (federation self) (attempt self) (remote self)
                         (BClose reason));
  ret (Send envelope).

(** ** Executions

    Everything a caller can do to a connection, and its effect: the next state
    and the actions handed to the adapter, or the error. *)
Inductive Input : Type :=
| IBeginOffer (signer : S) (binding : WebRtcBinding) (description : bytes)
| IAnswer (signer : S) (binding : WebRtcBinding) (description : bytes)
| ICandidate (signer : S) (sequence : u32) (candidate : bytes)
| ICfrControl (signer : S) (payload : bytes)
| IClose (signer : S) (reason : CloseCode)
| IReceive (envelope : Envelope)
| ITransportConnected
| ITransportFailed.

Definition one {A} (m : C A) : C (list A) := do a <- m; ret [a].

Definition run (i : Input) : C (list Action) :=
  match i with
  | IBeginOffer signer b d => begin_offer signer b d
  | IAnswer signer b d => one (answer signer b d)
  | ICandidate signer s c => one (candidate signer s c)
  | ICfrControl signer p => one (cfr_control signer p)
  | IClose signer r => one (close signer r)
  | IReceive e => receive e
  | ITransportConnected => transport_connected
  | ITransportFailed => do_ transport_failed; ret []
  end.

(** Envelope ids a run adds to the processed ones: that of a received envelope
    which produced actions. *)
Definition accepted (i : Input) (r : result Error (list Action)) : list EnvelopeId :=
  match i, r with
  | IReceive e, Ok (_ :: _) =>
      match Envelope.id e with
      | Ok id => [id]
      | Err _ => []
      end
  | _, _ => []
  end.

(** [reaches c0 log c]: some inputs lead from [c0] to [c], the ids in [log]
    being processed on the way, in this order. *)
Inductive reaches (c0 : t) : list EnvelopeId -> t -> Prop :=
| reaches_refl : reaches c0 [] c0
| reaches_step log c i c' r :
    reaches c0 log c -> run i c = (c', r) -> reaches c0 (log ++ accepted i r) c'.

End operations.

(** ** What an inbound envelope may do

    The contract of [receive] without its control flow: which bodies a state
    admits, the state an admitted body leads to and the one action it causes. *)
Definition bound_to (e : Envelope) (c : t) : Prop :=
  Wire.federation e = federation c /\ Wire.attempt e = attempt c /\
  sender e = remote c /\ recipient e = local c.

Definition admits (c : t) (b : Body) : Prop :=
  match b with
  | BOffer _ _ => phase c = Idle
  | BAnswer o _ _ => phase c = OfferSent /\ offer <$> negotiation c = Some o
  | BCandidate p _ _ =>
      negotiating (phase c) = true /\
      exists ids, negotiation c = Some ids /\ (p = offer ids \/ answer_id ids = Some p)
  | BClose _ => inactive (phase c) = false
  | BCfrControl _ => phase c = Established
  end.

Definition after (id : EnvelopeId) (b : Body) (c : t) : t :=
  match b with
  | BOffer _ _ =>
      set_phase OfferReceived (set_negotiation (Some {| offer := id; answer_id := None |}) c)
  | BAnswer o _ _ =>
      set_phase AnswerReceived (set_negotiation (Some {| offer := o; answer_id := Some id |}) c)
  | BClose _ => set_phase Closed c
  | BCandidate _ _ _ | BCfrControl _ => c
  end.

Definition action_of (id : EnvelopeId) (from : EndpointIdentity) (b : Body) : Action :=
  match b with
  | BOffer binding d => ApplyOffer binding d
  | BAnswer _ binding d => ApplyAnswer binding d
  | BCandidate _ s c => AddCandidate s c
  | BClose r => CloseTransport r
  | BCfrControl p => DeliverCfr id from p
  end.

(** The window of processed ids after one more. *)
Definition push (id : EnvelopeId) (l : list EnvelopeId) : list EnvelopeId :=
  (if decide (blen l = MAX_SEEN_ENVELOPES) then tail l else l) ++ [id].

Lemma note_seen_run id c : note_seen id c = (set_seen (push id (seen c)) c, Ok tt).
Proof. unfold note_seen, push, bind, get, modify, ret. by case_decide. Qed.

Lemma validate_candidate_parent_spec p c :
  exists r, validate_candidate_parent p c = (c, r) /\
  (r = Ok tt <-> negotiating (phase c) = true /\
     exists ids, negotiation c = Some ids /\ (p = offer ids \/ answer_id ids = Some p)).
Proof.
  unfold validate_candidate_parent, bind, get, lift, ok_or, fail, ret.
  destruct (negotiation c) as [ids|]; [|naive_solver].
  destruct (negotiating (phase c)); simpl; [|naive_solver].
  case_decide as E; eexists; (split; [done|]).
  - naive_solver.
  - split; [|done]. intros _. split; [done|]. exists ids. split; [done|].
    destruct (decide (p = offer ids)), (decide (answer_id ids = Some p)); tauto.
Qed.

Section receive.
Context `{Crypto}.

Lemma validate_inbound_spec e c :
  exists r, validate_inbound e c = (c, r) /\
  (r = Ok tt <-> bound_to e c /\ Envelope.verify e = Ok tt).
Proof.
  unfold validate_inbound, bound_to, bind, get, fail, lift.
  repeat (case_decide; [eexists; split; [done|]; naive_solver|]).
  eexists. split; [done|].
  naive_solver.
Qed.

Lemma receive_body_ok id re b c c' acts :
  receive_body id re b c = (c', Ok acts) <->
  admits c b /\ c' = after id b c /\ acts = [action_of id re b].
Proof.
  destruct b as [bi d|o bi d|p s cd|r|p]; unfold receive_body, admits, after, action_of;
    unfold bind, get, fail, lift, ok_or, modify, ret.
  - repeat case_decide; naive_solver congruence.
  - destruct (negotiation c) as [ids|]; repeat case_decide; naive_solver congruence.
  - destruct (validate_candidate_parent_spec p c) as (r & -> & Hr).
    destruct r as [[]|]; naive_solver.
  - destruct (inactive (phase c)); naive_solver.
  - case_decide; naive_solver congruence.
Qed.

Lemma receive_body_err id re b c c' er :
  receive_body id re b c = (c', Err er) -> c' = c.
Proof.
  destruct b as [bi d|o bi d|p s cd|r|p]; unfold receive_body;
    unfold bind, get, fail, lift, ok_or, modify, ret; intros Hr.
  3:{ destruct (validate_candidate_parent_spec p c) as (r & Hv & _). rewrite Hv in Hr.
      destruct r; naive_solver. }
  all: repeat (case_match; simplify_eq; try done).
Qed.

(** The state after accepting a fresh envelope. *)
Definition processed (id : EnvelopeId) (b : Body) (c : t) : t :=
  set_seen (push id (seen c)) (after id b c).

Lemma receive_ok e c c' acts :
  receive e c = (c', Ok acts) <->
  bound_to e c /\ Envelope.verify e = Ok tt /\
  exists id, Envelope.id e = Ok id /\
    ((id ∈ seen c /\ c' = c /\ acts = []) \/
     (id ∉ seen c /\ admits c (body e) /\ c' = processed id (body e) c /\
      acts = [action_of id (sender e) (body e)])).
Proof.
  unfold receive, bind, get, lift, ret.
  destruct (validate_inbound_spec e c) as (r & -> & Hr).
  destruct r as [[]|er]; [|naive_solver]. destruct (proj1 Hr eq_refl) as [Hbound Hver].
  destruct (Envelope.id e) as [id|er]; [|naive_solver].
  case_decide as Hs.
  { split; [intros [= <- <-]; split_and!; [done..|]; eauto 10|].
    intros (_ & _ & id' & [= <-] & [(_ & -> & ->)|[? _]]); done. }
  destruct (receive_body id (sender e) (body e) c) as [c1 [acts1|er]] eqn:Hb.
  - rewrite note_seen_run. apply receive_body_ok in Hb as (Ha & -> & ->).
    replace (set_seen _ _) with (processed id (body e) c) by by destruct (body e).
    split; [intros [= <- <-]; split_and!; [done..|]; eauto 10|].
    intros (_ & _ & id' & [= <-] & [[? _]|(_ & _ & -> & ->)]); done.
  - split; [done|]. intros (_ & _ & id' & [= <-] & [[? _]|(_ & Ha & _)]); [done|].
    rewrite (proj2 (receive_body_ok id (sender e) (body e) c _ _)) in Hb by done. done.
Qed.

Lemma receive_err e c c' er : receive e c = (c', Err er) -> c' = c.
Proof.
  unfold receive, bind, get, lift, ret.
  destruct (validate_inbound_spec e c) as (r & -> & _). destruct r as [[]|?]; [|naive_solver].
  destruct (Envelope.id e) as [id|?]; [|naive_solver]. case_decide; [done|].
  destruct (receive_body id (sender e) (body e) c) as [c1 [acts1|?]] eqn:Hb.
  - by rewrite note_seen_run.
  - intros [= -> ->]. by apply receive_body_err in Hb.
Qed.
End receive.

(** ** Outbound operations *)
Section outbound.
Context `{Crypto} {S : Type} `{EndpointSigner S}.

Lemma id_ok e : Body_validate (body e) = Ok tt ->
  Envelope.id e = Ok (EnvelopeId_from_bytes (blake3_hash (wire_bytes e))).
Proof. intros Hv. unfold Envelope.id. by rewrite encode_ok. Qed.

(** The envelope this connection signs for a body. *)
Definition outgoing (signer : S) (b : Body) (c : t) : Envelope :=
  signed_envelope signer (federation c) (attempt c) (remote c) b.

Definition id_of (e : Envelope) : EnvelopeId :=
  EnvelopeId_from_bytes (blake3_hash (wire_bytes e)).

Lemma accepted_receive e act acts :
  Body_validate (body e) = Ok tt ->
  accepted (S := S) (IReceive e) (Ok (act :: acts)) = [id_of e].
Proof. intros Hv. cbn [accepted]. by rewrite id_ok. Qed.

Lemma begin_offer_ok signer bi d c c' acts :
  begin_offer signer bi d c = (c', Ok acts) <->
  let e := outgoing signer (BOffer bi d) c in
  endpoint signer = local c /\ phase c = Idle /\ Body_validate (BOffer bi d) = Ok tt /\
  c' = set_phase OfferSent (set_negotiation (Some {| offer := id_of e; answer_id := None |}) c) /\
  acts = [OpenControlChannel; Send e].
Proof.
  unfold begin_offer, require_local_signer, bind, get, lift, fail, modify, ret.
  case_decide as H1; [naive_solver|].
  case_decide as H2; [naive_solver|].
  destruct (Envelope.sign _ _ _ _ _) as [e|er] eqn:Hs.
  - apply sign_ok in Hs as [Hv ->]. rewrite id_ok by done.
    split; [by intros [= <- <-] | by intros (_ & _ & _ & -> & ->)].
  - apply sign_err in Hs. split; [done|]. intros (_ & _ & Hv & _). congruence.
Qed.

Lemma answer_ok signer bi d c c' act :
  answer signer bi d c = (c', Ok act) <->
  endpoint signer = local c /\ phase c = OfferReceived /\
  exists ids, negotiation c = Some ids /\
  let e := outgoing signer (BAnswer (offer ids) bi d) c in
  Body_validate (BAnswer (offer ids) bi d) = Ok tt /\
  c' = set_phase AnswerSent
         (set_negotiation (Some {| offer := offer ids; answer_id := Some (id_of e) |}) c) /\
  act = Send e.
Proof.
  unfold answer, require_local_signer, bind, get, lift, ok_or, fail, modify, ret.
  case_decide as H1; [naive_solver|].
  case_decide as H2; [naive_solver|].
  destruct (negotiation c) as [ids|]; [|naive_solver].
  destruct (Envelope.sign _ _ _ _ _) as [e|er] eqn:Hs.
  - apply sign_ok in Hs as [Hv ->]. rewrite id_ok by done.
    split; [intros [= <- <-]; eauto 10 | by intros (_ & _ & ids' & [= <-] & _ & -> & ->)].
  - apply sign_err in Hs. split; [done|].
    intros (_ & _ & ids' & [= <-] & Hv & _). congruence.
Qed.

Lemma candidate_ok signer n cd c c' act :
  candidate signer n cd c = (c', Ok act) <->
  endpoint signer = local c /\ negotiating (phase c) = true /\
  exists ids, negotiation c = Some ids /\
  let b := BCandidate (default (offer ids) (answer_id ids)) n cd in
  Body_validate b = Ok tt /\ c' = c /\ act = Send (outgoing signer b c).
Proof.
  unfold candidate, require_local_signer, bind, get, lift, ok_or, fail, modify, ret.
  case_decide as H1; [naive_solver|].
  destruct (negotiating (phase c)) eqn:Hn; simpl negb; cbv iota; [|naive_solver].
  destruct (negotiation c) as [ids|]; [|naive_solver].
  destruct (Envelope.sign _ _ _ _ _) as [e|er] eqn:Hs.
  - apply sign_ok in Hs as [Hv ->].
    split; [intros [= <- <-]; eauto 10 | by intros (_ & _ & ids' & [= <-] & _ & -> & ->)].
  - apply sign_err in Hs. split; [done|].
    intros (_ & _ & ids' & [= <-] & Hv & _). congruence.
Qed.

Lemma cfr_control_ok signer p c c' act :
  cfr_control signer p c = (c', Ok act) <->
  endpoint signer = local c /\ phase c = Established /\ Body_validate (BCfrControl p) = Ok tt /\
  c' = c /\ act = Send (outgoing signer (BCfrControl p) c).
Proof.
  unfold cfr_control, require_local_signer, bind, get, lift, fail, modify, ret.
  case_decide as H1; [naive_solver|]. case_decide as H2; [naive_solver|].
  destruct (Envelope.sign _ _ _ _ _) as [e|er] eqn:Hs.
  - apply sign_ok in Hs as [Hv ->]. split; [by intros [= <- <-] | by intros (_ & _ & _ & -> & ->)].
  - apply sign_err in Hs. split; [done|]. intros (_ & _ & Hv & _). congruence.
Qed.

(** Closing cannot fail once its guards hold: a close body has no bound to
    exceed, so the assignment before signing is never left behind by an error. *)
Lemma close_run signer r c :
  close signer r c =
  if decide (endpoint signer <> local c) then (c, Err WrongLocalSigner) else
  if inactive (phase c) then (c, Err InvalidState) else
  (set_phase Closed c, Ok (Send (outgoing signer (BClose r) c))).
Proof.
  unfold close, require_local_signer, bind, get, lift, fail, modify, ret.
  case_decide; [done|]. destruct (inactive (phase c)); [done|].
  by rewrite (proj2 (sign_ok signer _ _ _ _ (outgoing signer (BClose r) c))).
Qed.

Lemma transport_connected_ok c c' acts :
  transport_connected c = (c', Ok acts) <->
  (phase c = AnswerSent \/ phase c = AnswerReceived) /\ c' = set_phase Established c /\ acts = [].
Proof.
  unfold transport_connected, bind, get, fail, modify, ret.
  destruct (phase c); naive_solver.
Qed.

Lemma one_ok {A} (m : C A) c c' l : one m c = (c', Ok l) <-> exists a, m c = (c', Ok a) /\ l = [a].
Proof. unfold one, bind, ret. destruct (m c) as [? [?|?]]; naive_solver. Qed.

Lemma one_err {A} (m : C A) c c' er : one m c = (c', Err er) <-> m c = (c', Err er).
Proof. unfold one, bind, ret. destruct (m c) as [? [?|?]]; naive_solver. Qed.

(** A failed operation leaves the connection as it found it. *)
Lemma run_err (i : Input) c c' er : run i c = (c', Err er) -> c' = c.
Proof.
  destruct i as [s b d|s b d|s n cd|s p|s r|e| |]; cbn [run]; rewrite ?one_err.
  6: apply receive_err.
  5: rewrite close_run; repeat case_match; naive_solver.
  all: unfold begin_offer, answer, candidate, cfr_control, transport_connected, transport_failed,
    require_local_signer, bind, get, lift, ok_or, fail, modify, ret;
    intros Hr; repeat (case_match; simplify_eq; try done).
Qed.

(** *** Well-formed connections *)
Definition consistent (c : t) : Prop :=
  match phase c with
  | Idle => negotiation c = None /\ seen c = []
  | OfferSent | OfferReceived =>
      exists o, negotiation c = Some {| offer := o; answer_id := None |}
  | AnswerSent | AnswerReceived | Established =>
      exists o a, negotiation c = Some {| offer := o; answer_id := Some a |}
  | Closed => exists ids, negotiation c = Some ids
  end.

Definition wf (c : t) : Prop :=
  local c <> remote c /\ NoDup (seen c) /\ blen (seen c) <= MAX_SEEN_ENVELOPES /\ consistent c.

Lemma blen_push id l : blen l <= MAX_SEEN_ENVELOPES -> blen (push id l) <= MAX_SEEN_ENVELOPES.
Proof.
  intros Hl. unfold push. rewrite blen_app. change (blen [id]) with 1.
  case_decide as E; [|lia]. destruct l as [|x l]; [done|]. rewrite blen_cons in E. simpl. lia.
Qed.

Lemma push_nodup id l : NoDup l -> id ∉ l -> NoDup (push id l).
Proof.
  intros Hd Hn. unfold push. apply NoDup_app. split_and!.
  - case_decide; [|done]. destruct l; [done|]. by apply NoDup_cons in Hd as [_ ?].
  - intros x Hx ->%list_elem_of_singleton. case_decide; [|done].
    destruct l; [done|]. apply Hn. by right.
  - apply NoDup_singleton.
Qed.

Lemma processed_wf id b c : wf c -> id ∉ seen c -> admits c b -> wf (processed id b c).
Proof.
  intros (Hlr & Hd & Hl & Hc) Hn Ha. unfold wf, processed.
  split_and!; [by destruct b| by apply push_nodup | by apply blen_push |].
  unfold consistent in *. destruct b as [bi d|o bi d|p s cd|r|p]; simpl in *.
  - eauto.
  - eauto.
  - destruct Ha as [Hp _]. destruct (phase c); naive_solver.
  - destruct (phase c); naive_solver.
  - rewrite Ha in *. done.
Qed.

(** *** The abstract state machine

    All a connection can do, whoever drives it and whatever arrives: [trans c
    log c'] is one step, [log] holding the id of the envelope it processed. *)
Inductive trans (c : t) : list EnvelopeId -> t -> Prop :=
| trans_stay : trans c [] c
| trans_offer id :
    phase c = Idle ->
    trans c []
      (set_phase OfferSent (set_negotiation (Some {| offer := id; answer_id := None |}) c))
| trans_answer ids id :
    phase c = OfferReceived -> negotiation c = Some ids ->
    trans c []
      (set_phase AnswerSent
         (set_negotiation (Some {| offer := offer ids; answer_id := Some id |}) c))
| trans_connect :
    phase c = AnswerSent \/ phase c = AnswerReceived -> trans c [] (set_phase Established c)
| trans_close : inactive (phase c) = false -> trans c [] (set_phase Closed c)
| trans_process id b : id ∉ seen c -> admits c b -> trans c [id] (processed id b c).

Lemma run_trans (i : Input) c c' r : run i c = (c', r) -> trans c (accepted i r) c'.
Proof.
  intros Hr. destruct r as [acts|er].
  2:{ apply run_err in Hr as ->. replace (accepted i (Err er)) with (@nil EnvelopeId);
        [constructor | by destruct i]. }
  destruct i as [s b d|s b d|s n cd|s p|s r|e| |]; cbn [run] in Hr; simpl.
  - apply begin_offer_ok in Hr as (_ & Hp & _ & -> & _). by constructor.
  - apply one_ok in Hr as (a & (_ & Hp & ids & Hi & _ & -> & _)%answer_ok & _). by constructor.
  - apply one_ok in Hr as (a & (_ & _ & ids & _ & _ & -> & _)%candidate_ok & _). constructor.
  - apply one_ok in Hr as (a & (_ & _ & _ & -> & _)%cfr_control_ok & _). constructor.
  - apply one_ok in Hr as (a & Hr & _). rewrite close_run in Hr. case_decide; [done|].
    destruct (inactive (phase c)) eqn:Hi; simplify_eq. by constructor.
  - apply receive_ok in Hr as (_ & _ & id & -> & [(_ & -> & ->)|(Hn & Ha & -> & ->)]);
      by constructor.
  - apply transport_connected_ok in Hr as (Hp & -> & _). by constructor.
  - unfold transport_failed, bind, get, fail, modify, ret in Hr.
    destruct (inactive (phase c)) eqn:Hi; simplify_eq. by constructor.
Qed.

Lemma trans_wf c log c' : trans c log c' -> wf c -> wf c'.
Proof.
  intros Ht Hwf. pose proof Hwf as (Hlr & Hd & Hl & Hc). unfold consistent in Hc.
  destruct Ht as [|id Hp|ids id Hp Hi|Hp|Hp|id b Hn Ha]; [done| | | | |by apply processed_wf];
    (split_and!; [done..|]); unfold consistent; simpl.
  - eauto.
  - eauto.
  - by destruct Hp as [Hp|Hp]; rewrite Hp in Hc.
  - destruct (phase c); naive_solver.
Qed.

(** *** The window of processed envelopes *)

(** The last [MAX_SEEN_ENVELOPES] entries of a history. *)
Definition window (log : list EnvelopeId) : list EnvelopeId :=
  drop (length log - Z.to_nat MAX_SEEN_ENVELOPES) log.

Lemma push_window id log : push id (window log) = window (log ++ [id]).
Proof.
  unfold push, window, blen. rewrite length_drop, length_app. simpl length.
  pose proof (eq_refl : Z.to_nat MAX_SEEN_ENVELOPES = 1024%nat) as Hm.
  pose proof (eq_refl : MAX_SEEN_ENVELOPES = 1024) as Hz. case_decide as E.
  - assert (1024 <= length log)%nat by lia.
    rewrite drop_app_le by lia. f_equal. rewrite tail_drop. f_equal. lia.
  - rewrite drop_app_le by lia. f_equal. f_equal. lia.
Qed.

Lemma trans_window c log c' hist :
  trans c log c' -> seen c = window hist -> seen c' = window (hist ++ log).
Proof.
  intros Ht Hs. destruct Ht; rewrite ?app_nil_r; [done..|]. simpl. by rewrite Hs, push_window.
Qed.

Definition pinned (c c' : t) : Prop :=
  federation c' = federation c /\ attempt c' = attempt c /\
  local c' = local c /\ remote c' = remote c.

Lemma trans_pinned c log c' : trans c log c' -> pinned c c'.
Proof. by intros [| | | | |id []]. Qed.

(** *** Phases *)
Inductive edge : Phase -> Phase -> Prop :=
| edge_offer : edge Idle OfferSent
| edge_offered : edge Idle OfferReceived
| edge_answer : edge OfferReceived AnswerSent
| edge_answered : edge OfferSent AnswerReceived
| edge_connected_answerer : edge AnswerSent Established
| edge_connected_offerer : edge AnswerReceived Established
| edge_closed p : inactive p = false -> edge p Closed.

Lemma trans_edge c log c' : trans c log c' -> phase c' = phase c \/ edge (phase c) (phase c').
Proof.
  intros [|id Hp|ids id Hp _|Hp|Hp|id b _ Ha]; simpl; [by left|right..|].
  - rewrite Hp. constructor.
  - rewrite Hp. constructor.
  - destruct Hp as [-> | ->]; constructor.
  - by constructor.
  - destruct b; simpl in *; [right; rewrite Ha; constructor| |by left|by right; constructor|by left].
    destruct Ha as [-> _]. right. constructor.
Qed.
End outbound.

(** ** Theorems on one connection *)
Section theorems.
Context `{Crypto} {S : Type} `{EndpointSigner S}.

Lemma new_ok f a l r c :
  new f a l r = Ok c <->
  l <> r /\ c = {| federation := f; attempt := a; local := l; remote := r; phase := Idle;
                   negotiation := None; seen := [] |}.
Proof. unfold new. case_decide; naive_solver. Qed.

Lemma reaches_inv c0 log c :
  reaches c0 log c -> wf c0 -> seen c0 = [] ->
  wf c /\ seen c = window log /\ pinned c0 c /\ rtc edge (phase c0) (phase c).
Proof.
  intros Hr Hwf Hs. induction Hr as [|log c i c' r _ (IHw & IHs & IHp & IHe) Hrun].
  - by split_and!.
  - apply run_trans in Hrun. split_and!.
    + by eapply trans_wf.
    + by eapply trans_window.
    + apply trans_pinned in Hrun. unfold pinned in *. naive_solver congruence.
    + apply trans_edge in Hrun as [-> | Hedge]; [done | by eapply rtc_r].
Qed.

Lemma new_wf f a l r c : new f a l r = Ok c -> wf c /\ seen c = [].
Proof. intros [Hn ->]%new_ok. split; [|done]. split_and!; try done. apply NoDup_nil_2. Qed.

(** C7: every connection reachable from [Connection::new], under any sequence of
    local operations, received envelopes and transport events, failed ones
    included, is well formed: its endpoints differ, its negotiation record
    matches its phase (an established connection knows offer and answer), and
    the processed ids are distinct, at most 1,024 and exactly the last ones of
    the whole history.  Federation, attempt and both identities stay pinned. *)
Theorem reachable_wf f a l r c0 log c :
  new f a l r = Ok c0 -> reaches c0 log c ->
  wf c /\ seen c = window log /\ pinned c0 c.
Proof.
  intros Hn Hr. destruct (new_wf _ _ _ _ _ Hn) as [Hw Hs].
  destruct (reaches_inv _ _ _ Hr Hw Hs) as (? & ? & ? & _). done.
Qed.

(** phases only move along the edges of the documented life cycle, so from
    [Idle] an attempt is offered, answered, established and closed in that
    order and never returns to an earlier phase. *)
Theorem reachable_phases f a l r c0 log c :
  new f a l r = Ok c0 -> reaches c0 log c -> rtc edge Idle (phase c).
Proof.
  intros Hn Hr. destruct (new_wf _ _ _ _ _ Hn) as [Hw Hs].
  destruct (reaches_inv _ _ _ Hr Hw Hs) as (_ & _ & _ & He).
  by apply new_ok in Hn as [_ ->].
Qed.

(** A closed attempt is final: whatever is done to it afterwards, its state
    never changes and no further envelope is processed. *)
Theorem closed_terminal c log c' :
  phase c = Closed -> reaches c log c' -> c' = c /\ log = [].
Proof.
  intros Hp Hr. induction Hr as [|log c1 i c2 r _ [-> ->] Hrun]; [done|].
  apply run_trans in Hrun. remember (accepted i r) as l.
  destruct Hrun as [|id Hq|ids id Hq _|Hq|Hq|id b _ Ha]; rewrite ?Hp in *; try naive_solver.
  destruct b; simpl in Ha; rewrite ?Hp in Ha; naive_solver.
Qed.

(** operations are atomic: when a local operation, a received envelope or a
    transport event is refused with an error, the connection is left exactly as
    it was. *)
Theorem run_error_atomic (i : Input) c er :
  snd (run i c) = Err er -> fst (run i c) = c.
Proof. destruct (run i c) as [c' r] eqn:Hr. simpl. intros ->. by apply run_err in Hr. Qed.

(** C2: a received envelope causes an action exactly when it is addressed from
    the pinned peer to this endpoint within the pinned federation and attempt,
    both of its signatures verify, it is not among the processed ones and the
    phase admits its body; it then causes the one action of its body, and CFR
    payloads are handed on unmodified with the verified sender. *)
Theorem receive_accepts_iff e c c' act acts :
  receive e c = (c', Ok (act :: acts)) <->
  bound_to e c /\ Envelope.verify e = Ok tt /\
  exists id, Envelope.id e = Ok id /\ id ∉ seen c /\ admits c (body e) /\
    c' = processed id (body e) c /\ acts = [] /\ act = action_of id (remote c) (body e).
Proof.
  rewrite receive_ok. split.
  - intros (Hb & Hv & id & Hi & [(_ & _ & ?)|(Hn & Ha & -> & [= -> ->])]); [done|].
    split_and!; [done..|]. exists id. destruct Hb as (_ & _ & -> & _). done.
  - intros (Hb & Hv & id & Hi & Hn & Ha & -> & -> & ->). split_and!; [done..|].
    exists id. split; [done|]. right. destruct Hb as (_ & _ & -> & _). done.
Qed.

(** Duplicate suppression: in every reachable state, an authentic envelope
    of the peer is dropped without effect exactly when its id is among the last
    1,024 processed ones. *)
Theorem receive_duplicate_iff f a l r c0 log c e id :
  new f a l r = Ok c0 -> reaches c0 log c ->
  bound_to e c -> Envelope.verify e = Ok tt -> Envelope.id e = Ok id ->
  receive e c = (c, Ok []) <-> id ∈ window log.
Proof.
  intros Hn Hr Hb Hv Hi. destruct (new_wf _ _ _ _ _ Hn) as [Hw Hs].
  destruct (reaches_inv _ _ _ Hr Hw Hs) as (_ & <- & _). rewrite receive_ok. split.
  - intros (_ & _ & id' & Hi' & [(? & _)|(_ & _ & _ & ?)]); [congruence|done].
  - intros Hin. split_and!; [done..|]. eauto 10.
Qed.
End theorems.

(** ** Two connections facing each other *)

(** What reaches the peer when an envelope is sent over any path that delivers
    its bytes: it is encoded, then verified and decoded. *)
Definition transfer `{Crypto} (e : Envelope) : result Error Envelope :=
  let? wire := Envelope.encode e in
  Envelope.decode_verified wire.

Definition mirrored (a b : t) : Prop :=
  federation a = federation b /\ attempt a = attempt b /\
  local a = remote b /\ remote a = local b.

Section pair.
Context `{Crypto} {S T : Type} `{EndpointSigner S, EndpointSigner T}.
Context `{!LawfulSigner S, !LawfulSigner T}.

Lemma outgoing_verifies {U} `{EndpointSigner U} `{!LawfulSigner U} (signer : U) bd c :
  Body_validate bd = Ok tt -> Envelope.verify (outgoing signer bd c) = Ok tt.
Proof. intros Hv. eapply sign_verifies. by apply sign_ok. Qed.

Lemma outgoing_transfer {U} `{EndpointSigner U} `{!LawfulSigner U} (signer : U) bd c :
  Body_validate bd = Ok tt ->
  transfer (outgoing signer bd c) = Ok (outgoing signer bd c).
Proof.
  intros Hv. unfold transfer.
  destruct (sign_decodes signer (federation c) (attempt c) (remote c) bd (outgoing signer bd c))
    as (w & Hw & Hd); [by apply sign_ok|]. by rewrite Hw.
Qed.

(** An envelope of the peer is accepted as soon as it is fresh and admitted. *)
Lemma outgoing_accepted {U} `{EndpointSigner U} `{!LawfulSigner U} (signer : U) bd a b :
  mirrored a b -> endpoint signer = local a -> Body_validate bd = Ok tt ->
  id_of (outgoing signer bd a) ∉ seen b -> admits b bd ->
  receive (outgoing signer bd a) b =
  (processed (id_of (outgoing signer bd a)) bd b,
   Ok [action_of (id_of (outgoing signer bd a)) (local a) bd]).
Proof.
  intros (Hf & Hat & Hl & Hr) Hs Hv Hn Ha. apply receive_ok. split_and!.
  - unfold bound_to. simpl. rewrite Hs. done.
  - by apply outgoing_verifies.
  - eexists. split; [by apply id_ok|]. right. simpl. by rewrite Hs.
Qed.

(** ... and refused with the error its body meets otherwise. *)
Lemma outgoing_refused {U} `{EndpointSigner U} `{!LawfulSigner U} (signer : U) bd a b er :
  mirrored a b -> endpoint signer = local a -> Body_validate bd = Ok tt ->
  id_of (outgoing signer bd a) ∉ seen b ->
  snd (receive_body (id_of (outgoing signer bd a)) (local a) bd b) = Err er ->
  receive (outgoing signer bd a) b = (b, Err er).
Proof.
  intros (Hf & Hat & Hl & Hr) Hs Hv Hn Hb. unfold receive, bind.
  destruct (validate_inbound_spec (outgoing signer bd a) b) as (r & -> & Hres).
  rewrite (proj2 Hres).
  2:{ split; [|by apply outgoing_verifies]. unfold bound_to. simpl. by rewrite Hs. }
  unfold lift, get. rewrite id_ok by done. fold (id_of (outgoing signer bd a)).
  rewrite decide_False by done. cbn [sender outgoing signed_envelope Envelope.with_signatures].
  change (sender (outgoing signer bd a)) with (endpoint signer). rewrite Hs.
  change (body (outgoing signer bd a)) with bd.
  destruct (receive_body _ (local a) bd b) as [b' [acts|er']] eqn:E; simpl in Hb; [done|].
  apply receive_body_err in E. naive_solver.
Qed.

(** C14: the handshake completes: two fresh connections of lawful signers that
    name each other exchange offer and answer through the wire format, each
    engine is handed exactly the description and binding its peer signed, both
    ends become established and agree on the ids of offer and answer. *)
Theorem handshake (sa : S) (sb : T) f a bo d ba d' A0 B0 :
  new f a (endpoint sa) (endpoint sb) = Ok A0 ->
  new f a (endpoint sb) (endpoint sa) = Ok B0 ->
  blen d <= MAX_DESCRIPTION_BYTES -> blen d' <= MAX_DESCRIPTION_BYTES ->
  exists offer answer_ A1 A2 A3 B1 B2 B3,
    begin_offer sa bo d A0 = (A1, Ok [OpenControlChannel; Send offer]) /\
    transfer offer = Ok offer /\
    receive offer B0 = (B1, Ok [ApplyOffer bo d]) /\
    answer sb ba d' B1 = (B2, Ok (Send answer_)) /\
    transfer answer_ = Ok answer_ /\
    receive answer_ A1 = (A2, Ok [ApplyAnswer ba d']) /\
    transport_connected A2 = (A3, Ok []) /\ transport_connected B2 = (B3, Ok []) /\
    phase A3 = Established /\ phase B3 = Established /\ mirrored A3 B3 /\
    negotiation A3 = negotiation B3 /\
    negotiation A3 = Some {| Conn.offer := id_of offer; answer_id := Some (id_of answer_) |}.
Proof.
  intros [Hne HA]%new_ok [_ HB]%new_ok Hd Hd'.
  assert (Hm : forall n, n <= MAX_DESCRIPTION_BYTES -> n <= U32_MAX).
  { intros n Hn. assert (MAX_DESCRIPTION_BYTES <= U32_MAX) by done. lia. }
  assert (Hv : Body_validate (BOffer bo d) = Ok tt) by (apply validate_len_ok; auto).
  pose (off := outgoing sa (BOffer bo d) A0).
  pose (A1 := set_phase OfferSent (set_negotiation (Some {| Conn.offer := id_of off; answer_id := None |}) A0)).
  pose (B1 := processed (id_of off) (BOffer bo d) B0).
  assert (Hv' : Body_validate (BAnswer (id_of off) ba d') = Ok tt) by (apply validate_len_ok; auto).
  pose (ans := outgoing sb (BAnswer (id_of off) ba d') B1).
  exists off, ans, A1. do 2 eexists. exists B1. do 2 eexists. split_and!.
  - apply begin_offer_ok. by subst A0.
  - by apply outgoing_transfer.
  - apply (outgoing_accepted sa (BOffer bo d) A0 B0); subst A0 B0; try done. apply not_elem_of_nil.
  - apply answer_ok. subst B0. split_and!; [done..|]. eexists. by split_and!.
  - by apply outgoing_transfer.
  - apply (outgoing_accepted sb (BAnswer (id_of off) ba d') B1 A1); subst A0 B0; try done.
    apply not_elem_of_nil.
  - apply transport_connected_ok. split_and!; [by right | done..].
  - apply transport_connected_ok. split_and!; [by left | done..].
  - done.
  - done.
  - by subst A0 B0.
  - done.
  - done.
Qed.

(** Control payloads arrive exactly: what an established endpoint sends as
    CFR control passes the wire format and is delivered once to the established
    peer, byte for byte and with the sender's identity, as long as its envelope
    id is not already among those the peer processed; the peer changes nothing
    but its window of processed ids, and a second copy has no effect. *)
Theorem cfr_delivery (sa : S) a b p :
  mirrored a b -> endpoint sa = local a ->
  phase a = Established -> phase b = Established ->
  blen p <= MAX_CFR_CONTROL_BYTES -> id_of (outgoing sa (BCfrControl p) a) ∉ seen b ->
  exists e b',
    cfr_control sa p a = (a, Ok (Send e)) /\ transfer e = Ok e /\
    receive e b = (b', Ok [DeliverCfr (id_of e) (local a) p]) /\
    b' = set_seen (push (id_of e) (seen b)) b /\ receive e b' = (b', Ok []).
Proof.
  intros Hm Hs Ha Hb Hp Hn.
  assert (Hv : Body_validate (BCfrControl p) = Ok tt).
  { apply validate_len_ok. assert (MAX_CFR_CONTROL_BYTES <= U32_MAX) by done. lia. }
  pose proof (outgoing_accepted sa (BCfrControl p) a b Hm Hs Hv Hn Hb) as Hr.
  exists (outgoing sa (BCfrControl p) a). eexists. split_and!.
  - by apply cfr_control_ok.
  - by apply outgoing_transfer.
  - exact Hr.
  - done.
  - apply receive_ok in Hr as (Hbd & Hve & _). apply receive_ok. split_and!; [done..|].
    eexists. split; [by apply id_ok|]. left. split_and!; [|done..].
    apply elem_of_app. right. by apply list_elem_of_singleton.
Qed.

(** candidates are tied to the negotiation: a candidate signed under the
    current negotiation is handed to the peer's engine unchanged when the peer
    knows the parent, whether it has seen the answer or the answer does not
    exist yet; a candidate of the answerer that overtakes its answer on the way
    is refused as having a wrong parent and leaves the offerer unchanged. *)
Theorem candidate_exchange (sa : S) a b n cd ids ids' :
  mirrored a b -> endpoint sa = local a ->
  negotiating (phase a) = true -> negotiating (phase b) = true ->
  negotiation a = Some ids -> negotiation b = Some ids' -> offer ids = offer ids' ->
  blen cd <= MAX_CANDIDATE_BYTES ->
  exists e, candidate sa n cd a = (a, Ok (Send e)) /\ transfer e = Ok e /\
    (id_of e ∉ seen b ->
     ((answer_id ids = None \/ answer_id ids = answer_id ids') ->
      receive e b = (set_seen (push (id_of e) (seen b)) b, Ok [AddCandidate n cd])) /\
     (answer_id ids' = None -> (exists x, answer_id ids = Some x /\ x <> offer ids') ->
      receive e b = (b, Err WrongCandidateParent))).
Proof.
  intros Hm Hs Ha Hb Hna Hnb Ho Hcd.
  pose (bd := BCandidate (default (offer ids) (answer_id ids)) n cd).
  assert (Hv : Body_validate bd = Ok tt).
  { apply validate_len_ok. assert (MAX_CANDIDATE_BYTES <= U32_MAX) by done. lia. }
  exists (outgoing sa bd a). split_and!.
  - apply candidate_ok. split_and!; [done..|]. by exists ids.
  - by apply outgoing_transfer.
  - intros Hn. split.
    + intros Hid. apply (outgoing_accepted sa bd a b Hm Hs Hv Hn). simpl. split; [done|].
      exists ids'. split; [done|]. destruct (answer_id ids); simpl; [right|left]; naive_solver.
    + intros Hi' (x & Hx & Hne). apply outgoing_refused; [done..|].
      unfold bd, receive_body, bind, get, validate_candidate_parent, bind, get, lift.
      rewrite Hnb, Hb. simpl. rewrite Hx, Hi'. simpl. by rewrite decide_True.
Qed.

(** simultaneous offers are refused by both ends with [Glare]; neither end
    changes, so the application can settle the collision by closing. *)
Theorem glare (sa : S) (sb : T) f a bo d ba d' A0 B0 A1 B1 offa offb :
  new f a (endpoint sa) (endpoint sb) = Ok A0 ->
  new f a (endpoint sb) (endpoint sa) = Ok B0 ->
  begin_offer sa bo d A0 = (A1, Ok [OpenControlChannel; Send offa]) ->
  begin_offer sb ba d' B0 = (B1, Ok [OpenControlChannel; Send offb]) ->
  receive offb A1 = (A1, Err Glare) /\ receive offa B1 = (B1, Err Glare).
Proof.
  intros [Hne HA]%new_ok [_ HB]%new_ok
    (_ & _ & Hv & -> & [= ->])%begin_offer_ok (_ & _ & Hv' & -> & [= ->])%begin_offer_ok.
  subst A0 B0. split; apply outgoing_refused; try done; apply not_elem_of_nil.
Qed.

(** C38: suppression of duplicates is limited to the window: once a connection
    whose window is full accepts one more envelope, the oldest processed CFR
    envelope is forgotten, and a retransmission of it is delivered again. *)
Theorem evicted_redelivery c e0 p id0 rest e c1 acts :
  wf c -> phase c = Established -> seen c = id0 :: rest -> blen (seen c) = MAX_SEEN_ENVELOPES ->
  bound_to e0 c -> Envelope.verify e0 = Ok tt -> Envelope.id e0 = Ok id0 ->
  body e0 = BCfrControl p ->
  (forall r, body e <> BClose r) ->
  receive e c = (c1, Ok acts) -> acts <> [] ->
  exists c2, receive e0 c = (c, Ok []) /\
    receive e0 c1 = (c2, Ok [DeliverCfr id0 (remote c) p]).
Proof.
  intros (_ & Hd & _) Hp Hs Hfull Hb Hv Hi Hbody Hnc Hr Hne.
  apply receive_ok in Hr as (_ & _ & id & _ & [(_ & _ & ->)|(Hn & Ha & -> & _)]); [done|].
  exists (processed id0 (BCfrControl p) (processed id (body e) c)). split.
  { apply receive_ok. split_and!; [done..|]. exists id0. split; [done|]. left.
    rewrite Hs. split_and!; [by left|done..]. }
  apply receive_ok. split_and!.
  - unfold bound_to in *. by destruct (body e).
  - done.
  - exists id0. split; [done|]. right. rewrite Hbody.
    destruct Hb as (_ & _ & -> & _). rewrite Hs in Hd, Hn. apply NoDup_cons in Hd as [Hd _].
    split_and!; [| |done..].
    + simpl. rewrite Hs in Hfull |- *. unfold push. rewrite decide_True by done. simpl.
      rewrite not_elem_of_app, list_elem_of_singleton. split; [done|]. intros ->. apply Hn. by left.
    + destruct (body e) eqn:E; simpl in *; try congruence. destruct Ha. congruence.
Qed.
End pair.

(** ** Concrete runs *)
Module Examples.

#[local] Existing Instance Sample.crypto.
#[local] Existing Instance Sample.crypto_laws.
Abbreviation signer := Sample.signer.

(** A connection of endpoint [l] to endpoint [r] in a given phase. *)
Definition conn (l r : byte) (p : Phase) (n : option NegotiationIds) (s : list EnvelopeId) : t :=
  {| federation := Sample.federation x01; attempt := Sample.attempt x02;
     local := Sample.identity l; remote := Sample.identity r;
     phase := p; negotiation := n; seen := s |}.

Definition idle (l r : byte) : t := conn l r Idle None [].

Definition both : NegotiationIds :=
  {| offer := Sample.envelope_id x0a; answer_id := Some (Sample.envelope_id x0b) |}.

Lemma new_idle l r :
  l <> r ->
  new (Sample.federation x01) (Sample.attempt x02) (Sample.identity l) (Sample.identity r)
  = Ok (idle l r).
Proof. intros Hn. apply new_ok. split; [|done]. by intros ?%Sample.identity_inj. Qed.

Definition offer_input : Input := IBeginOffer (signer x03) (Sample.binding x05) [x06].
Definition offered : t := fst (run offer_input (idle x03 x04)).

Lemma offered_reached : reaches (S := SigningIdentity) (idle x03 x04) [] offered.
Proof.
  apply (reaches_step _ [] (idle x03 x04) offer_input offered (snd (run offer_input (idle x03 x04))));
    [constructor | apply surjective_pairing].
Qed.

Lemma reachable_wf_witness :
  wf offered /\ seen offered = window [] /\ pinned (idle x03 x04) offered.
Proof.
  exact (reachable_wf _ _ _ _ _ _ _ (new_idle x03 x04 ltac:(done)) offered_reached).
Defined.

Lemma reachable_phases_witness : rtc edge Idle (phase offered).
Proof.
  exact (reachable_phases _ _ _ _ _ _ _ (new_idle x03 x04 ltac:(done)) offered_reached).
Defined.

Lemma closed_terminal_witness :
  let c := conn x03 x04 Closed (Some both) [] in
  fst (run (S := SigningIdentity) ITransportFailed c) = c /\ @nil EnvelopeId = [].
Proof.
  intros c. apply (closed_terminal (S := SigningIdentity) c [] _ eq_refl).
  apply (reaches_step _ [] c ITransportFailed _ (snd (run ITransportFailed c)));
    [constructor | apply surjective_pairing].
Defined.

Lemma run_error_atomic_witness :
  fst (run (S := SigningIdentity) ITransportConnected (idle x03 x04)) = idle x03 x04.
Proof. by apply (run_error_atomic ITransportConnected (idle x03 x04) InvalidState). Defined.

(** An offer the first endpoint sends to the second. *)
Definition offer_body : Body := BOffer (Sample.binding x05) [x06].
Definition offer_envelope : Envelope := outgoing (signer x03) offer_body (idle x03 x04).

Lemma offer_received :
  receive offer_envelope (idle x04 x03) =
  (processed (id_of offer_envelope) offer_body (idle x04 x03),
   Ok [ApplyOffer (Sample.binding x05) [x06]]).
Proof. by apply (outgoing_accepted (signer x03) offer_body (idle x03 x04)); [..|apply not_elem_of_nil|]. Qed.

Lemma receive_duplicate_iff_witness :
  let c := processed (id_of offer_envelope) offer_body (idle x04 x03) in
  receive offer_envelope c = (c, Ok []) <-> id_of offer_envelope ∈ window [id_of offer_envelope].
Proof.
  intros c. eapply (receive_duplicate_iff (S := SigningIdentity) _ _ _ _ (idle x04 x03)).
  - by apply new_idle.
  - pose proof (reaches_step (S := SigningIdentity) (idle x04 x03) [] (idle x04 x03)
      (IReceive offer_envelope) c _ (reaches_refl _) offer_received) as Hr.
    rewrite accepted_receive in Hr by done. exact Hr.
  - done.
  - by apply outgoing_verifies.
  - by apply id_ok.
Defined.

Lemma handshake_witness :
  let sa := signer x03 in let sb := signer x04 in
  exists offer answer_ A1 A2 A3 B1 B2 B3,
    begin_offer sa (Sample.binding x05) [x06] (idle x03 x04)
      = (A1, Ok [OpenControlChannel; Send offer]) /\
    transfer offer = Ok offer /\
    receive offer (idle x04 x03) = (B1, Ok [ApplyOffer (Sample.binding x05) [x06]]) /\
    answer sb (Sample.binding x07) [x08] B1 = (B2, Ok (Send answer_)) /\
    transfer answer_ = Ok answer_ /\
    receive answer_ A1 = (A2, Ok [ApplyAnswer (Sample.binding x07) [x08]]) /\
    transport_connected A2 = (A3, Ok []) /\ transport_connected B2 = (B3, Ok []) /\
    phase A3 = Established /\ phase B3 = Established /\ mirrored A3 B3 /\
    negotiation A3 = negotiation B3 /\
    negotiation A3 = Some {| Conn.offer := id_of offer; answer_id := Some (id_of answer_) |}.
Proof.
  intros sa sb.
  apply (handshake sa sb (Sample.federation x01) (Sample.attempt x02) _ _ _ _ (idle x03 x04)
    (idle x04 x03) (new_idle x03 x04 ltac:(done)) (new_idle x04 x03 ltac:(done))); done.
Defined.

Definition established (l r : byte) : t := conn l r Established (Some both) [].

Lemma cfr_delivery_witness :
  let a := established x03 x04 in let b := established x04 x03 in
  exists e b',
    cfr_control (signer x03) [x0c] a = (a, Ok (Send e)) /\ transfer e = Ok e /\
    receive e b = (b', Ok [DeliverCfr (id_of e) (local a) [x0c]]) /\
    b' = set_seen (push (id_of e) (seen b)) b /\ receive e b' = (b', Ok []).
Proof.
  intros a b. apply (cfr_delivery (signer x03) a b [x0c]); try done. apply not_elem_of_nil.
Defined.

Lemma candidate_exchange_witness :
  let a := established x03 x04 in let b := established x04 x03 in
  let n : u32 := @UInt 32 7 eq_refl in
  exists e, candidate (signer x03) n [x0d] a = (a, Ok (Send e)) /\ transfer e = Ok e /\
    (id_of e ∉ seen b ->
     ((answer_id both = None \/ answer_id both = answer_id both) ->
      receive e b = (set_seen (push (id_of e) (seen b)) b, Ok [AddCandidate n [x0d]])) /\
     (answer_id both = None -> (exists x, answer_id both = Some x /\ x <> offer both) ->
      receive e b = (b, Err WrongCandidateParent))).
Proof.
  intros a b n. by apply (candidate_exchange (signer x03) a b n [x0d] both both).
Defined.

Definition offer_from (l r : byte) : Envelope := outgoing (signer l) offer_body (idle l r).
Definition offer_sent (l r : byte) : t :=
  set_phase OfferSent
    (set_negotiation (Some {| offer := id_of (offer_from l r); answer_id := None |}) (idle l r)).

Lemma begin_offer_idle l r :
  begin_offer (signer l) (Sample.binding x05) [x06] (idle l r) =
  (offer_sent l r, Ok [OpenControlChannel; Send (offer_from l r)]).
Proof. by apply begin_offer_ok. Qed.

Lemma glare_witness :
  receive (offer_from x04 x03) (offer_sent x03 x04) = (offer_sent x03 x04, Err Glare) /\
  receive (offer_from x03 x04) (offer_sent x04 x03) = (offer_sent x04 x03, Err Glare).
Proof.
  exact (glare (signer x03) (signer x04) _ _ _ _ _ _ _ _ _ _ _ _
    (new_idle x03 x04 ltac:(done)) (new_idle x04 x03 ltac:(done))
    (begin_offer_idle x03 x04) (begin_offer_idle x04 x03)).
Defined.

(** A full window whose oldest entry is the id of a control envelope. *)
Definition sent (p : bytes) : Envelope :=
  outgoing (signer x03) (BCfrControl p) (established x03 x04).

Lemma filler_ok (i : nat) : (blen (be_bytes 32 (Z.of_nat i)) =? 32) = true.
Proof. by rewrite blen_be_bytes. Qed.

Definition filler (i : nat) : EnvelopeId :=
  EnvelopeId_from_bytes (Array (be_bytes 32 (Z.of_nat i)) (filler_ok i)).

Definition id_val (i : EnvelopeId) : Z := be_val (abytes (envelope_id_as_bytes i)).

Lemma id_val_filler i : (i < 2000)%nat -> id_val (filler i) = Z.of_nat i.
Proof.
  intros Hi. unfold id_val, filler. cbn [envelope_id_as_bytes abytes]. rewrite be_val_be_bytes. apply Z.mod_small.
  change (256 ^ Z.of_nat 32) with (2 ^ 256). lia.
Qed.

(** Sample ids are multiples of [2 ^ 192]. *)
Lemma id_val_sample e : exists k, 0 <= k /\ id_val (id_of e) = k * 2 ^ 192.
Proof.
  unfold id_val, id_of. exists (be_val (be_bytes 8 (Sample.checksum 0 (wire_bytes e)))).
  split; [apply be_val_range|].
  cbn [envelope_id_as_bytes blake3_hash Sample.crypto Sample.padded abytes].
  rewrite be_val_app. change (be_val (replicate 24 x00)) with 0.
  change (256 ^ blen (replicate 24 x00)) with (2 ^ 192). lia.
Qed.

Definition fillers : list EnvelopeId := filler <$> seq 1 1023.

Lemma sample_not_filler e : id_of e ∉ fillers.
Proof.
  intros (i & Hi & [Hlo Hhi]%elem_of_seq)%list_elem_of_fmap.
  destruct (id_val_sample e) as (k & Hk & Hv). rewrite Hi, id_val_filler in Hv by lia. lia.
Qed.

Lemma fillers_nodup : NoDup fillers.
Proof.
  apply NoDup_fmap_2_strong; [|apply NoDup_seq].
  intros i j [? ?]%elem_of_seq [? ?]%elem_of_seq Hij.
  apply (f_equal id_val) in Hij. rewrite !id_val_filler in Hij by lia. lia.
Qed.

Definition full : t :=
  conn x04 x03 Established (Some both) (id_of (sent [x0c]) :: fillers).

Lemma full_wf : wf full.
Proof.
  split_and!; [by intros ?%Sample.identity_inj | | done | by do 2 eexists].
  apply NoDup_cons. split; [apply sample_not_filler | apply fillers_nodup].
Qed.

Lemma sent_distinct : id_of (sent [x0d]) <> id_of (sent [x0c]).
Proof. intros H%(f_equal id_val). vm_compute in H. discriminate. Qed.

Lemma sent_received :
  receive (sent [x0d]) full =
  (processed (id_of (sent [x0d])) (BCfrControl [x0d]) full,
   Ok [DeliverCfr (id_of (sent [x0d])) (Sample.identity x03) [x0d]]).
Proof.
  apply (outgoing_accepted (signer x03) (BCfrControl [x0d]) (established x03 x04) full); try done.
  intros [?|?]%elem_of_cons; [by apply sent_distinct | by apply (sample_not_filler (sent [x0d]))].
Qed.

Lemma evicted_redelivery_witness :
  exists c2, receive (sent [x0c]) full = (full, Ok []) /\
    receive (sent [x0c]) (processed (id_of (sent [x0d])) (BCfrControl [x0d]) full) =
    (c2, Ok [DeliverCfr (id_of (sent [x0c])) (Sample.identity x03) [x0c]]).
Proof.
  apply (evicted_redelivery full (sent [x0c]) [x0c] (id_of (sent [x0c])) fillers (sent [x0d])
    _ [DeliverCfr (id_of (sent [x0d])) (Sample.identity x03) [x0d]]);
    [apply full_wf | done.. | by apply outgoing_verifies | by apply id_ok | done | done
    | apply sent_received | done].
Defined.

End Examples.
End Connection.
