(* ===== verification/Config.v ===== *)
(** * Signed federation configurations

    [crates/libfcp-core/src/configuration.rs]: the bounded member set, its
    canonical signed encoding and the parser that verifies a snapshot before it
    materialises the members.  Indexing that could panic is modelled by [X]. *)

From Stdlib Require Import ZArith Lia.
From stdpp Require Import base list option numbers decidable sets.
From S2P Require Import Prelude Bytes BTree Types Identity Sample.

Definition FEDERATION_CONFIG_MARKER : bytes := [x46; x43; x46; x47].
Definition FEDERATION_CONFIG_VERSION : byte := x01.
Definition MAX_FEDERATION_MEMBERS : Z := 1024.

Definition IDENTITY_BYTES : Z := 32 + ML_DSA_65_PUBLIC_KEY_BYTES.
Definition MEMBER_BYTES : Z := 32 + IDENTITY_BYTES.
Definition FIXED_HEADER_BYTES : Z := 4 + 1 + 32 + IDENTITY_BYTES + 8 + 2.
Definition SIGNATURE_BYTES : Z := 64 + ML_DSA_65_SIGNATURE_BYTES.

Record FederationMember : Type := {
  cfr_identity : array 32;
  member_endpoint : EndpointIdentity;
}.

#[export] Instance FederationMember_eq_dec : EqDecision FederationMember.
Proof. solve_decision. Defined.

Record FederationConfiguration : Type := {
  config_federation : FederationId;
  authority : EndpointIdentity;
  epoch : u64;
  members : list FederationMember;
}.

#[export] Instance FederationConfiguration_eq_dec : EqDecision FederationConfiguration.
Proof. solve_decision. Defined.

Definition write_identity (bs : bytes) (identity : EndpointIdentity) : bytes :=
  let bs := bs ++ abytes (endpoint_key_as_bytes (classical identity)) in
  bs ++ abytes (post_quantum identity).

Definition read_identity (bs : bytes) : X Error EndpointIdentity :=
  if decide (blen bs <> IDENTITY_BYTES) then Some (Err Truncated) else
  let* k := slice_to bs 32 in
  let* key := xret (ok_or (array_try 32 k) Truncated) in
  let* p := slice_from bs 32 in
  let* pq := xret (ok_or (array_try 1952 p) Truncated) in
  Some (Ok (EndpointIdentity_new (EndpointKey_from_bytes key) pq)).

Definition parse_member (bs : bytes) : X Error FederationMember :=
  if decide (blen bs <> MEMBER_BYTES) then Some (Err Truncated) else
  let* c := slice_to bs 32 in
  let* cfr := xret (ok_or (array_try 32 c) Truncated) in
  let* e := slice_from bs 32 in
  let* ep := read_identity e in
  Some (Ok {| cfr_identity := cfr; member_endpoint := ep |}).

(** [iter.map(parse_member).collect::<Result<Vec<_>, _>>()]. *)
Fixpoint parse_members (l : list bytes) : X Error (list FederationMember) :=
  match l with
  | [] => Some (Ok [])
  | b :: l' =>
      let* m := parse_member b in
      let* ms := parse_members l' in
      Some (Ok (m :: ms))
  end.

Record ParsedConfiguration : Type := {
  parsed_federation : FederationId;
  parsed_authority : EndpointIdentity;
  parsed_epoch : u64;
  member_bytes : bytes;
  signature_offset : Z;
}.

Definition parse_wire (wire : bytes) : X Error ParsedConfiguration :=
  if blen wire <? FIXED_HEADER_BYTES + SIGNATURE_BYTES then Some (Err Truncated) else
  let* marker := slice_to wire 4 in
  if decide (marker <> FEDERATION_CONFIG_MARKER) then Some (Err BadConfigurationMarker) else
  let* version := index wire 4 in
  if decide (version <> FEDERATION_CONFIG_VERSION)
  then Some (Err UnsupportedConfigurationVersion) else
  let* f := slice wire 5 37 in
  let* federation := xret (ok_or (array_try 32 f) Truncated) in
  let* a := slice wire 37 (37 + IDENTITY_BYTES) in
  let* authority := read_identity a in
  let epoch_start := 37 + IDENTITY_BYTES in
  let* e := slice wire epoch_start (epoch_start + 8) in
  let* epoch := xret (ok_or (array_try 8 e) Truncated) in
  let count_start := epoch_start + 8 in
  let* c := slice wire count_start (count_start + 2) in
  let* count_be := xret (ok_or (array_try 2 c) Truncated) in
  let count := uval (from_be 2 count_be) in
  if MAX_FEDERATION_MEMBERS <? count then Some (Err TooManyFederationMembers) else
  let* member_bytes_len := xret (ok_or (checked_mul count MEMBER_BYTES) TooManyFederationMembers) in
  let* signature_offset :=
    xret (ok_or (checked_add FIXED_HEADER_BYTES member_bytes_len) TooManyFederationMembers) in
  let* expected :=
    xret (ok_or (checked_add signature_offset SIGNATURE_BYTES) TooManyFederationMembers) in
  if blen wire <? expected then Some (Err Truncated) else
  if expected <? blen wire then Some (Err TrailingBytes) else
  let* ms := slice wire FIXED_HEADER_BYTES signature_offset in
  Some (Ok {| parsed_federation := FederationId_from_bytes federation;
              parsed_authority := authority; parsed_epoch := from_be 8 epoch;
              member_bytes := ms; signature_offset := signature_offset |}).

Module FederationConfiguration.

(** The loop of [validate] with the two sets it fills. *)
Fixpoint validate_members (identities : BTreeSet (array 32)) (endpoints : BTreeSet EndpointIdentity)
    (ms : list FederationMember) : result Error unit :=
  match ms with
  | [] => Ok tt
  | m :: ms' =>
      let '(identities', fresh) := bs_insert (cfr_identity m) identities in
      if negb fresh then Err DuplicateFederationMember else
      let '(endpoints', fresh') := bs_insert (member_endpoint m) endpoints in
      if negb fresh' then Err DuplicateFederationMember else
      validate_members identities' endpoints' ms'
  end.

Definition validate (self : FederationConfiguration) : result Error unit :=
  if MAX_FEDERATION_MEMBERS <? blen (members self) then Err TooManyFederationMembers else
  validate_members bt_empty bt_empty (members self).

Definition new (federation : FederationId) (authority : EndpointIdentity) (epoch : u64)
    (members : list FederationMember) : result Error FederationConfiguration :=
  let configuration := {| config_federation := federation; authority := authority;
                          epoch := epoch; members := members |} in
  let? _ := validate configuration in
  Ok configuration.

(** The loop of [signed_bytes] over the members. *)
Fixpoint write_members (bs : bytes) (ms : list FederationMember) : bytes :=
  match ms with
  | [] => bs
  | m :: ms' =>
      write_members (write_identity (bs ++ abytes (cfr_identity m)) (member_endpoint m)) ms'
  end.

Definition signed_bytes (self : FederationConfiguration) : result Error bytes :=
  let? _ := validate self in
  let? member_count := ok_or (uint_try 16 (blen (members self))) TooManyFederationMembers in
  let bs := FEDERATION_CONFIG_MARKER in
  let bs := bs ++ [FEDERATION_CONFIG_VERSION] in
  let bs := bs ++ abytes (federation_as_bytes (config_federation self)) in
  let bs := write_identity bs (authority self) in
  let bs := bs ++ to_be 8 (epoch self) in
  let bs := bs ++ to_be 2 member_count in
  Ok (write_members bs (members self)).

End FederationConfiguration.

Definition map_configuration_classical_error (error : Error) : Error :=
  match error with
  | BadSenderKey => BadConfigurationAuthority
  | BadSignature => BadConfigurationSignature
  | other => other
  end.

Definition map_configuration_pq_error (error : Error) : Error :=
  match error with
  | BadPostQuantumKey => BadConfigurationAuthority
  | BadPostQuantumSignature | BadPostQuantumSignatureEncoding => BadConfigurationSignature
  | other => other
  end.

Record SignedFederationConfiguration : Type := {
  configuration : FederationConfiguration;
  config_classical_signature : array 64;
  config_post_quantum_signature : mldsa_signature;
}.

Module SignedFederationConfiguration.
Section signed.
Context `{Crypto}.

Definition sign {S} `{EndpointSigner S} (configuration : FederationConfiguration) (signer : S) :
    result Error SignedFederationConfiguration :=
  if decide (authority configuration <> endpoint signer)
  then Err WrongConfigurationAuthority else
  let? transcript := FederationConfiguration.signed_bytes configuration in
  Ok {| configuration := configuration;
        config_classical_signature := sign_classical signer transcript;
        config_post_quantum_signature := sign_post_quantum signer transcript |}.

Definition verify (self : SignedFederationConfiguration) : result Error unit :=
  let? transcript := FederationConfiguration.signed_bytes (configuration self) in
  let? _ := map_err map_configuration_classical_error
    (verify_classical (authority (configuration self)) transcript
       (config_classical_signature self)) in
  map_err map_configuration_pq_error
    (verify_post_quantum (authority (configuration self)) transcript
       (config_post_quantum_signature self)).

Definition encode (self : SignedFederationConfiguration) : result Error bytes :=
  let? wire := FederationConfiguration.signed_bytes (configuration self) in
  let wire := wire ++ abytes (config_classical_signature self) in
  Ok (wire ++ abytes (config_post_quantum_signature self)).

Definition decode_verified (wire : bytes) : X Error SignedFederationConfiguration :=
  let* parsed := parse_wire wire in
  let authority := parsed_authority parsed in
  let* cs := slice wire (signature_offset parsed) (signature_offset parsed + 64) in
  let* classical_signature := xret (ok_or (array_try 64 cs) Truncated) in
  let* ps := slice_from wire (signature_offset parsed + 64) in
  let* post_quantum_signature := xret (ok_or (array_try 3309 ps) Truncated) in
  let* signed := slice_to wire (signature_offset parsed) in
  let* _ := xret (map_err map_configuration_classical_error
    (verify_classical authority signed classical_signature)) in
  let* signed := slice_to wire (signature_offset parsed) in
  let* _ := xret (map_err map_configuration_pq_error
    (verify_post_quantum authority signed post_quantum_signature)) in
  let* members := parse_members (chunks_exact MEMBER_BYTES (member_bytes parsed)) in
  let* configuration := xret (FederationConfiguration.new (parsed_federation parsed) authority
    (parsed_epoch parsed) members) in
  Some (Ok {| configuration := configuration;
              config_classical_signature := classical_signature;
              config_post_quantum_signature := post_quantum_signature |}).

End signed.
End SignedFederationConfiguration.

(** ** Well-formed member sets *)
Definition distinct (ms : list FederationMember) : Prop :=
  NoDup (cfr_identity <$> ms) /\ NoDup (member_endpoint <$> ms).

Definition valid (c : FederationConfiguration) : Prop :=
  blen (members c) <= MAX_FEDERATION_MEMBERS /\ distinct (members c).

Lemma validate_members_ok ids eps ms :
  bt_wf ids -> bt_wf eps ->
  FederationConfiguration.validate_members ids eps ms = Ok tt <->
  distinct ms /\ (forall m, m ∈ ms -> cfr_identity m ∉ bt_keys ids /\ member_endpoint m ∉ bt_keys eps).
Proof.
  revert ids eps. induction ms as [|m ms IH]; intros ids eps Hi He; simpl.
  - split; [|done]. intros _. split; [split; apply NoDup_nil_2|]. intros m []%elem_of_nil.
  - destruct (bs_insert_spec (cfr_identity m) ids Hi) as (Hi' & Hb & Hk).
    destruct (bs_insert_spec (member_endpoint m) eps He) as (He' & Hb' & Hk').
    destruct (bs_insert (cfr_identity m) ids) as [ids' f].
    destruct (bs_insert (member_endpoint m) eps) as [eps' f']. simpl in *.
    unfold distinct in *. rewrite !fmap_cons, !NoDup_cons, !list_elem_of_fmap.
    destruct f; simpl; [|split; [done|]; intros [_ Hall]; destruct (Hall m); set_solver].
    destruct f'; simpl; [|split; [done|]; intros [_ Hall]; destruct (Hall m); set_solver].
    rewrite IH by done. split.
    + intros [[Hd1 Hd2] Hall]. split_and!; try done.
      * intros (m' & Hm & Hin). destruct (Hall m' Hin) as [Hx _]. set_solver.
      * intros (m' & Hm & Hin). destruct (Hall m' Hin) as [_ Hx]. set_solver.
      * intros m' [->|Hin]%elem_of_cons; [naive_solver|]. destruct (Hall m' Hin). set_solver.
    + intros [[[Hn1 Hd1] [Hn2 Hd2]] Hall]. split; [done|]. intros m' Hin.
      destruct (Hall m') as [H1 H2]; [by right|]. rewrite Hk, Hk'.
      split; intros [Heq|?]; try done; [apply Hn1 | apply Hn2]; eauto.
Qed.

Lemma validate_ok c : FederationConfiguration.validate c = Ok tt <-> valid c.
Proof.
  unfold FederationConfiguration.validate, valid.
  destruct (Z.ltb_spec MAX_FEDERATION_MEMBERS (blen (members c))).
  - split; [done|]. intros [? _]. lia.
  - rewrite validate_members_ok by done. split; [naive_solver|]. intros [_ Hd]. split; [done|].
    intros m _. split; apply not_elem_of_nil.
Qed.

Lemma validate_err c er :
  FederationConfiguration.validate c = Err er ->
  er = TooManyFederationMembers \/ er = DuplicateFederationMember.
Proof.
  unfold FederationConfiguration.validate. case_match; [naive_solver|]. clear.
  generalize (@bt_empty (array 32) unit), (@bt_empty EndpointIdentity unit).
  induction (members c) as [|m ms IH]; intros ids eps; simpl; [done|].
  destruct (bs_insert (cfr_identity m) ids) as [ids' []]; simpl; [|naive_solver].
  destruct (bs_insert (member_endpoint m) eps) as [eps' []]; simpl; [apply IH|naive_solver].
Qed.

(** ** The encoding *)
Definition member_image (m : FederationMember) : bytes :=
  abytes (cfr_identity m) ++ identity_bytes (member_endpoint m).

Definition config_header (c : FederationConfiguration) : bytes :=
  FEDERATION_CONFIG_MARKER ++ [FEDERATION_CONFIG_VERSION]
  ++ abytes (federation_as_bytes (config_federation c)) ++ identity_bytes (authority c)
  ++ to_be 8 (epoch c) ++ be_bytes 2 (blen (members c)).

Definition config_image (c : FederationConfiguration) : bytes :=
  config_header c ++ concat (member_image <$> members c).

Definition signed_image (s : SignedFederationConfiguration) : bytes :=
  config_image (configuration s) ++ abytes (config_classical_signature s)
  ++ abytes (config_post_quantum_signature s).

Lemma blen_member_image m : blen (member_image m) = 2016.
Proof. unfold member_image. by autorewrite with blen. Qed.

Lemma blen_config_header c : blen (config_header c) = 2031.
Proof. unfold config_header. autorewrite with blen. done. Qed.

Lemma blen_concat_members ms : blen (concat (member_image <$> ms)) = 2016 * blen ms.
Proof.
  induction ms as [|m ms IH]; [done|]. rewrite fmap_cons. cbn [concat].
  rewrite blen_app, IH, blen_member_image, blen_cons. lia.
Qed.

Lemma write_members_run ms bs :
  FederationConfiguration.write_members bs ms = bs ++ concat (member_image <$> ms).
Proof.
  revert bs. induction ms as [|m ms IH]; intros bs; simpl; [by rewrite app_nil_r|].
  rewrite IH. unfold write_identity, member_image, identity_bytes. by rewrite <- !app_assoc.
Qed.

Lemma valid_count c : valid c -> exists u : u16, uval u = blen (members c).
Proof.
  intros [Hl _]. unfold MAX_FEDERATION_MEMBERS in Hl. pose proof (blen_nonneg (members c)).
  assert (Hb : (0 <=? blen (members c)) && (blen (members c) <? 2 ^ 16) = true) by lia.
  by exists (UInt _ Hb).
Qed.

Lemma signed_bytes_config c t :
  FederationConfiguration.signed_bytes c = Ok t <-> valid c /\ t = config_image c.
Proof.
  unfold FederationConfiguration.signed_bytes. rewrite <- validate_ok.
  destruct (FederationConfiguration.validate c) as [[]|] eqn:Hv; cbn [res_bind]; [|naive_solver].
  apply validate_ok in Hv. destruct (valid_count c Hv) as [u Hu].
  rewrite (proj2 (uint_try_some 16 (blen (members c)) u)).
  2:{ pose proof (uint_range u). lia. }
  cbn [ok_or res_bind]. rewrite write_members_run. unfold config_image, config_header, write_identity.
  unfold identity_bytes. unfold to_be at 2. rewrite Hu, <- !app_assoc.
  split; [by intros [= <-] | by intros [_ ->]].
Qed.

(** ** Reading members back *)
Lemma read_identity_ok bs i :
  read_identity bs = Some (Ok i) <-> bs = identity_bytes i.
Proof.
  unfold read_identity. split.
  - case_decide as Hl; [done|]. intros Hr. fcp_inv.
    apply slice_ok in H as [_ ->]. apply slice_ok in H1 as [? ->].
    apply array_try_some in H0, H2.
    unfold identity_bytes. simpl. rewrite H0, H2.
    rewrite <- range_split by lia. rewrite range_full by lia. done.
  - intros ->. rewrite decide_False by (rewrite blen_identity_bytes; by intros []).
    destruct i as [[k] p]. unfold identity_bytes. simpl.
    unfold slice_to. erewrite (slice_at _ [] (abytes k)); [|done|done|by rewrite array_len].
    simpl. rewrite array_try_abytes. simpl.
    unfold slice_from. erewrite (slice_at _ (abytes k) (abytes p) []);
      [|by rewrite app_nil_r|by rewrite array_len|by rewrite blen_app, !array_len].
    simpl. by rewrite array_try_abytes.
Qed.

Lemma parse_member_ok bs m : parse_member bs = Some (Ok m) <-> bs = member_image m.
Proof.
  unfold parse_member. split.
  - case_decide as Hl; [done|]. intros Hr. fcp_inv.
    apply slice_ok in H as [_ ->]. apply slice_ok in H1 as [? ->].
    apply array_try_some in H0. apply read_identity_ok in H2.
    unfold member_image. simpl. rewrite H0, <- H2.
    rewrite <- range_split by lia. by rewrite range_full by lia.
  - intros ->. rewrite decide_False by (rewrite blen_member_image; by intros []).
    destruct m as [k e]. unfold member_image. simpl.
    unfold slice_to. erewrite (slice_at _ [] (abytes k)); [|done|done|by rewrite array_len].
    simpl. rewrite array_try_abytes. simpl.
    unfold slice_from. erewrite (slice_at _ (abytes k) (identity_bytes e) []);
      [|by rewrite app_nil_r|by rewrite array_len|by rewrite blen_app, array_len].
    simpl. by rewrite (proj2 (read_identity_ok _ e)).
Qed.

Lemma parse_members_ok l ms : parse_members l = Some (Ok ms) <-> l = member_image <$> ms.
Proof.
  revert ms. induction l as [|b l IH]; intros ms; simpl.
  - destruct ms; naive_solver.
  - split.
    + intros Hr. fcp_inv. apply parse_member_ok in H as ->. apply IH in H0 as ->. done.
    + destruct ms as [|m ms]; [done|]. rewrite fmap_cons. intros [= -> Hl].
      rewrite (proj2 (parse_member_ok _ m)) by done. simpl.
      by rewrite (proj2 (IH ms)).
Qed.

Lemma member_width : Z.to_nat MEMBER_BYTES = 2016%nat.
Proof. done. Qed.

Lemma chunks_members ms :
  chunks_exact MEMBER_BYTES (concat (member_image <$> ms)) = member_image <$> ms.
Proof.
  unfold chunks_exact. rewrite member_width. apply chunks_exact_concat; [lia| |done].
  apply Forall_fmap, list.Forall_forall.
  intros m _. pose proof (blen_member_image m) as Hl. unfold blen in Hl. simpl. lia.
Qed.

(** ** Parsing a whole snapshot *)

(** The layout [parse_wire] accepts. *)
Definition layout (w : bytes) (p : ParsedConfiguration) (count : Z) (cs : array 64)
    (ps : mldsa_signature) : Prop :=
  let header := FEDERATION_CONFIG_MARKER ++ [FEDERATION_CONFIG_VERSION]
    ++ abytes (federation_as_bytes (parsed_federation p)) ++ identity_bytes (parsed_authority p)
    ++ to_be 8 (parsed_epoch p) ++ be_bytes 2 count in
  0 <= count <= MAX_FEDERATION_MEMBERS /\
  blen (member_bytes p) = 2016 * count /\
  signature_offset p = 2031 + 2016 * count /\
  w = header ++ member_bytes p ++ abytes cs ++ abytes ps.

Lemma index_ok {E A} (l : list A) i x :
  0 <= i -> @index E A l i = Some (Ok x) -> range l i (i + 1) = [x].
Proof.
  intros Hi. unfold index, range. destruct (l !! Z.to_nat i) as [y|] eqn:Hl; [|done].
  intros [= ->]. replace (Z.to_nat (i + 1 - i)) with 1%nat by lia.
  by rewrite (drop_S _ _ _ Hl).
Qed.

Lemma parse_wire_layout w p :
  parse_wire w = Some (Ok p) -> exists count cs ps, layout w p count cs ps.
Proof.
  unfold parse_wire, slice_to.
  destruct (Z.ltb_spec (blen w) (FIXED_HEADER_BYTES + SIGNATURE_BYTES)) as [|Hlen]; [done|].
  change (FIXED_HEADER_BYTES + SIGNATURE_BYTES) with 5404 in Hlen.
  change FIXED_HEADER_BYTES with 2031. change (37 + IDENTITY_BYTES) with 2021.
  change (2021 + 8) with 2029. change (2029 + 2) with 2031.
  intros (m & [_ Hm]%slice_ok & Hr)%xbind_ok. case_decide as Em; [done|].
  apply xbind_ok in Hr as (v & Hv%index_ok & Hr); [|lia]. case_decide as Ev; [done|].
  apply xbind_ok in Hr as (f & [_ Hf]%slice_ok & (fa & Hfa & Hr)%xbind_ok).
  apply xbind_ok in Hr as (a & [_ Ha]%slice_ok & (i & Hi%read_identity_ok & Hr)%xbind_ok).
  apply xbind_ok in Hr as (e & [_ He]%slice_ok & (ea & Hea & Hr)%xbind_ok).
  apply xbind_ok in Hr as (c & [_ Hc]%slice_ok & (ca & Hca & Hr)%xbind_ok).
  destruct (Z.ltb_spec MAX_FEDERATION_MEMBERS (uval (from_be 2 ca))) as [|Hmax]; [done|].
  fcp_inv. apply array_try_some in Hfa, Hea, Hca.
  apply checked_mul_some in H as [-> _]. apply checked_add_some in H0 as [-> _].
  apply checked_add_some in H1 as [-> _].
  pose proof (uint_range (from_be 2 ca)) as Hc0. cbn [uval from_be] in Hc0, Hmax.
  pose proof (eq_refl : abytes ca = abytes ca) as Hca'. rewrite <- (to_be_from_be 2 ca) in Hca' at 2.
  unfold to_be, from_be in Hca'. cbn [uval] in Hca'.
  change (Z.of_nat 2) with 2 in *. set (count := be_val (abytes ca)) in *.
  change MEMBER_BYTES with 2016 in *. change SIGNATURE_BYTES with 3373 in *.
  destruct (Z.ltb_spec (blen w) (2031 + count * 2016 + 3373)); [done|].
  destruct (Z.ltb_spec (2031 + count * 2016 + 3373) (blen w)); [done|].
  apply xbind_ok in Hr as (ms & [_ Hms]%slice_ok & [= <-]).
  destruct (array_exists 64 (range w (2031 + count * 2016) (2031 + count * 2016 + 64)))
    as [cs Hcs]; [rewrite blen_range; lia|].
  destruct (array_exists 3309 (range w (2031 + count * 2016 + 64) (blen w))) as [ps Hps];
    [rewrite blen_range; lia|].
  exists count, cs, ps. split_and!; cbn [member_bytes signature_offset]; [lia|lia| | lia|].
  { rewrite Hms, blen_range; lia. }
  cbn [parsed_federation parsed_authority parsed_epoch federation_as_bytes].
  rewrite (to_be_from_be 8 ea : to_be (w := 64) 8 (from_be 8 ea) = abytes ea).
  rewrite Hea, <- Hca', Hfa, Hca, <- Hi, <- Em, <- Hv, Hms, Hcs, Hps, <- !app_assoc.
  rewrite <- !range_split by lia. by rewrite range_full by lia.
Qed.

Lemma index_at {E A} (l p q : list A) x i :
  l = p ++ x :: q -> blen p = i -> @index E A l i = Some (Ok x).
Proof.
  intros -> <-. unfold index, blen. rewrite Nat2Z.id.
  by rewrite list_lookup_middle.
Qed.

Lemma count_array count :
  0 <= count <= MAX_FEDERATION_MEMBERS ->
  exists a : array 2, abytes a = be_bytes 2 count /\ uval (from_be 2 a) = count.
Proof.
  intros Hc. unfold MAX_FEDERATION_MEMBERS in Hc.
  destruct (array_exists 2 (be_bytes 2 count)) as [a Ha]; [apply blen_be_bytes|].
  exists a. split; [done|]. unfold from_be. cbn [uval].
  rewrite (Ha : @abytes (Z.of_nat 2) a = _), be_val_be_bytes.
  apply Z.mod_small. change (256 ^ Z.of_nat 2) with 65536. lia.
Qed.

Lemma epoch_array (e : u64) : exists a : array 8, abytes a = to_be 8 e /\ from_be 8 a = e.
Proof.
  destruct (array_exists 8 (to_be 8 e)) as [a Ha]; [apply blen_to_be|].
  exists a. split; [done|]. by apply from_be_to_be.
Qed.

Lemma xret_array {n} (a : array n) (er : Error) :
  xret (ok_or (array_try n (abytes a)) er) = Some (Ok a).
Proof. by rewrite array_try_abytes. Qed.

Lemma layout_parse_wire w p count cs ps :
  layout w p count cs ps -> parse_wire w = Some (Ok p).
Proof.
  destruct p as [[f] a e ms off]. intros (Hc & Hms & Hoff & Hw). simpl in Hms, Hoff.
  cbn [parsed_federation parsed_authority parsed_epoch member_bytes federation_as_bytes] in Hw.
  rewrite <- !app_assoc in Hw.
  assert (Hlen : blen w = 2031 + 2016 * count + 3373).
  { rewrite Hw. autorewrite with blen. change (blen FEDERATION_CONFIG_MARKER) with 4. lia. }
  assert (Hu : 2031 + count * 2016 + 3373 <= USIZE_MAX).
  { unfold USIZE_MAX, MAX_FEDERATION_MEMBERS in *. lia. }
  destruct (count_array count Hc) as (ca & Hca & Hcount).
  destruct (epoch_array e) as (ea & Hea & Hepoch).
  unfold parse_wire, slice_to. change (FIXED_HEADER_BYTES + SIGNATURE_BYTES) with 5404.
  rewrite (proj2 (Z.ltb_ge _ _)) by lia.
  pose (h0 := FEDERATION_CONFIG_MARKER). pose (h1 := h0 ++ [FEDERATION_CONFIG_VERSION]).
  pose (h2 := h1 ++ abytes f). pose (h3 := h2 ++ identity_bytes a). pose (h4 := h3 ++ to_be 8 e).
  pose (h5 := h4 ++ be_bytes 2 count).
  assert (blen h1 = 5 /\ blen h2 = 37 /\ blen h3 = 2021 /\ blen h4 = 2029 /\ blen h5 = 2031)
    as (L1 & L2 & L3 & L4 & L5).
  { unfold h5, h4, h3, h2. autorewrite with blen. change (blen h1) with 5. lia. }
  pose (r5 := ms ++ abytes cs ++ abytes ps). pose (r4 := be_bytes 2 count ++ r5).
  pose (r3 := to_be 8 e ++ r4). pose (r2 := identity_bytes a ++ r3). pose (r1 := abytes f ++ r2).
  assert (w = h1 ++ r1 /\ w = h2 ++ r2 /\ w = h3 ++ r3 /\ w = h4 ++ r4 /\ w = h5 ++ r5)
    as (W1 & W2 & W3 & W4 & W5).
  { rewrite Hw. unfold h5, h4, h3, h2, h1. rewrite <- !app_assoc. done. }
  rewrite (slice_at w [] h0 ([FEDERATION_CONFIG_VERSION] ++ r1)) by done.
  cbn [xbind]. rewrite decide_False by tauto.
  rewrite (index_at w h0 r1 FEDERATION_CONFIG_VERSION) by done.
  cbn [xbind]. rewrite decide_False by tauto.
  rewrite (slice_at w h1 (abytes f) r2) by (done || (rewrite array_len; lia)).
  cbn [xbind]. rewrite xret_array. cbn [xbind]. change (37 + IDENTITY_BYTES) with 2021.
  rewrite (slice_at w h2 (identity_bytes a) r3) by (done || (rewrite blen_identity_bytes; lia)).
  cbn [xbind]. rewrite (proj2 (read_identity_ok _ a)) by done. cbn [xbind].
  rewrite (slice_at w h3 (abytes ea) r4) by (rewrite ?Hea; done || (rewrite blen_to_be; lia)).
  cbn [xbind]. rewrite xret_array. cbn [xbind].
  rewrite (slice_at w h4 (abytes ca) r5) by (rewrite ?Hca; done || (rewrite blen_be_bytes; lia)).
  cbn [xbind]. rewrite xret_array. cbn [xbind]. rewrite Hcount.
  rewrite (proj2 (Z.ltb_ge _ _)) by lia.
  change MEMBER_BYTES with 2016. change FIXED_HEADER_BYTES with 2031. change SIGNATURE_BYTES with 3373.
  rewrite (proj2 (checked_mul_some count 2016 (count * 2016))) by lia. cbn [ok_or xret xbind].
  rewrite checked_add_ok by lia. cbn [ok_or xret xbind].
  rewrite checked_add_ok by lia. cbn [ok_or xret xbind].
  rewrite (proj2 (Z.ltb_ge _ _)) by lia. rewrite (proj2 (Z.ltb_ge _ _)) by lia.
  rewrite (slice_at w h5 ms (abytes cs ++ abytes ps)) by (done || lia).
  cbn [xbind]. rewrite Hepoch, Hoff. do 3 f_equal. lia.
Qed.

(** ** Verified decoding *)
Section decoding.
Context `{Crypto}.

Definition config_verify (i : EndpointIdentity) (m : bytes) (cs : array 64)
    (ps : mldsa_signature) : result Error unit :=
  let? _ := map_err map_configuration_classical_error (verify_classical i m cs) in
  map_err map_configuration_pq_error (verify_post_quantum i m ps).

Lemma verify_config s :
  valid (configuration s) ->
  SignedFederationConfiguration.verify s =
  config_verify (authority (configuration s)) (config_image (configuration s))
    (config_classical_signature s) (config_post_quantum_signature s).
Proof.
  intros Hv. unfold SignedFederationConfiguration.verify.
  by rewrite (proj2 (signed_bytes_config _ _) (conj Hv eq_refl)).
Qed.

Lemma encode_config s w :
  SignedFederationConfiguration.encode s = Ok w <->
  valid (configuration s) /\ w = signed_image s.
Proof.
  unfold SignedFederationConfiguration.encode, signed_image. rewrite res_bind_ok. split.
  - intros (t & [Hv ->]%signed_bytes_config & [= <-]). by rewrite <- app_assoc.
  - intros [Hv ->]. exists (config_image (configuration s)).
    rewrite signed_bytes_config, app_assoc. done.
Qed.

(** After a successful parse only verification, the members and the validation
    of the member set are left. *)
Lemma decode_verified_layout w p count cs ps :
  layout w p count cs ps ->
  SignedFederationConfiguration.decode_verified w =
  let signed := take (Z.to_nat (signature_offset p)) w in
  let* _ := xret (config_verify (parsed_authority p) signed cs ps) in
  let* ms := parse_members (chunks_exact MEMBER_BYTES (member_bytes p)) in
  let* c := xret (FederationConfiguration.new (parsed_federation p) (parsed_authority p)
                    (parsed_epoch p) ms) in
  Some (Ok {| configuration := c; config_classical_signature := cs;
              config_post_quantum_signature := ps |}).
Proof.
  intros Hl. unfold SignedFederationConfiguration.decode_verified.
  rewrite (layout_parse_wire _ _ _ _ _ Hl). cbn [xbind].
  destruct Hl as (Hc & Hms & Hoff & Hw). rewrite app_assoc in Hw.
  set (pre := (_ ++ _) ++ member_bytes p) in Hw.
  assert (Hp : blen pre = signature_offset p).
  { unfold pre. rewrite Hoff. autorewrite with blen.
    change (blen FEDERATION_CONFIG_MARKER) with 4. lia. }
  assert (Hwl : blen w = signature_offset p + 64 + 3309) by (rewrite Hw; autorewrite with blen; lia).
  rewrite (slice_at w pre (abytes cs) (abytes ps)) by (done || (rewrite array_len; lia)).
  cbn [xbind]. rewrite xret_array. cbn [xbind]. unfold slice_from.
  rewrite (slice_at w (pre ++ abytes cs) (abytes ps) [])
    by (rewrite ?app_nil_r, <- ?app_assoc, ?blen_app, ?array_len; done || lia).
  cbn [xbind]. rewrite xret_array. cbn [xbind]. unfold slice_to.
  rewrite (slice_at w [] pre (abytes cs ++ abytes ps)) by (done || lia).
  replace (take (Z.to_nat (signature_offset p)) w) with pre.
  2:{ rewrite Hw, <- Hp. unfold blen. by rewrite Nat2Z.id, take_app_length. }
  cbn [xbind]. unfold config_verify, xret. cbv zeta.
  destruct (verify_classical (parsed_authority p) pre cs); cbn [map_err res_bind xbind]; [|done].
  done.
Qed.
Lemma new_config f a e ms c :
  FederationConfiguration.new f a e ms = Ok c <->
  c = {| config_federation := f; authority := a; epoch := e; members := ms |} /\ valid c.
Proof.
  unfold FederationConfiguration.new. rewrite res_bind_ok. split.
  - intros ([] & Hv%validate_ok & [= <-]). done.
  - intros [-> Hv%validate_ok]. by exists tt.
Qed.

(** The parsed form of a snapshot. *)
Definition parsed_of (c : FederationConfiguration) : ParsedConfiguration :=
  {| parsed_federation := config_federation c; parsed_authority := authority c;
     parsed_epoch := epoch c; member_bytes := concat (member_image <$> members c);
     signature_offset := 2031 + 2016 * blen (members c) |}.

Lemma layout_image s :
  valid (configuration s) ->
  layout (signed_image s) (parsed_of (configuration s)) (blen (members (configuration s)))
    (config_classical_signature s) (config_post_quantum_signature s).
Proof.
  intros [Hl _]. pose proof (blen_nonneg (members (configuration s))).
  split_and!; [lia|done|apply blen_concat_members|done|].
  unfold signed_image, config_image, config_header. by rewrite <- !app_assoc.
Qed.

Lemma take_image s :
  take (Z.to_nat (2031 + 2016 * blen (members (configuration s)))) (signed_image s) =
  config_image (configuration s).
Proof.
  unfold signed_image.
  replace (2031 + _) with (blen (config_image (configuration s))).
  - unfold blen. by rewrite Nat2Z.id, take_app_length.
  - unfold config_image. by rewrite blen_app, blen_config_header, blen_concat_members.
Qed.

Lemma decode_verified_image s :
  valid (configuration s) ->
  SignedFederationConfiguration.decode_verified (signed_image s) =
  match SignedFederationConfiguration.verify s with
  | Ok _ => Some (Ok s)
  | Err er => Some (Err er)
  end.
Proof.
  intros Hv. rewrite (decode_verified_layout _ _ _ _ _ (layout_image s Hv)).
  cbn [parsed_of signature_offset parsed_authority parsed_federation parsed_epoch member_bytes].
  cbv zeta. rewrite take_image, verify_config by done.
  destruct (config_verify _ _ _ _) as [[]|er]; [|done]. cbn [xret xbind].
  rewrite chunks_members, (proj2 (parse_members_ok _ (members (configuration s)))) by done.
  cbn [xbind]. destruct s as [[f a e ms] cs ps]. simpl configuration in *. cbn [config_federation authority epoch members] in *.
  by rewrite (proj2 (new_config f a e ms _) (conj eq_refl Hv)).
Qed.

(** Whatever verified decoding accepts is the image of what it returns. *)
Lemma decode_verified_inv w s :
  SignedFederationConfiguration.decode_verified w = Some (Ok s) ->
  valid (configuration s) /\ w = signed_image s.
Proof.
  intros Hd. pose proof Hd as Hd'. unfold SignedFederationConfiguration.decode_verified in Hd'.
  apply xbind_ok in Hd' as (p & (count & cs & ps & Hl)%parse_wire_layout & _).
  rewrite (decode_verified_layout _ _ _ _ _ Hl) in Hd. cbv zeta in Hd.
  apply xbind_ok in Hd as ([] & _ & (ms & Hms & (c & Hc & [= <-])%xbind_ok)%xbind_ok).
  apply parse_members_ok in Hms. injection Hc as [-> Hv]%new_config. split; [done|].
  destruct p as [f a e mb off], Hl as (Hcount & Hmb & _ & Hw). simpl in *.
  destruct (concat_chunks_exact (length mb) 2016 (Z.to_nat count) mb) as (Hcat & _ & Hlen);
    [lia|unfold blen in Hmb; lia|unfold blen in Hmb; lia|].
  unfold chunks_exact in Hms. rewrite member_width in Hms. rewrite Hms in Hcat, Hlen.
  rewrite length_fmap in Hlen. rewrite Hw. unfold signed_image, config_image, config_header. simpl.
  rewrite <- Hcat. replace (blen ms) with count by (unfold blen; lia). by rewrite <- !app_assoc.
Qed.

(** Verified decoding of a configuration snapshot returns a snapshot exactly
    when the input is its canonical encoding, its members are at most 1,024 and
    pairwise distinct in both identities, and both authority signatures verify
    over the whole snapshot. *)
Theorem config_decode_verified_iff w s :
  SignedFederationConfiguration.decode_verified w = Some (Ok s) <->
  SignedFederationConfiguration.encode s = Ok w /\
  SignedFederationConfiguration.verify s = Ok tt.
Proof.
  split.
  - intros Hd. destruct (decode_verified_inv _ _ Hd) as [Hv ->].
    rewrite encode_config, decode_verified_image in * by done. split; [done|].
    destruct (SignedFederationConfiguration.verify s) as [[]|]; congruence.
  - intros [[Hv ->]%encode_config Hve]. by rewrite decode_verified_image, Hve.
Qed.
End decoding.

(** a configuration is accepted by [validate] exactly when it names at most
    1,024 members, no CFR identity twice and no endpoint identity twice. *)
Theorem config_validate_iff c :
  FederationConfiguration.validate c = Ok tt <->
  blen (members c) <= MAX_FEDERATION_MEMBERS /\
  NoDup (cfr_identity <$> members c) /\ NoDup (member_endpoint <$> members c).
Proof. apply validate_ok. Qed.

(** ** No panics *)
Definition config_errors : list Error :=
  [Truncated; TrailingBytes; BadConfigurationMarker; UnsupportedConfigurationVersion;
   TooManyFederationMembers; DuplicateFederationMember; BadConfigurationAuthority;
   BadConfigurationSignature].

(** A computation that does not panic and fails only with configuration errors. *)
Definition safe {A} (m : X Error A) : Prop :=
  exists r, m = Some r /\ forall er, r = Err er -> er ∈ config_errors.

Lemma safe_bind {A B} (m : X Error A) (k : A -> X Error B) :
  safe m -> (forall a, m = Some (Ok a) -> safe (k a)) -> safe (xbind m k).
Proof.
  intros ([a|er] & -> & He) Hk; simpl; [by apply Hk|].
  exists (Err er). split; [done|]. intros er' [= <-]. by apply He.
Qed.

Lemma safe_ok {A} (a : A) : safe (Some (Ok a)).
Proof. by exists (Ok a). Qed.

Lemma safe_err {A} er : er ∈ config_errors -> safe (A := A) (Some (Err er)).
Proof. intros. exists (Err er). split; [done|]. by intros er' [= <-]. Qed.

Lemma safe_ok_or {A} (o : option A) er : er ∈ config_errors -> safe (xret (ok_or o er)).
Proof. intros. destruct o; [apply safe_ok | by apply safe_err]. Qed.

Lemma safe_slice {A} (l : list A) a b : a <= b <= blen l -> safe (slice l a b).
Proof. intros. rewrite slice_in by done. apply safe_ok. Qed.

Lemma safe_index {A} (l : list A) i : 0 <= i < blen l -> safe (index l i).
Proof.
  intros Hi. unfold index, blen in *. destruct (lookup_lt_is_Some_2 l (Z.to_nat i)) as [x ->]; [lia|].
  apply safe_ok.
Qed.

#[local] Hint Extern 1 (_ ∈ config_errors) => unfold config_errors; set_solver : core.
#[local] Hint Resolve safe_ok safe_err safe_ok_or : core.

Lemma safe_read_identity bs : safe (read_identity bs).
Proof.
  unfold read_identity, slice_to, slice_from. case_decide as Hl; [auto|].
  change IDENTITY_BYTES with 1984 in Hl.
  apply safe_bind; [apply safe_slice; lia|]. intros k _. apply safe_bind; [auto|]. intros key _.
  apply safe_bind; [apply safe_slice; lia|]. intros p _. apply safe_bind; auto.
Qed.

Lemma safe_parse_members l : safe (parse_members l).
Proof.
  induction l as [|b l IH]; simpl; [auto|]. apply safe_bind; [|intros m _; apply safe_bind; auto].
  unfold parse_member, slice_to, slice_from. case_decide as Hl; [auto|].
  change MEMBER_BYTES with 2016 in Hl.
  apply safe_bind; [apply safe_slice; lia|]. intros k _. apply safe_bind; [auto|]. intros key _.
  apply safe_bind; [apply safe_slice; lia|]. intros p _.
  apply safe_bind; [apply safe_read_identity|auto].
Qed.

Lemma safe_parse_wire w : safe (parse_wire w).
Proof.
  unfold parse_wire, slice_to. change (FIXED_HEADER_BYTES + SIGNATURE_BYTES) with 5404.
  destruct (Z.ltb_spec (blen w) 5404); [auto|].
  apply safe_bind; [apply safe_slice; lia|]. intros m _. case_decide; [auto|].
  apply safe_bind; [apply safe_index; lia|]. intros v _. case_decide; [auto|].
  change (37 + IDENTITY_BYTES) with 2021. change FIXED_HEADER_BYTES with 2031.
  apply safe_bind; [apply safe_slice; lia|]. intros f _. apply safe_bind; [auto|]. intros fa _.
  apply safe_bind; [apply safe_slice; lia|]. intros a _.
  apply safe_bind; [apply safe_read_identity|]. intros i _.
  apply safe_bind; [apply safe_slice; lia|]. intros e _. apply safe_bind; [auto|]. intros ea _.
  apply safe_bind; [apply safe_slice; lia|]. intros c _. apply safe_bind; [auto|]. intros ca _.
  generalize (uint_range (from_be 2 ca)). generalize (uval (from_be 2 ca)) as count. intros count Hcount.
  case_match; [auto|]. apply safe_bind; [auto|]. intros x Hx. fcp_inv.
  apply safe_bind; [auto|]. intros off Hoff. fcp_inv. apply safe_bind; [auto|]. intros exp Hexp. fcp_inv.
  apply checked_mul_some in Hx as [-> _]. apply checked_add_some in Hoff as [-> _].
  apply checked_add_some in Hexp as [-> _]. change SIGNATURE_BYTES with 3373.
  change MEMBER_BYTES with 2016.
  destruct (Z.ltb_spec (blen w) (2031 + count * 2016 + 3373)); [auto|].
  case_match; [auto|]. apply safe_bind; [apply safe_slice; lia|auto].
Qed.

(** Decoding an untrusted configuration never panics, whatever the bytes:
    every slice it takes is in bounds, and it fails only with a configuration
    error, never with an error of the envelope layer. *)
Theorem config_decode_total `{Crypto} w :
  exists r, SignedFederationConfiguration.decode_verified w = Some r /\
    forall er, r = Err er -> er ∈ config_errors.
Proof.
  fold (safe (SignedFederationConfiguration.decode_verified w)).
  destruct (safe_parse_wire w) as ([p|er] & Hp & He).
  2:{ unfold SignedFederationConfiguration.decode_verified. rewrite Hp. simpl. auto. }
  destruct (parse_wire_layout _ _ Hp) as (count & cs & ps & Hl).
  rewrite (decode_verified_layout _ _ _ _ _ Hl). cbv zeta.
  apply safe_bind.
  - eexists. split; [done|]. unfold config_verify, verify_classical, verify_post_quantum.
    intros er. repeat case_match; simplify_eq/=; intros ?; simplify_eq; auto.
  - intros _ _. apply safe_bind; [apply safe_parse_members|]. intros ms _. apply safe_bind; [|auto].
    unfold FederationConfiguration.new.
    destruct (FederationConfiguration.validate _) as [[]|er] eqn:Hv; [apply safe_ok|].
    apply safe_err. apply validate_err in Hv as [-> | ->]; auto.
Qed.

(** ** Signing *)
Section signing.
Context `{Crypto} {S : Type} `{EndpointSigner S}.

Definition signed_config (signer : S) (c : FederationConfiguration) :
    SignedFederationConfiguration :=
  {| configuration := c; config_classical_signature := sign_classical signer (config_image c);
     config_post_quantum_signature := sign_post_quantum signer (config_image c) |}.

Lemma sign_config_ok (signer : S) c s :
  SignedFederationConfiguration.sign c signer = Ok s <->
  authority c = endpoint signer /\ valid c /\ s = signed_config signer c.
Proof.
  unfold SignedFederationConfiguration.sign. case_decide; [naive_solver|].
  rewrite res_bind_ok. split.
  - intros (t & [Hv ->]%signed_bytes_config & [= <-]). done.
  - intros (_ & Hv & ->). exists (config_image c). by rewrite signed_bytes_config.
Qed.

Lemma signed_config_verifies `{!LawfulSigner S} (signer : S) c :
  authority c = endpoint signer -> valid c ->
  SignedFederationConfiguration.verify (signed_config signer c) = Ok tt.
Proof.
  intros Ha Hv. rewrite verify_config by done. unfold config_verify. simpl. rewrite Ha.
  pose proof (signer_verifies signer (config_image c)) as [Hc Hp]%dual_verify_ok.
  by rewrite Hc, Hp.
Qed.

(** a snapshot signed by the authority it names and whose member set is valid
    is distributed intact: it encodes, and every recipient that verifies and
    decodes the encoding obtains the same configuration. *)
Theorem config_sign_roundtrip `{!LawfulSigner S} (signer : S) c :
  authority c = endpoint signer -> FederationConfiguration.validate c = Ok tt ->
  exists s w, SignedFederationConfiguration.sign c signer = Ok s /\
    SignedFederationConfiguration.encode s = Ok w /\
    SignedFederationConfiguration.decode_verified w = Some (Ok s) /\ configuration s = c.
Proof.
  intros Ha Hv%validate_ok. exists (signed_config signer c), (signed_image (signed_config signer c)).
  split_and!; [by apply sign_config_ok | by apply encode_config | | done].
  by rewrite decode_verified_image, signed_config_verifies.
Qed.
End signing.

(** ** Concrete runs *)
Module ConfigExamples.

Definition member (i b : byte) : FederationMember :=
  {| cfr_identity := array_fill 32 i; member_endpoint := Sample.identity b |}.

Definition config (e : Z) (He : (0 <=? e) && (e <? 2 ^ 64) = true) : FederationConfiguration :=
  {| config_federation := Sample.federation x01; authority := Sample.identity x09;
     epoch := UInt e He; members := [member x01 x03; member x02 x04] |}.

Lemma config_sign_roundtrip_witness :
  let c := config 1 eq_refl in
  exists s w,
    @SignedFederationConfiguration.sign _ (@SigningIdentity_signer Sample.crypto) c
      (Sample.signer x09) = Ok s /\
    SignedFederationConfiguration.encode s = Ok w /\
    @SignedFederationConfiguration.decode_verified Sample.crypto w = Some (Ok s) /\
    configuration s = c.
Proof.
  exact (@config_sign_roundtrip Sample.crypto _ _ (@SigningIdentity_lawful _ Sample.crypto_laws)
    (Sample.signer x09) (config 1 eq_refl) eq_refl eq_refl).
Defined.

End ConfigExamples.
