(* ===== verification/Client.v ===== *)
(** * The federation client

    [crates/libfcp/src]: identity bindings, the directory of peer connections,
    the routing of CFR messages and the client that applies signed snapshots.
    The CFR implementation ([cfr_protocol]) is a parameter. *)

From Stdlib Require Import ZArith Lia Sorted.
From stdpp Require Import base list option numbers decidable sets.
From S2P Require Import Prelude Bytes BTree Types Identity Sample Wire Codec Conn Config.

(** ** The CFR crate *)
Class Cfr : Type := {
  SigPublic : Type;
  SigPublic_eq_dec :: EqDecision SigPublic;
  SigPublic_ord :: Ord SigPublic;
  (** [SigPublic::from_bytes]. *)
  SigPublic_from_bytes : array 32 -> SigPublic;
  Conference : Type;
  CfrError : Type;
  Event : Type;
}.

(** A [SigPublic] is an ordered 32-byte key. *)
Class CfrLaws (R : Cfr) : Prop := {
  SigPublic_order :: TotalOrder SigPublic;
  SigPublic_from_bytes_inj : forall a b, SigPublic_from_bytes a = SigPublic_from_bytes b -> a = b;
}.

Inductive Recipient `{Cfr} : Type :=
| Peer (identity : SigPublic)
| Everyone.

Record Message `{Cfr} : Type := { to : Recipient; payload : bytes }.

(** ** Errors *)
Inductive ClientError : Type :=
| MissingBinding
| MissingConnection
| MismatchedConnection
| Fcp (error : Error)
| ClientWrongFederation
| WrongAuthority
| StaleConfiguration
| MissingLocalMember
| WrongLocalEndpoint.

(** ** Bindings *)
Module CfrEndpointBindings.
Section bindings.
Context `{Cfr}.

Definition t : Type := BTreeMap SigPublic EndpointIdentity.

Definition new : t := bt_empty.
Definition bind (identity : SigPublic) (endpoint : EndpointIdentity) (self : t) :
    t * option EndpointIdentity := bt_insert identity endpoint self.
Definition unbind (identity : SigPublic) (self : t) : t * option EndpointIdentity :=
  bt_remove identity self.
Definition endpoint (self : t) (identity : SigPublic) : option EndpointIdentity :=
  bt_get identity self.
Definition identities (self : t) : list SigPublic := bt_keys self.

End bindings.
End CfrEndpointBindings.

(** ** Peer directory *)
Module PeerConnections.

Record t : Type := {
  federation : FederationId;
  local : EndpointIdentity;
  entries : BTreeMap EndpointIdentity Connection.t;
}.

Definition new (federation : FederationId) (local : EndpointIdentity) : t :=
  {| federation := federation; local := local; entries := bt_empty |}.

Definition set_entries (e : BTreeMap EndpointIdentity Connection.t) (self : t) : t :=
  {| federation := federation self; local := local self; entries := e |}.

Definition insert (connection : Connection.t) : M t ClientError (option Connection.t) :=
  do self <- get;
  if decide (Connection.federation connection <> federation self \/
             Connection.local connection <> local self)
  then fail MismatchedConnection else
  let '(entries', old) := bt_insert (Connection.remote connection) connection (entries self) in
  do_ modify (set_entries entries');
  ret old.

Definition remove (endpoint : EndpointIdentity) (self : t) : t * option Connection.t :=
  let '(entries', old) := bt_remove endpoint (entries self) in
  (set_entries entries' self, old).

Definition get_connection (self : t) (endpoint : EndpointIdentity) : option Connection.t :=
  bt_get endpoint (entries self).

End PeerConnections.

(** ** Routing *)
Section bridge.
Context `{Cfr, Crypto} {S : Type} `{EndpointSigner S}.

Definition route_one (message : Message) (signer : S) (bindings : CfrEndpointBindings.t)
    (connections : PeerConnections.t) (identity : SigPublic) :
    result ClientError (list Action) :=
  let? endpoint := ok_or (CfrEndpointBindings.endpoint bindings identity) MissingBinding in
  let? connection := ok_or (PeerConnections.get_connection connections endpoint) MissingConnection in
  let? action := map_err Fcp
    (eval (Connection.cfr_control signer (payload message)) connection) in
  Ok [action].

(** The [for] loop of [route_outbound] over the bound identities. *)
Fixpoint route_all (message : Message) (signer : S) (bindings : CfrEndpointBindings.t)
    (connections : PeerConnections.t) (actions : list Action) (identities : list SigPublic) :
    result ClientError (list Action) :=
  match identities with
  | [] => Ok actions
  | identity :: rest =>
      let? more := route_one message signer bindings connections identity in
      route_all message signer bindings connections (actions ++ more) rest
  end.

Definition route_outbound (message : Message) (signer : S) (bindings : CfrEndpointBindings.t)
    (connections : PeerConnections.t) : result ClientError (list Action) :=
  match to message with
  | Peer identity => route_one message signer bindings connections identity
  | Everyone =>
      route_all message signer bindings connections [] (CfrEndpointBindings.identities bindings)
  end.
End bridge.

Section inbound.
Context `{Cfr}.

(** [deliver_inbound]: [handle] is [Conference::handle]. *)
Definition deliver_inbound
    (handle : bytes -> Conference -> Conference * result CfrError (list Event * list Message))
    (conference : Conference) (payload : bytes) :
    Conference * result CfrError (list Event * list Message) :=
  handle payload conference.
End inbound.

(** ** The client *)
Record ClientConfiguration `{Cfr} : Type := {
  policy_federation : FederationId;
  policy_authority : EndpointIdentity;
  local_cfr_identity : SigPublic;
  local_endpoint : EndpointIdentity;
}.

Module FederationClient.
Section client.
Context `{Cfr, Crypto}.

Record t : Type := {
  policy : ClientConfiguration;
  accepted_epoch : option u64;
  bindings : CfrEndpointBindings.t;
  connections : PeerConnections.t;
}.

Definition new (policy : ClientConfiguration) : t :=
  {| bindings := CfrEndpointBindings.new;
     connections := PeerConnections.new (policy_federation policy) (local_endpoint policy);
     policy := policy; accepted_epoch := None |}.

Definition set_bindings (b : CfrEndpointBindings.t) (self : t) : t :=
  {| policy := policy self; accepted_epoch := accepted_epoch self; bindings := b;
     connections := connections self |}.
Definition set_accepted_epoch (e : option u64) (self : t) : t :=
  {| policy := policy self; accepted_epoch := e; bindings := bindings self;
     connections := connections self |}.
Definition set_connections (c : PeerConnections.t) (self : t) : t :=
  {| policy := policy self; accepted_epoch := accepted_epoch self; bindings := bindings self;
     connections := c |}.

(** The [for] loop of [apply_configuration] with the two locals it updates. *)
Fixpoint bind_members (policy : ClientConfiguration) (next_bindings : CfrEndpointBindings.t)
    (local_member_seen : bool) (ms : list FederationMember) :
    result ClientError (CfrEndpointBindings.t * bool) :=
  match ms with
  | [] => Ok (next_bindings, local_member_seen)
  | member :: rest =>
      let identity := SigPublic_from_bytes (cfr_identity member) in
      if decide (identity = local_cfr_identity policy) then
        if decide (member_endpoint member <> local_endpoint policy)
        then Err WrongLocalEndpoint
        else bind_members policy next_bindings true rest
      else
        let '(next_bindings, _) :=
          CfrEndpointBindings.bind identity (member_endpoint member) next_bindings in
        bind_members policy next_bindings local_member_seen rest
  end.

(** [accepted_epoch.is_some_and(|accepted| epoch <= accepted)]. *)
Definition stale (accepted : option u64) (e : u64) : bool :=
  match accepted with
  | Some accepted => uval e <=? uval accepted
  | None => false
  end.

Definition apply_configuration (signed : SignedFederationConfiguration) : M t ClientError unit :=
  do_ lift (map_err Fcp (SignedFederationConfiguration.verify signed));
  let configuration := configuration signed in
  do self <- get;
  if decide (config_federation configuration <> policy_federation (policy self))
  then fail ClientWrongFederation else
  if decide (authority configuration <> policy_authority (policy self))
  then fail WrongAuthority else
  if stale (accepted_epoch self) (epoch configuration) then fail StaleConfiguration else
  do (next_bindings, local_member_seen) <-
    lift (bind_members (policy self) CfrEndpointBindings.new false (members configuration));
  if negb local_member_seen then fail MissingLocalMember else
  do_ modify (set_bindings next_bindings);
  modify (set_accepted_epoch (Some (epoch configuration))).

Definition insert_connection (connection : Connection.t) : M t ClientError (option Connection.t) :=
  fun self =>
    let '(connections', r) := PeerConnections.insert connection (connections self) in
    (set_connections connections' self, r).

Definition remove_connection (endpoint : EndpointIdentity) (self : t) : t * option Connection.t :=
  let '(connections', old) := PeerConnections.remove endpoint (connections self) in
  (set_connections connections' self, old).

Definition route_outbound {S} `{EndpointSigner S} (self : t) (message : Message) (signer : S) :
    result ClientError (list Action) :=
  Client.route_outbound message signer (bindings self) (connections self).

End client.
End FederationClient.

(** ** Applying a snapshot *)
Section apply.
Context `{Cfr, Crypto} `{!CfrLaws _}.
Import FederationClient.

Definition member_id (m : FederationMember) : SigPublic := SigPublic_from_bytes (cfr_identity m).

(** The member list binds the local participant to the local endpoint only. *)
Definition local_ok (policy : ClientConfiguration) (ms : list FederationMember) : Prop :=
  forall m, m ∈ ms -> member_id m = local_cfr_identity policy ->
    member_endpoint m = local_endpoint policy.

Definition names_local (policy : ClientConfiguration) (ms : list FederationMember) : Prop :=
  exists m, m ∈ ms /\ member_id m = local_cfr_identity policy.

(** [k] is the identity of a remote member with endpoint [ep]. *)
Definition remote_member (policy : ClientConfiguration) (ms : list FederationMember)
    (k : SigPublic) (ep : EndpointIdentity) : Prop :=
  exists m, m ∈ ms /\ member_id m = k /\ k <> local_cfr_identity policy /\ member_endpoint m = ep.

Lemma bind_members_err policy ms nb seen er :
  bind_members policy nb seen ms = Err er -> er = WrongLocalEndpoint /\ ~ local_ok policy ms.
Proof.
  revert nb seen. induction ms as [|m ms IH]; intros nb seen; simpl; [done|].
  case_decide as Hl; [case_decide as He|].
  - intros [= <-]. split; [done|]. intros Hok. apply He. apply Hok; [by left|done].
  - intros [-> Hn]%IH. split; [done|]. intros Hok. apply Hn. intros m' Hm. apply Hok. by right.
  - intros [-> Hn]%IH. split; [done|]. intros Hok. apply Hn. intros m' Hm. apply Hok. by right.
Qed.

Lemma bind_members_ok policy ms nb seen nb' seen' :
  bt_wf nb -> bind_members policy nb seen ms = Ok (nb', seen') ->
  local_ok policy ms /\ bt_wf nb' /\ (seen' = true <-> seen = true \/ names_local policy ms).
Proof.
  revert nb seen. induction ms as [|m ms IH]; intros nb seen Hwf; simpl.
  - intros [= <- <-]. split_and!; [by intros m ?%elem_of_nil|done|].
    split; [by left|]. intros [?|(m & []%elem_of_nil & _)]; done.
  - case_decide as Hl; [case_decide as He; [done|]|].
    + intros (Hok & Hwf' & Hs)%IH; [|done]. split_and!; [|done|].
      * intros m' [->|Hm]%elem_of_cons; [done|by apply Hok].
      * rewrite Hs. split; [|by left]. intros _. right. exists m. split; [by left|done].
    + intros (Hok & Hwf' & Hs)%IH; [|by apply bt_put_wf]. split_and!; [|done|].
      * intros m' [->|Hm]%elem_of_cons; [done|by apply Hok].
      * rewrite Hs. unfold names_local. set_solver.
Qed.

Lemma bind_members_get policy ms nb seen nb' seen' k ep :
  bt_wf nb -> NoDup (member_id <$> ms) -> bind_members policy nb seen ms = Ok (nb', seen') ->
  bt_get k nb' = Some ep <->
  remote_member policy ms k ep \/
  (bt_get k nb = Some ep /\ forall m, m ∈ ms -> member_id m = k -> k = local_cfr_identity policy).
Proof.
  revert nb seen. induction ms as [|m ms IH]; intros nb seen Hwf Hnd; simpl.
  - intros [= <- <-]. unfold remote_member. set_solver.
  - apply NoDup_cons in Hnd as [Hnot Hnd]. case_decide as Hl; [case_decide as He; [done|]|].
    + intros Hb. rewrite (IH _ _ Hwf Hnd Hb). unfold remote_member, member_id in *. set_solver.
    + intros Hb. rewrite (IH _ _ (bt_put_wf _ _ _ Hwf) Hnd Hb), bt_get_put by done.
      unfold remote_member. case_decide as Hk.
      * subst k. split.
        -- intros [(m' & Hm & Hid & _)|[[= <-] _]].
           ++ destruct Hnot. apply list_elem_of_fmap. eauto.
           ++ left. exists m. split_and!; [by left|done..].
        -- intros [(m' & [->|Hm]%elem_of_cons & Hid & Hn & <-)|[_ Hall]].
           ++ right. split; [done|]. intros m'' Hm Hid'. destruct Hnot. apply list_elem_of_fmap. eauto.
           ++ destruct Hnot. apply list_elem_of_fmap. eauto.
           ++ destruct Hl. apply (Hall m); [by left|done].
      * unfold member_id in *. set_solver.
Qed.
(** A snapshot the client may adopt. *)
Definition newer (c : t) (e : u64) : Prop :=
  match accepted_epoch c with
  | Some accepted => uval accepted < uval e
  | None => True
  end.

Definition acceptable (signed : SignedFederationConfiguration) (c : t) : Prop :=
  let cfg := configuration signed in
  SignedFederationConfiguration.verify signed = Ok tt /\
  config_federation cfg = policy_federation (policy c) /\
  authority cfg = policy_authority (policy c) /\ newer c (epoch cfg) /\
  local_ok (policy c) (members cfg) /\ names_local (policy c) (members cfg).

Lemma verify_valid s : SignedFederationConfiguration.verify s = Ok tt -> valid (configuration s).
Proof.
  unfold SignedFederationConfiguration.verify.
  intros (t & [Hv _]%signed_bytes_config & _)%res_bind_ok. done.
Qed.

Lemma member_ids_nodup ms : NoDup (cfr_identity <$> ms) -> NoDup (member_id <$> ms).
Proof.
  intros Hd. replace (member_id <$> ms) with (SigPublic_from_bytes <$> (cfr_identity <$> ms))
    by (rewrite <- list_fmap_compose; done).
  apply NoDup_fmap_2; [intros a b; apply SigPublic_from_bytes_inj|done].
Qed.

Lemma stale_newer c e : stale (accepted_epoch c) e = true -> ~ newer c e.
Proof. unfold stale, newer. destruct (accepted_epoch c); [lia|done]. Qed.

Lemma not_stale_newer c e : stale (accepted_epoch c) e = false -> newer c e.
Proof. unfold stale, newer. destruct (accepted_epoch c); [lia|done]. Qed.

(** A remote member never has the local endpoint. *)
Lemma remote_not_local signed pol k :
  SignedFederationConfiguration.verify signed = Ok tt ->
  local_ok pol (members (configuration signed)) ->
  names_local pol (members (configuration signed)) ->
  ~ remote_member pol (members (configuration signed)) k (local_endpoint pol).
Proof.
  intros [_ [_ Hep]]%verify_valid Hok (m0 & Hm0 & Hid0) (m & Hm & Hid & Hne & He).
  pose proof (Hok m0 Hm0 Hid0) as He0.
  apply list_elem_of_lookup in Hm0 as [i Hi], Hm as [j Hj].
  assert (i = j) as ->.
  { eapply NoDup_lookup; [exact Hep| |]; rewrite list_lookup_fmap, ?Hi, ?Hj; simpl;
      [done | by rewrite He, He0]. }
  congruence.
Qed.

(** The outcome of applying a snapshot, on both branches. *)
Lemma apply_configuration_outcome signed c :
  match apply_configuration signed c with
  | (c', Ok _) =>
      acceptable signed c /\ exists b, bt_wf b /\
      (forall k ep, bt_get k b = Some ep <->
                    remote_member (policy c) (members (configuration signed)) k ep) /\
      c' = set_accepted_epoch (Some (epoch (configuration signed))) (set_bindings b c)
  | (c', Err _) => c' = c /\ ~ acceptable signed c
  end.
Proof.
  unfold apply_configuration, acceptable, bind, lift, get, fail, modify.
  destruct (SignedFederationConfiguration.verify signed) as [[]|] eqn:Hv; simpl; [|naive_solver].
  apply verify_valid in Hv. destruct Hv as [_ [Hid _]]. apply member_ids_nodup in Hid.
  case_decide; [naive_solver|]. case_decide; [naive_solver|].
  destruct (stale (accepted_epoch c) (epoch (configuration signed))) eqn:Hst.
  { split; [done|]. apply stale_newer in Hst. naive_solver. }
  destruct (bind_members (policy c) _ false _) as [[b sn]|er] eqn:Hb.
  - pose proof (bind_members_ok _ _ _ _ _ _ (I : bt_wf CfrEndpointBindings.new) Hb) as (Hok & Hwf & Hs).
    destruct sn; simpl.
    + split.
      * split_and!; try done; [|naive_solver]. by apply not_stale_newer.
      * exists b. split_and!; [done| |done]. intros k ep.
        rewrite (bind_members_get _ _ _ _ _ _ k ep (I : bt_wf CfrEndpointBindings.new) Hid Hb).
        split; [|by left]. intros [?|[? _]]; [done|]. done.
    + split; [done|]. naive_solver.
  - apply bind_members_err in Hb as [-> Hn]. naive_solver.
Qed.
(** A client adopts a snapshot exactly when both authority signatures verify,
    federation and authority are the pinned ones, the epoch is strictly newer
    than the last adopted one, and the local participant is a member bound to
    the local endpoint.  It then binds precisely the remote members to their
    endpoints, none of them to its own endpoint, and keeps its connections; a
    snapshot it does not adopt changes nothing. *)
Theorem apply_configuration_spec signed c :
  match apply_configuration signed c with
  | (c', Ok _) =>
      acceptable signed c /\ accepted_epoch c' = Some (epoch (configuration signed)) /\
      policy c' = policy c /\ connections c' = connections c /\
      (forall k ep, CfrEndpointBindings.endpoint (bindings c') k = Some ep <->
                    remote_member (policy c) (members (configuration signed)) k ep) /\
      (forall k, CfrEndpointBindings.endpoint (bindings c') k <> Some (local_endpoint (policy c)))
  | (c', Err _) => c' = c /\ ~ acceptable signed c
  end.
Proof.
  pose proof (apply_configuration_outcome signed c) as Ho.
  destruct (apply_configuration signed c) as [c' [[]|er]]; [|done].
  destruct Ho as (Hacc & b & Hwf & Hget & ->). split_and!; try done. intros k.
  unfold CfrEndpointBindings.endpoint. simpl. rewrite Hget. apply remote_not_local; [|apply Hacc..].
  apply Hacc.
Qed.

(** The epochs a client adopts while it is handed snapshots one after the other. *)
Fixpoint adopted_epochs (ss : list SignedFederationConfiguration) (c : t) : list u64 :=
  match ss with
  | [] => []
  | s :: rest =>
      match apply_configuration s c with
      | (c', Ok _) => epoch (configuration s) :: adopted_epochs rest c'
      | (c', Err _) => adopted_epochs rest c'
      end
  end.

Lemma adopted_above ss c :
  StronglySorted (fun a b => uval a < uval b) (adopted_epochs ss c) /\
  Forall (newer c) (adopted_epochs ss c).
Proof.
  revert c. induction ss as [|s ss IH]; intros c; simpl; [by split; constructor|].
  pose proof (apply_configuration_outcome s c) as Ho.
  destruct (apply_configuration s c) as [c' [u|er]].
  - destruct Ho as ((_ & _ & _ & Hn & _) & b & _ & _ & ->).
    destruct (IH (set_accepted_epoch (Some (epoch (configuration s))) (set_bindings b c)))
      as [Hs Hf]. split; constructor; try done.
    eapply Forall_impl; [exact Hf|]. unfold newer in *. simpl. intros e He.
    destruct (accepted_epoch c); [lia|done].
  - destruct Ho as [-> _]. apply IH.
Qed.

(** A client never rolls back: whatever snapshots it is handed, in whatever
    order and however often, the epochs of those it adopts are strictly
    increasing and all above the epoch it started from. *)
Theorem adopted_epochs_increasing ss c :
  StronglySorted (fun a b => uval a < uval b) (adopted_epochs ss c) /\
  Forall (newer c) (adopted_epochs ss c).
Proof. apply adopted_above. Qed.
End apply.

(** ** The client over its lifetime *)
Section lifetime.
Context `{Cfr, Crypto} `{!CfrLaws _}.
Import FederationClient.

Inductive ClientInput : Type :=
| IApply (signed : SignedFederationConfiguration)
| IInsert (connection : Connection.t)
| IRemove (endpoint : EndpointIdentity).

Definition client_run (i : ClientInput) (c : t) : t :=
  match i with
  | IApply signed => fst (apply_configuration signed c)
  | IInsert connection => fst (insert_connection connection c)
  | IRemove endpoint => fst (remove_connection endpoint c)
  end.

(** The directory holds connections of this endpoint in this federation, each
    under the remote endpoint it is pinned to; no binding leads to the local
    endpoint. *)
Definition client_wf (c : t) : Prop :=
  PeerConnections.federation (connections c) = policy_federation (policy c) /\
  PeerConnections.local (connections c) = local_endpoint (policy c) /\
  bt_wf (PeerConnections.entries (connections c)) /\ bt_wf (bindings c) /\
  (forall ep conn, PeerConnections.get_connection (connections c) ep = Some conn ->
     Connection.remote conn = ep /\ Connection.local conn = local_endpoint (policy c) /\
     Connection.federation conn = policy_federation (policy c)) /\
  (forall k, CfrEndpointBindings.endpoint (bindings c) k <> Some (local_endpoint (policy c))).

Lemma new_client_wf p : client_wf (new p).
Proof. by split_and!. Qed.

Lemma client_run_wf i c : client_wf c -> client_wf (client_run i c).
Proof.
  intros (Hf & Hl & He & Hb & Hd & Hn). destruct i as [signed|conn|ep]; simpl.
  - pose proof (apply_configuration_outcome signed c) as Ho.
    destruct (apply_configuration signed c) as [c' [[]|er]]; simpl; [|by destruct Ho as [-> _]].
    destruct Ho as ((Hv & _ & _ & _ & Hok & Hnm) & b & Hwf & Hget & ->).
    split_and!; try done. intros k. unfold CfrEndpointBindings.endpoint. simpl. rewrite Hget.
    by apply remote_not_local.
  - unfold insert_connection, PeerConnections.insert, Prelude.bind, get, fail, modify, ret.
    case_decide as Hm; [done|]. apply Decidable.not_or in Hm as [Hm1%dec_stable Hm2%dec_stable].
    split_and!; simpl; try done; [by apply bt_put_wf|].
    intros ep conn'. unfold PeerConnections.get_connection. simpl. rewrite bt_get_put by done.
    case_decide as E; [|by apply Hd]. intros [= <-]. subst ep.
    split_and!; [done|congruence..].
  - split_and!; simpl; try done; [by apply bt_del_wf|].
    intros ep' conn. unfold PeerConnections.get_connection. simpl. rewrite bt_get_del by done.
    case_decide; [done|]. by apply Hd.
Qed.

Definition client_runs (ins : list ClientInput) (c : t) : t := foldl (fun c i => client_run i c) c ins.

Lemma client_runs_wf ins c : client_wf c -> client_wf (client_runs ins c).
Proof. revert c. induction ins as [|i ins IH]; intros c Hc; [done|]. by apply IH, client_run_wf. Qed.

Lemma client_runs_policy ins c : policy (client_runs ins c) = policy c.
Proof.
  revert c. induction ins as [|i ins IH]; intros c; [done|]. simpl. rewrite IH.
  destruct i as [signed|conn|ep]; simpl; [|by unfold insert_connection; case_match|done].
  - pose proof (apply_configuration_outcome signed c) as Ho.
    destruct (apply_configuration signed c) as [c' [[]|er]]; simpl; [|by destruct Ho as [-> _]].
    by destruct Ho as (_ & b & _ & _ & ->).
Qed.
End lifetime.

(** ** Routing *)
Section routing.
Context `{Cfr, Crypto} `{!CfrLaws _} {S : Type} `{EndpointSigner S}.
Import FederationClient.

(** The participants a message is for, in the order they are served. *)
Definition targets (message : Message) (b : CfrEndpointBindings.t) : list SigPublic :=
  match to message with
  | Peer identity => [identity]
  | Everyone => CfrEndpointBindings.identities b
  end.

(** The connection that carries a payload to a participant. *)
Definition carries (signer : S) (p : bytes) (b : CfrEndpointBindings.t) (d : PeerConnections.t)
    (k : SigPublic) (conn : Connection.t) : Prop :=
  exists ep, CfrEndpointBindings.endpoint b k = Some ep /\
    PeerConnections.get_connection d ep = Some conn /\
    endpoint signer = Connection.local conn /\ Connection.phase conn = Established /\
    Body_validate (BCfrControl p) = Ok tt.

Lemma cfr_control_eval signer p conn act :
  eval (Connection.cfr_control signer p) conn = Ok act <->
  endpoint signer = Connection.local conn /\ Connection.phase conn = Established /\
  Body_validate (BCfrControl p) = Ok tt /\
  act = Send (Connection.outgoing signer (BCfrControl p) conn).
Proof.
  unfold eval. destruct (Connection.cfr_control signer p conn) as [c' [a|er]] eqn:E; simpl.
  - apply Connection.cfr_control_ok in E. naive_solver.
  - split; [done|]. intros (Hs & Hph & Hv & ->).
    rewrite (proj2 (Connection.cfr_control_ok signer p conn conn _)) in E by done. done.
Qed.

Lemma route_one_ok message signer b d k acts :
  route_one message signer b d k = Ok acts <->
  exists conn, carries signer (payload message) b d k conn /\
    acts = [Send (Connection.outgoing signer (BCfrControl (payload message)) conn)].
Proof.
  unfold route_one, carries. rewrite res_bind_ok. split.
  - intros (ep & Hep%ok_or_ok & (conn & Hc%ok_or_ok & (a & Ha & [= <-])%res_bind_ok)%res_bind_ok).
    apply map_err_ok, cfr_control_eval in Ha as (? & ? & ? & ->). eauto 10.
  - intros (conn & (ep & Hep & Hc & Hs & Hph & Hv) & ->). exists ep. rewrite Hep. split; [done|].
    apply res_bind_ok. exists conn. rewrite Hc. split; [done|]. apply res_bind_ok. eexists.
    rewrite map_err_ok, cfr_control_eval. done.
Qed.

Lemma route_all_ok message signer b d pre ks acts :
  route_all message signer b d pre ks = Ok acts <->
  exists conns, Forall2 (carries signer (payload message) b d) ks conns /\
    acts = pre ++ ((fun conn => Send (Connection.outgoing signer (BCfrControl (payload message)) conn))
                     <$> conns).
Proof.
  revert pre. induction ks as [|k ks IH]; intros pre; simpl.
  - split.
    + intros [= <-]. exists []. by rewrite app_nil_r.
    + intros (conns & Hf%Forall2_nil_inv_l & ->). subst. by rewrite app_nil_r.
  - rewrite res_bind_ok. split.
    + intros (more & (conn & Hc & ->)%route_one_ok & (conns & Hf & ->)%IH).
      exists (conn :: conns). rewrite <- app_assoc. split; [by constructor|done].
    + intros (conns & (conn & conns' & Hc & Hf & ->)%Forall2_cons_inv_l & ->).
      eexists. rewrite route_one_ok. split; [eauto|]. apply IH. exists conns'.
      rewrite <- app_assoc. done.
Qed.

Lemma route_outbound_ok message signer b d acts :
  Client.route_outbound message signer b d = Ok acts <->
  exists conns, Forall2 (carries signer (payload message) b d) (targets message b) conns /\
    acts = (fun conn => Send (Connection.outgoing signer (BCfrControl (payload message)) conn)) <$> conns.
Proof.
  unfold Client.route_outbound, targets. destruct (to message) as [k|].
  - rewrite route_one_ok. split.
    + intros (conn & Hc & ->). exists [conn]. by repeat constructor.
    + intros (conns & (conn & conns' & Hc & ->%Forall2_nil_inv_l & ->)%Forall2_cons_inv_l & ->). eauto.
  - apply route_all_ok.
Qed.

(** What the action for one participant sends. *)
Definition addressed (c : t) (p : bytes) (k : SigPublic) (act : Action) : Prop :=
  exists e ep, act = Send e /\ CfrEndpointBindings.endpoint (bindings c) k = Some ep /\
    recipient e = ep /\ sender e = local_endpoint (policy c) /\
    federation e = policy_federation (policy c) /\ body e = BCfrControl p.

(** Routing over the lifetime of a client: after any sequence of snapshots and
    directory changes, a routed message is sent to exactly the bound
    participants it names, each once and in key order for a broadcast, to the
    endpoint bound to the participant and never to the client itself, with the
    exact payload, under the client's own identity and federation.  A broadcast
    that cannot reach one bound participant sends nothing. *)
Theorem route_outbound_exact pol ins message signer acts :
  let c := client_runs ins (new pol) in
  FederationClient.route_outbound c message signer = Ok acts ->
  Forall2 (addressed c (payload message)) (targets message (bindings c)) acts /\
  NoDup (targets message (bindings c)) /\
  (forall k ep, k ∈ targets message (bindings c) ->
     CfrEndpointBindings.endpoint (bindings c) k = Some ep -> ep <> local_endpoint pol).
Proof.
  intros c Hr. pose proof (client_runs_wf ins _ (new_client_wf pol)) as (_ & _ & _ & Hb & Hd & Hn).
  pose proof (client_runs_policy ins (new pol)) as Hp. fold c in Hb, Hd, Hn, Hp.
  apply route_outbound_ok in Hr as (conns & Hf & ->). split_and!.
  - apply Forall2_fmap_r. eapply Forall2_impl; [exact Hf|].
    intros k conn (ep & Hep & (Hr & Hl & Hfed)%Hd & Hs & _ & _).
    exists (Connection.outgoing signer (BCfrControl (payload message)) conn), ep. simpl. rewrite Hs. done.
  - unfold targets. destruct (to message); [apply NoDup_singleton|by apply bt_keys_nodup].
  - intros k ep _ Hep ->. apply (Hn k). rewrite Hep, Hp. done.
Qed.
End routing.

(** ** Concrete runs *)
Module ClientExamples.
Import FederationClient ConfigExamples.

#[local] Existing Instance Sample.crypto.
#[local] Existing Instance Sample.crypto_laws.

(** CFR identities as plain 32-byte keys. *)
#[local] Instance cfr : Cfr := {|
  SigPublic := array 32;
  SigPublic_from_bytes k := k;
  Conference := unit; CfrError := unit; Event := unit;
|}.

#[local] Instance cfr_laws : CfrLaws cfr.
Proof. split; [apply array_order | done]. Qed.

(** Participant [1] at endpoint [3], in the federation of authority [9]. *)
Definition pol : ClientConfiguration :=
  {| policy_federation := Sample.federation x01; policy_authority := Sample.identity x09;
     local_cfr_identity := (array_fill 32 x01 : SigPublic);
     local_endpoint := Sample.identity x03 |}.

Definition snapshot (e : Z) (He : (0 <=? e) && (e <? 2 ^ 64) = true) :
    SignedFederationConfiguration := signed_config (Sample.signer x09) (config e He).

Lemma apply_configuration_spec_witness :
  let s := snapshot 5 eq_refl in let c := new pol in
  match apply_configuration s c with
  | (c', Ok _) =>
      acceptable s c /\ accepted_epoch c' = Some (epoch (configuration s)) /\
      policy c' = policy c /\ connections c' = connections c /\
      (forall k ep, CfrEndpointBindings.endpoint (bindings c') k = Some ep <->
                    remote_member (policy c) (members (configuration s)) k ep) /\
      (forall k, CfrEndpointBindings.endpoint (bindings c') k <> Some (local_endpoint (policy c)))
  | (c', Err _) => c' = c /\ ~ acceptable s c
  end.
Proof. intros s c. clearbody s c. exact (apply_configuration_spec s c). Defined.

Lemma adopted_epochs_increasing_witness :
  let ss := [snapshot 5 eq_refl; snapshot 4 eq_refl; snapshot 6 eq_refl] in
  StronglySorted (fun a b => uval a < uval b) (adopted_epochs ss (new pol)) /\
  Forall (newer (new pol)) (adopted_epochs ss (new pol)).
Proof. intros ss. clearbody ss. exact (adopted_epochs_increasing ss (new pol)). Defined.

(** The client adopts a snapshot and connects to participant [2]. *)
Definition conn : Connection.t := Connection.Examples.established x03 x04.
Definition inputs : list ClientInput := [IApply (snapshot 5 eq_refl); IInsert conn].
Definition peer : SigPublic := array_fill 32 x02.
Definition hello : Message := {| to := Peer peer; payload := [x0c] |}.

Lemma config_valid e He : valid (config e He).
Proof. apply validate_ok. reflexivity. Qed.

Lemma sample_local_ok : local_ok pol [member x01 x03; member x02 x04].
Proof.
  intros m [->|[->|[]%elem_of_nil]%elem_of_cons]%elem_of_cons Hm; [done|].
  by apply (f_equal (fun a => hd x00 (abytes a))) in Hm.
Qed.

Lemma sample_names_local : names_local pol [member x01 x03; member x02 x04].
Proof. exists (member x01 x03). split; [by left|done]. Qed.

Lemma snapshot_acceptable : acceptable (snapshot 5 eq_refl) (new pol).
Proof.
  split_and!; [apply signed_config_verifies; [done|apply config_valid] | done | done | done | |].
  - apply sample_local_ok.
  - apply sample_names_local.
Qed.

Lemma adopted_binding :
  exists b, fst (apply_configuration (snapshot 5 eq_refl) (new pol)) =
    set_accepted_epoch (Some (epoch (config 5 eq_refl))) (set_bindings b (new pol)) /\
    bt_get peer b = Some (Sample.identity x04).
Proof.
  pose proof (apply_configuration_outcome (snapshot 5 eq_refl) (new pol)) as Ho.
  destruct (apply_configuration _ _) as [c' [[]|er]].
  - destruct Ho as (_ & b & _ & Hget & ->). exists b. split; [done|]. apply Hget.
    exists (member x02 x04). split_and!; [by right; left|done| |done].
    intros Hm. by apply (f_equal (fun a => hd x00 (abytes a))) in Hm.
  - destruct Ho as [_ []]. apply snapshot_acceptable.
Qed.

Lemma route_sample :
  FederationClient.route_outbound (client_runs inputs (new pol)) hello (Sample.signer x03) =
  Ok [Send (Connection.outgoing (Sample.signer x03) (BCfrControl [x0c]) conn)].
Proof.
  destruct adopted_binding as (b & Hc & Hb).
  apply route_outbound_ok. exists [conn]. split; [|reflexivity].
  repeat constructor. exists (Sample.identity x04).
  unfold client_runs, inputs. cbn [foldl client_run]. rewrite Hc. split_and!; [exact Hb|..]; done.
Qed.

Lemma route_outbound_exact_witness :
  let c := client_runs inputs (new pol) in
  Forall2 (addressed c [x0c]) [peer]
    [Send (Connection.outgoing (Sample.signer x03) (BCfrControl [x0c]) conn)] /\
  NoDup [peer] /\
  (forall k ep, k ∈ [peer] ->
     CfrEndpointBindings.endpoint (bindings c) k = Some ep -> ep <> local_endpoint pol).
Proof. exact (route_outbound_exact pol inputs hello (Sample.signer x03) _ route_sample). Defined.

End ClientExamples.
