(* ===== verification/Server.v ===== *)
(** * The configuration authority

    [crates/libfcp-server/src/server.rs]: the authority that publishes signed
    snapshots of one federation, and its interplay with the client. *)

From Stdlib Require Import ZArith Lia.
From stdpp Require Import base list option numbers decidable sets.
From S2P Require Import Prelude Bytes BTree Types Identity Sample Config Client.

Inductive ServerError : Type :=
| NonIncreasingEpoch
| Core (error : Error).

Module FederationServer.
Section server.
Context `{Crypto}.

Record t : Type := {
  signer : SigningIdentity;
  configuration : FederationConfiguration;
}.

Definition new (federation : FederationId) (signer : SigningIdentity) : result ServerError t :=
  let authority := SigningIdentity_endpoint signer in
  let? configuration := map_err Core
    (FederationConfiguration.new federation authority (@UInt 64 0 eq_refl) []) in
  Ok {| signer := signer; configuration := configuration |}.

Definition authority (self : t) : EndpointIdentity := Config.authority (configuration self).
Definition federation (self : t) : FederationId := config_federation (configuration self).
Definition epoch (self : t) : u64 := Config.epoch (configuration self).

Definition set_configuration (c : FederationConfiguration) (self : t) : t :=
  {| signer := signer self; configuration := c |}.

Definition replace_members (epoch : u64) (members : list FederationMember) :
    M t ServerError unit :=
  do self <- get;
  if uval epoch <=? uval (Config.epoch (configuration self)) then fail NonIncreasingEpoch else
  do configuration <- lift (map_err Core
    (FederationConfiguration.new (config_federation (configuration self))
       (Config.authority (configuration self)) epoch members));
  modify (set_configuration configuration).

Definition publish (self : t) : result ServerError SignedFederationConfiguration :=
  map_err Core (SignedFederationConfiguration.sign (configuration self) (signer self)).

(** ** Reachable servers *)
Inductive reaches (s0 : t) : t -> Prop :=
| reaches_refl : reaches s0 s0
| reaches_step s e ms s' r :
    reaches s0 s -> replace_members e ms s = (s', r) -> reaches s0 s'.

Definition server_wf (s : t) : Prop :=
  valid (configuration s) /\ authority s = SigningIdentity_endpoint (signer s).

Lemma new_server_ok f k s :
  new f k = Ok s ->
  s = {| signer := k; configuration := {| config_federation := f;
         Config.authority := SigningIdentity_endpoint k; Config.epoch := @UInt 64 0 eq_refl;
         members := [] |} |}.
Proof. intros (c & [= <-] & [= <-])%res_bind_ok. done. Qed.

Lemma replace_members_ok e ms s s' :
  replace_members e ms s = (s', Ok tt) <->
  let c := {| config_federation := federation s; Config.authority := authority s;
              Config.epoch := e; members := ms |} in
  uval (epoch s) < uval e /\ valid c /\ s' = set_configuration c s.
Proof.
  unfold replace_members, bind, get, fail, lift, modify.
  destruct (Z.leb_spec (uval e) (uval (Config.epoch (configuration s)))).
  - split; [done|]. intros [Hlt _]. unfold epoch in Hlt. lia.
  - destruct (FederationConfiguration.new _ _ e ms) as [c|er] eqn:Hn; cbn [map_err].
    + apply new_config in Hn as [-> Hv]. unfold federation, authority, epoch. naive_solver.
    + split; [done|]. intros (_ & Hv & _). unfold federation, authority in Hv.
      rewrite (proj2 (new_config _ _ e ms _) (conj eq_refl Hv)) in Hn. done.
Qed.

Lemma replace_members_err e ms s s' er : replace_members e ms s = (s', Err er) -> s' = s.
Proof.
  unfold replace_members, bind, get, fail, lift, modify. repeat case_match; naive_solver.
Qed.

Lemma reaches_wf s0 s :
  reaches s0 s -> server_wf s0 ->
  server_wf s /\ federation s = federation s0 /\ authority s = authority s0 /\
  signer s = signer s0 /\ uval (epoch s0) <= uval (epoch s).
Proof.
  intros Hr Hwf. induction Hr as [|s e ms s' r _ (IHw & IHf & IHa & IHs & IHe) Hrun]; [done|].
  destruct r as [[]|er]; [|by apply replace_members_err in Hrun as ->].
  apply replace_members_ok in Hrun as (Hlt & Hv & ->).
  destruct IHw as [_ Ha]. split_and!; try done. unfold epoch in *. simpl. lia.
Qed.
End server.
End FederationServer.

Section authority.
Context `{CryptoLaws}.
Import FederationServer.

Lemma server_publishes s :
  server_wf s -> publish s = Ok (signed_config (signer s) (configuration s)).
Proof.
  intros [Hv Ha]. unfold publish.
  by rewrite (proj2 (sign_config_ok (signer s) (configuration s) 
    (signed_config (signer s) (configuration s)))).
Qed.

(** a federation authority can always publish: from creation on, whatever
    membership replacements were attempted, publishing succeeds, the published
    snapshot is the current configuration under the authority created with the
    server, its signatures verify, it survives encoding and verified decoding,
    and its epoch never decreases. *)
Theorem authority_publishes f k s0 s :
  FederationServer.new f k = Ok s0 -> reaches s0 s ->
  exists p w, publish s = Ok p /\ Config.configuration p = configuration s /\
    config_federation (Config.configuration p) = f /\
    Config.authority (Config.configuration p) = SigningIdentity_endpoint k /\
    SignedFederationConfiguration.encode p = Ok w /\
    SignedFederationConfiguration.decode_verified w = Some (Ok p) /\
    uval (epoch s0) <= uval (epoch s).
Proof.
  intros ->%new_server_ok Hr.
  destruct (reaches_wf _ _ Hr) as (Hwf & Hf & Ha & Hk & He).
  { split; [|done]. apply validate_ok. reflexivity. }
  exists (signed_config (signer s) (configuration s)),
    (signed_image (signed_config (signer s) (configuration s))).
  pose proof Hwf as [Hv Hsa]. split_and!; try done; [by apply server_publishes | by apply encode_config |].
  by rewrite decode_verified_image, signed_config_verifies.
Qed.

(** C28: end to end between authority and client: when the authority replaces the
    members at a newer epoch and the client pins that authority and federation,
    has adopted only older epochs and is itself a member bound to its own
    endpoint, the client verifies, decodes and adopts the published bytes, and
    afterwards resolves exactly the other members to their endpoints. *)
Theorem authority_to_client `{R : Cfr} `{!CfrLaws R} s0 s e ms (c : FederationClient.t) :
  server_wf s0 -> replace_members e ms s0 = (s, Ok tt) ->
  policy_federation (FederationClient.policy c) = federation s0 ->
  policy_authority (FederationClient.policy c) = authority s0 ->
  newer c e -> local_ok (FederationClient.policy c) ms -> names_local (FederationClient.policy c) ms ->
  exists p w c', publish s = Ok p /\ SignedFederationConfiguration.encode p = Ok w /\
    SignedFederationConfiguration.decode_verified w = Some (Ok p) /\
    FederationClient.apply_configuration p c = (c', Ok tt) /\
    FederationClient.accepted_epoch c' = Some e /\
    forall k ep, CfrEndpointBindings.endpoint (FederationClient.bindings c') k = Some ep <->
                 remote_member (FederationClient.policy c) ms k ep.
Proof.
  intros [Hv0 Ha0] (Hlt & Hv & ->)%replace_members_ok Hf Ha Hn Hok Hnm.
  set (cfg := {| config_federation := _ |}) in *.
  assert (Hwf : server_wf (set_configuration cfg s0)) by done.
  exists (signed_config (signer s0) cfg), (signed_image (signed_config (signer s0) cfg)).
  assert (Hve : SignedFederationConfiguration.verify (signed_config (signer s0) cfg) = Ok tt)
    by by apply signed_config_verifies.
  pose proof (apply_configuration_outcome (signed_config (signer s0) cfg) c) as Ho.
  destruct (FederationClient.apply_configuration _ c) as [c' [[]|er]].
  - destruct Ho as (_ & b & _ & Hget & ->). eexists.
    split_and!; [by apply (server_publishes (set_configuration cfg s0)) | by apply encode_config
      | by rewrite decode_verified_image, Hve | done..].
  - destruct Ho as [_ []]. by split_and!.
Qed.
End authority.

(** ** Concrete runs *)
Module ServerExamples.
Import FederationServer ConfigExamples.

#[local] Existing Instance Sample.crypto.
#[local] Existing Instance Sample.crypto_laws.
#[local] Existing Instance ClientExamples.cfr.
#[local] Existing Instance ClientExamples.cfr_laws.

Definition start : t :=
  {| signer := Sample.signer x09;
     configuration := {| config_federation := Sample.federation x01;
       Config.authority := Sample.identity x09; Config.epoch := @UInt 64 0 eq_refl;
       members := [] |} |}.

Definition sample_members : list FederationMember := [member x01 x03; member x02 x04].
Definition replaced : t :=
  set_configuration {| config_federation := Sample.federation x01;
    Config.authority := Sample.identity x09; Config.epoch := @UInt 64 5 eq_refl;
    members := sample_members |} start.

Lemma start_wf : server_wf start.
Proof. split; [|done]. apply validate_ok. reflexivity. Qed.

Lemma start_replaced : replace_members (@UInt 64 5 eq_refl) sample_members start = (replaced, Ok tt).
Proof. apply replace_members_ok. split_and!; [done| |done..]. apply (ClientExamples.config_valid 5 eq_refl). Qed.

Lemma authority_publishes_witness :
  exists p w, publish replaced = Ok p /\ Config.configuration p = configuration replaced /\
    config_federation (Config.configuration p) = Sample.federation x01 /\
    Config.authority (Config.configuration p) = SigningIdentity_endpoint (Sample.signer x09) /\
    SignedFederationConfiguration.encode p = Ok w /\
    SignedFederationConfiguration.decode_verified w = Some (Ok p) /\
    uval (epoch start) <= uval (epoch replaced).
Proof.
  apply (authority_publishes (Sample.federation x01) (Sample.signer x09) start replaced eq_refl).
  exact (reaches_step start start _ _ replaced _ (reaches_refl start) start_replaced).
Defined.

Lemma authority_to_client_witness :
  let c := FederationClient.new ClientExamples.pol in
  exists p w c', publish replaced = Ok p /\ SignedFederationConfiguration.encode p = Ok w /\
    SignedFederationConfiguration.decode_verified w = Some (Ok p) /\
    FederationClient.apply_configuration p c = (c', Ok tt) /\
    FederationClient.accepted_epoch c' = Some (@UInt 64 5 eq_refl) /\
    forall k ep, CfrEndpointBindings.endpoint (FederationClient.bindings c') k = Some ep <->
                 remote_member (FederationClient.policy c) sample_members k ep.
Proof.
  intros c.
  exact (authority_to_client start replaced (@UInt 64 5 eq_refl) sample_members c start_wf
    start_replaced eq_refl eq_refl I ClientExamples.sample_local_ok
    ClientExamples.sample_names_local).
Defined.

End ServerExamples.
