(* ===== verification/Transport.v ===== *)
(** * Platform adapters

    [crates/libfcp/src/transport]: the contract of a WebRTC adapter as a type
    class, the dispatcher of core actions, the events an adapter reports and
    the queue-backed adapter used across language boundaries. *)

From Stdlib Require Import ZArith Lia.
From stdpp Require Import base list option numbers decidable sets.
From S2P Require Import Prelude Bytes BTree Types Identity Sample Wire Codec Conn.

(** ** The adapter contract

    [A] is the adapter's state, [E] its error type. *)
Class WebRtcAdapter (A E : Type) : Type := {
  apply_offer : WebRtcBinding -> bytes -> M A E unit;
  apply_answer : WebRtcBinding -> bytes -> M A E unit;
  add_candidate : u32 -> bytes -> M A E unit;
  open_control_channel : ControlChannelConfig -> M A E unit;
  close_transport : CloseCode -> M A E unit;
}.

Inductive AdapterEvent : Type :=
| Connected
| ControlBinary (wire : bytes)
| Failed
| EventClosed.

Inductive ApplicationAction : Type :=
| AppSend (envelope : Envelope)
| AppDeliverCfr (envelope_id : EnvelopeId) (remote_endpoint : EndpointIdentity) (payload : bytes).

Definition apply_event `{Crypto} (event : AdapterEvent) : M Connection.t Error (list Action) :=
  match event with
  | Connected => Connection.transport_connected
  | ControlBinary wire =>
      do envelope <- lift (Envelope.decode_verified wire);
      Connection.receive envelope
  | Failed | EventClosed =>
      do_ Connection.transport_failed;
      ret []
  end.

Definition dispatch {A E} `{WebRtcAdapter A E} (action : Action) : M A E (option ApplicationAction) :=
  match action with
  | Send envelope => ret (Some (AppSend envelope))
  | ApplyOffer binding description => do_ apply_offer binding description; ret None
  | ApplyAnswer binding description => do_ apply_answer binding description; ret None
  | AddCandidate sequence candidate => do_ add_candidate sequence candidate; ret None
  | OpenControlChannel => do_ open_control_channel CONTROL_CHANNEL; ret None
  | DeliverCfr envelope_id remote_endpoint payload =>
      ret (Some (AppDeliverCfr envelope_id remote_endpoint payload))
  | CloseTransport reason => do_ close_transport reason; ret None
  end.

(** ** The queue-backed adapter *)
Inductive NativeCommand : Type :=
| NativeApplyOffer (binding : WebRtcBinding) (description : bytes)
| NativeApplyAnswer (binding : WebRtcBinding) (description : bytes)
| NativeAddCandidate (sequence : u32) (candidate : bytes)
| NativeOpenControlChannel (configuration : ControlChannelConfig)
| NativeClose (reason : CloseCode).

Module CommandQueue.

Record t : Type := { commands : list NativeCommand }.

Definition take_commands (self : t) : t * list NativeCommand :=
  ({| commands := [] |}, commands self).

Definition push (c : NativeCommand) : M t Empty_set unit :=
  modify (fun self => {| commands := commands self ++ [c] |}).

#[global] Instance adapter : WebRtcAdapter t Empty_set := {
  apply_offer binding description := push (NativeApplyOffer binding description);
  apply_answer binding description := push (NativeApplyAnswer binding description);
  add_candidate sequence candidate := push (NativeAddCandidate sequence candidate);
  open_control_channel configuration := push (NativeOpenControlChannel configuration);
  close_transport reason := push (NativeClose reason);
}.

End CommandQueue.

(** ** Dispatching a batch

    An owner hands the actions of one core step to the adapter in order and
    collects what is left for the application. *)
Fixpoint dispatch_all {A E} `{WebRtcAdapter A E} (actions : list Action) :
    M A E (list ApplicationAction) :=
  match actions with
  | [] => ret []
  | a :: rest =>
      do o <- dispatch a;
      do l <- dispatch_all rest;
      ret (match o with Some x => x :: l | None => l end)
  end.

(** Which side owns an action. *)
Definition native_of (a : Action) : option NativeCommand :=
  match a with
  | ApplyOffer b d => Some (NativeApplyOffer b d)
  | ApplyAnswer b d => Some (NativeApplyAnswer b d)
  | AddCandidate s c => Some (NativeAddCandidate s c)
  | OpenControlChannel => Some (NativeOpenControlChannel CONTROL_CHANNEL)
  | CloseTransport r => Some (NativeClose r)
  | Send _ | DeliverCfr _ _ _ => None
  end.

Definition application_of (a : Action) : option ApplicationAction :=
  match a with
  | Send e => Some (AppSend e)
  | DeliverCfr i r p => Some (AppDeliverCfr i r p)
  | _ => None
  end.

Lemma dispatch_queue a q :
  dispatch a q =
  ({| CommandQueue.commands := CommandQueue.commands q ++ option_list (native_of a) |},
   Ok (application_of a)).
Proof. destruct q, a; simpl; unfold bind, ret; simpl; rewrite ?app_nil_r; done. Qed.

(** the queue-backed adapter loses and reorders nothing: dispatching a batch
    of actions never fails, draining the queue afterwards yields exactly the
    engine commands of the batch in their order, after those queued before, and
    leaves it empty; the remaining actions, envelopes to send and payloads to
    deliver, go to the application in their order. *)
Theorem dispatch_queue_order actions q :
  exists q', dispatch_all actions q = (q', Ok (omap application_of actions)) /\
    CommandQueue.take_commands q' =
    ({| CommandQueue.commands := [] |}, CommandQueue.commands q ++ omap native_of actions).
Proof.
  revert q. induction actions as [|a actions IH]; intros q; simpl.
  - exists q. unfold CommandQueue.take_commands. by rewrite app_nil_r.
  - unfold bind. rewrite dispatch_queue.
    destruct (IH {| CommandQueue.commands := CommandQueue.commands q ++ option_list (native_of a) |})
      as (q' & -> & Ht).
    exists q'. split; [by destruct (application_of a)|]. rewrite Ht. simpl.
    destruct (native_of a); simpl; by rewrite <- app_assoc.
Qed.

(** Bytes read from the control channel reach the state machine only as one
    whole canonical envelope: an event with binary content causes actions
    exactly when the bytes are the encoding of an envelope that the connection
    accepts, and otherwise it leaves the connection unchanged. *)
Theorem control_binary_iff `{Crypto} w c c' act acts :
  (apply_event (ControlBinary w) c = (c', Ok (act :: acts)) <->
   exists e, Envelope.encode e = Ok w /\ Connection.receive e c = (c', Ok (act :: acts))) /\
  (forall er, apply_event (ControlBinary w) c = (c', Err er) -> c' = c).
Proof.
  unfold apply_event. split.
  - rewrite bind_ok. split.
    + intros (c1 & e & [= <- [He _]%decode_verified_ok] & Hr). eauto.
    + intros (e & He & Hr). exists c, e. split; [|done]. unfold lift. f_equal.
      apply decode_verified_ok. split; [done|].
      apply Connection.receive_ok in Hr as (_ & Hv & _). done.
  - intros er [[= -> _]|(c1 & e & [= -> _] & Hr)]%bind_err; [done|].
    by apply Connection.receive_err in Hr.
Qed.
