(* ===== verification/Str.v ===== *)
(** * Strings

    A Rust [str] as the list of its Unicode scalar values; [len] and [bytes]
    are those of its UTF-8 encoding.  The character classes are the ones the
    fabric crates ask of the standard library. *)

From Stdlib Require Import ZArith Lia String Ascii.
From stdpp Require Import base list option numbers decidable.
From S2P Require Import Prelude Bytes.

Abbreviation str := (list Z).

(** A string literal, all of whose characters are ASCII. *)
Definition lit (s : string) : str := (fun b => Z_of_byte b) <$> list_byte_of_string s.

(** ** UTF-8 *)
Definition utf8_char (c : Z) : bytes :=
  if c <? 128 then [byte_of_Z c]
  else if c <? 2048 then [byte_of_Z (192 + c / 64); byte_of_Z (128 + c mod 64)]
  else if c <? 65536 then
    [byte_of_Z (224 + c / 4096); byte_of_Z (128 + (c / 64) mod 64); byte_of_Z (128 + c mod 64)]
  else
    [byte_of_Z (240 + c / 262144); byte_of_Z (128 + (c / 4096) mod 64);
     byte_of_Z (128 + (c / 64) mod 64); byte_of_Z (128 + c mod 64)].

(** [str::bytes] and [str::len]. *)
Definition str_bytes (s : str) : bytes := mjoin (utf8_char <$> s).
Definition str_len (s : str) : Z := blen (str_bytes s).

(** ** Characters *)
Definition is_control (c : Z) : bool := (c <=? 31) || ((127 <=? c) && (c <=? 159)).

(** [char::is_whitespace], the Unicode property [White_Space]. *)
Definition is_whitespace (c : Z) : bool :=
  ((9 <=? c) && (c <=? 13)) || (c =? 32) || (c =? 133) || (c =? 160) || (c =? 5760) ||
  ((8192 <=? c) && (c <=? 8202)) || (c =? 8232) || (c =? 8233) || (c =? 8239) ||
  (c =? 8287) || (c =? 12288).

Definition byte_is_digit (b : byte) : bool := (48 <=? Z_of_byte b) && (Z_of_byte b <=? 57).
Definition byte_is_lowercase (b : byte) : bool := (97 <=? Z_of_byte b) && (Z_of_byte b <=? 122).
Definition byte_is_uppercase (b : byte) : bool := (65 <=? Z_of_byte b) && (Z_of_byte b <=? 90).
Definition byte_is_alphanumeric (b : byte) : bool :=
  byte_is_digit b || byte_is_lowercase b || byte_is_uppercase b.

(** [str::to_ascii_lowercase]. *)
Definition to_ascii_lowercase (s : str) : str :=
  (fun c => if (65 <=? c) && (c <=? 90) then c + 32 else c) <$> s.

(** [str::trim]. *)
Fixpoint trim_start (s : str) : str :=
  match s with
  | c :: s' => if is_whitespace c then trim_start s' else s
  | [] => []
  end.
Definition trim (s : str) : str := rev (trim_start (rev (trim_start s))).

(** [str::split_once] and [str::split] at one character. *)
Fixpoint split_once (sep : Z) (s : str) : option (str * str) :=
  match s with
  | [] => None
  | c :: s' =>
      if c =? sep then Some ([], s')
      else match split_once sep s' with
           | Some (a, b) => Some (c :: a, b)
           | None => None
           end
  end.

Fixpoint split (sep : Z) (s : str) : list str :=
  match s with
  | [] => [[]]
  | c :: s' =>
      if c =? sep then [] :: split sep s'
      else match split sep s' with
           | x :: xs => (c :: x) :: xs
           | [] => [[c]]
           end
  end.

Definition contains (c : Z) (s : str) : bool := bool_decide (c ∈ s).
Definition starts_with (c : Z) (s : str) : bool :=
  match s with x :: _ => x =? c | [] => false end.
Definition ends_with (c : Z) (s : str) : bool := starts_with c (rev s).

(** [s.contains("..")] for a repeated character. *)
Fixpoint contains_pair (c : Z) (s : str) : bool :=
  match s with
  | a :: (b :: _) as s' => ((a =? c) && (b =? c)) || contains_pair c s'
  | _ => false
  end.

(** A bounded label without control characters: the shape the fabric asks of
    correlation ids, issuers and key references. *)
Definition bounded_text (maximum : Z) (s : str) : bool :=
  negb (bool_decide (s = [])) && (str_len s <=? maximum) && negb (existsb is_control s).

(** ** Lemmas *)
Lemma split_once_some sep s a b :
  split_once sep s = Some (a, b) <-> s = a ++ sep :: b /\ sep ∉ a.
Proof.
  revert a. induction s as [|c s IH]; intros a; simpl.
  - split; [done|]. intros [H _]. by destruct a.
  - destruct (Z.eqb_spec c sep) as [->|Hc].
    + split.
      * intros [= <- <-]. split; [done|apply not_elem_of_nil].
      * intros [Hs Hn]. destruct a as [|x a]; simpl in Hs; [naive_solver|].
        injection Hs as -> ->. destruct Hn. by left.
    + destruct (split_once sep s) as [[a' b']|] eqn:E.
      * destruct (IH a') as [H1 _]. split.
        -- intros [= <- <-]. destruct (H1 eq_refl) as [-> Hn]. split; [done|].
           rewrite elem_of_cons. naive_solver.
        -- intros [Hs Hn]. destruct a as [|x a]; simpl in Hs; [naive_solver|].
           injection Hs as -> Hs. rewrite elem_of_cons in Hn.
           assert (H2 : Some (a', b') = Some (a, b)) by (apply IH; naive_solver). naive_solver.
      * split; [done|]. intros [Hs Hn]. destruct a as [|x a]; simpl in Hs; [naive_solver|].
        injection Hs as -> Hs. rewrite elem_of_cons in Hn.
        assert (H2 : None = Some (a, b)) by (apply IH; naive_solver). done.
Qed.

(** An ASCII string is its own byte sequence. *)
Definition ascii (s : str) : Prop := Forall (fun c => 0 <= c < 128) s.

Lemma ascii_bytes s : ascii s -> str_bytes s = byte_of_Z <$> s.
Proof.
  intros Hs. unfold str_bytes. induction Hs as [|c s Hc _ IH]; [done|].
  rewrite !fmap_cons. change (utf8_char c ++ mjoin (utf8_char <$> s) = byte_of_Z c :: (byte_of_Z <$> s)).
  rewrite IH. unfold utf8_char. by rewrite (proj2 (Z.ltb_lt _ _)) by lia.
Qed.

(** The scalar values a [char] ranges over (surrogates are not excluded here). *)
Definition scalar (s : str) : Prop := Forall (fun c => 0 <= c < 1114112) s.

Lemma ascii_scalar s : ascii s -> scalar s.
Proof. intros Hs. eapply Forall_impl; [|exact Hs]. intros c Hc. simpl in Hc. lia. Qed.

Lemma byte_of_Z_small z : 0 <= z < 256 -> Z_of_byte (byte_of_Z z) = z.
Proof. intros. rewrite Z_of_byte_of_Z. by apply Z.mod_small. Qed.

(** The first byte of a character beyond ASCII is a leading byte. *)
Lemma utf8_head c : 128 <= c < 1114112 -> exists b l, utf8_char c = b :: l /\ 192 <= Z_of_byte b.
Proof.
  intros Hc. unfold utf8_char. rewrite (proj2 (Z.ltb_ge _ _)) by lia.
  destruct (Z.ltb_spec c 2048); [|destruct (Z.ltb_spec c 65536)];
    (do 2 eexists; split; [done|]);
    rewrite byte_of_Z_small by (Z.to_euclidean_division_equations; lia);
    Z.to_euclidean_division_equations; lia.
Qed.

(** A string all of whose bytes are ASCII consists of ASCII characters. *)
Lemma ascii_of_bytes (P : byte -> bool) s :
  scalar s -> (forall b, P b = true -> Z_of_byte b < 128) ->
  forallb P (str_bytes s) = true -> ascii s /\ Forall (fun c => P (byte_of_Z c) = true) s.
Proof.
  intros Hs HP. unfold str_bytes. induction Hs as [|c s Hc _ IH]; [by repeat constructor|].
  rewrite fmap_cons. change (mjoin (utf8_char c :: (utf8_char <$> s)))
    with (utf8_char c ++ mjoin (utf8_char <$> s)).
  rewrite forallb_app, andb_true_iff. intros [Hh Ht]. destruct (IH Ht) as [Ha Hf].
  assert (Hlt : c < 128).
  { destruct (Z.lt_ge_cases c 128) as [|Hge]; [done|].
    destruct (utf8_head c) as (b & l & Hu & Hb); [lia|]. rewrite Hu in Hh. simpl in Hh.
    apply andb_true_iff in Hh as [Hb'%HP _]. lia. }
  split; constructor; try done; [lia|]. unfold utf8_char in Hh.
  rewrite (proj2 (Z.ltb_lt _ _)) in Hh by lia. simpl in Hh. by rewrite andb_true_r in Hh.
Qed.

Lemma ascii_bytes_forallb (P : byte -> bool) s :
  ascii s -> forallb P (str_bytes s) = true <-> Forall (fun c => P (byte_of_Z c) = true) s.
Proof.
  intros Hs. rewrite ascii_bytes by done. clear Hs.
  induction s as [|c s IH]; [done|]. rewrite fmap_cons. simpl. rewrite andb_true_iff, IH.
  split; [intros []; by constructor | by intros [? ?]%Forall_cons_1].
Qed.

(** Splitting at a separator. *)
Lemma split_nonempty sep s : split sep s <> [].
Proof. destruct s as [|c s]; simpl; [done|]. destruct (c =? sep); [done|]. by destruct (split sep s). Qed.

Lemma split_snoc sep s : split sep (s ++ [sep]) = split sep s ++ [[]].
Proof.
  induction s as [|c s IH]; simpl; [by rewrite Z.eqb_refl|].
  destruct (c =? sep); [by rewrite IH|]. rewrite IH.
  destruct (split sep s) eqn:E; [by apply split_nonempty in E|done].
Qed.

Lemma split_elem sep s c : c ∈ s -> c = sep \/ exists x, x ∈ split sep s /\ c ∈ x.
Proof.
  induction s as [|a s IH]; [by intros []%elem_of_nil|]. intros [->|Hc]%elem_of_cons; simpl.
  - destruct (Z.eqb_spec a sep); [by left|]. right.
    destruct (split sep s); eexists; (split; [by left|by left]).
  - destruct (IH Hc) as [->|(x & Hx & Hin)]; [by left|]. right.
    destruct (a =? sep); [exists x; split; [by right|done]|].
    destruct (split sep s) as [|y ys]; [by apply elem_of_nil in Hx|].
    apply elem_of_cons in Hx as [->|Hx]; eexists; (split; [by left|by right]) || (split; [by right|done]).
Qed.

(** Trimming keeps a string without white space. *)
Lemma trim_id s : Forall (fun c => is_whitespace c = false) s -> trim s = s.
Proof.
  intros Hs. unfold trim.
  assert (Hid : forall t, Forall (fun c => is_whitespace c = false) t -> trim_start t = t).
  { intros t Ht. destruct Ht as [|c t Hc _]; [done|]. simpl. by rewrite Hc. }
  rewrite (Hid s Hs), Hid by by apply Forall_rev. apply rev_involutive.
Qed.

Lemma ends_with_snoc c s : ends_with c s = true -> exists s', s = s' ++ [c].
Proof.
  unfold ends_with, starts_with. destruct (rev s) as [|x l] eqn:E; [done|]. intros ->%Z.eqb_eq.
  exists (rev l). rewrite <- (rev_involutive s), E. done.
Qed.

Lemma byte_of_Z_ascii_inj c d : 0 <= c < 128 -> 0 <= d < 128 -> byte_of_Z c = byte_of_Z d -> c = d.
Proof. intros Hc Hd E. rewrite <- (byte_of_Z_small c), <- (byte_of_Z_small d), E by lia. done. Qed.

Lemma ascii_bytes_inj s t : ascii s -> ascii t -> str_bytes s = str_bytes t -> s = t.
Proof.
  intros Hs Ht. rewrite !ascii_bytes by done. revert t Ht.
  induction Hs as [|c s Hc _ IH]; intros [|d t] Ht E; try done.
  apply Forall_cons_1 in Ht as [Hd Ht]. rewrite !fmap_cons in E. injection E as Ec E.
  f_equal; [by apply byte_of_Z_ascii_inj | by apply IH].
Qed.

Lemma utf8_nonempty c : 1 <= blen (utf8_char c).
Proof. unfold utf8_char. repeat case_match; unfold blen; simpl; lia. Qed.

(** [char_length] is at most [octet_length]. *)
Lemma chars_le_bytes (s : str) : blen s <= str_len s.
Proof.
  unfold str_len, str_bytes. induction s as [|c s IH]; [done|].
  rewrite fmap_cons. change (blen (c :: s) <= blen (utf8_char c ++ mjoin (utf8_char <$> s))).
  rewrite blen_app, blen_cons. pose proof (utf8_nonempty c). lia.
Qed.

(** ** Decoding UTF-8 *)

(** The values of a [char]. *)
Definition is_char (c : Z) : bool :=
  ((0 <=? c) && (c <? 55296)) || ((57344 <=? c) && (c <? 1114112)).

Definition continuation (b : byte) : bool := (128 <=? Z_of_byte b) && (Z_of_byte b <? 192).

(** The first character of a byte string, in its shortest form. *)
Definition decode_char (l : bytes) : option (Z * bytes) :=
  match l with
  | [] => None
  | a :: l1 =>
      let x := Z_of_byte a in
      if x <? 128 then Some (x, l1) else
      match l1 with
      | b :: l2 =>
          let y := Z_of_byte b - 128 in
          if negb (continuation b) then None else
          if (192 <=? x) && (x <? 224) then
            let c := (x - 192) * 64 + y in
            if 128 <=? c then Some (c, l2) else None
          else
          match l2 with
          | d :: l3 =>
              let z := Z_of_byte d - 128 in
              if negb (continuation d) then None else
              if (224 <=? x) && (x <? 240) then
                let c := (x - 224) * 4096 + y * 64 + z in
                if (2048 <=? c) && is_char c then Some (c, l3) else None
              else
              match l3 with
              | e :: l4 =>
                  let u := Z_of_byte e - 128 in
                  if negb (continuation e) then None else
                  let c := (x - 240) * 262144 + y * 4096 + z * 64 + u in
                  if (240 <=? x) && (65536 <=? c) && is_char c then Some (c, l4) else None
              | [] => None
              end
          | [] => None
          end
      | [] => None
      end
  end.

(** [core::str::from_utf8].  Every character takes a byte, so the length of the
    input is fuel enough. *)
Fixpoint decode_chars (fuel : nat) (l : bytes) : option str :=
  match l, fuel with
  | [], _ => Some []
  | _, O => None
  | _, S n =>
      match decode_char l with
      | Some (c, r) => cons c <$> decode_chars n r
      | None => None
      end
  end.
Definition from_utf8 (l : bytes) : option str := decode_chars (length l) l.

(** [str::strip_prefix]. *)
Fixpoint strip_prefix (p s : str) : option str :=
  match p, s with
  | [], _ => Some s
  | a :: p', c :: s' => if a =? c then strip_prefix p' s' else None
  | _ :: _, [] => None
  end.

(** [str::lines]: a line ends at LF, which is dropped together with a CR before
    it; the last line may lack its terminator and then keeps a final CR. *)
Definition strip_cr (line_rev : str) : str :=
  match line_rev with
  | 13 :: l => rev l
  | l => rev l
  end.
Fixpoint lines_from (line_rev : str) (s : str) : list str :=
  match s with
  | [] => match line_rev with [] => [] | _ => [rev line_rev] end
  | c :: s' => if c =? 10 then strip_cr line_rev :: lines_from [] s' else lines_from (c :: line_rev) s'
  end.
Definition lines (s : str) : list str := lines_from [] s.

Lemma is_char_iff c : is_char c = true <-> 0 <= c < 55296 \/ 57344 <= c < 1114112.
Proof. unfold is_char. rewrite orb_true_iff, !andb_true_iff. lia. Qed.

Lemma continuation_iff b : continuation b = true <-> 128 <= Z_of_byte b < 192.
Proof. unfold continuation. rewrite andb_true_iff. lia. Qed.

Lemma continuation_of_Z z : 0 <= z < 64 -> continuation (byte_of_Z (128 + z)) = true.
Proof. intros Hz. apply continuation_iff. rewrite byte_of_Z_small by lia. lia. Qed.

Ltac utf8_small :=
  rewrite !byte_of_Z_small by (Z.to_euclidean_division_equations; lia).
Ltac utf8_lia := Z.to_euclidean_division_equations; lia.

Lemma decode_char_encoded c r : is_char c = true -> decode_char (utf8_char c ++ r) = Some (c, r).
Proof.
  intros Hc. pose proof (proj1 (is_char_iff c) Hc) as Hr. unfold utf8_char.
  destruct (Z.ltb_spec c 128); [|destruct (Z.ltb_spec c 2048); [|destruct (Z.ltb_spec c 65536)]];
    cbn [app decode_char].
  - rewrite byte_of_Z_small by lia. by rewrite (proj2 (Z.ltb_lt _ _)) by lia.
  - rewrite continuation_of_Z by utf8_lia. utf8_small. cbn [negb].
    rewrite (proj2 (Z.ltb_ge _ _)) by utf8_lia.
    rewrite (proj2 (andb_true_iff _ _)) by utf8_lia.
    replace (_ * 64 + _) with c by utf8_lia. by rewrite (proj2 (Z.leb_le _ _)) by lia.
  - rewrite !continuation_of_Z by utf8_lia. utf8_small. cbn [negb].
    rewrite (proj2 (Z.ltb_ge _ _)) by utf8_lia.
    rewrite (proj2 (andb_false_iff _ _)) by utf8_lia.
    rewrite (proj2 (andb_true_iff _ _)) by utf8_lia.
    replace (_ * 4096 + _ * 64 + _) with c by utf8_lia.
    by rewrite Hc, (proj2 (Z.leb_le _ _)) by lia.
  - rewrite !continuation_of_Z by utf8_lia. utf8_small. cbn [negb].
    rewrite (proj2 (Z.ltb_ge _ _)) by utf8_lia.
    rewrite !(proj2 (andb_false_iff _ _)) by utf8_lia.
    replace (_ * 262144 + _ * 4096 + _ * 64 + _) with c by utf8_lia.
    by rewrite Hc, !(proj2 (Z.leb_le _ _)) by utf8_lia.
Qed.

Lemma byte_of_Z_val b z : Z_of_byte b = z -> byte_of_Z z = b.
Proof.
  intros <-. apply Z_of_byte_inj. rewrite Z_of_byte_of_Z. apply Z.mod_small, Z_of_byte_range.
Qed.

Lemma decode_char_sound l c r :
  decode_char l = Some (c, r) -> is_char c = true /\ l = utf8_char c ++ r.
Proof.
  destruct l as [|a l1]; [done|]. cbn [decode_char]. pose proof (Z_of_byte_range a) as Ha.
  destruct (Z.ltb_spec (Z_of_byte a) 128) as [Hx|Hx].
  { intros [= <- <-]. split; [apply is_char_iff; lia|]. unfold utf8_char.
    rewrite (proj2 (Z.ltb_lt _ _)) by lia. simpl. f_equal. symmetry. by apply byte_of_Z_val. }
  destruct l1 as [|b l2]; [done|]. destruct (continuation b) eqn:Hb; [|done]. apply continuation_iff in Hb.
  cbn [negb]. destruct ((192 <=? _) && _) eqn:H2.
  { apply andb_true_iff in H2 as [H2 H2']. case_match eqn:Hc; [|done]. intros [= <- <-].
    split; [apply is_char_iff; lia|]. unfold utf8_char.
    rewrite (proj2 (Z.ltb_ge _ _)), (proj2 (Z.ltb_lt _ _)) by lia. simpl.
    do 2 (apply f_equal2; [symmetry; apply byte_of_Z_val; utf8_lia|]). done. }
  destruct l2 as [|d l3]; [done|]. destruct (continuation d) eqn:Hd; [|done]. apply continuation_iff in Hd.
  cbn [negb]. destruct ((224 <=? _) && _) eqn:H3.
  { apply andb_true_iff in H3 as [H3 H3']. case_match eqn:Hc; [|done]. intros [= <- <-].
    apply andb_true_iff in Hc as [Hc Hv]. split; [done|]. unfold utf8_char.
    rewrite !(proj2 (Z.ltb_ge _ _)) by lia. rewrite (proj2 (Z.ltb_lt _ _)) by lia. simpl.
    do 3 (apply f_equal2; [symmetry; apply byte_of_Z_val; utf8_lia|]). done. }
  destruct l3 as [|e l4]; [done|]. destruct (continuation e) eqn:He; [|done]. apply continuation_iff in He.
  cbn [negb]. case_match eqn:Hc; [|done]. intros [= <- <-].
  apply andb_true_iff in Hc as [[Hc Hc']%andb_true_iff Hv]. split; [done|]. unfold utf8_char.
  rewrite !(proj2 (Z.ltb_ge _ _)) by lia. simpl.
  do 4 (apply f_equal2; [symmetry; apply byte_of_Z_val; utf8_lia|]). done.
Qed.

Lemma str_bytes_cons c s : str_bytes (c :: s) = utf8_char c ++ str_bytes s.
Proof. done. Qed.

Lemma decode_chars_iff n l s :
  (length l <= n)%nat ->
  decode_chars n l = Some s <-> Forall (fun c => is_char c = true) s /\ l = str_bytes s.
Proof.
  revert l s. induction n as [|n IH]; intros l s Hn.
  { destruct l; [|simpl in Hn; lia]. simpl. split; [by intros [= <-]|].
    intros [_ Hl]. destruct s as [|c s]; [done|]. rewrite str_bytes_cons in Hl.
    pose proof (utf8_nonempty c). by destruct (utf8_char c). }
  destruct l as [|b l].
  { simpl. split; [by intros [= <-]|]. intros [_ Hl]. destruct s as [|c s]; [done|].
    rewrite str_bytes_cons in Hl. pose proof (utf8_nonempty c). by destruct (utf8_char c). }
  change (decode_chars (S n) (b :: l)) with
    (match decode_char (b :: l) with Some (c, r) => cons c <$> decode_chars n r | None => None end).
  assert (Hlt : forall c r, b :: l = utf8_char c ++ r -> (length r <= n)%nat).
  { intros c r E. apply (f_equal length) in E. rewrite length_app in E. simpl in *.
    pose proof (utf8_nonempty c). unfold blen in *. lia. }
  split.
  - destruct (decode_char (b :: l)) as [[c r]|] eqn:E; [|done]. apply decode_char_sound in E as [Hc E].
    intros (s' & Hs & ->)%fmap_Some. apply IH in Hs as [Hs ->]; [|by eapply Hlt].
    split; [by constructor|]. by rewrite str_bytes_cons.
  - intros [Hs E]. destruct Hs as [|c s Hc Hs]; [done|]. rewrite str_bytes_cons in E. rewrite E.
    rewrite decode_char_encoded by done.
    by rewrite (proj2 (IH (str_bytes s) s (Hlt _ _ E)) (conj Hs eq_refl)).
Qed.

(** Decoding is the inverse of encoding. *)
Lemma from_utf8_iff l s :
  from_utf8 l = Some s <-> Forall (fun c => is_char c = true) s /\ l = str_bytes s.
Proof. by apply decode_chars_iff. Qed.
