(* ===== verification/WebRtc.v ===== *)
(** * Native WebRTC sessions

    [crates/libfcp-webrtc/src]: [session.rs] and its modules [control.rs],
    [engine.rs] and [sdp.rs], with [signal.rs] and [error.rs].  The [webrtc]
    crate is the environment: an operation on a peer connection or a data
    channel may return anything, and its handler may be called at any time.
    Tasks interleave between any two critical sections, as they do on the
    multi-threaded runtime.  The locks guard no code that panics, so none is
    ever poisoned. *)

From Stdlib Require Import ZArith Lia String.
From stdpp Require Import base list option numbers decidable sets.
From S2P Require Import Prelude Bytes BTree Types Identity Sample Wire Codec Conn Transport Str.

(** ** The engine

    The types of the [webrtc] crate, its parsers of descriptions and the JSON
    forms of candidates. *)
Class Engine : Type := {
  EngineError : Type;
  DataChannel : Type;
  RTCIceCandidate : Type;
  RTCIceCandidateInit : Type;
  RTCSessionDescription : Type;
  sdp : RTCSessionDescription -> str;
  parse_offer : str -> result EngineError RTCSessionDescription;
  parse_answer : str -> result EngineError RTCSessionDescription;
  to_json : RTCIceCandidate -> result EngineError RTCIceCandidateInit;
  candidate_to_vec : RTCIceCandidateInit -> option bytes;
  candidate_from_slice : bytes -> option RTCIceCandidateInit;
}.

Record RTCDataChannelInit : Type := {
  init_ordered : bool;
  init_max_packet_life_time : option u16;
  init_max_retransmits : option u16;
  init_protocol : str;
  init_negotiated : option u16;
}.

Inductive DataChannelEvent : Type :=
| OnOpen
| OnMessage (data : bytes)
| OnClose
| OnOther.

Module WebRtcRsSession.

Definition ENGINE_EVENT_CAPACITY : nat := 128.
Definition SIGNAL_EVENT_CAPACITY : nat := 128.
Definition MAX_STAGED_LOCAL_CANDIDATES : nat := 64.

Record SignalEvent : Type := SignalEvent_new { envelope : Envelope }.

Inductive SessionEvent : Type :=
| SessionConnected
| SessionDeliverCfr (envelope_id : EnvelopeId) (remote_endpoint : EndpointIdentity) (payload : bytes)
| SessionClosed (reason : CloseCode)
| SessionFailed.

Section session.
Context `{Crypto} `{Engine}.

Inductive SessionError : Type :=
| Fcp (e : Error)
| WebRtc (e : EngineError)
| InvalidAction (what : string)
| DescriptionEncoding
| CandidateEncoding
| Poisoned
| ControlChannelUnavailable
| SessionGone.

(** [signals] and [events] are the contents of the two channels; [receiving]
    says that their receivers, which the session owns, still exist. *)
Record Shared : Type := {
  connection : Connection.t;
  signer : SigningIdentity;
  signals : list SignalEvent;
  events : list SessionEvent;
  control : option DataChannel;
  candidate_sequence : u32;
  staged_candidates : list (u32 * bytes);
  terminal : bool;
  receiving : bool;
}.

Definition set_connection (c : Connection.t) (s : Shared) : Shared :=
  {| connection := c; signer := signer s; signals := signals s; events := events s;
     control := control s; candidate_sequence := candidate_sequence s;
     staged_candidates := staged_candidates s; terminal := terminal s; receiving := receiving s |}.
Definition set_signals (l : list SignalEvent) (s : Shared) : Shared :=
  {| connection := connection s; signer := signer s; signals := l; events := events s;
     control := control s; candidate_sequence := candidate_sequence s;
     staged_candidates := staged_candidates s; terminal := terminal s; receiving := receiving s |}.
Definition set_events (l : list SessionEvent) (s : Shared) : Shared :=
  {| connection := connection s; signer := signer s; signals := signals s; events := l;
     control := control s; candidate_sequence := candidate_sequence s;
     staged_candidates := staged_candidates s; terminal := terminal s; receiving := receiving s |}.
Definition set_control (c : option DataChannel) (s : Shared) : Shared :=
  {| connection := connection s; signer := signer s; signals := signals s; events := events s;
     control := c; candidate_sequence := candidate_sequence s;
     staged_candidates := staged_candidates s; terminal := terminal s; receiving := receiving s |}.
Definition set_sequence (n : u32) (s : Shared) : Shared :=
  {| connection := connection s; signer := signer s; signals := signals s; events := events s;
     control := control s; candidate_sequence := n;
     staged_candidates := staged_candidates s; terminal := terminal s; receiving := receiving s |}.
Definition set_staged (l : list (u32 * bytes)) (s : Shared) : Shared :=
  {| connection := connection s; signer := signer s; signals := signals s; events := events s;
     control := control s; candidate_sequence := candidate_sequence s;
     staged_candidates := l; terminal := terminal s; receiving := receiving s |}.
Definition set_terminal (b : bool) (s : Shared) : Shared :=
  {| connection := connection s; signer := signer s; signals := signals s; events := events s;
     control := control s; candidate_sequence := candidate_sequence s;
     staged_candidates := staged_candidates s; terminal := b; receiving := receiving s |}.
Definition set_receiving (b : bool) (s : Shared) : Shared :=
  {| connection := connection s; signer := signer s; signals := signals s; events := events s;
     control := control s; candidate_sequence := candidate_sequence s;
     staged_candidates := staged_candidates s; terminal := terminal s; receiving := b |}.

(** ** Asynchronous programs *)

(** The operations of the engine a task can wait for, and what they return. *)
Inductive EngineCall : Type :=
| CreateDataChannel (label : str) (options : RTCDataChannelInit)
| CreateOffer
| CreateAnswer
| SetLocalDescription (description : RTCSessionDescription)
| LocalDescription
| SetRemoteDescription (description : RTCSessionDescription)
| AddIceCandidate (candidate : RTCIceCandidateInit)
| ClosePeer
| ChannelLabel (channel : DataChannel)
| ChannelProtocol (channel : DataChannel)
| ChannelOrdered (channel : DataChannel)
| ChannelMaxPacketLifeTime (channel : DataChannel)
| ChannelMaxRetransmits (channel : DataChannel)
| ChannelClose (channel : DataChannel)
| ChannelSend (channel : DataChannel) (data : bytes)
| ChannelPoll (channel : DataChannel).

Definition Reply (c : EngineCall) : Type :=
  match c with
  | CreateDataChannel _ _ => result EngineError DataChannel
  | CreateOffer | CreateAnswer => result EngineError RTCSessionDescription
  | LocalDescription => option RTCSessionDescription
  | ChannelLabel _ | ChannelProtocol _ => result EngineError str
  | ChannelOrdered _ => result EngineError bool
  | ChannelMaxPacketLifeTime _ | ChannelMaxRetransmits _ => result EngineError (option u16)
  | ChannelPoll _ => option DataChannelEvent
  | SetLocalDescription _ | SetRemoteDescription _ | AddIceCandidate _ | ClosePeer
  | ChannelClose _ | ChannelSend _ _ => result EngineError unit
  end.

(** A program up to its next critical section, engine call, [send] on one of
    the channels (which waits for room) or spawned control pump. *)
Inductive Async (A : Type) : Type :=
| Return (a : A)
| Atomic (f : Shared -> Shared * Async A)
| Call (c : EngineCall) (k : Reply c -> Async A)
| SendEvent (e : SessionEvent) (k : bool -> Async A)
| SendSignal (e : SignalEvent) (k : bool -> Async A)
| Spawn (channel : DataChannel) (k : Async A).
Arguments Return {A} a.
Arguments Atomic {A} f.
Arguments Call {A} c k.
Arguments SendEvent {A} e k.
Arguments SendSignal {A} e k.
Arguments Spawn {A} channel k.

Fixpoint abind {A B} (m : Async A) (k : A -> Async B) : Async B :=
  match m with
  | Return a => k a
  | Atomic f => Atomic (fun s => match f s with (s', m') => (s', abind m' k) end)
  | Call c g => Call c (fun r => abind (g r) k)
  | SendEvent e g => SendEvent e (fun b => abind (g b) k)
  | SendSignal e g => SendSignal e (fun b => abind (g b) k)
  | Spawn ch m' => Spawn ch (abind m' k)
  end.

(** The [?] operator. *)
Definition tbind {A B} (m : Async (result SessionError A)) (k : A -> Async (result SessionError B)) :
    Async (result SessionError B) :=
  abind m (fun r => match r with Ok a => k a | Err e => Return (Err e) end).

Notation "'do!' x <- m ; k" := (abind m (fun x => k))
  (at level 10, x pattern, m at level 100, k at level 200).
Notation "'do?' x <- m ; k" := (tbind m (fun x => k))
  (at level 10, x pattern, m at level 100, k at level 200).

Definition atomic {A} (f : Shared -> Shared * A) : Async A :=
  Atomic (fun s => let '(s', a) := f s in (s', Return a)).
Definition update (f : Shared -> Shared) : Async unit := atomic (fun s => (f s, tt)).
Definition await (c : EngineCall) : Async (Reply c) := Call c Return.
Definition raise {A} (e : SessionError) : Async (result SessionError A) := Return (Err e).
Definition pure {A} (r : result SessionError A) : Async (result SessionError A) := Return r.
Definition engine {A} (m : Async (result EngineError A)) : Async (result SessionError A) :=
  do! r <- m; Return (map_err WebRtc r).

(** A critical section of the connection's lock; the signer never changes. *)
Definition locked {A} (m : SigningIdentity -> M Connection.t Error A) :
    Async (result SessionError A) :=
  atomic (fun s =>
    let '(c, r) := m (signer s) (connection s) in (set_connection c s, map_err Fcp r)).

(** [Sender::try_send] on the signaling channel and [try_recv] of both. *)
Definition try_send (signal : SignalEvent) : Async bool :=
  atomic (fun s =>
    if receiving s && bool_decide (length (signals s) < SIGNAL_EVENT_CAPACITY)%nat
    then (set_signals (signals s ++ [signal]) s, true) else (s, false)).
Definition try_recv_signal : Async (option SignalEvent) :=
  atomic (fun s => match signals s with
                   | x :: l => (set_signals l s, Some x)
                   | [] => (s, None)
                   end).
Definition try_recv_event : Async (option SessionEvent) :=
  atomic (fun s => match events s with
                   | x :: l => (set_events l s, Some x)
                   | [] => (s, None)
                   end).

(** ** The control channel and local candidates *)
Definition signal_from_action (action : Action) : option SignalEvent :=
  match action with
  | Send envelope => Some (SignalEvent_new envelope)
  | _ => None
  end.

Definition emit_or_stage_candidate (sequence : u32) (candidate : bytes) : Async unit :=
  do! action <- locked (fun signer => Connection.candidate signer sequence candidate);
  match res_ok action ≫= signal_from_action with
  | Some signal => do! _ <- try_send signal; Return tt
  | None =>
      update (fun s =>
        let staged := staged_candidates s in
        let staged :=
          if decide (length staged = MAX_STAGED_LOCAL_CANDIDATES) then tail staged else staged in
        set_staged (staged ++ [(sequence, candidate)]) s)
  end.

Definition emit_event (event : SessionEvent) : Async bool := SendEvent event Return.

Definition emit_terminal (event : SessionEvent) : Async bool :=
  do! first <- atomic (fun s => if terminal s then (s, false) else (set_terminal true s, true));
  if first then emit_event event else Return true.

Definition emit_signal (signal : SignalEvent) : Async bool := SendSignal signal Return.

(** The [for] loop of the pump over the actions of one event: [false] when the
    pump returns from within it. *)
Fixpoint pump_actions (actions : list Action) : Async bool :=
  match actions with
  | [] => Return true
  | DeliverCfr envelope_id remote_endpoint payload :: rest =>
      do! sent <- emit_event (SessionDeliverCfr envelope_id remote_endpoint payload);
      if negb sent then Return false else pump_actions rest
  | Send envelope :: rest =>
      do! sent <- emit_signal (SignalEvent_new envelope);
      if negb sent then Return false else pump_actions rest
  | _ :: rest => pump_actions rest
  end.

(** One iteration of the loop of [spawn_control_pump]: whether it goes on. *)
Definition control_pump (channel : DataChannel) : Async bool :=
  do! event <- await (ChannelPoll channel);
  match event with
  | Some OnOpen =>
      do! actions <- locked (fun _ => apply_event Connected);
      match actions with
      | Err _ => Return false
      | Ok actions =>
          do! more <- pump_actions actions;
          if negb more then Return false else emit_event SessionConnected
      end
  | Some (OnMessage data) =>
      do! actions <- locked (fun _ => apply_event (ControlBinary data));
      match actions with
      | Err _ => Return false
      | Ok actions => pump_actions actions
      end
  | Some OnClose | None =>
      do! _ <- emit_terminal SessionFailed; Return false
  | Some OnOther => Return true
  end.

Definition install_local_control_channel (channel : DataChannel) : Async unit :=
  do! _ <- update (set_control (Some channel));
  Spawn channel (Return tt).

(** [matches!(limit, Ok(None))]. *)
Definition unlimited (limit : result EngineError (option u16)) : bool :=
  match limit with Ok None => true | _ => false end.

Definition install_remote_control_channel (channel : DataChannel) : Async unit :=
  do! label <- await (ChannelLabel channel);
  match label with
  | Err _ => Return tt
  | Ok label =>
  do! protocol <- await (ChannelProtocol channel);
  match protocol with
  | Err _ => Return tt
  | Ok protocol =>
  do! ordered <- await (ChannelOrdered channel);
  match ordered with
  | Err _ => Return tt
  | Ok ordered =>
  do! life_time <- await (ChannelMaxPacketLifeTime channel);
  do! reliable <- (if unlimited life_time
                   then do! retransmits <- await (ChannelMaxRetransmits channel);
                        Return (unlimited retransmits)
                   else Return false);
  if bool_decide (label <> lit (Conn.label CONTROL_CHANNEL)) ||
     bool_decide (protocol <> lit (Conn.protocol CONTROL_CHANNEL)) || negb ordered || negb reliable
  then do! _ <- await (ChannelClose channel); Return tt
  else
  do! _ <- update (set_control (Some channel));
  Spawn channel (Return tt)
  end end end.

(** ** The engine's handler *)

(** [AtomicU32::fetch_add], which wraps around. *)
Definition wrapping_succ (n : u32) : u32 :=
  default n (uint_try 32 ((uval n + 1) mod 2 ^ 32)).

Definition on_ice_candidate (candidate : RTCIceCandidate) : Async unit :=
  match to_json candidate with
  | Err _ => Return tt
  | Ok candidate =>
  match candidate_to_vec candidate with
  | None => Return tt
  | Some candidate =>
      do! sequence <- atomic (fun s =>
        (set_sequence (wrapping_succ (candidate_sequence s)) s, candidate_sequence s));
      emit_or_stage_candidate sequence candidate
  end end.

Definition on_connection_state_change (failed : bool) : Async unit :=
  if failed then do! _ <- emit_terminal SessionFailed; Return tt else Return tt.

Definition on_data_channel (channel : DataChannel) : Async unit :=
  install_remote_control_channel channel.

(** ** Descriptions *)
Definition dtls_fingerprint (description : bytes) : result SessionError bytes :=
  let? text := ok_or (from_utf8 description) DescriptionEncoding in
  ok_or (find_map (fun line => str_bytes <$> strip_prefix (lit "a=fingerprint:") line) (lines text))
    (InvalidAction "SDP contains no DTLS fingerprint").

(** ** Operations of the application *)
Definition new (federation : FederationId) (attempt : AttemptId) (signer : SigningIdentity)
    (remote : EndpointIdentity) (build : result EngineError unit) : result SessionError Shared :=
  let local := endpoint signer in
  let? connection := map_err Fcp (Connection.new federation attempt local remote) in
  let? _ := map_err WebRtc build in
  Ok {| connection := connection; signer := signer; signals := []; events := []; control := None;
        candidate_sequence := @UInt 32 0 eq_refl; staged_candidates := []; terminal := false;
        receiving := true |}.

Fixpoint emit_all (staged : list (u32 * bytes)) : Async unit :=
  match staged with
  | [] => Return tt
  | (sequence, candidate) :: staged =>
      do! _ <- emit_or_stage_candidate sequence candidate; emit_all staged
  end.

Definition flush_staged_candidates : Async (result SessionError unit) :=
  do! staged <- atomic (fun s => (set_staged [] s, staged_candidates s));
  do! _ <- emit_all staged;
  Return (Ok tt).

Definition try_take_signal : Async (option SignalEvent) :=
  do! signal <- try_recv_signal;
  match signal with
  | Some _ => do! _ <- flush_staged_candidates; Return signal
  | None => Return signal
  end.

Definition try_take_event : Async (option SessionEvent) := try_recv_event.

Definition process_action (action : Action) : Async (result SessionError unit) :=
  match action with
  | Send envelope =>
      do! sent <- try_send (SignalEvent_new envelope);
      if sent then Return (Ok tt)
      else raise (InvalidAction "signaling consumer is not draining events")
  | ApplyOffer binding description =>
      do? fingerprint <- pure (dtls_fingerprint description);
      if decide (binding <> WebRtcBinding.derive description fingerprint)
      then raise (InvalidAction "offer binding does not match engine description") else
      do? sdp <- pure (ok_or (from_utf8 description) DescriptionEncoding);
      do? offer <- pure (map_err WebRtc (parse_offer sdp));
      engine (await (SetRemoteDescription offer))
  | ApplyAnswer binding description =>
      do? fingerprint <- pure (dtls_fingerprint description);
      if decide (binding <> WebRtcBinding.derive description fingerprint)
      then raise (InvalidAction "answer binding does not match engine description") else
      do? sdp <- pure (ok_or (from_utf8 description) DescriptionEncoding);
      do? answer <- pure (map_err WebRtc (parse_answer sdp));
      engine (await (SetRemoteDescription answer))
  | AddCandidate _ candidate =>
      do? candidate <- pure (ok_or (candidate_from_slice candidate) CandidateEncoding);
      engine (await (AddIceCandidate candidate))
  | OpenControlChannel => Return (Ok tt)
  | DeliverCfr envelope_id remote_endpoint payload =>
      do! sent <- emit_event (SessionDeliverCfr envelope_id remote_endpoint payload);
      if sent then Return (Ok tt) else raise SessionGone
  | CloseTransport reason =>
      do! sent <- emit_terminal (SessionClosed reason);
      if negb sent then raise SessionGone else
      engine (await ClosePeer)
  end.

Fixpoint process_actions (pending : list Action) : Async (result SessionError unit) :=
  match pending with
  | [] => Return (Ok tt)
  | action :: pending => do? _ <- process_action action; process_actions pending
  end.

Definition begin_offer : Async (result SessionError SignalEvent) :=
  do? channel <- engine (await (CreateDataChannel (lit (Conn.label CONTROL_CHANNEL))
    {| init_ordered := Conn.ordered CONTROL_CHANNEL; init_max_packet_life_time := None;
       init_max_retransmits := None; init_protocol := lit (Conn.protocol CONTROL_CHANNEL);
       init_negotiated := None |}));
  do! _ <- install_local_control_channel channel;
  do? offer <- engine (await CreateOffer);
  do? _ <- engine (await (SetLocalDescription offer));
  do! description <- await LocalDescription;
  do? description <- pure (ok_or description (InvalidAction "local offer unavailable"));
  let description_bytes := str_bytes (sdp description) in
  do? fingerprint <- pure (dtls_fingerprint description_bytes);
  let binding := WebRtcBinding.derive description_bytes fingerprint in
  do? action <- locked (fun signer => Connection.begin_offer signer binding description_bytes);
  do? _ <- process_actions action;
  do? _ <- flush_staged_candidates;
  do! signal <- try_take_signal;
  pure (ok_or signal (InvalidAction "local offer was not emitted")).

Definition accept_signal (wire : bytes) : Async (result SessionError unit) :=
  do? envelope <- pure (map_err Fcp (Envelope.decode_verified wire));
  do? actions <- locked (fun _ => Connection.receive envelope);
  process_actions actions.

Definition answer : Async (result SessionError SignalEvent) :=
  do? answer <- engine (await CreateAnswer);
  do? _ <- engine (await (SetLocalDescription answer));
  do! description <- await LocalDescription;
  do? description <- pure (ok_or description (InvalidAction "local answer unavailable"));
  let description_bytes := str_bytes (sdp description) in
  do? fingerprint <- pure (dtls_fingerprint description_bytes);
  let binding := WebRtcBinding.derive description_bytes fingerprint in
  do? action <- locked (fun signer => Connection.answer signer binding description_bytes);
  do? _ <- process_actions [action];
  do? _ <- flush_staged_candidates;
  do! signal <- try_take_signal;
  pure (ok_or signal (InvalidAction "local answer was not emitted")).

Definition send_cfr (payload : bytes) : Async (result SessionError unit) :=
  do? action <- locked (fun signer => Connection.cfr_control signer payload);
  match action with
  | Send envelope =>
      do! control <- atomic (fun s => (s, control s));
      do? control <- pure (ok_or control ControlChannelUnavailable);
      do? data <- pure (map_err Fcp (Envelope.encode envelope));
      engine (await (ChannelSend control data))
  | _ => raise (InvalidAction "CFR control must be a signed envelope")
  end.

Definition begin_close (reason : CloseCode) : Async (result SessionError SignalEvent) :=
  do? action <- locked (fun signer => Connection.close signer reason);
  match action with
  | Send envelope => Return (Ok (SignalEvent_new envelope))
  | _ => raise (InvalidAction "FCP close must produce a signaling envelope")
  end.

Definition close : Async (result SessionError unit) := engine (await ClosePeer).

(** ** Sessions at work

    What the application and the engine can do, and the tasks that are under
    way.  Finished tasks keep their place and their result. *)
Inductive AppCall : Type :=
| BeginOffer
| AcceptSignal (wire : bytes)
| Answer
| SendCfr (payload : bytes)
| TryTakeSignal
| TryTakeEvent
| BeginClose (reason : CloseCode)
| CloseSession.

Inductive Outcome : Type :=
| Finished (r : result SessionError unit)
| Signaled (r : result SessionError SignalEvent)
| TookSignal (signal : option SignalEvent)
| TookEvent (event : option SessionEvent).

Definition program (c : AppCall) : Async Outcome :=
  match c with
  | BeginOffer => do! r <- begin_offer; Return (Signaled r)
  | AcceptSignal wire => do! r <- accept_signal wire; Return (Finished r)
  | Answer => do! r <- answer; Return (Signaled r)
  | SendCfr payload => do! r <- send_cfr payload; Return (Finished r)
  | TryTakeSignal => do! r <- try_take_signal; Return (TookSignal r)
  | TryTakeEvent => do! r <- try_take_event; Return (TookEvent r)
  | BeginClose reason => do! r <- begin_close reason; Return (Signaled r)
  | CloseSession => do! r <- close; Return (Finished r)
  end.

(** The methods that take [&mut self]. *)
Definition exclusive (c : AppCall) : bool :=
  match c with
  | BeginOffer | Answer | TryTakeSignal | TryTakeEvent => true
  | AcceptSignal _ | SendCfr _ | BeginClose _ | CloseSession => false
  end.

Inductive Callback : Type :=
| OnIceCandidate (candidate : RTCIceCandidate)
| OnConnectionStateChange (failed : bool)
| OnDataChannel (channel : DataChannel).

Definition handler (h : Callback) : Async unit :=
  match h with
  | OnIceCandidate candidate => on_ice_candidate candidate
  | OnConnectionStateChange failed => on_connection_state_change failed
  | OnDataChannel channel => on_data_channel channel
  end.

Inductive Task : Type :=
| Calling (c : AppCall) (m : Async Outcome)
| Handling (m : Async unit)
| Pumping (channel : DataChannel) (m : Async bool)
| Cancelled.

Record Session : Type := { shared : Shared; tasks : list Task }.

Definition finished {A} (m : Async A) : bool :=
  match m with Return _ => true | _ => false end.

(** Whether the borrow of the session a call needs is available. *)
Definition borrows (c : AppCall) (t : Task) : bool :=
  match t with
  | Calling c' m => negb (finished m) && (exclusive c || exclusive c')
  | _ => false
  end.
Definition available (c : AppCall) (ts : list Task) : bool := negb (existsb (borrows c) ts).

(** One step of a program: the next shared state, the program after it and the
    channel whose pump it spawns.  A [send] waits while its channel is full. *)
Definition resume {A} (reply : forall c, Reply c) (m : Async A) (s : Shared) :
    option (Shared * Async A * option DataChannel) :=
  match m with
  | Return _ => None
  | Atomic f => let '(s', m') := f s in Some (s', m', None)
  | Call c k => Some (s, k (reply c), None)
  | SendEvent e k =>
      if negb (receiving s) then Some (s, k false, None) else
      if decide (length (events s) < ENGINE_EVENT_CAPACITY)%nat
      then Some (set_events (events s ++ [e]) s, k true, None) else None
  | SendSignal e k =>
      if negb (receiving s) then Some (s, k false, None) else
      if decide (length (signals s) < SIGNAL_EVENT_CAPACITY)%nat
      then Some (set_signals (signals s ++ [e]) s, k true, None) else None
  | Spawn ch k => Some (s, k, Some ch)
  end.

Definition resume_task (reply : forall c, Reply c) (t : Task) (s : Shared) :
    option (Shared * Task * option DataChannel) :=
  match t with
  | Calling c m => '(s', m', ch) ← resume reply m s; Some (s', Calling c m', ch)
  | Handling m => '(s', m', ch) ← resume reply m s; Some (s', Handling m', ch)
  | Pumping d (Return true) => Some (s, Pumping d (control_pump d), None)
  | Pumping d m => '(s', m', ch) ← resume reply m s; Some (s', Pumping d m', ch)
  | Cancelled => None
  end.

(** A future can be dropped where it waits. *)
Definition waiting {A} (m : Async A) : bool :=
  match m with
  | Call _ _ | SendEvent _ _ | SendSignal _ _ => true
  | _ => false
  end.

Inductive Label : Type :=
| Begin (c : AppCall)
| Invoke (h : Callback)
| Resume (i : nat) (reply : forall c, Reply c)
| Cancel (i : nat)
| DropSession.

Definition add_task (t : Task) (x : Session) : Session :=
  {| shared := shared x; tasks := tasks x ++ [t] |}.

Definition step (l : Label) (x : Session) : option Session :=
  match l with
  | Begin c =>
      if receiving (shared x) && available c (tasks x)
      then Some (add_task (Calling c (program c)) x) else None
  | Invoke h => Some (add_task (Handling (handler h)) x)
  | Resume i reply =>
      t ← tasks x !! i;
      '(s', t', ch) ← resume_task reply t (shared x);
      Some {| shared := s';
              tasks := <[i := t']> (tasks x) ++
                       match ch with Some d => [Pumping d (control_pump d)] | None => [] end |}
  | Cancel i =>
      match tasks x !! i with
      | Some (Calling _ m) =>
          if waiting m then Some {| shared := shared x; tasks := <[i := Cancelled]> (tasks x) |}
          else None
      | _ => None
      end
  | DropSession =>
      if available BeginOffer (tasks x)
      then Some {| shared := set_receiving false (shared x); tasks := tasks x |} else None
  end.

Fixpoint run (ls : list Label) (x : Session) : option Session :=
  match ls with
  | [] => Some x
  | l :: ls => step l x ≫= run ls
  end.

Definition started (s : Shared) : Session := {| shared := s; tasks := [] |}.

End session.

Arguments Return {_ _ A} a.
Arguments Atomic {_ _ A} f.
Arguments Call {_ _ A} c k.
Arguments SendEvent {_ _ A} e k.
Arguments SendSignal {_ _ A} e k.
Arguments Spawn {_ _ A} channel k.

End WebRtcRsSession.

(** [await] followed by more, and the [?] operator. *)
Notation "'do!' x <- m ; k" := (WebRtcRsSession.abind m (fun x => k))
  (at level 10, x pattern, m at level 100, k at level 200) : fcp_scope.
Notation "'do?' x <- m ; k" := (WebRtcRsSession.tbind m (fun x => k))
  (at level 10, x pattern, m at level 100, k at level 200) : fcp_scope.
