(* ===== verification/Peering.v ===== *)
(** * What native WebRTC sessions guarantee

    A program logic for the tasks of a session, and over every interleaving of
    the application's calls, the engine's callbacks and the control pumps: what
    reaches the engine and the application is authentic, the queues are bounded,
    calls return and at most one terminal event is delivered. *)

From Stdlib Require Import ZArith Lia String.
From stdpp Require Import base list option numbers decidable sets.
From S2P Require Import Prelude Bytes BTree Types Identity Sample Wire Codec Conn Transport Str WebRtc.

Module Peering.
Import WebRtcRsSession.

Section peering.
Context `{Crypto} `{Engine}.

(** ** A program logic for tasks

    [safe K Q m n]: whatever the other tasks and the engine do within the
    contract [K], the program [m] takes at most [n] steps, keeps the invariant of
    the shared state, issues only calls, events and signals the contract allows,
    and returns a value that satisfies [Q]. *)
Record Contract : Type := {
  inv : Shared -> Prop;
  may_call : EngineCall -> Prop;
  may_event : SessionEvent -> Prop;
  may_signal : SignalEvent -> Prop;
}.

Fixpoint safe {A} (K : Contract) (Q : A -> Prop) (m : Async A) (n : nat) : Prop :=
  match m, n with
  | Return a, _ => Q a
  | _, O => False
  | Atomic f, S n =>
      forall s, inv K s -> match f s with (s', m') => inv K s' /\ safe K Q m' n end
  | Call c k, S n => may_call K c /\ forall r, safe K Q (k r) n
  | SendEvent e k, S n => may_event K e /\ forall b, safe K Q (k b) n
  | SendSignal e k, S n => may_signal K e /\ forall b, safe K Q (k b) n
  | Spawn _ k, S n => safe K Q k n
  end.

Lemma async_ind {A} (P : Async A -> Prop) :
  (forall a, P (Return a)) ->
  (forall f, (forall s, P (snd (f s))) -> P (Atomic f)) ->
  (forall c k, (forall r, P (k r)) -> P (Call c k)) ->
  (forall e k, (forall b, P (k b)) -> P (SendEvent e k)) ->
  (forall e k, (forall b, P (k b)) -> P (SendSignal e k)) ->
  (forall ch k, P k -> P (Spawn ch k)) ->
  forall m, P m.
Proof.
  intros HR HA HC HE HS HW.
  exact (fix go m := match m with
    | Return a => HR a
    | Atomic f => HA f (fun s => match f s as p return P (snd p) with (s', m') => go m' end)
    | Call c k => HC c k (fun r => go (k r))
    | SendEvent e k => HE e k (fun b => go (k b))
    | SendSignal e k => HS e k (fun b => go (k b))
    | Spawn ch k => HW ch k (go k)
    end).
Qed.

Lemma resume_task_inv reply t s s' t' ch :
  resume_task reply t s = Some (s', t', ch) ->
  match t with
  | Calling c m => exists m', resume reply m s = Some (s', m', ch) /\ t' = Calling c m'
  | Handling m => exists m', resume reply m s = Some (s', m', ch) /\ t' = Handling m'
  | Pumping d m =>
      (m = Return true /\ s' = s /\ t' = Pumping d (control_pump d)) \/
      exists m', resume reply m s = Some (s', m', ch) /\ t' = Pumping d m'
  | Cancelled => False
  end.
Proof.
  destruct t as [c m|m|d m|]; simpl; intros Hr; [| | |done].
  1-2: destruct (resume reply m s) as [[[s1 m1] ch1]|]; simplify_eq/=; eauto.
  destruct (decide (finished m = true)) as [Hm|Hm].
  - destruct m as [[]| | | | |]; simplify_eq/=; auto.
  - right. assert (Hr' : ('(s1, m1, ch1) ← resume reply m s; Some (s1, Pumping d m1, ch1)) = Some (s', t', ch)).
    { by destruct m. }
    destruct (resume reply m s) as [[[s1 m1] ch1]|]; simplify_eq/=; eauto.
Qed.

Section logic.
Context (K : Contract).

Lemma safe_weaken {A} (Q R : A -> Prop) m n n' :
  safe K Q m n -> (n <= n')%nat -> (forall a, Q a -> R a) -> safe K R m n'.
Proof.
  intros Hs Hn Hq. revert n n' Hs Hn.
  induction m as [a|f IH|c k IH|e k IH|e k IH|ch k IH] using async_ind; [naive_solver|..];
    (intros [|n] [|n'] Hs Hn; [done|done|lia|]); simpl in *; [|naive_solver lia..].
  intros s Hi. specialize (Hs s Hi). specialize (IH s). destruct (f s) as [s' m'].
  destruct Hs as [? Hs]. split; [done|]. apply (IH n); [done|lia].
Qed.

Lemma safe_then {A B} (Q : A -> Prop) (R : B -> Prop) m k n n' :
  safe K Q m n -> (forall a, Q a -> safe K R (k a) n') -> safe K R (abind m k) (n + n').
Proof.
  intros Hs Hk. revert n Hs.
  induction m as [a|f IH|c g IH|e g IH|e g IH|ch m IH] using async_ind.
  { intros n Hs. apply (safe_weaken R R _ n'); [by apply Hk|lia|done]. }
  all: intros [|n] Hs; [done|]; simpl in *.
  2-5: naive_solver.
  intros s Hi. specialize (Hs s Hi). specialize (IH s). destruct (f s) as [s' m'].
  destruct Hs as [? Hs]. split; [done|]. by apply IH.
Qed.

Lemma safe_tbind {A B} (Q : A -> Prop) (R : result SessionError B -> Prop) m k n n' :
  safe K (fun r => forall a, r = Ok a -> Q a) m n -> (forall e, R (Err e)) ->
  (forall a, Q a -> safe K R (k a) n') -> safe K R (tbind m k) (n + n').
Proof.
  intros Hm He Hk. eapply safe_then; [exact Hm|]. intros [a|e] Ha; [by apply Hk, Ha|].
  destruct n'; apply He.
Qed.

Lemma safe_atomic {A} (Q : A -> Prop) f :
  (forall s, inv K s -> inv K (fst (f s)) /\ Q (snd (f s))) -> safe K Q (atomic f) 1.
Proof. intros Hf s Hi. specialize (Hf s Hi). by destruct (f s). Qed.

Lemma safe_return {A} (Q : A -> Prop) a n : Q a -> safe K Q (Return a) n.
Proof. by destruct n. Qed.

Lemma safe_await (c : EngineCall) (Q : Reply c -> Prop) :
  may_call K c -> (forall r, Q r) -> safe K Q (await c) 1.
Proof. intros Hc Hq. by split. Qed.

Lemma safe_engine {A} (Q : result SessionError A -> Prop) m n :
  (forall r, Q r) -> safe K (fun _ => True) m n -> safe K Q (engine m) n.
Proof.
  intros Hq Hm. rewrite <- (Nat.add_0_r n). eapply safe_then; [exact Hm|]. intros r _. apply Hq.
Qed.

Lemma safe_pure {A B} (R : result SessionError B -> Prop) (r : result SessionError A) k n :
  (forall e, R (Err e)) -> (forall a, r = Ok a -> safe K R (k a) n) -> safe K R (tbind (pure r) k) n.
Proof. intros He Hk. destruct r as [a|e]; [by apply Hk|]. by apply safe_return. Qed.

Lemma safe_set_control c : (forall s, inv K s -> inv K (set_control c s)) ->
  safe K (fun _ => True) (update (set_control c)) 1.
Proof. intros Hc. apply safe_atomic. intros s Hs. split; [by apply Hc|done]. Qed.
End logic.

(** ** What a session may do

    The contract of a session between the endpoint of [sg] and its peer, whose
    connection started as [c0]. *)
Section contract.
Context (c0 : Connection.t) (sg : SigningIdentity).

(** An envelope of the pinned peer, verified under both of its keys. *)
Definition authentic (e : Envelope) : Prop :=
  Envelope.verify e = Ok tt /\ Connection.bound_to e c0.

(** A description in text form whose signed binding commits to it and to the
    DTLS fingerprint it contains. *)
Definition bound_description (binding : WebRtcBinding) (description : bytes) (text : str) : Prop :=
  from_utf8 description = Some text /\
  exists fingerprint, dtls_fingerprint description = Ok fingerprint /\
    binding = WebRtcBinding.derive description fingerprint.

Definition remote_description (d : RTCSessionDescription) : Prop :=
  exists e, authentic e /\
  match body e with
  | BOffer binding description =>
      exists text, bound_description binding description text /\ parse_offer text = Ok d
  | BAnswer _ binding description =>
      exists text, bound_description binding description text /\ parse_answer text = Ok d
  | _ => False
  end.

Definition remote_candidate (c : RTCIceCandidateInit) : Prop :=
  exists e, authentic e /\
  match body e with
  | BCandidate _ _ candidate => candidate_from_slice candidate = Some c
  | _ => False
  end.

Definition allowed_call (c : EngineCall) : Prop :=
  match c with
  | SetRemoteDescription d => remote_description d
  | AddIceCandidate c => remote_candidate c
  | ChannelSend _ data =>
      exists payload, Envelope.encode (Connection.outgoing sg (BCfrControl payload) c0) = Ok data
  | _ => True
  end.

Definition authentic_event (event : SessionEvent) : Prop :=
  match event with
  | SessionDeliverCfr envelope_id remote_endpoint payload =>
      exists e, authentic e /\ Envelope.id e = Ok envelope_id /\
        remote_endpoint = Connection.remote c0 /\ body e = BCfrControl payload
  | SessionClosed reason => exists e, authentic e /\ body e = BClose reason
  | SessionConnected | SessionFailed => True
  end.

Definition local_signal (signal : SignalEvent) : Prop :=
  exists b, Body_validate b = Ok tt /\ envelope signal = Connection.outgoing sg b c0.

Definition invariant (s : Shared) : Prop :=
  (exists log, Connection.reaches (S := SigningIdentity) c0 log (connection s)) /\ signer s = sg /\
  (length (signals s) <= SIGNAL_EVENT_CAPACITY)%nat /\
  (length (events s) <= ENGINE_EVENT_CAPACITY)%nat /\
  (length (staged_candidates s) <= MAX_STAGED_LOCAL_CANDIDATES)%nat /\
  Forall local_signal (signals s) /\ Forall authentic_event (events s).

Definition contract : Contract :=
  {| inv := invariant; may_call := allowed_call; may_event := authentic_event;
     may_signal := local_signal |}.

(** What the connection may ask of the session. *)
Definition authentic_action (a : Action) : Prop :=
  match a with
  | Send e => local_signal (SignalEvent_new e)
  | ApplyOffer binding description => exists e, authentic e /\ body e = BOffer binding description
  | ApplyAnswer binding description =>
      exists e o, authentic e /\ body e = BAnswer o binding description
  | AddCandidate sequence candidate =>
      exists e p, authentic e /\ body e = BCandidate p sequence candidate
  | OpenControlChannel => True
  | DeliverCfr envelope_id remote_endpoint payload =>
      authentic_event (SessionDeliverCfr envelope_id remote_endpoint payload)
  | CloseTransport reason => authentic_event (SessionClosed reason)
  end.

Context (Hwf : Connection.wf c0) (Hseen : Connection.seen c0 = []).

Lemma reaches_pinned log c : Connection.reaches (S := SigningIdentity) c0 log c -> Connection.pinned c0 c.
Proof. intros Hr. by destruct (Connection.reaches_inv _ _ _ Hr Hwf Hseen) as (_ & _ & ? & _). Qed.

Lemma outgoing_pinned b c : Connection.pinned c0 c -> Connection.outgoing sg b c = Connection.outgoing sg b c0.
Proof. intros (Hf & Ha & _ & Hr). unfold Connection.outgoing. by rewrite Hf, Ha, Hr. Qed.

Lemma bound_pinned e c : Connection.pinned c0 c -> Connection.bound_to e c -> Connection.bound_to e c0.
Proof. intros (Hf & Ha & Hl & Hr). unfold Connection.bound_to. by rewrite Hf, Ha, Hl, Hr. Qed.

Lemma action_of_authentic e id c :
  Connection.pinned c0 c -> Connection.bound_to e c -> Envelope.verify e = Ok tt ->
  Envelope.id e = Ok id -> authentic_action (Connection.action_of id (sender e) (body e)).
Proof.
  intros Hp Hb Hv Hid. assert (Ha : authentic e) by (split; [done|by eapply bound_pinned]).
  destruct Hb as (_ & _ & Hs & _). destruct Hp as (_ & _ & _ & Hr).
  destruct (body e) eqn:Hbody; simpl; eauto 10. exists e. split_and!; congruence.
Qed.

(** A critical section that runs one input of the connection. *)
Lemma safe_locked {A} (Q : result SessionError A -> Prop) (m : SigningIdentity -> M Connection.t Error A) :
  (forall c log, Connection.reaches (S := SigningIdentity) c0 log c -> Connection.pinned c0 c ->
     (exists log', Connection.reaches (S := SigningIdentity) c0 log' (fst (m sg c))) /\
     Q (map_err Fcp (snd (m sg c)))) ->
  safe contract Q (locked m) 1.
Proof.
  intros Hm. apply safe_atomic. intros s ((log & Hr) & Hsg & Hrest). rewrite Hsg.
  destruct (Hm _ _ Hr (reaches_pinned _ _ Hr)) as [Hr' HQ].
  destruct (m sg (connection s)) as [c r]. simpl in *. split; [|done]. split; [done|]. by split.
Qed.

(** An input that is run, or not, keeps the connection reachable. *)
Lemma reaches_run i c c' r log :
  Connection.reaches (S := SigningIdentity) c0 log c -> Connection.run i c = (c', r) ->
  exists log', Connection.reaches (S := SigningIdentity) c0 log' c'.
Proof. intros Hr Hi. eexists. by eapply Connection.reaches_step. Qed.

Lemma receive_safe e :
  safe contract (fun r => forall acts, r = Ok acts -> Forall authentic_action acts /\ (length acts <= 1)%nat)
    (locked (fun _ => Connection.receive e)) 1.
Proof.
  apply safe_locked. intros c log Hr Hp.
  destruct (Connection.receive e c) as [c' [acts|er]] eqn:E; simpl; (split;
    [by eapply (reaches_run (Connection.IReceive e))|]); [|done].
  intros acts' [= <-]. apply Connection.receive_ok in E as (Hb & Hv & id & Hid & [(_ & _ & ->)|(_ & _ & _ & ->)]).
  - split; [constructor|simpl; lia].
  - split; [|done]. constructor; [|constructor]. by eapply action_of_authentic.
Qed.

Definition authentic_actions (n : nat) (r : result SessionError (list Action)) : Prop :=
  forall acts, r = Ok acts -> Forall authentic_action acts /\ (length acts <= n)%nat.

Lemma control_binary_safe w :
  safe contract (authentic_actions 1) (locked (fun _ => apply_event (ControlBinary w))) 1.
Proof.
  destruct (Envelope.decode_verified w) as [e|er] eqn:E.
  - pose proof (receive_safe e) as Hs. intros s Hi. specialize (Hs s Hi). simpl in *.
    unfold apply_event, bind, lift. by rewrite E.
  - apply safe_locked. intros c log Hr _. unfold apply_event, bind, lift. rewrite E. simpl.
    split; [by exists log|done].
Qed.

Lemma connected_safe :
  safe contract (authentic_actions 0) (locked (fun _ => apply_event Connected)) 1.
Proof.
  apply safe_locked. intros c log Hr _. cbn [apply_event].
  destruct (Connection.transport_connected c) as [c' [acts|er]] eqn:E; simpl; (split;
    [by eapply (reaches_run Connection.ITransportConnected)|]); [|done].
  intros acts' [= <-]. by apply Connection.transport_connected_ok in E as (_ & _ & ->).
Qed.

(** A local operation that signs one envelope. *)
Lemma one_fst {A} (m : Connection.C A) c : fst (Connection.one m c) = fst (m c).
Proof. unfold Connection.one, bind, ret. by destruct (m c) as [? [?|?]]. Qed.

Lemma signing_safe (m : SigningIdentity -> Connection.C Action) (i : Connection.Input) :
  Connection.run i = Connection.one (m sg) ->
  (forall c c' a, m sg c = (c', Ok a) ->
     exists b, Body_validate b = Ok tt /\ a = Send (Connection.outgoing sg b c)) ->
  safe contract (fun r => forall a, r = Ok a -> exists e, a = Send e /\ local_signal (SignalEvent_new e))
    (locked m) 1.
Proof.
  intros Hi Hm. apply safe_locked. intros c log Hr Hp. split.
  - destruct (Connection.run i c) as [c' r] eqn:E. rewrite <- one_fst, <- Hi, E. by eapply reaches_run.
  - intros a Ha. apply map_err_ok in Ha. destruct (m sg c) as [c' r] eqn:E. simpl in Ha. subst r.
    destruct (Hm _ _ _ E) as (b & Hv & ->). eexists. split; [done|]. exists b. split; [done|].
    by apply outgoing_pinned.
Qed.

Lemma candidate_safe n cd :
  safe contract (fun r => forall a, r = Ok a -> exists e, a = Send e /\ local_signal (SignalEvent_new e))
    (locked (fun signer => Connection.candidate signer n cd)) 1.
Proof.
  apply (signing_safe _ (Connection.ICandidate sg n cd)); [done|]. intros c c' a Ha.
  apply Connection.candidate_ok in Ha as (_ & _ & ids & _ & Hv & _ & ->). eauto.
Qed.

Lemma try_send_safe signal : local_signal signal -> safe contract (fun _ => True) (try_send signal) 1.
Proof.
  intros Hs. apply safe_atomic. intros s Hi. split; [|done].
  destruct (receiving s); simpl; [|done]. case_bool_decide; simpl; [|done].
  destruct Hi as (Hr & Hsg & Hl & He & Hst & Hfs & Hfe). split_and!; try done; simpl.
  - rewrite length_app. simpl. lia.
  - apply Forall_app. split; [done|]. by constructor.
Qed.

Lemma stage_safe (x : u32 * bytes) :
  safe contract (fun _ => True) (update (fun s =>
    let staged := staged_candidates s in
    let staged :=
      if decide (length staged = MAX_STAGED_LOCAL_CANDIDATES) then tail staged else staged in
    set_staged (staged ++ [x]) s)) 1.
Proof.
  apply safe_atomic. intros s (Hr & Hsg & Hl & He & Hst & Hfs & Hfe). split; [|done].
  split_and!; try done. simpl. rewrite length_app. simpl.
  case_decide as E; [|lia]. unfold MAX_STAGED_LOCAL_CANDIDATES in *.
  destruct (staged_candidates s); simpl in *; lia.
Qed.

Lemma emit_or_stage_safe n cd : safe contract (fun _ => True) (emit_or_stage_candidate n cd) 2.
Proof.
  apply (safe_then _ _ _ _ _ 1 1 (candidate_safe n cd)). intros r Hr.
  destruct r as [a|er]; [|apply stage_safe].
  destruct (Hr a eq_refl) as (e & -> & He).
  apply (safe_then _ (fun _ => True) _ _ _ 1 0); [by apply try_send_safe|done].
Qed.

Lemma emit_all_safe l n : (length l <= n)%nat -> safe contract (fun _ => True) (emit_all l) (2 * n).
Proof.
  revert n. induction l as [|[k cd] l IH]; intros n Hn; [by apply safe_return|].
  destruct n as [|n]; [simpl in Hn; lia|]. replace (2 * S n)%nat with (2 + 2 * n)%nat by lia.
  eapply safe_then; [apply emit_or_stage_safe|]. intros _ _. apply IH. simpl in Hn. lia.
Qed.

Lemma flush_safe : safe contract (fun _ => True) flush_staged_candidates 129.
Proof.
  change 129%nat with (1 + (128 + 0))%nat.
  apply (safe_then _ (fun l : list (u32 * bytes) => (length l <= 64)%nat)).
  - apply safe_atomic. intros s (Hr & Hsg & Hl & He & Hst & Hfs & Hfe). split; [|done].
    split_and!; try done. simpl. lia.
  - intros l Hl. eapply safe_then; [by apply (emit_all_safe l 64)|done].
Qed.

Definition local_signals (o : option SignalEvent) : Prop := forall x, o = Some x -> local_signal x.

Lemma try_take_signal_safe : safe contract local_signals try_take_signal 130.
Proof.
  apply (safe_then _ local_signals _ _ _ 1 129).
  - apply safe_atomic. intros s (Hr & Hsg & Hl & He & Hst & Hfs & Hfe).
    destruct (signals s) as [|x l] eqn:E; simpl; (split; [|]).
    + split_and!; try done; rewrite E; [simpl; lia|constructor].
    + done.
    + apply Forall_cons_1 in Hfs as [_ Hfs]. split_and!; try done. simpl in *. lia.
    + intros y [= <-]. by apply Forall_cons_1 in Hfs as [? _].
  - intros [x|] Hx; [|by apply safe_return]. change 129%nat with (129 + 0)%nat.
    apply (safe_then _ (fun _ => True)); [apply flush_safe|done].
Qed.

Lemma emit_event_safe e : authentic_event e -> safe contract (fun _ => True) (emit_event e) 1.
Proof. by intros He. Qed.

Lemma emit_terminal_safe e : authentic_event e -> safe contract (fun _ => True) (emit_terminal e) 2.
Proof.
  intros He. apply (safe_then _ (fun _ => True) _ _ _ 1 1).
  - apply safe_atomic. intros s Hi. split; [|done]. by destruct (terminal s).
  - intros [] _; [by apply emit_event_safe|by apply safe_return].
Qed.

Lemma description_safe (parse : str -> result EngineError RTCSessionDescription) b d what :
  (forall text rd, bound_description b d text -> parse text = Ok rd -> remote_description rd) ->
  safe contract (fun _ => True)
    (do? fingerprint <- pure (dtls_fingerprint d);
     if decide (b <> WebRtcBinding.derive d fingerprint) then raise (InvalidAction what) else
     do? sdp <- pure (ok_or (from_utf8 d) DescriptionEncoding);
     do? rd <- pure (map_err WebRtc (parse sdp));
     engine (await (SetRemoteDescription rd))) 3.
Proof.
  intros Hd. apply safe_pure; [done|]. intros fp Hfp. case_decide as Hb; [by apply safe_return|].
  apply safe_pure; [done|]. intros text Ht%ok_or_ok.
  apply safe_pure; [done|]. intros rd Hrd%map_err_ok. apply safe_engine; [done|].
  apply (safe_weaken _ (fun _ => True) _ _ 1); [|lia|done]. apply safe_await; [|done].
  apply (Hd text rd); [|done]. split; [done|]. by exists fp.
Qed.

Lemma process_action_safe a :
  authentic_action a -> safe contract (fun _ => True) (process_action a) 3.
Proof.
  intros Ha. destruct a as [e|b d|b d|n cd| |id r p|reason]; simpl in Ha.
  - apply (safe_then _ (fun _ => True) _ _ _ 1 2); [by apply try_send_safe|].
    intros [] _; by apply safe_return.
  - destruct Ha as (e & He & Hb). apply description_safe. intros text rd Ht Hp.
    exists e. split; [done|]. rewrite Hb. by exists text.
  - destruct Ha as (e & o & He & Hb). apply description_safe. intros text rd Ht Hp.
    exists e. split; [done|]. rewrite Hb. by exists text.
  - destruct Ha as (e & p & He & Hb). apply safe_pure; [done|]. intros c Hc%ok_or_ok.
    apply safe_engine; [done|]. apply (safe_weaken _ (fun _ => True) _ _ 1); [|lia|done].
    apply safe_await; [|done]. exists e. split; [done|]. by rewrite Hb.
  - by apply safe_return.
  - apply (safe_then _ (fun _ => True) _ _ _ 1 2); [by apply emit_event_safe|].
    intros [] _; by apply safe_return.
  - apply (safe_then _ (fun _ => True) _ _ _ 2 1); [by apply emit_terminal_safe|].
    intros [] _; [|by apply safe_return]. apply safe_engine; [done|]. by apply safe_await.
Qed.

Lemma process_actions_safe acts n :
  Forall authentic_action acts -> (length acts <= n)%nat ->
  safe contract (fun _ => True) (process_actions acts) (3 * n).
Proof.
  intros Ha. revert n. induction Ha as [|a acts Ha _ IH]; intros n Hn; [by apply safe_return|].
  destruct n as [|n]; [simpl in Hn; lia|]. replace (3 * S n)%nat with (3 + 3 * n)%nat by lia.
  apply (safe_tbind _ (fun _ => True)); [|done|].
  - eapply safe_weaken; [by apply process_action_safe|done|done].
  - intros _ _. apply IH. simpl in Hn. lia.
Qed.

Definition signal_result (r : result SessionError SignalEvent) : Prop :=
  forall x, r = Ok x -> local_signal x.

(** The last part of [begin_offer] and [answer]. *)
Lemma emitted_safe acts n what :
  Forall authentic_action acts -> (length acts <= n)%nat ->
  safe contract signal_result
    (do? _ <- process_actions acts;
     do? _ <- flush_staged_candidates;
     do! signal <- try_take_signal;
     pure (ok_or signal (InvalidAction what))) (3 * n + (129 + (130 + 0))).
Proof.
  intros Ha Hn. apply (safe_tbind _ (fun _ => True)); [|done|intros _ _].
  { eapply safe_weaken; [by apply process_actions_safe|done|done]. }
  apply (safe_tbind _ (fun _ => True)); [|done|intros _ _].
  { eapply safe_weaken; [by apply flush_safe|done|done]. }
  eapply safe_then; [apply try_take_signal_safe|]. intros o Ho. apply safe_return.
  intros x Hx%ok_or_ok. by apply Ho.
Qed.


(** A call whose success is all that follows depends on. *)
Ltac call_safe :=
  apply (safe_tbind _ (fun _ => True)); [by apply safe_engine; [|apply safe_await]|done|].

Lemma install_local_safe ch : safe contract (fun _ => True) (install_local_control_channel ch) 2.
Proof. apply (safe_then _ (fun _ => True) _ _ _ 1 1); [by apply safe_set_control|done]. Qed.

Lemma begin_offer_safe : safe contract signal_result begin_offer 272.
Proof.
  change 272%nat with (1 + (2 + (1 + (1 + (1 + (1 + (3 * 2 + (129 + (130 + 0)))))))))%nat.
  unfold begin_offer. call_safe. intros ch _.
  apply (safe_then _ (fun _ => True)); [apply install_local_safe|intros _ _].
  call_safe. intros o _. call_safe. intros _ _.
  apply (safe_then _ (fun _ => True)); [by apply safe_await|intros d _].
  apply safe_pure; [done|]. intros desc _. apply safe_pure; [done|]. intros fp _.
  apply (safe_tbind _ (fun acts => Forall authentic_action acts /\ (length acts <= 2)%nat)); [|done|].
  - apply safe_locked. intros c log Hr Hp. split.
    + destruct (Connection.begin_offer _ _ _ c) as [c' r] eqn:E. simpl.
      eapply (reaches_run (Connection.IBeginOffer _ _ _)); [done|exact E].
    + intros acts Hok%map_err_ok. destruct (Connection.begin_offer _ _ _ c) as [c' r] eqn:E.
      simpl in Hok. subst r. apply Connection.begin_offer_ok in E as (_ & _ & Hv & _ & ->).
      split; [|done]. repeat constructor. eexists. split; [exact Hv|]. by apply outgoing_pinned.
  - intros acts [Ha Hn]. by apply (emitted_safe acts 2).
Qed.

Lemma answer_safe : safe contract signal_result answer 272.
Proof.
  apply (safe_weaken _ signal_result _ _ (1 + (1 + (1 + (1 + (3 * 1 + (129 + (130 + 0)))))))%nat); [|lia|done].
  unfold answer. call_safe. intros an _. call_safe. intros _ _.
  apply (safe_then _ (fun _ => True)); [by apply safe_await|intros d _].
  apply safe_pure; [done|]. intros desc _. apply safe_pure; [done|]. intros fp _.
  apply (safe_tbind _ (fun a => exists e, a = Send e /\ local_signal (SignalEvent_new e))); [|done|].
  - eapply (signing_safe _ (Connection.IAnswer sg _ _)); [done|]. intros c c' a Ha.
    apply Connection.answer_ok in Ha as (_ & _ & ids & _ & Hv & _ & ->). eauto.
  - intros a (e & -> & He). by apply (emitted_safe [Send e] 1); [constructor; [|constructor]|].
Qed.

Lemma accept_signal_safe wire : safe contract (fun _ => True) (accept_signal wire) 272.
Proof.
  apply (safe_weaken _ (fun _ => True) _ _ (1 + 3 * 1)%nat); [|lia|done].
  apply safe_pure; [done|]. intros e _.
  apply (safe_tbind _ (fun acts => Forall authentic_action acts /\ (length acts <= 1)%nat)); [|done|].
  - apply receive_safe.
  - intros acts [Ha Hn]. by apply process_actions_safe.
Qed.

Lemma send_cfr_safe payload : safe contract (fun _ => True) (send_cfr payload) 272.
Proof.
  apply (safe_weaken _ (fun _ => True) _ _ (1 + (1 + 1))%nat); [|lia|done].
  apply (safe_tbind _ (fun a => exists p, a = Send (Connection.outgoing sg (BCfrControl p) c0))); [|done|].
  - apply safe_locked. intros c log Hr Hp.
    destruct (Connection.cfr_control sg payload c) as [c' r] eqn:E. split.
    + destruct (Connection.run (Connection.ICfrControl sg payload) c) as [c2 r2] eqn:E2. simpl.
      replace c' with c2; [by eapply reaches_run|].
      apply (f_equal fst) in E2. cbn [Connection.run] in E2. by rewrite one_fst, E in E2.
    + intros a Ha%map_err_ok. simpl in Ha. subst r.
      apply Connection.cfr_control_ok in E as (_ & _ & _ & _ & ->). exists payload.
      f_equal. by apply outgoing_pinned.
  - intros a [p ->]. apply (safe_then _ (fun _ => True)).
    { apply safe_atomic. by intros s Hi. }
    intros ch _. apply safe_pure; [done|]. intros ch' _. apply safe_pure; [done|].
    intros data Hd%map_err_ok. apply safe_engine; [done|]. apply safe_await; [|done]. by exists p.
Qed.

Lemma begin_close_safe reason : safe contract signal_result (begin_close reason) 272.
Proof.
  apply (safe_weaken _ signal_result _ _ (1 + 0)%nat); [|lia|done].
  apply (safe_tbind _ (fun a => exists e, a = Send e /\ local_signal (SignalEvent_new e))); [|done|].
  - apply (signing_safe _ (Connection.IClose sg reason)); [done|]. intros c c' a Ha.
    rewrite Connection.close_run in Ha. repeat case_match; simplify_eq. by exists (BClose reason).
  - intros a (e & -> & He). apply safe_return. by intros x [= <-].
Qed.

Lemma pump_actions_safe acts n :
  Forall authentic_action acts -> (length acts <= n)%nat ->
  safe contract (fun _ => True) (pump_actions acts) n.
Proof.
  intros Ha. revert n. induction Ha as [|a acts Ha _ IH]; intros n Hn; [by apply safe_return|].
  destruct n as [|n]; [simpl in Hn; lia|]. simpl in Hn. assert (Hl : (length acts <= n)%nat) by lia.
  specialize (IH n Hl).
  assert (IH' : safe contract (fun _ => True) (pump_actions acts) (S n)).
  { by apply (safe_weaken _ (fun _ => True) _ _ n); [|lia|]. }
  destruct a; try exact IH'; apply (safe_then _ (fun _ => True) _ _ _ 1 n); try done;
    by intros [] _; [|apply safe_return].
Qed.

Lemma control_pump_safe ch : safe contract (fun _ => True) (control_pump ch) 272.
Proof.
  apply (safe_weaken _ (fun _ => True) _ _ (1 + (1 + (1 + 1)))%nat); [|lia|done].
  apply (safe_then _ (fun _ => True)); [by apply safe_await|intros o _].
  destruct o as [[|data| |]|]; [| | |by apply safe_return|].
  - apply (safe_then _ (authentic_actions 0)); [apply connected_safe|]. intros [acts|er] Hr;
      [|by apply safe_return]. destruct (Hr acts eq_refl) as [Ha Hn].
    apply (safe_then _ (fun _ => True)); [apply pump_actions_safe; [done|lia]|].
    intros [] _; [by apply emit_event_safe|by apply safe_return].
  - apply (safe_then _ (authentic_actions 1)); [apply control_binary_safe|]. intros [acts|er] Hr;
      [|by apply safe_return]. destruct (Hr acts eq_refl) as [Ha Hn].
    apply pump_actions_safe; [done|lia].
  - by apply (safe_then _ (fun _ => True) _ _ _ 2 1); [apply emit_terminal_safe|intros; apply safe_return].
  - by apply (safe_then _ (fun _ => True) _ _ _ 2 1); [apply emit_terminal_safe|intros; apply safe_return].
Qed.

(** A call whose result is looked at. *)
Ltac query_safe :=
  apply (safe_then _ (fun _ => True)); [by apply safe_await|];
  intros r _; destruct r; [|by apply safe_return].

Lemma install_remote_safe ch :
  safe contract (fun _ => True) (install_remote_control_channel ch) (1 + (1 + (1 + (1 + (1 + (1 + 1)))))).
Proof.
  unfold install_remote_control_channel. do 3 query_safe.
  apply (safe_then _ (fun _ => True)); [by apply safe_await|intros l _].
  apply (safe_then _ (fun _ => True)).
  { destruct (unlimited l); [|by apply safe_return]. apply (safe_then _ (fun _ => True) _ _ _ 1 0); [|done].
    by apply safe_await. }
  intros rel _. case_match.
  - apply (safe_then _ (fun _ => True)); [by apply safe_await|done].
  - apply (safe_then _ (fun _ => True)); [by apply safe_set_control|done].
Qed.

Lemma handler_safe h : safe contract (fun _ => True) (handler h) 272.
Proof.
  destruct h as [cand|failed|ch]; cbn [handler].
  - unfold on_ice_candidate. destruct (to_json cand) as [j|]; [|by apply safe_return].
    destruct (candidate_to_vec j) as [v|]; [|by apply safe_return].
    apply (safe_then _ (fun _ => True) _ _ _ 1 271); [apply safe_atomic; by intros s Hi|intros n _].
    by apply (safe_weaken _ (fun _ => True) _ _ 2); [apply emit_or_stage_safe|lia|].
  - destruct failed; [|by apply safe_return].
    by apply (safe_then _ (fun _ => True) _ _ _ 2 270); [apply emit_terminal_safe|].
  - by apply (safe_weaken _ (fun _ => True) _ _ _ _ (install_remote_safe ch)); [lia|].
Qed.

Definition authentic_outcome (o : Outcome) : Prop :=
  match o with
  | Finished _ => True
  | Signaled r => signal_result r
  | TookSignal o => local_signals o
  | TookEvent o => forall e, o = Some e -> authentic_event e
  end.

Lemma try_take_event_safe :
  safe contract (fun o => forall e, o = Some e -> authentic_event e) try_take_event 1.
Proof.
  apply safe_atomic. intros s (Hr & Hsg & Hl & He & Hst & Hfs & Hfe).
  destruct (events s) as [|x l] eqn:E; simpl.
  - split; [|done]. split_and!; try done; rewrite E; [simpl; lia|constructor].
  - apply Forall_cons_1 in Hfe as [Hx Hfe]. split; [|by intros e [= <-]].
    split_and!; try done. simpl in *. lia.
Qed.

Lemma program_bind {A} (Q : A -> Prop) (m : Async A) (f : A -> Outcome) n :
  safe contract Q m n -> (n <= 272)%nat -> (forall a, Q a -> authentic_outcome (f a)) ->
  safe contract authentic_outcome (do! r <- m; Return (f r)) 272.
Proof.
  intros Hm Hn Hf. change 272%nat with (272 + 0)%nat.
  eapply safe_then; [by eapply safe_weaken; [exact Hm|exact Hn|]|]. apply Hf.
Qed.

Lemma program_safe c : safe contract authentic_outcome (program c) 272.
Proof.
  destruct c; cbn [program].
  - by eapply program_bind; [apply begin_offer_safe|lia|].
  - by eapply program_bind; [apply accept_signal_safe|lia|].
  - by eapply program_bind; [apply answer_safe|lia|].
  - by eapply program_bind; [apply send_cfr_safe|lia|].
  - by eapply program_bind; [apply try_take_signal_safe|lia|].
  - by eapply program_bind; [apply try_take_event_safe|lia|].
  - by eapply program_bind; [apply begin_close_safe|lia|].
  - apply (program_bind (fun _ => True) _ _ 1); [|lia|done]. by apply safe_engine; [|apply safe_await].
Qed.

(** *** From tasks to sessions *)
Definition task_safe (t : Task) : Prop :=
  match t with
  | Calling _ m => safe contract authentic_outcome m 272
  | Handling m => safe contract (fun _ => True) m 272
  | Pumping _ m => safe contract (fun _ => True) m 272
  | Cancelled => True
  end.

Lemma resume_safe {A} (Q : A -> Prop) reply m s n s' m' ch :
  resume reply m s = Some (s', m', ch) -> invariant s -> safe contract Q m n ->
  invariant s' /\ exists n', n = S n' /\ safe contract Q m' n'.
Proof.
  intros Hr Hi Hs. destruct n as [|n]; [by destruct m|].
  destruct m as [a|f|c k|e k|e k|d k]; simpl in Hr; simpl in Hs.
  - done.
  - specialize (Hs s Hi). destruct (f s) as [s1 m1]. simplify_eq. naive_solver.
  - simplify_eq. naive_solver.
  - destruct Hs as [He Hs]. destruct (receiving s); simpl in Hr; [|simplify_eq; naive_solver].
    case_decide; simplify_eq. split; [|naive_solver].
    destruct Hi as (Hc & Hsg & Hl & Hev & Hst & Hfs & Hfe). split_and!; try done; simpl.
    + rewrite length_app. simpl. lia.
    + apply Forall_app. by repeat constructor.
  - destruct Hs as [He Hs]. destruct (receiving s); simpl in Hr; [|simplify_eq; naive_solver].
    case_decide; simplify_eq. split; [|naive_solver].
    destruct Hi as (Hc & Hsg & Hl & Hev & Hst & Hfs & Hfe). split_and!; try done; simpl.
    + rewrite length_app. simpl. lia.
    + apply Forall_app. by repeat constructor.
  - simplify_eq. naive_solver.
Qed.

Lemma resume_task_safe reply t s s' t' ch :
  resume_task reply t s = Some (s', t', ch) -> invariant s -> task_safe t ->
  invariant s' /\ task_safe t'.
Proof.
  assert (Hr : forall A (Q : A -> Prop) m m' s1, resume reply m s = Some (s1, m', ch) -> invariant s ->
            safe contract Q m 272 -> invariant s1 /\ safe contract Q m' 272).
  { intros A Q m m' s1 Hr Hi Hs.
    destruct (resume_safe Q _ _ _ _ _ _ _ Hr Hi Hs) as [Hi' (n & Hn & Hs')]. split; [done|].
    eapply safe_weaken; [exact Hs'|lia|done]. }
  intros Ht%resume_task_inv Hi Hs. destruct t as [c m|m|d m|]; [..|done].
  - destruct Ht as (m' & E & ->). by eapply Hr.
  - destruct Ht as (m' & E & ->). by eapply Hr.
  - destruct Ht as [(-> & -> & ->)|(m' & E & ->)]; [|by eapply Hr]. split; [done|apply control_pump_safe].
Qed.

Definition session_safe (x : Session) : Prop :=
  invariant (shared x) /\ Forall task_safe (tasks x).

Lemma step_safe l x x' : step l x = Some x' -> session_safe x -> session_safe x'.
Proof.
  intros Hs [Hi Ht]. destruct l as [c|h|i reply|i|]; simpl in Hs.
  - case_match; simplify_eq. split; [done|]. apply Forall_app. split; [done|].
    by repeat constructor; apply program_safe.
  - simplify_eq. split; [done|]. apply Forall_app. split; [done|].
    by repeat constructor; apply handler_safe.
  - destruct (tasks x !! i) as [t|] eqn:E; [|done]. simpl in Hs.
    destruct (resume_task reply t (shared x)) as [[[s' t'] ch]|] eqn:R; simplify_eq/=.
    destruct (resume_task_safe _ _ _ _ _ _ R Hi) as [Hi' Ht']; [by eapply Forall_lookup_1|].
    split; [done|]. apply Forall_app. split; [by apply Forall_insert|].
    destruct ch; repeat constructor. apply control_pump_safe.
  - destruct (tasks x !! i) as [[c m| | |]|] eqn:E; try done. case_match; simplify_eq.
    split; [done|]. by apply Forall_insert.
  - case_match; simplify_eq. by split.
Qed.

Lemma run_safe ls x x' : run ls x = Some x' -> session_safe x -> session_safe x'.
Proof.
  revert x. induction ls as [|l ls IH]; intros x Hr Hs; simpl in Hr; [by simplify_eq|].
  destruct (step l x) as [x1|] eqn:E; [|done]. eapply IH; [done|]. by eapply step_safe.
Qed.

(** *** The steps of one task *)
Fixpoint resumes (i : nat) (ls : list Label) : nat :=
  match ls with
  | [] => 0
  | Resume j _ :: ls => if decide (i = j) then S (resumes i ls) else resumes i ls
  | _ :: ls => resumes i ls
  end.

Lemma resumes_other i l ls :
  (forall reply, l <> Resume i reply) -> resumes i (l :: ls) = resumes i ls.
Proof. intros Hl. destruct l as [| |j r| |]; simpl; try done. case_decide; [|done]. subst. by edestruct Hl. Qed.

Lemma is_resume i l : (exists reply, l = Resume i reply) \/ (forall reply, l <> Resume i reply).
Proof. destruct l as [| |j r| |]; try (by right). destruct (decide (i = j)) as [<-|]; [by left; exists r|right; congruence]. Qed.

Lemma is_cancel i l : l = Cancel i \/ l <> Cancel i.
Proof. destruct l as [| | |j|]; try (by right). destruct (decide (i = j)) as [<-|]; [by left|right; congruence]. Qed.

Lemma step_other l x x' i t :
  step l x = Some x' -> tasks x !! i = Some t ->
  (forall reply, l <> Resume i reply) -> l <> Cancel i -> tasks x' !! i = Some t.
Proof.
  intros Hs Ht Hr Hc. destruct l as [c|h|j reply|j|]; simpl in Hs.
  - case_match; simplify_eq. by apply lookup_app_l_Some.
  - simplify_eq. by apply lookup_app_l_Some.
  - assert (i <> j) by (intros ->; by eapply Hr).
    destruct (tasks x !! j); [|done]. simpl in Hs.
    destruct (resume_task _ _ _) as [[[s' t'] ch]|]; simplify_eq/=.
    apply lookup_app_l_Some. by rewrite list_lookup_insert_ne.
  - assert (i <> j) by congruence. repeat case_match; simplify_eq. simpl.
    by rewrite list_lookup_insert_ne.
  - case_match; by simplify_eq.
Qed.

Lemma cancelled_stays ls x x' i :
  run ls x = Some x' -> tasks x !! i = Some Cancelled -> resumes i ls = 0%nat.
Proof.
  revert x. induction ls as [|l ls IH]; intros x Hr Ht; [done|]. simpl in Hr.
  destruct (step l x) as [x1|] eqn:E; [|done].
  assert (Hn : forall reply, l <> Resume i reply).
  { intros reply ->. simpl in E. by rewrite Ht in E. }
  assert (Hc : l <> Cancel i) by (intros ->; simpl in E; by rewrite Ht in E).
  rewrite resumes_other by done. exact (IH _ Hr (step_other _ _ _ _ _ E Ht Hn Hc)).
Qed.

Lemma call_steps ls x x' i c m n :
  run ls x = Some x' -> session_safe x -> tasks x !! i = Some (Calling c m) ->
  safe contract authentic_outcome m n -> (resumes i ls <= n)%nat.
Proof.
  revert x m n. induction ls as [|l ls IH]; intros x m n Hr Hx Ht Hm; [apply Nat.le_0_l|].
  simpl in Hr. destruct (step l x) as [x1|] eqn:E; [|done].
  pose proof (step_safe _ _ _ E Hx) as Hx1. destruct (is_resume i l) as [[reply ->]|Hn].
  - simpl. rewrite decide_True by done. simpl in E. rewrite Ht in E. simpl in E.
    destruct (resume reply m (shared x)) as [[[s' m'] ch]|] eqn:R; simplify_eq/=.
    destruct (resume_safe _ _ _ _ _ _ _ _ R (proj1 Hx) Hm) as [_ (n' & -> & Hm')].
    apply le_n_S. eapply IH; [done|done| |done]. simpl. apply lookup_app_l_Some.
    apply list_lookup_insert_eq. by eapply lookup_lt_Some.
  - rewrite resumes_other by done. destruct (is_cancel i l) as [->|Hc].
    + simpl in E. rewrite Ht in E. case_match; simplify_eq.
      rewrite (cancelled_stays _ _ _ i Hr); [lia|].
      simpl. apply list_lookup_insert_eq. by eapply lookup_lt_Some.
    + eapply IH; [done|done| |done]. by eapply step_other.
Qed.

End contract.

(** ** Terminal events

    The right to send a terminal event is a token: the flag [terminal] holds it
    until it is set, then the task that set it, then the event itself.
    [holds W m k]: a program that holds [k] tokens never makes up a token, and
    one that returns [a] still holds [W a]. *)
Definition is_terminal (e : SessionEvent) : bool :=
  match e with
  | SessionClosed _ | SessionFailed => true
  | _ => false
  end.
Definition weight (e : SessionEvent) : nat := if is_terminal e then 1 else 0.
Definition terminals (l : list SessionEvent) : nat := sum_list_with weight l.
Definition potential (s : Shared) : nat :=
  (terminals (events s) + (if terminal s then 0 else 1))%nat.

Fixpoint holds {A} (W : A -> nat) (m : Async A) (k : nat) : Prop :=
  match m with
  | Return a => (W a <= k)%nat
  | Atomic f =>
      forall s, match f s with (s', m') =>
        exists k', (potential s' + k' <= potential s + k)%nat /\ holds W m' k' end
  | Call c g => forall r, holds W (g r) k
  | SendEvent e g => exists k', (weight e + k' <= k)%nat /\ forall b, holds W (g b) k'
  | SendSignal _ g => forall b, holds W (g b) k
  | Spawn _ m => holds W m k
  end.

Lemma holds_mono {A} (W : A -> nat) m k k' : holds W m k -> (k <= k')%nat -> holds W m k'.
Proof.
  revert k k'. induction m as [a|f IH|c g IH|e g IH|e g IH|ch m IH] using async_ind;
    simpl; intros k k' Hm Hk; [lia| |naive_solver| |naive_solver|naive_solver].
  - intros s. specialize (Hm s). destruct (f s) as [s' m']. destruct Hm as (j & Hj & Hm).
    exists j. split; [lia|done].
  - destruct Hm as (j & Hj & Hm). exists j. split; [lia|done].
Qed.

Lemma holds_bind {A B} (W : A -> nat) (V : B -> nat) m f k :
  holds W m k -> (forall a, holds V (f a) (W a)) -> holds V (abind m f) k.
Proof.
  intros Hm Hf. revert k Hm.
  induction m as [a|g IH|c g IH|e g IH|e g IH|ch m IH] using async_ind; simpl; intros k Hm;
    [by eapply holds_mono| |naive_solver..].
  intros s. specialize (Hm s). specialize (IH s). destruct (g s) as [s' m'].
  destruct Hm as (j & Hj & Hm). exists j. split; [done|]. by apply IH.
Qed.

(** No token goes in or out. *)
Definition mute {A} (m : Async A) : Prop := holds (fun _ => 0%nat) m 0.

Lemma mute_return {A} (a : A) : mute (Return a).
Proof. apply le_n. Qed.

Lemma mute_bind {A B} (m : Async A) (f : A -> Async B) : mute m -> (forall a, mute (f a)) -> mute (abind m f).
Proof. intros Hm Hf. by eapply holds_bind. Qed.

Lemma mute_tbind {A B} (m : Async (result SessionError A)) (f : A -> Async (result SessionError B)) :
  mute m -> (forall a, mute (f a)) -> mute (tbind m f).
Proof. intros Hm Hf. apply mute_bind; [done|]. intros [a|e]; [apply Hf|apply mute_return]. Qed.

Lemma mute_await c : mute (await c).
Proof. intros r. apply mute_return. Qed.

Lemma mute_engine {A} (m : Async (result EngineError A)) : mute m -> mute (engine m).
Proof. intros Hm. apply mute_bind; [done|]. intros r. apply mute_return. Qed.

Lemma mute_atomic {A} (f : Shared -> Shared * A) :
  (forall s, (potential (fst (f s)) <= potential s)%nat) -> mute (atomic f).
Proof. intros Hf s. specialize (Hf s). destruct (f s). exists 0%nat. simpl in *. lia. Qed.

Lemma mute_update f : (forall s, (potential (f s) <= potential s)%nat) -> mute (update f).
Proof. apply (mute_atomic (fun s => (f s, tt))). Qed.

Lemma mute_locked {A} (m : SigningIdentity -> M Connection.t Error A) : mute (locked m).
Proof. apply mute_atomic. intros s. by destruct (m _ _). Qed.

Lemma mute_try_send x : mute (try_send x).
Proof. apply mute_atomic. intros s. by destruct (_ && _). Qed.

Lemma mute_event e : weight e = 0%nat -> mute (emit_event e).
Proof. intros He. exists 0%nat. rewrite He. split; [lia|]. intros b. apply mute_return. Qed.

Lemma mute_signal x : mute (emit_signal x).
Proof. intros b. apply mute_return. Qed.

Lemma mute_spawn {A} ch (m : Async A) : mute m -> mute (Spawn ch m).
Proof. done. Qed.

Lemma mute_emit_terminal e : mute (emit_terminal e).
Proof.
  apply (holds_bind (fun first : bool => if first then 1%nat else 0%nat)).
  - intros s. unfold potential. destruct (terminal s) eqn:E; simpl.
    + exists 0%nat. rewrite E. lia.
    + exists 1%nat. lia.
  - intros []; [|apply mute_return]. exists 0%nat. split; [|intros b; apply mute_return].
    unfold weight. destruct (is_terminal e); lia.
Qed.


Ltac muted_step :=
  lazymatch goal with
  | |- mute (abind _ _) => apply mute_bind; [|intros ?]
  | |- mute (tbind _ _) => apply mute_tbind; [|intros ?]
  | |- mute (Return _) => apply mute_return
  | |- mute (raise _) => apply mute_return
  | |- mute (pure _) => apply mute_return
  | |- mute (await _) => apply mute_await
  | |- mute (engine _) => apply mute_engine
  | |- mute (locked _) => apply mute_locked
  | |- mute (try_send _) => apply mute_try_send
  | |- mute (emit_terminal _) => apply mute_emit_terminal
  | |- mute (emit_event _) => apply mute_event; reflexivity
  | |- mute (emit_signal _) => apply mute_signal
  | |- mute (Spawn _ _) => apply mute_spawn
  | |- mute (update _) => apply mute_update; intros; apply le_n
  | |- mute (atomic _) => apply mute_atomic; intros; apply le_n
  | |- mute (match ?x with _ => _ end) => destruct x
  | |- mute (let _ := _ in _) => cbv zeta
  end.
Ltac muted := repeat muted_step.

Lemma mute_stage n cd : mute (emit_or_stage_candidate n cd).
Proof. unfold emit_or_stage_candidate. muted. Qed.

Lemma mute_flush : mute flush_staged_candidates.
Proof.
  unfold flush_staged_candidates. muted.
  match goal with |- mute (emit_all ?l) => induction l as [|[n cd] l IH] end;
    cbn [emit_all]; muted; [apply mute_stage|done].
Qed.

Lemma mute_take_signal : mute try_take_signal.
Proof.
  apply mute_bind; [apply mute_atomic; intros s; by destruct (signals s)|].
  intros x. muted. apply mute_flush.
Qed.

Lemma mute_process acts : mute (process_actions acts).
Proof.
  induction acts as [|a acts IH]; cbn [process_actions]; muted; [|done]. unfold process_action. muted.
Qed.

Lemma mute_pump_actions acts : mute (pump_actions acts).
Proof. induction acts as [|a acts IH]; cbn [pump_actions]; by muted. Qed.

Lemma mute_pump ch : mute (control_pump ch).
Proof. unfold control_pump. muted; apply mute_pump_actions. Qed.

Lemma mute_handler h : mute (handler h).
Proof.
  destruct h; cbn [handler].
  - unfold on_ice_candidate. muted. apply mute_stage.
  - unfold on_connection_state_change. muted.
  - unfold on_data_channel, install_remote_control_channel. muted.
Qed.

(** The terminal events an outcome hands to the application. *)
Definition taken_event (o : Outcome) : list SessionEvent :=
  match o with
  | TookEvent (Some e) => [e]
  | _ => []
  end.
Definition taken (o : Outcome) : nat := terminals (taken_event o).

Lemma holds_program c : holds taken (program c) 0.
Proof.
  destruct c; cbn [program].
  6:{ apply (holds_bind (fun o : option SessionEvent => terminals (option_list o))).
      - intros s. unfold potential, terminals. destruct (events s) as [|e l] eqn:E; simpl.
        + exists 0%nat. rewrite E. simpl. lia.
        + exists (weight e). simpl. lia.
      - intros [e|]; apply le_n. }
  all: apply (holds_bind (fun _ => 0%nat)); [|intros r; apply le_n].
  all: match goal with |- holds _ ?m 0 => change (mute m) end.
  - unfold begin_offer, install_local_control_channel. muted;
      first [apply mute_process | apply mute_flush | apply mute_take_signal].
  - unfold accept_signal. muted. apply mute_process.
  - unfold answer. muted; first [apply mute_process | apply mute_flush | apply mute_take_signal].
  - unfold send_cfr. muted.
  - apply mute_take_signal.
  - unfold begin_close. muted.
  - unfold close. muted.
Qed.

Definition task_holds (t : Task) (k : nat) : Prop :=
  match t with
  | Calling _ m => holds taken m k
  | Handling m => holds (fun _ => 0%nat) m k
  | Pumping _ m => holds (fun _ => 0%nat) m k
  | Cancelled => True
  end.

Lemma resume_holds {A} (W : A -> nat) reply m s s' m' ch k :
  resume reply m s = Some (s', m', ch) -> holds W m k ->
  exists k', (potential s' + k' <= potential s + k)%nat /\ holds W m' k'.
Proof.
  intros Hr Hm. destruct m as [a|f|c g|e g|e g|d m]; simpl in Hr, Hm.
  - done.
  - specialize (Hm s). destruct (f s) as [s1 m1]. by simplify_eq.
  - simplify_eq. exists k. by split.
  - destruct Hm as (j & Hj & Hm). destruct (receiving s); simpl in Hr.
    + case_decide; simplify_eq. exists j. split; [|done]. unfold potential, terminals. simpl.
      rewrite sum_list_with_app. simpl. lia.
    + simplify_eq. exists j. split; [lia|done].
  - destruct (receiving s); simpl in Hr; [case_decide|]; simplify_eq; by exists k.
  - simplify_eq. exists k. by split.
Qed.

Lemma resume_task_holds reply t s s' t' ch k :
  resume_task reply t s = Some (s', t', ch) -> task_holds t k ->
  exists k', (potential s' + k' <= potential s + k)%nat /\ task_holds t' k'.
Proof.
  intros Hr%resume_task_inv Ht. destruct t as [c m|m|d m|]; [..|done].
  - destruct Hr as (m' & E & ->). by eapply resume_holds.
  - destruct Hr as (m' & E & ->). by eapply resume_holds.
  - destruct Hr as [(-> & -> & ->)|(m' & E & ->)]; [|by eapply resume_holds].
    exists 0%nat. split; [lia|apply mute_pump].
Qed.

Definition session_holds (x : Session) : Prop :=
  exists ks, Forall2 task_holds (tasks x) ks /\ (potential (shared x) + sum_list ks <= 1)%nat.

Lemma sum_list_insert (ks : list nat) i k k' :
  ks !! i = Some k -> (sum_list (<[i := k']> ks) + k = sum_list ks + k')%nat.
Proof.
  revert i. induction ks as [|j ks IH]; intros [|i] Hi; simplify_eq/=; [lia|].
  specialize (IH _ Hi). lia.
Qed.

Lemma add_holds x t : task_holds t 0 -> session_holds x -> session_holds (add_task t x).
Proof.
  intros Ht (ks & Hks & Hn). exists (ks ++ [0%nat]). split.
  - apply Forall2_app; [done|]. by repeat constructor.
  - simpl. rewrite sum_list_with_app. simpl. lia.
Qed.

Lemma step_holds l x x' : step l x = Some x' -> session_holds x -> session_holds x'.
Proof.
  intros Hs Hx. destruct l as [c|h|i reply|i|]; simpl in Hs.
  - case_match; simplify_eq. apply add_holds; [apply holds_program|done].
  - simplify_eq. apply add_holds; [apply mute_handler|done].
  - destruct Hx as (ks & Hks & Hn). destruct (tasks x !! i) as [t|] eqn:E; [|done]. simpl in Hs.
    destruct (resume_task reply t (shared x)) as [[[s' t'] ch]|] eqn:R; simplify_eq/=.
    destruct (Forall2_lookup_l _ _ _ _ _ Hks E) as (k & Hk & Ht).
    destruct (resume_task_holds _ _ _ _ _ _ _ R Ht) as (k' & Hk' & Ht').
    pose proof (sum_list_insert ks i k k' Hk) as Hsum.
    exists (<[i := k']> ks ++ match ch with Some _ => [0%nat] | None => [] end). split.
    + apply Forall2_app; [by apply Forall2_insert|]. destruct ch; repeat constructor. apply mute_pump.
    + simpl. rewrite sum_list_with_app. destruct ch; simpl; lia.
  - destruct Hx as (ks & Hks & Hn). destruct (tasks x !! i) as [[c m| | |]|] eqn:E; try done.
    case_match; simplify_eq. destruct (Forall2_lookup_l _ _ _ _ _ Hks E) as (k & Hk & _).
    pose proof (sum_list_insert ks i k 0 Hk) as Hsum.
    exists (<[i := 0%nat]> ks). split; [by apply Forall2_insert|]. simpl. lia.
  - case_match; simplify_eq. exact Hx.
Qed.

Lemma run_holds ls x x' : run ls x = Some x' -> session_holds x -> session_holds x'.
Proof.
  revert x. induction ls as [|l ls IH]; intros x Hr Hs; simpl in Hr; [by simplify_eq|].
  destruct (step l x) as [x1|] eqn:E; [|done]. eapply IH; [done|]. by eapply step_holds.
Qed.

(** The events the application has taken so far. *)
Definition taken_by (t : Task) : list SessionEvent :=
  match t with
  | Calling _ (Return o) => taken_event o
  | _ => []
  end.

Lemma taken_weight ts ks : Forall2 task_holds ts ks -> (terminals (ts ≫= taken_by) <= sum_list ks)%nat.
Proof.
  induction 1 as [|t k ts ks Ht _ IH]; [done|]. rewrite bind_cons. unfold terminals in *.
  change (sum_list (k :: ks)) with (k + sum_list ks)%nat. rewrite sum_list_with_app. assert (sum_list_with weight (taken_by t) <= k)%nat; [|lia].
  destruct t as [c [o| | | | |]| | |]; simpl in *; try lia. exact Ht.
Qed.

(** ** The guarantees *)
Lemma new_shared f a sg r b s0 :
  new f a sg r b = Ok s0 ->
  Connection.wf (connection s0) /\ Connection.seen (connection s0) = [] /\
  session_safe (connection s0) sg (started s0) /\ session_holds (started s0) /\
  Connection.new f a (endpoint sg) r = Ok (connection s0).
Proof.
  unfold new. intros (c & Hc%map_err_ok & ([] & _ & [= <-])%res_bind_ok)%res_bind_ok.
  destruct (Connection.new_wf _ _ _ _ _ Hc) as [Hw Hs]. split_and!; [done|done| | |done].
  - split; [|constructor]. split_and!; simpl; [|done|lia..|constructor|constructor].
    exists []. constructor.
  - exists []. by split; [constructor|].
Qed.

(** The engine call a task is about to make. *)
Definition next_call {A} (m : Async A) : option EngineCall :=
  match m with Call c _ => Some c | _ => None end.
Definition task_call (t : Task) : option EngineCall :=
  match t with
  | Calling _ m => next_call m
  | Handling m => next_call m
  | Pumping _ m => next_call m
  | Cancelled => None
  end.

Lemma task_call_allowed c0 sg t c : task_safe c0 sg t -> task_call t = Some c -> allowed_call c0 sg c.
Proof.
  destruct t as [a m|m|d m|]; [..|done]; simpl; intros Hs Hc;
    (destruct m; simplify_eq/=; by destruct Hs).
Qed.

(** C3: in a native session, whatever the signaling path delivers and however
    tasks interleave, a remote description reaches the WebRTC engine only from
    an envelope of the pinned peer whose two signatures verify and whose signed
    binding commits to the description and the DTLS fingerprint in it; a
    candidate only from such an envelope; and what is sent on the control
    channel is the canonical encoding of a payload this endpoint signed. *)
Theorem engine_calls_authentic f a sg r b s0 ls x i t c :
  new f a sg r b = Ok s0 -> run ls (started s0) = Some x ->
  tasks x !! i = Some t -> task_call t = Some c -> allowed_call (connection s0) sg c.
Proof.
  intros (Hw & Hs & Hsafe & _)%new_shared Hr Ht Hc.
  destruct (run_safe _ _ Hw Hs _ _ _ Hr Hsafe) as [_ Hts].
  eapply task_call_allowed; [|done]. by eapply Forall_lookup_1.
Qed.

(** C15: a native session is a driver of the connection state machine and adds
    nothing to it: in every reachable state its connection is one the state
    machine reaches; every envelope it queues for signaling or returns is signed
    by this endpoint for this attempt; and every CFR payload or close it reports
    to the application, queued or taken, was in an envelope of the pinned peer
    whose two signatures verify. *)
Theorem session_refines_connection f a sg r b s0 ls x :
  new f a sg r b = Ok s0 -> run ls (started s0) = Some x ->
  Connection.new f a (endpoint sg) r = Ok (connection s0) /\
  (exists log, Connection.reaches (S := SigningIdentity) (connection s0) log (connection (shared x))) /\
  Forall (local_signal (connection s0) sg) (signals (shared x)) /\
  Forall (authentic_event (connection s0)) (events (shared x)) /\
  (forall i c o, tasks x !! i = Some (Calling c (Return o)) -> authentic_outcome (connection s0) sg o).
Proof.
  intros (Hw & Hs & Hsafe & _ & Hn)%new_shared Hr.
  destruct (run_safe _ _ Hw Hs _ _ _ Hr Hsafe) as [(Hc & _ & _ & _ & _ & Hsig & Hev) Hts].
  split_and!; [done..|]. intros i c o Hi. by apply (Forall_lookup_1 _ _ _ _ Hts Hi).
Qed.

(** C16: the queues of a native session are bounded: at most 128 signaling
    envelopes, 128 events and 64 candidates waiting for a negotiation, in every
    reachable state, also when the application never drains them; and the count
    of processed envelopes never passes 1,024. *)
Theorem session_queues_bounded f a sg r b s0 ls x :
  new f a sg r b = Ok s0 -> run ls (started s0) = Some x ->
  (length (signals (shared x)) <= 128)%nat /\ (length (events (shared x)) <= 128)%nat /\
  (length (staged_candidates (shared x)) <= 64)%nat /\
  blen (Connection.seen (connection (shared x))) <= 1024.
Proof.
  intros (Hw & Hs & Hsafe & _)%new_shared Hr.
  destruct (run_safe _ _ Hw Hs _ _ _ Hr Hsafe) as [((log & Hc) & _ & Hsig & Hev & Hst & _) _].
  destruct (Connection.reaches_inv _ _ _ Hc Hw Hs) as ((_ & _ & Hseen & _) & _). done.
Qed.

(** C17: calls on a native session return: whatever else runs, a call is resumed
    at most 272 times, and one that has not returned can always be resumed
    while neither queue is full. *)
Theorem session_calls_return f a sg r b s0 ls x i c m :
  new f a sg r b = Ok s0 -> run ls (started s0) = Some x -> tasks x !! i = Some (Calling c m) ->
  (forall ls' x', run ls' x = Some x' -> (resumes i ls' <= 272)%nat) /\
  (finished m = false -> (length (events (shared x)) < ENGINE_EVENT_CAPACITY)%nat ->
   (length (signals (shared x)) < SIGNAL_EVENT_CAPACITY)%nat ->
   forall reply, exists x', step (Resume i reply) x = Some x').
Proof.
  intros (Hw & Hs & Hsafe & _)%new_shared Hr Hi.
  pose proof (run_safe _ _ Hw Hs _ _ _ Hr Hsafe) as Hx. split.
  - intros ls' x' Hr'. eapply call_steps; [exact Hw|exact Hs|exact Hr'|exact Hx|exact Hi|].
    exact (Forall_lookup_1 _ _ _ _ (proj2 Hx) Hi).
  - intros Hm He Hsig reply. simpl. rewrite Hi. simpl.
    assert (Hres : exists p, resume reply m (shared x) = Some p).
    { destruct m as [|g| | | |]; simpl; try done; try by eexists.
      - by destruct (g (shared x)) as [s' m']; eexists.
      - destruct (receiving (shared x)); simpl; [|by eexists]. rewrite decide_True by done. by eexists.
      - destruct (receiving (shared x)); simpl; [|by eexists]. rewrite decide_True by done. by eexists. }
    destruct Hres as [[[s' m'] ch] ->]. by eexists.
Qed.

(** C18: an application learns the end of a native session once: over every
    history, at most one event that the session closed or failed is delivered or
    waits to be. *)
Theorem session_ends_once f a sg r b s0 ls x :
  new f a sg r b = Ok s0 -> run ls (started s0) = Some x ->
  (length (filter (fun e => is_terminal e = true)
     ((tasks x ≫= taken_by) ++ events (shared x))) <= 1)%nat.
Proof.
  intros (_ & _ & _ & Hh & _)%new_shared Hr. destruct (run_holds _ _ _ Hr Hh) as (ks & Hks & Hn).
  apply taken_weight in Hks. unfold potential in Hn.
  assert (Hf : forall l, length (filter (fun e => is_terminal e = true) l) = terminals l).
  { intros l. unfold terminals, weight. induction l as [|e l IH]; [done|]. rewrite filter_cons. simpl.
    destruct (is_terminal e); simpl; by rewrite IH. }
  rewrite filter_app, length_app, !Hf. lia.
Qed.

(** ** Waiting on a full queue

    Only [try_take_event] makes room among the events.  [keeps m]: no critical
    section of [m] takes an event or drops the receivers. *)
Fixpoint keeps {A} (m : Async A) : Prop :=
  match m with
  | Return _ => True
  | Atomic f =>
      forall s, match f s with (s', m') =>
        events s' = events s /\ receiving s' = receiving s /\ keeps m' end
  | Call _ k => forall r, keeps (k r)
  | SendEvent _ k | SendSignal _ k => forall b, keeps (k b)
  | Spawn _ k => keeps k
  end.

Lemma keeps_bind {A B} (m : Async A) (f : A -> Async B) : keeps m -> (forall a, keeps (f a)) -> keeps (abind m f).
Proof.
  intros Hm Hf. induction m as [a|g IH|c g IH|e g IH|e g IH|ch m IH] using async_ind; simpl in *;
    [done| |by auto..].
  intros s. specialize (Hm s). specialize (IH s). destruct (g s) as [s' m'].
  destruct Hm as (He & Hr & Hm). split_and!; [done|done|]. by apply IH.
Qed.

Lemma keeps_tbind {A B} (m : Async (result SessionError A)) (f : A -> Async (result SessionError B)) :
  keeps m -> (forall a, keeps (f a)) -> keeps (tbind m f).
Proof. intros Hm Hf. apply keeps_bind; [done|]. intros [a|e]; [apply Hf|done]. Qed.

Lemma keeps_engine {A} (m : Async (result EngineError A)) : keeps m -> keeps (engine m).
Proof. intros Hm. by apply keeps_bind. Qed.

Lemma keeps_atomic {A} (f : Shared -> Shared * A) :
  (forall s, events (fst (f s)) = events s /\ receiving (fst (f s)) = receiving s) -> keeps (atomic f).
Proof. intros Hf s. specialize (Hf s). destruct (f s). simpl in *. naive_solver. Qed.

Lemma keeps_locked {A} (m : SigningIdentity -> M Connection.t Error A) : keeps (locked m).
Proof. apply keeps_atomic. intros s. by destruct (m _ _). Qed.

Ltac keep_step :=
  lazymatch goal with
  | |- keeps (abind _ _) => apply keeps_bind; [|intros ?]
  | |- keeps (tbind _ _) => apply keeps_tbind; [|intros ?]
  | |- keeps (Return _) => exact I
  | |- keeps (raise _) => exact I
  | |- keeps (pure _) => exact I
  | |- keeps (await _) => intros ?; exact I
  | |- keeps (emit_event _) => intros ?; exact I
  | |- keeps (emit_signal _) => intros ?; exact I
  | |- keeps (Spawn _ ?m) => change (keeps m)
  | |- keeps (engine _) => apply keeps_engine
  | |- keeps (locked _) => apply keeps_locked
  | |- keeps (update _) => apply keeps_atomic; intros; by cbn
  | |- keeps (atomic _) => apply keeps_atomic; intros; cbn; repeat case_match; by cbn
  | |- keeps (match ?x with _ => _ end) => destruct x
  | |- keeps (let _ := _ in _) => cbv zeta
  | |- keeps (try_send _) => unfold try_send
  | |- keeps (emit_terminal _) => unfold emit_terminal
  | |- keeps try_recv_signal => unfold try_recv_signal
  end.
Ltac keep := repeat keep_step.

Lemma keeps_stage n cd : keeps (emit_or_stage_candidate n cd).
Proof. unfold emit_or_stage_candidate. keep. Qed.

Lemma keeps_flush : keeps flush_staged_candidates.
Proof.
  unfold flush_staged_candidates. keep.
  match goal with |- keeps (emit_all ?l) => induction l as [|[n cd] l IH] end;
    cbn [emit_all]; keep; [apply keeps_stage|done].
Qed.

Lemma keeps_take_signal : keeps try_take_signal.
Proof. unfold try_take_signal. keep. apply keeps_flush. Qed.

Lemma keeps_process acts : keeps (process_actions acts).
Proof. induction acts as [|a acts IH]; cbn [process_actions]; keep; [|done]. unfold process_action. keep. Qed.

Lemma keeps_pump_actions acts : keeps (pump_actions acts).
Proof. induction acts as [|a acts IH]; cbn [pump_actions]; by keep. Qed.

Lemma keeps_pump ch : keeps (control_pump ch).
Proof. unfold control_pump. keep; apply keeps_pump_actions. Qed.

Lemma keeps_handler h : keeps (handler h).
Proof.
  destruct h; cbn [handler].
  - unfold on_ice_candidate. keep. apply keeps_stage.
  - unfold on_connection_state_change. keep.
  - unfold on_data_channel, install_remote_control_channel. keep.
Qed.

Lemma keeps_program c : exclusive c = false -> keeps (program c).
Proof.
  destruct c; try done; intros _; cbn [program]; apply keeps_bind; try done.
  - unfold accept_signal. keep. apply keeps_process.
  - unfold send_cfr. keep.
  - unfold begin_close. keep.
Qed.

(** Tasks that cannot make room. *)
Definition task_keeps (t : Task) : Prop :=
  match t with
  | Calling c m => exclusive c = false -> keeps m
  | Handling m => keeps m
  | Pumping _ m => keeps m
  | Cancelled => True
  end.

(** The events are full and their receiver exists. *)
Definition full (s : Shared) : Prop :=
  receiving s = true /\ length (events s) = ENGINE_EVENT_CAPACITY.

Lemma resume_keeps {A} reply (m : Async A) s s' m' ch :
  resume reply m s = Some (s', m', ch) -> keeps m ->
  keeps m' /\ (full s -> events s' = events s /\ receiving s' = receiving s).
Proof.
  intros Hr Hm. unfold full. destruct m as [a|f|c k|e k|e k|d k]; simpl in Hr, Hm.
  - done.
  - specialize (Hm s). destruct (f s). naive_solver.
  - naive_solver.
  - destruct (receiving s); simpl in Hr; [|naive_solver]. case_decide; simplify_eq.
    split; [done|]. intros [_ Hf]. lia.
  - destruct (receiving s) eqn:E; simpl in Hr; [|naive_solver]. case_decide; by simplify_eq/=.
  - naive_solver.
Qed.

(** The call a task is working on, and calls that do not need the session for
    themselves. *)
Definition busy (t : Task) : option AppCall :=
  match t with
  | Calling c m => if finished m then None else Some c
  | _ => None
  end.
Definition shares (t : Task) : Prop := forall c, busy t = Some c -> exclusive c = false.

Lemma resume_busy reply t s s' t' ch :
  resume_task reply t s = Some (s', t', ch) -> forall c, busy t' = Some c -> busy t = Some c.
Proof.
  intros Hr%resume_task_inv c. destruct t as [c1 m|m|d m|]; [| | |done].
  - destruct Hr as (m' & E & ->). simpl. destruct m; [done|..]; simpl; by case_match.
  - by destruct Hr as (m' & E & ->).
  - by destruct Hr as [(-> & -> & ->)|(m' & E & ->)].
Qed.

Lemma resume_task_keeps reply t s s' t' ch :
  resume_task reply t s = Some (s', t', ch) -> task_keeps t ->
  task_keeps t' /\ (shares t -> full s -> events s' = events s /\ receiving s' = receiving s).
Proof.
  intros Hr%resume_task_inv Ht. destruct t as [c m|m|d m|]; [..|done].
  - destruct Hr as (m' & E & ->). pose proof (resume_keeps _ _ _ _ _ _ E) as Hk.
    split; [simpl in *; naive_solver|]. intros Hs. apply Hk, Ht, Hs. simpl. by destruct m.
  - destruct Hr as (m' & E & ->). destruct (resume_keeps _ _ _ _ _ _ E Ht) as [? ?]. by split.
  - destruct Hr as [(-> & -> & ->)|(m' & E & ->)]; [by split; [apply keeps_pump|]|].
    destruct (resume_keeps _ _ _ _ _ _ E Ht) as [? ?]. by split.
Qed.

(** *** Borrows of the session

    A call that takes [&mut self] is the only one under way. *)
Definition working (x : Session) (i : nat) (c : AppCall) : Prop := tasks x !! i ≫= busy = Some c.
Definition borrowed (x : Session) : Prop :=
  forall i j ci cj, i <> j -> working x i ci -> working x j cj -> exclusive ci = false.

Definition disciplined (x : Session) : Prop := Forall task_keeps (tasks x) /\ borrowed x.

Lemma working_app x s t i c :
  working {| shared := s; tasks := tasks x ++ [t] |} i c ->
  working x i c \/ (i = length (tasks x) /\ busy t = Some c).
Proof.
  unfold working. simpl. destruct (decide (i < length (tasks x))%nat) as [Hi|Hi].
  - rewrite lookup_app_l by done. by left.
  - rewrite lookup_app_r by lia. destruct (i - length (tasks x))%nat as [|n] eqn:E; simpl; [|done].
    intros Hb. right. split; [lia|done].
Qed.

Lemma available_spec c x i c' :
  available c (tasks x) = true -> working x i c' -> exclusive c = false /\ exclusive c' = false.
Proof.
  unfold available, working. intros Ha%negb_true_iff Hw.
  destruct (tasks x !! i) as [t|] eqn:E; [|done]. simpl in Hw.
  assert (Hb : borrows c t = false).
  { destruct (borrows c t) eqn:Hb; [|done]. rewrite <- not_true_iff_false, existsb_exists in Ha.
    destruct Ha. exists t. split; [|done]. apply list_elem_of_In. by eapply list_elem_of_lookup_2. }
  destruct t as [c1 m| | |]; simpl in *; try done. destruct (finished m); simplify_eq/=.
  by apply orb_false_iff in Hb.
Qed.

(** No step but the beginning of a call puts a call to work. *)
Lemma step_working l x x' i c :
  step l x = Some x' -> working x' i c ->
  working x i c \/ (l = Begin c /\ available c (tasks x) = true /\ i = length (tasks x)).
Proof.
  intros Hs Hw. destruct l as [c1|h|j reply|j|]; simpl in Hs.
  - case_match eqn:E; simplify_eq. apply andb_true_iff in E as [_ E].
    apply working_app in Hw as [Hw|[-> Hb]]; [by left|]. simpl in Hb.
    destruct (finished _); simplify_eq. by right.
  - simplify_eq. left. by apply working_app in Hw as [Hw|[-> Hb]].
  - left. destruct (tasks x !! j) as [t|] eqn:Hj; [|done]. simpl in Hs.
    destruct (resume_task reply t (shared x)) as [[[s' t'] ch]|] eqn:R; simplify_eq/=.
    assert (Hw' : <[j := t']> (tasks x) !! i ≫= busy = Some c).
    { destruct ch; [|by rewrite app_nil_r in Hw].
      by apply (working_app {| shared := s'; tasks := <[j := t']> (tasks x) |}) in Hw as [Hw|[-> Hb]]. }
    unfold working. destruct (decide (i = j)) as [->|Hij].
    + rewrite list_lookup_insert_eq in Hw' by (by eapply lookup_lt_Some). rewrite Hj. simpl in *.
      by eapply resume_busy.
    + by rewrite list_lookup_insert_ne in Hw'.
  - left. destruct (tasks x !! j) as [[c1 m| | |]|] eqn:Hj; try done. case_match; simplify_eq.
    unfold working in *. simpl in Hw. destruct (decide (i = j)) as [->|Hij].
    + by rewrite list_lookup_insert_eq in Hw by (by eapply lookup_lt_Some).
    + by rewrite list_lookup_insert_ne in Hw.
  - left. case_match; by simplify_eq.
Qed.

Lemma program_keeps c : task_keeps (Calling c (program c)).
Proof. intros Hc. by apply keeps_program. Qed.

Lemma step_keeps l x x' : step l x = Some x' -> Forall task_keeps (tasks x) -> Forall task_keeps (tasks x').
Proof.
  intros Hs Hk. destruct l as [c|h|j reply|j|]; simpl in Hs.
  - case_match; simplify_eq. apply Forall_app. split; [done|]. repeat constructor. apply program_keeps.
  - simplify_eq. apply Forall_app. split; [done|]. repeat constructor. apply keeps_handler.
  - destruct (tasks x !! j) as [t|] eqn:Hj; [|done]. simpl in Hs.
    destruct (resume_task reply t (shared x)) as [[[s' t'] ch]|] eqn:R; simplify_eq/=.
    apply Forall_app. split; [|destruct ch; repeat constructor; apply keeps_pump].
    apply Forall_insert; [done|]. by apply (resume_task_keeps _ _ _ _ _ _ R (Forall_lookup_1 _ _ _ _ Hk Hj)).
  - destruct (tasks x !! j) as [[c1 m| | |]|] eqn:Hj; try done. case_match; simplify_eq.
    by apply Forall_insert.
  - case_match; by simplify_eq.
Qed.

Lemma step_disciplined l x x' : step l x = Some x' -> disciplined x -> disciplined x'.
Proof.
  intros Hs [Hk Hb]. split; [by eapply step_keeps|]. intros i j ci cj Hij Hi Hj.
  destruct (step_working _ _ _ _ _ Hs Hi) as [Hi'|(-> & Ha & ->)];
    destruct (step_working _ _ _ _ _ Hs Hj) as [Hj'|(? & Ha' & ->)]; simplify_eq.
  - by eapply Hb.
  - by destruct (available_spec _ _ _ _ Ha' Hi').
  - by destruct (available_spec _ _ _ _ Ha Hj').
Qed.

Lemma run_disciplined ls x x' : run ls x = Some x' -> disciplined x -> disciplined x'.
Proof.
  revert x. induction ls as [|l ls IH]; intros x Hr Hs; simpl in Hr; [by simplify_eq|].
  destruct (step l x) as [x1|] eqn:E; [|done]. eapply IH; [done|]. by eapply step_disciplined.
Qed.

(** Task [i] waits in [accept_signal] on a full queue. *)
Definition stuck (i : nat) (t : Task) (l : list SessionEvent) (x : Session) : Prop :=
  (exists w e k, t = Calling (AcceptSignal w) (SendEvent e k)) /\ tasks x !! i = Some t /\
  events (shared x) = l /\ full (shared x) /\ disciplined x.

Lemma stuck_unavailable i t l x c :
  stuck i t l x -> exclusive c = true -> available c (tasks x) = false.
Proof.
  intros ((w & e & k & ->) & Hi & _) Hc. destruct (available c (tasks x)) eqn:E; [|done].
  destruct (available_spec c x i (AcceptSignal w) E) as [? _]; [|congruence].
  unfold working. by rewrite Hi.
Qed.

(** Nobody else can need the session for themselves. *)
Lemma stuck_shares i t l x j tj : stuck i t l x -> i <> j -> tasks x !! j = Some tj -> shares tj.
Proof.
  intros ((w & e & k & ->) & Hi & _ & _ & _ & Hb) Hij Hj c Hc.
  eapply (Hb j i c (AcceptSignal w)); [done| |]; unfold working; [by rewrite Hj|by rewrite Hi].
Qed.

Lemma stuck_step l i t es x x' :
  step l x = Some x' -> stuck i t es x -> l <> Cancel i -> stuck i t es x'.
Proof.
  intros Hs Hst Hl. pose proof (fun c => stuck_unavailable _ _ _ _ c Hst) as Hav.
  assert (Hn : forall reply, l <> Resume i reply).
  { intros reply ->. destruct Hst as ((w & e & k & ->) & Hi & He & [Hrec Hfull] & _). simpl in Hs.
    rewrite Hi in Hs. simpl in Hs. rewrite Hrec in Hs. simpl in Hs.
    rewrite decide_False in Hs by lia. done. }
  assert (Hi' : tasks x' !! i = Some t) by (eapply step_other; [done|apply Hst|done|done]).
  assert (Hsame : events (shared x') = events (shared x) /\ receiving (shared x') = receiving (shared x)).
  { destruct l as [c|h|j reply|j|]; simpl in Hs.
    - case_match; by simplify_eq.
    - by simplify_eq.
    - destruct (tasks x !! j) as [tj|] eqn:Hj; [|done]. simpl in Hs.
      destruct (resume_task reply tj (shared x)) as [[[s' tj'] ch]|] eqn:R; simplify_eq/=.
      assert (i <> j) by (intros ->; by eapply Hn).
      eapply resume_task_keeps; [exact R| |by eapply stuck_shares|apply Hst].
      destruct Hst as (_ & _ & _ & _ & Hk & _). by eapply Forall_lookup_1.
    - repeat case_match; by simplify_eq.
    - by rewrite Hav in Hs. }
  destruct Hst as (Ht & Hi & He & [Hrec Hfull] & Hd). destruct Hsame as [E1 E2].
  split_and!; [done|done|congruence|split; congruence|by eapply step_disciplined].
Qed.

Lemma stuck_run ls i t es x x' :
  run ls x = Some x' -> stuck i t es x -> Cancel i ∉ ls -> stuck i t es x'.
Proof.
  revert x. induction ls as [|l ls IH]; intros x Hr Hs Hl; simpl in Hr; [by simplify_eq|].
  apply not_elem_of_cons in Hl as [Hl Hls]. destruct (step l x) as [x1|] eqn:E; [|done].
  eapply IH; [done| |done]. eapply stuck_step; [exact E|exact Hs|]. by intros ->.
Qed.

(** C36: a verified close or payload can hang its receiver: a call of
    [accept_signal] that has to report an event while 128 events are queued waits
    for ever, whatever else happens, unless its future is dropped; it shares the
    session, so [try_take_event], which needs it exclusively, cannot be called
    to make room. *)
Theorem accept_signal_hangs s0 ls x i w e k ls' x' :
  run ls (started s0) = Some x ->
  tasks x !! i = Some (Calling (AcceptSignal w) (SendEvent e k)) ->
  length (events (shared x)) = ENGINE_EVENT_CAPACITY -> receiving (shared x) = true ->
  run ls' x = Some x' -> Cancel i ∉ ls' ->
  tasks x' !! i = Some (Calling (AcceptSignal w) (SendEvent e k)) /\
  events (shared x') = events (shared x) /\ available TryTakeEvent (tasks x') = false.
Proof.
  intros Hr Hi Hfull Hrec Hr' Hc.
  assert (Hst : stuck i (Calling (AcceptSignal w) (SendEvent e k)) (events (shared x)) x).
  { split_and!; [by eexists _, _, _|done|done|done|]. eapply run_disciplined; [exact Hr|].
    split; [constructor|]. by intros i1 j1 c1 c2 _. }
  pose proof (stuck_run _ _ _ _ _ _ Hr' Hst Hc) as Hst'. split_and!; [apply Hst'..|].
  by eapply stuck_unavailable.
Qed.

(** C37: the control pump is silent about the end of a session: a verified close
    that arrives on the control channel closes the connection, but no event is
    reported and the peer connection stays open; and a message the connection
    refuses ends the pump, again without an event. *)
Theorem control_close_unreported (reply : forall c, Reply c) ch (s : Shared) w c' :
  reply (ChannelPoll ch) = Some (OnMessage w) ->
  let two := '(s1, m1, _) ← resume reply (control_pump ch) s; resume reply m1 s1 in
  (forall reason, apply_event (ControlBinary w) (connection s) = (c', Ok [CloseTransport reason]) ->
     two = Some (set_connection c' s, Return true, None)) /\
  (forall er, apply_event (ControlBinary w) (connection s) = (c', Err er) ->
     two = Some (set_connection c' s, Return false, None)).
Proof.
  intros Hp. unfold control_pump, await. simpl. rewrite Hp. simpl.
  split; intros y Hy; cbn [apply_event] in Hy; by rewrite Hy.
Qed.

(** Runs, one step at a time. *)
Lemma run_begin c ls x :
  receiving (shared x) && available c (tasks x) = true ->
  run (Begin c :: ls) x = run ls (add_task (Calling c (program c)) x).
Proof. intros Ha. simpl. by rewrite Ha. Qed.

Lemma run_invoke h ls x : run (Invoke h :: ls) x = run ls (add_task (Handling (handler h)) x).
Proof. done. Qed.

Lemma run_resume i reply ls x t s' t' :
  tasks x !! i = Some t -> resume_task reply t (shared x) = Some (s', t', None) ->
  run (Resume i reply :: ls) x = run ls {| shared := s'; tasks := <[i := t']> (tasks x) |}.
Proof. intros Ht Hr. simpl. rewrite Ht. simpl. rewrite Hr. simpl. by rewrite app_nil_r. Qed.

#[local] Arguments dtls_fingerprint : simpl never.
#[local] Arguments str_bytes : simpl never.

(** The schedule in which the engine reports a candidate after it has set the
    local description and before [answer] signs it. *)
Definition candidate_first (reply : forall c, Reply c) (ic : RTCIceCandidate) : list Label :=
  [Begin Answer; Resume 0 reply; Resume 0 reply;
   Invoke (OnIceCandidate ic); Resume 1 reply; Resume 1 reply; Resume 1 reply] ++
  replicate 6 (Resume 0 reply).

(** C35: [answer] can return a candidate in place of the answer: when the engine
    reports a local candidate once the local description is set, the connection
    already accepts it as one for the offer; its envelope is queued first, the
    call returns it as its result and leaves the answer in the queue. *)
Theorem answer_returns_candidate (s : Shared) (reply : forall c, Reply c) ic d1 d fp j v o :
  receiving s = true -> signals s = [] -> staged_candidates s = [] ->
  endpoint (signer s) = Connection.local (connection s) ->
  Connection.phase (connection s) = OfferReceived ->
  Connection.negotiation (connection s) = Some {| offer := o; answer_id := None |} ->
  reply CreateAnswer = Ok d1 -> reply (SetLocalDescription d1) = Ok tt ->
  reply LocalDescription = Some d ->
  dtls_fingerprint (str_bytes (sdp d)) = Ok fp -> to_json ic = Ok j -> candidate_to_vec j = Some v ->
  let bc := BCandidate o (candidate_sequence s) v in
  let ba := BAnswer o (WebRtcBinding.derive (str_bytes (sdp d)) fp) (str_bytes (sdp d)) in
  Body_validate bc = Ok tt -> Body_validate ba = Ok tt ->
  exists x, run (candidate_first reply ic) (started s) = Some x /\
    tasks x !! 0%nat = Some (Calling Answer (Return (Signaled
      (Ok (SignalEvent_new (Connection.outgoing (signer s) bc (connection s))))))) /\
    signals (shared x) = [SignalEvent_new (Connection.outgoing (signer s) ba (connection s))].
Proof.
  intros Hrec Hsig Hst Hsg Hph Hneg Hd1 Hset Hd Hfp Hj Hv bc ba Hbc Hba.
  assert (Hc : Connection.candidate (signer s) (candidate_sequence s) v (connection s) =
    (connection s, Ok (Send (Connection.outgoing (signer s) bc (connection s))))).
  { apply Connection.candidate_ok. rewrite Hph. eauto 10. }
  assert (Ha : exists c', Connection.answer (signer s) (WebRtcBinding.derive (str_bytes (sdp d)) fp)
      (str_bytes (sdp d)) (connection s) =
    (c', Ok (Send (Connection.outgoing (signer s) ba (connection s))))).
  { eexists. apply Connection.answer_ok. eauto 10. }
  destruct Ha as [c' Ha].
  unfold candidate_first. cbn [app replicate].
  erewrite run_begin by (simpl; rewrite Hrec; reflexivity).
  erewrite run_resume; [|reflexivity|simpl; rewrite Hd1; reflexivity].
  erewrite run_resume; [|reflexivity|simpl; rewrite Hset; reflexivity].
  erewrite run_invoke. cbn [handler]. unfold on_ice_candidate. rewrite Hj, Hv.
  erewrite run_resume; [|reflexivity|simpl; reflexivity].
  erewrite run_resume; [|reflexivity|simpl; rewrite Hc; reflexivity].
  erewrite run_resume; [|reflexivity|simpl; rewrite Hrec, Hsig; reflexivity].
  erewrite run_resume; [|reflexivity|simpl; rewrite Hd; unfold tbind, pure; simpl; rewrite Hfp; reflexivity].
  erewrite run_resume; [|reflexivity|simpl; rewrite Ha; reflexivity].
  erewrite run_resume; [|reflexivity|simpl; rewrite Hrec; reflexivity].
  erewrite run_resume; [|reflexivity|simpl; rewrite Hst; reflexivity].
  erewrite run_resume; [|reflexivity|reflexivity].
  erewrite run_resume; [|reflexivity|reflexivity].
  eexists. split; [reflexivity|]. by split.
Qed.

End peering.
End Peering.

(** ** Concrete sessions *)
Module PeeringExamples.
Import WebRtcRsSession Peering.

#[local] Existing Instance Sample.crypto.
#[local] Existing Instance Sample.crypto_laws.

(** An engine whose descriptions are texts and whose candidates are bytes. *)
#[local] Instance engine : Engine := {
  EngineError := unit;
  DataChannel := nat;
  RTCIceCandidate := bytes;
  RTCIceCandidateInit := bytes;
  RTCSessionDescription := str;
  sdp text := text;
  parse_offer := Ok;
  parse_answer := Ok;
  to_json := Ok;
  candidate_to_vec := Some;
  candidate_from_slice := Some;
}.

Definition text : str := lit "v=0" ++ [13; 10] ++ lit "a=fingerprint:sha-256 AB" ++ [13; 10].

(** It agrees to everything and polls a given event. *)
Definition reply (polled : option DataChannelEvent) (c : EngineCall) : Reply c :=
  match c with
  | CreateDataChannel _ _ => Ok 0%nat
  | CreateOffer | CreateAnswer => Ok text
  | LocalDescription => Some text
  | ChannelLabel _ => Ok (lit (Conn.label CONTROL_CHANNEL))
  | ChannelProtocol _ => Ok (lit (Conn.protocol CONTROL_CHANNEL))
  | ChannelOrdered _ => Ok true
  | ChannelMaxPacketLifeTime _ | ChannelMaxRetransmits _ => Ok None
  | ChannelPoll _ => polled
  | SetLocalDescription _ | SetRemoteDescription _ | AddIceCandidate _ | ClosePeer
  | ChannelClose _ | ChannelSend _ _ => Ok tt
  end.

Definition go (i n : nat) : list Label := replicate n (Resume i (reply None)).
Definition poll (i n : nat) (e : DataChannelEvent) : list Label := replicate n (Resume i (reply (Some e))).

(** The session of endpoint [x04] with endpoint [x03], and an envelope of the
    latter. *)
Definition bob : Shared :=
  {| connection := Connection.Examples.idle x04 x03; signer := Sample.signer x04; signals := [];
     events := []; control := None; candidate_sequence := @UInt 32 0 eq_refl;
     staged_candidates := []; terminal := false; receiving := true |}.

Lemma bob_new :
  new (Sample.federation x01) (Sample.attempt x02) (Sample.signer x04) (Sample.identity x03) (Ok tt)
  = Ok bob.
Proof. unfold new. rewrite Sample.identity_signer, Connection.Examples.new_idle by done. done. Qed.

Definition wire (b : Body) : bytes :=
  match Envelope.encode (Connection.outgoing (Sample.signer x03) b (Connection.Examples.idle x03 x04)) with
  | Ok w => w
  | Err _ => []
  end.

Definition fingerprint : bytes := str_bytes (lit "sha-256 AB").
Definition offer_body : Body :=
  BOffer (WebRtcBinding.derive (str_bytes text) fingerprint) (str_bytes text).

Definition after (ls : list Label) : Session := default (started bob) (run ls (started bob)).

Lemma run_after ls : match run ls (started bob) with Some _ => true | None => false end = true ->
  run ls (started bob) = Some (after ls).
Proof. unfold after. by destruct (run ls (started bob)). Qed.

Definition task (i : nat) (x : Session) : Task := default Cancelled (tasks x !! i).

Lemma task_at i x : (i <? length (tasks x))%nat = true -> tasks x !! i = Some (task i x).
Proof.
  intros Hi%Nat.ltb_lt. unfold task. by destruct (lookup_lt_is_Some_2 _ _ Hi) as [t ->].
Qed.

(** The offer is accepted, up to the call that hands it to the engine. *)
Definition offered : list Label := [Begin (AcceptSignal (wire offer_body))] ++ go 0 1.

Lemma offered_runs : run offered (started bob) = Some (after offered).
Proof. apply run_after. vm_compute. reflexivity. Qed.

Lemma offered_task : tasks (after offered) !! 0%nat = Some (task 0 (after offered)).
Proof. apply task_at. vm_compute. reflexivity. Qed.

Lemma engine_calls_authentic_witness :
  task_call (task 0 (after offered)) = Some (SetRemoteDescription text) /\
  remote_description (connection bob) text.
Proof.
  assert (Hc : task_call (task 0 (after offered)) = Some (SetRemoteDescription text)).
  { vm_compute. reflexivity. }
  split; [exact Hc|].
  exact (engine_calls_authentic _ _ _ _ _ _ _ _ _ _ _ bob_new offered_runs offered_task Hc).
Defined.

Lemma session_refines_connection_witness :
  (exists log, Connection.reaches (S := SigningIdentity) (connection bob) log
     (connection (shared (after offered)))) /\
  Connection.phase (connection (shared (after offered))) = OfferReceived.
Proof.
  split; [|vm_compute; reflexivity].
  exact (proj1 (proj2 (session_refines_connection _ _ _ _ _ _ _ _ bob_new offered_runs))).
Defined.

Lemma task_busy i x : match busy (task i x) with Some _ => true | None => false end = true ->
  exists c m, task i x = Calling c m /\ finished m = false.
Proof.
  destruct (task i x) as [c m| | |]; simpl; try done. destruct (finished m) eqn:E; [done|]. eauto.
Qed.

Lemma session_calls_return_witness :
  (exists x, step (Resume 0 (reply None)) (after offered) = Some x) /\
  (exists x, run (go 0 1) (after offered) = Some x) /\ (resumes 0 (go 0 1) <= 272)%nat.
Proof.
  destruct (task_busy 0%nat (after offered)) as (c & m & Ht & Hm); [vm_compute; reflexivity|].
  destruct (session_calls_return _ _ _ _ _ _ _ _ 0%nat c m bob_new offered_runs
    (eq_trans offered_task (f_equal Some Ht))) as [Hs Hp].
  assert (Hl : ((length (events (shared (after offered))) <? 128) = true /\
    (length (signals (shared (after offered))) <? 128) = true)%nat) by (vm_compute; split; reflexivity).
  destruct Hl as [He%Nat.ltb_lt Hg%Nat.ltb_lt].
  destruct (Hp Hm He Hg (reply None)) as [x Hx].
  assert (Hr : run (go 0 1) (after offered) = Some x).
  { change (step (Resume 0 (reply None)) (after offered) ≫= run [] = Some x). rewrite Hx. reflexivity. }
  split; [exists x; exact Hx|]. split; [exists x; exact Hr|]. exact (Hs _ _ Hr).
Defined.

(** The engine reports 70 candidates before there is anything to negotiate. *)
Definition early : list Label :=
  seq 0 70 ≫= fun i => [Invoke (OnIceCandidate [x01])] ++ go i 3.

Lemma early_runs : run early (started bob) = Some (after early).
Proof. apply run_after. vm_compute. reflexivity. Qed.

Lemma session_queues_bounded_witness :
  length (tasks (after early)) = 70%nat /\
  (length (staged_candidates (shared (after early))) <= 64)%nat.
Proof.
  split; [vm_compute; reflexivity|].
  exact (proj1 (proj2 (proj2 (session_queues_bounded _ _ _ _ _ _ _ _ bob_new early_runs)))).
Defined.

(** The engine fails twice, and the application takes what it learns. *)
Definition failed : list Label :=
  [Invoke (OnConnectionStateChange true); Invoke (OnConnectionStateChange true)] ++
  go 1 2 ++ go 0 1 ++ [Begin TryTakeEvent] ++ go 2 1.

Lemma failed_runs : run failed (started bob) = Some (after failed).
Proof. apply run_after. vm_compute. reflexivity. Qed.

Lemma session_ends_once_witness :
  tasks (after failed) ≫= taken_by = [SessionFailed] /\
  (length (filter (fun e => is_terminal e = true)
     ((tasks (after failed) ≫= taken_by) ++ events (shared (after failed)))) <= 1)%nat.
Proof.
  split; [vm_compute; reflexivity|].
  exact (session_ends_once _ _ _ _ _ _ _ _ bob_new failed_runs).
Defined.

(** An established session whose queue of events is full receives a close, and
    the engine goes on. *)
Definition established : Connection.t :=
  Connection.Examples.conn x04 x03 Established (Some Connection.Examples.both) [].
Definition flooded : Shared :=
  set_events (replicate 128 SessionConnected) (set_connection established bob).
Definition close_wire : bytes := wire (BClose CloseCode_NORMAL).
Definition hang : list Label := [Begin (AcceptSignal close_wire)] ++ go 0 2.
Definition hanging : Session := default (started bob) (run hang (started flooded)).
Definition later : list Label := [Invoke (OnIceCandidate [x01])] ++ go 1 3.

Lemma hangs : exists w e k, run hang (started flooded) = Some hanging /\
  tasks hanging !! 0%nat = Some (Calling (AcceptSignal w) (SendEvent e k)) /\
  length (events (shared hanging)) = ENGINE_EVENT_CAPACITY /\ receiving (shared hanging) = true /\
  match run later hanging with Some _ => true | None => false end = true.
Proof.
  assert (Hr : match run hang (started flooded) with
    | Some x => match tasks x !! 0%nat with
        | Some (Calling (AcceptSignal _) (SendEvent _ _)) => true | _ => false end &&
      bool_decide (length (events (shared x)) = ENGINE_EVENT_CAPACITY) && receiving (shared x) &&
      match run later x with Some _ => true | None => false end
    | None => false end = true) by (vm_compute; reflexivity).
  unfold hanging. destruct (run hang (started flooded)) as [x|]; [|done]. simpl.
  apply andb_true_iff in Hr as [[[Ht Hl%bool_decide_eq_true]%andb_true_iff Hrec]%andb_true_iff Hl'].
  destruct (tasks x !! 0%nat) as [[[| w| | | | | |] [| | |e k| |]| | |]|]; try done.
  exists w, e, k. done.
Qed.

Lemma accept_signal_hangs_witness :
  exists x, run later hanging = Some x /\ events (shared x) = events (shared hanging) /\
    available TryTakeEvent (tasks x) = false.
Proof.
  destruct hangs as (w & e & k & Hr & Ht & Hl & Hrec & Hlater).
  destruct (run later hanging) as [x|] eqn:E; [|discriminate Hlater]. exists x. split; [reflexivity|].
  refine (proj2 (accept_signal_hangs _ _ _ _ w e k later x Hr Ht Hl Hrec E _)).
  unfold later, go. cbn [app replicate]. rewrite !not_elem_of_cons.
  repeat split; [intros Hn; discriminate Hn..|apply not_elem_of_nil].
Defined.

Lemma control_close_unreported_witness :
  ('(s1, m1, _) ← resume (reply (Some (OnMessage close_wire))) (control_pump 0%nat) flooded;
   resume (reply (Some (OnMessage close_wire))) m1 s1) =
  Some (set_connection (fst (apply_event (ControlBinary close_wire) established)) flooded,
        Return true, None).
Proof.
  refine (proj1 (control_close_unreported (reply (Some (OnMessage close_wire))) 0%nat flooded close_wire
    (fst (apply_event (ControlBinary close_wire) established)) eq_refl) CloseCode_NORMAL _).
  assert (Hs : bool_decide (snd (apply_event (ControlBinary close_wire) established) =
    Ok [CloseTransport CloseCode_NORMAL]) = true) by (vm_compute; reflexivity).
  change (connection flooded) with established.
  rewrite <- (bool_decide_eq_true_1 _ Hs). apply surjective_pairing.
Defined.

(** The offer is with the engine and the application answers. *)
Definition offered_bob : Shared := shared (after offered).

Lemma answer_returns_candidate_witness :
  exists x e, run (candidate_first (reply None) [x01]) (started offered_bob) = Some x /\
    tasks x !! 0%nat = Some (Calling Answer (Return (Signaled (Ok (SignalEvent_new e))))) /\
    length (signals (shared x)) = 1%nat.
Proof.
  assert (Hn : exists o, Connection.negotiation (connection offered_bob) =
    Some {| offer := o; answer_id := None |}).
  { assert (Hb : match Connection.negotiation (connection offered_bob) with
      | Some {| offer := _; answer_id := None |} => true | _ => false end = true) by (vm_compute; reflexivity).
    destruct (Connection.negotiation (connection offered_bob)) as [[o [a|]]|]; try done. by exists o. }
  destruct Hn as [o Hn].
  assert (Hv : receiving offered_bob = true /\ signals offered_bob = [] /\
    staged_candidates offered_bob = [] /\
    bool_decide (endpoint (signer offered_bob) = Connection.local (connection offered_bob)) = true /\
    Connection.phase (connection offered_bob) = OfferReceived /\
    dtls_fingerprint (str_bytes text) = Ok fingerprint) by (vm_compute; split_and!; reflexivity).
  destruct Hv as (H1 & H2 & H3 & H4%bool_decide_eq_true & H5 & H6).
  destruct (answer_returns_candidate offered_bob (reply None) [x01] text text fingerprint [x01] [x01] o
    H1 H2 H3 H4 H5 Hn eq_refl eq_refl eq_refl H6 eq_refl eq_refl eq_refl eq_refl) as (x & Hr & Ht & Hs).
  eexists x, _. split; [exact Hr|]. split; [exact Ht|]. rewrite Hs. reflexivity.
Defined.

End PeeringExamples.
