(* ===== verification/Abi.v ===== *)
(** * The C ABI

    [crates/libfcp-ffi/src]: handles, borrowed and owned byte buffers, statuses
    and the functions exported to C.  Memory is explicit: [None] is undefined
    behaviour, the access to memory that is not there, and an address is never
    used twice.  The locks guard no code that panics, so none is ever poisoned;
    a failing allocation aborts the process and is left out. *)

From Stdlib Require Import ZArith Lia String.
From stdpp Require Import base list option numbers decidable sets gmap.
From S2P Require Import Prelude Bytes BTree Types Identity Sample Wire Codec Conn Config Client.

(** ** Statuses *)
Abbreviation FcpStatus := Z.
Definition FCP_STATUS_OK : FcpStatus := 0.
Definition FCP_STATUS_INVALID_ARGUMENT : FcpStatus := 1.
Definition FCP_STATUS_TOO_LARGE : FcpStatus := 3.
Definition FCP_STATUS_PROTOCOL : FcpStatus := 4.
Definition FCP_STATUS_CONFIGURATION : FcpStatus := 5.
Definition FCP_STATUS_NO_ACTION : FcpStatus := 6.
Definition FCP_STATUS_PANIC : FcpStatus := 8.
Definition FCP_STATUS_INTERNAL : FcpStatus := 9.

Definition status_from_core (_ : Error) : FcpStatus := FCP_STATUS_PROTOCOL.

Definition status_from_client (error : ClientError) : FcpStatus :=
  match error with
  | Fcp error => status_from_core error
  | ClientWrongFederation | WrongAuthority | StaleConfiguration | MissingLocalMember
  | WrongLocalEndpoint => FCP_STATUS_CONFIGURATION
  | MissingBinding | MissingConnection | MismatchedConnection => FCP_STATUS_INTERNAL
  end.

(** ** Records that cross the boundary *)
Abbreviation loc := N.

Record FcpByteSlice : Type := { slice_data : option loc; slice_len : Z }.

Record FcpOwnedBuffer : Type := { data : option loc; len : Z }.
Definition FcpOwnedBuffer_default : FcpOwnedBuffer := {| data := None; len := 0 |}.

Record FcpConnectionOptions : Type := {
  option_federation : FcpByteSlice;
  option_attempt : FcpByteSlice;
  option_remote_endpoint : FcpByteSlice;
}.

Record FcpClientOptions : Type := {
  client_federation : FcpByteSlice;
  client_authority : FcpByteSlice;
  client_cfr_identity : FcpByteSlice;
  client_endpoint : FcpByteSlice;
}.

Definition zero32 : array 32 := array_fill 32 x00.
Definition zero_u32 : u32 := @UInt 32 0 eq_refl.
Definition zero_u16 : u16 := @UInt 16 0 eq_refl.

Record FcpAction : Type := {
  kind : Z;
  binding : array 32;
  sequence : u32;
  close_code : u16;
  envelope_id : array 32;
  remote_endpoint : FcpOwnedBuffer;
  action_payload : FcpOwnedBuffer;
}.

Definition FcpAction_default : FcpAction :=
  {| kind := 0; binding := zero32; sequence := zero_u32; close_code := zero_u16;
     envelope_id := zero32; remote_endpoint := FcpOwnedBuffer_default;
     action_payload := FcpOwnedBuffer_default |}.

Record QueuedAction : Type := {
  queued_kind : Z;
  queued_binding : array 32;
  queued_sequence : u32;
  queued_close_code : u16;
  queued_envelope_id : array 32;
  queued_remote_endpoint : option EndpointIdentity;
  queued_payload : bytes;
}.

Definition plain (kind : Z) (payload : bytes) : QueuedAction :=
  {| queued_kind := kind; queued_binding := zero32; queued_sequence := zero_u32;
     queued_close_code := zero_u16; queued_envelope_id := zero32; queued_remote_endpoint := None;
     queued_payload := payload |}.

Definition phase_code (phase : Phase) : Z :=
  match phase with
  | Idle => 0
  | OfferSent => 1
  | OfferReceived => 2
  | AnswerSent => 3
  | AnswerReceived => 4
  | Established => 5
  | Closed => 6
  end.

Module Abi.
Section abi.
Context `{Cfr, Crypto}.

(** The value of an action for the queue; [kind] is its [FCP_ACTION_*] code. *)
Definition queued_action (action : Action) : result FcpStatus QueuedAction :=
  match action with
  | Send envelope =>
      let? payload := map_err status_from_core (Envelope.encode envelope) in
      Ok (plain 1 payload)
  | ApplyOffer b description =>
      Ok {| queued_kind := 2; queued_binding := binding_as_bytes b; queued_sequence := zero_u32;
            queued_close_code := zero_u16; queued_envelope_id := zero32;
            queued_remote_endpoint := None; queued_payload := description |}
  | ApplyAnswer b description =>
      Ok {| queued_kind := 3; queued_binding := binding_as_bytes b; queued_sequence := zero_u32;
            queued_close_code := zero_u16; queued_envelope_id := zero32;
            queued_remote_endpoint := None; queued_payload := description |}
  | AddCandidate sequence candidate =>
      Ok {| queued_kind := 4; queued_binding := zero32; queued_sequence := sequence;
            queued_close_code := zero_u16; queued_envelope_id := zero32;
            queued_remote_endpoint := None; queued_payload := candidate |}
  | OpenControlChannel => Ok (plain 5 [])
  | DeliverCfr id remote payload =>
      Ok {| queued_kind := 6; queued_binding := zero32; queued_sequence := zero_u32;
            queued_close_code := zero_u16; queued_envelope_id := envelope_id_as_bytes id;
            queued_remote_endpoint := Some remote; queued_payload := payload |}
  | CloseTransport reason =>
      Ok {| queued_kind := 7; queued_binding := zero32; queued_sequence := zero_u32;
            queued_close_code := close_code_as_u16 reason; queued_envelope_id := zero32;
            queued_remote_endpoint := None; queued_payload := [] |}
  end.

Record ConnectionState : Type := {
  connection : Connection.t;
  state_signer : SigningIdentity;
  actions : list QueuedAction;
}.

(** ** Memory

    What the caller may read, and the boxes FCP has handed out. *)
Record World : Type := {
  foreign : gmap loc bytes;
  buffers : gmap loc bytes;
  signers : gmap loc SigningIdentity;
  clients : gmap loc FederationClient.t;
  connections : gmap loc ConnectionState;
  next : loc;
}.

Definition set_buffers (m : gmap loc bytes) (w : World) : World :=
  {| foreign := foreign w; buffers := m; signers := signers w; clients := clients w;
     connections := connections w; next := next w |}.
Definition set_signers (m : gmap loc SigningIdentity) (w : World) : World :=
  {| foreign := foreign w; buffers := buffers w; signers := m; clients := clients w;
     connections := connections w; next := next w |}.
Definition set_clients (m : gmap loc FederationClient.t) (w : World) : World :=
  {| foreign := foreign w; buffers := buffers w; signers := signers w; clients := m;
     connections := connections w; next := next w |}.
Definition set_connections (m : gmap loc ConnectionState) (w : World) : World :=
  {| foreign := foreign w; buffers := buffers w; signers := signers w; clients := clients w;
     connections := m; next := next w |}.
Definition bump (w : World) : World :=
  {| foreign := foreign w; buffers := buffers w; signers := signers w; clients := clients w;
     connections := connections w; next := N.succ (next w) |}.

(** ** Calls *)
Inductive Exit : Type :=
| Status (s : FcpStatus)
| Panicked.

Definition Call (A : Type) : Type := World -> option (World * result Exit A).

Definition cret {A} (a : A) : Call A := fun w => Some (w, Ok a).
Definition cfail {A} (s : FcpStatus) : Call A := fun w => Some (w, Err (Status s)).
Definition cpanic {A} : Call A := fun w => Some (w, Err Panicked).
Definition undefined {A} : Call A := fun _ => None.
Definition clift {A} (r : result FcpStatus A) : Call A := fun w => Some (w, map_err Status r).
Definition cbind {A B} (m : Call A) (k : A -> Call B) : Call B :=
  fun w =>
    match m w with
    | Some (w', Ok a) => k a w'
    | Some (w', Err e) => Some (w', Err e)
    | None => None
    end.

Notation "'do^' x <- m ; k" := (cbind m (fun x => k))
  (at level 10, x pattern, m at level 100, k at level 200).

(** Running a call: the memory it leaves, its status and what it wrote to its
    output, which happens last. *)
Definition ffi_status {A} (operation : Call A) (w : World) : option (World * FcpStatus * option A) :=
  match operation w with
  | Some (w', Ok a) => Some (w', FCP_STATUS_OK, Some a)
  | Some (w', Err (Status s)) => Some (w', s, None)
  | Some (w', Err Panicked) => Some (w', FCP_STATUS_PANIC, None)
  | None => None
  end.

(** A non-null handle is a box that exists. *)
Definition required_handle {T} (table : World -> gmap loc T) (handle : option loc) : Call (loc * T) :=
  match handle with
  | None => cfail FCP_STATUS_INVALID_ARGUMENT
  | Some p => fun w => match table w !! p with Some x => Some (w, Ok (p, x)) | None => None end
  end.

(** An output pointer is null or points to storage of the caller. *)
Definition required_out (out : bool) : Call unit :=
  if out then cret tt else cfail FCP_STATUS_INVALID_ARGUMENT.

Definition borrowed_bytes (input : FcpByteSlice) : Call bytes :=
  if decide (slice_len input = 0) then cret [] else
  match slice_data input with
  | None => cfail FCP_STATUS_INVALID_ARGUMENT
  | Some p => fun w =>
      match foreign w !! p with
      | Some l => if decide (slice_len input <= blen l)
                  then Some (w, Ok (take (Z.to_nat (slice_len input)) l)) else None
      | None => None
      end
  end.

Definition copy_bounded (input : FcpByteSlice) (maximum : Z) : Call bytes :=
  if decide (maximum < slice_len input) then cfail FCP_STATUS_TOO_LARGE else borrowed_bytes input.

Definition fixed (n : Z) (input : FcpByteSlice) : Call (array n) :=
  do^ l <- borrowed_bytes input;
  match array_try n l with
  | Some a => cret a
  | None => cfail FCP_STATUS_INVALID_ARGUMENT
  end.

(** Both [copy_from_slice] panic on a length that does not match. *)
Definition endpoint_identity (input : FcpByteSlice) : Call EndpointIdentity :=
  do^ l <- fixed 1984 input;
  match array_try 32 (take 32 (abytes l)), array_try 1952 (drop 32 (abytes l)) with
  | Some classical, Some post_quantum =>
      cret (EndpointIdentity_new (EndpointKey_from_bytes classical) post_quantum)
  | _, _ => cpanic
  end.

Definition owned_buffer (l : bytes) : Call FcpOwnedBuffer :=
  match l with
  | [] => cret FcpOwnedBuffer_default
  | _ => fun w =>
      Some (bump (set_buffers (<[next w := l]> (buffers w)) w),
            Ok {| data := Some (next w); len := blen l |})
  end.

Definition endpoint_buffer (endpoint : EndpointIdentity) : Call FcpOwnedBuffer :=
  owned_buffer (identity_bytes endpoint).

(** The record a pointer leads to is reset before its box is dropped.  [None] in
    place of a record is the null pointer. *)
Definition fcp_buffer_free (buffer : option FcpOwnedBuffer) (w : World) :
    option (World * option FcpOwnedBuffer) :=
  match buffer with
  | None => Some (w, None)
  | Some old =>
      match (if decide (len old = 0) then None else data old) with
      | None => Some (w, Some FcpOwnedBuffer_default)
      | Some p =>
          match buffers w !! p with
          | Some l => if decide (len old = blen l)
                      then Some (set_buffers (delete p (buffers w)) w, Some FcpOwnedBuffer_default)
                      else None
          | None => None
          end
      end
  end.

Definition fcp_action_free (action : option FcpAction) (w : World) : option (World * option FcpAction) :=
  match action with
  | None => Some (w, None)
  | Some a =>
      '(w, _) ← fcp_buffer_free (Some (remote_endpoint a)) w;
      '(w, _) ← fcp_buffer_free (Some (action_payload a)) w;
      Some (w, Some FcpAction_default)
  end.

(** A slot is null, or holds a handle that may be null. *)
Definition free_handle {T} (table : World -> gmap loc T) (put : gmap loc T -> World -> World)
    (slot : option (option loc)) (w : World) : option (World * option (option loc)) :=
  match slot with
  | None => Some (w, None)
  | Some None => Some (w, Some None)
  | Some (Some p) =>
      match table w !! p with
      | Some _ => Some (put (delete p (table w)) w, Some None)
      | None => None
      end
  end.

(** ** Signers *)

(** The keys are derived from seeds of the operating system's generator, which
    panics when it has none. *)
Definition fcp_signer_generate (drawn : option SigningIdentity) (out : bool) :
    World -> option (World * FcpStatus * option loc) :=
  ffi_status (
    do^ _ <- required_out out;
    match drawn with
    | None => cpanic
    | Some signer => fun w =>
        Some (bump (set_signers (<[next w := signer]> (signers w)) w), Ok (next w))
    end).

Definition fcp_signer_public_identity (signer : option loc) (out : bool) :
    World -> option (World * FcpStatus * option FcpOwnedBuffer) :=
  ffi_status (
    do^ (_, signer) <- required_handle signers signer;
    do^ _ <- required_out out;
    endpoint_buffer (endpoint signer)).

Definition fcp_signer_free (signer : option (option loc)) : World -> option (World * option (option loc)) :=
  free_handle signers set_signers signer.

(** ** Configuration clients *)
Definition fcp_client_create (options : FcpClientOptions) (out : bool) :
    World -> option (World * FcpStatus * option loc) :=
  ffi_status (
    do^ federation <- fixed 32 (client_federation options);
    do^ authority <- endpoint_identity (client_authority options);
    do^ identity <- fixed 32 (client_cfr_identity options);
    do^ endpoint <- endpoint_identity (client_endpoint options);
    do^ _ <- required_out out;
    let policy := {| policy_federation := FederationId_from_bytes federation;
                     policy_authority := authority;
                     local_cfr_identity := SigPublic_from_bytes identity;
                     local_endpoint := endpoint |} in
    fun w => Some (bump (set_clients (<[next w := FederationClient.new policy]> (clients w)) w),
                   Ok (next w))).

Definition fcp_client_apply_configuration (client : option loc) (configuration : FcpByteSlice) :
    World -> option (World * FcpStatus * option unit) :=
  ffi_status (
    do^ (p, client) <- required_handle clients client;
    do^ configuration <- copy_bounded configuration MAX_ENVELOPE_BYTES;
    match SignedFederationConfiguration.decode_verified configuration with
    | None => cpanic
    | Some (Err e) => cfail (status_from_core e)
    | Some (Ok configuration) => fun w =>
        let '(client', r) := FederationClient.apply_configuration configuration client in
        Some (set_clients (<[p := client']> (clients w)) w, map_err (fun e => Status (status_from_client e)) r)
    end).

(** The epoch, or zero, and whether there is one. *)
Definition fcp_client_accepted_epoch (client : option loc) (out_epoch out_present : bool) :
    World -> option (World * FcpStatus * option (Z * Z)) :=
  ffi_status (
    do^ (_, client) <- required_handle clients client;
    do^ _ <- required_out out_epoch;
    do^ _ <- required_out out_present;
    match FederationClient.accepted_epoch client with
    | Some epoch => cret (uval epoch, 1)
    | None => cret (0, 0)
    end).

Definition fcp_client_free (client : option (option loc)) : World -> option (World * option (option loc)) :=
  free_handle clients set_clients client.

(** ** Connections *)
Fixpoint queue_actions (l : list Action) : M ConnectionState FcpStatus unit :=
  match l with
  | [] => ret tt
  | action :: l =>
      do q <- lift (queued_action action);
      do_ modify (fun s => {| connection := connection s; state_signer := state_signer s;
                              actions := actions s ++ [q] |});
      queue_actions l
  end.

(** A method of the connection of a state. *)
Definition core {A} (m : SigningIdentity -> Connection.C A) : M ConnectionState FcpStatus A :=
  fun s =>
    let '(c, r) := m (state_signer s) (connection s) in
    ({| connection := c; state_signer := state_signer s; actions := actions s |},
     map_err status_from_core r).

(** Code that runs under the lock of the connection at [p]. *)
Definition locked {A} (p : loc) (m : M ConnectionState FcpStatus A) : Call A := fun w =>
  match connections w !! p with
  | Some s => let '(s', r) := m s in
              Some (set_connections (<[p := s']> (connections w)) w, map_err Status r)
  | None => None
  end.

Definition lock_connection (connection : option loc) : Call loc :=
  do^ (p, _) <- required_handle connections connection; cret p.

Definition fcp_connection_create (signer : option loc) (options : FcpConnectionOptions) (out : bool) :
    World -> option (World * FcpStatus * option loc) :=
  ffi_status (
    do^ (_, signer) <- required_handle signers signer;
    do^ federation <- fixed 32 (option_federation options);
    do^ attempt <- fixed 16 (option_attempt options);
    do^ remote <- endpoint_identity (option_remote_endpoint options);
    do^ _ <- required_out out;
    do^ connection <- clift (map_err status_from_core
      (Connection.new (FederationId_from_bytes federation) (AttemptId_from_bytes attempt)
         (endpoint signer) remote));
    fun w =>
      Some (bump (set_connections (<[next w := {| connection := connection; state_signer := signer;
                                                  actions := [] |}]> (connections w)) w),
            Ok (next w))).

Definition fcp_connection_begin_offer (handle : option loc) (binding description : FcpByteSlice) :
    World -> option (World * FcpStatus * option unit) :=
  ffi_status (
    do^ p <- lock_connection handle;
    do^ binding <- fixed 32 binding;
    do^ description <- copy_bounded description MAX_DESCRIPTION_BYTES;
    locked p (
      do actions <- core (fun signer =>
        Connection.begin_offer signer (WebRtcBinding_from_bytes binding) description);
      queue_actions actions)).

Definition fcp_connection_answer (handle : option loc) (binding description : FcpByteSlice) :
    World -> option (World * FcpStatus * option unit) :=
  ffi_status (
    do^ p <- lock_connection handle;
    do^ binding <- fixed 32 binding;
    do^ description <- copy_bounded description MAX_DESCRIPTION_BYTES;
    locked p (
      do action <- core (fun signer =>
        Connection.answer signer (WebRtcBinding_from_bytes binding) description);
      queue_actions [action])).

Definition fcp_connection_candidate (handle : option loc) (sequence : u32) (candidate : FcpByteSlice) :
    World -> option (World * FcpStatus * option unit) :=
  ffi_status (
    do^ p <- lock_connection handle;
    do^ candidate <- copy_bounded candidate MAX_CANDIDATE_BYTES;
    locked p (
      do action <- core (fun signer => Connection.candidate signer sequence candidate);
      queue_actions [action])).

Definition fcp_connection_cfr_control (handle : option loc) (payload : FcpByteSlice) :
    World -> option (World * FcpStatus * option unit) :=
  ffi_status (
    do^ p <- lock_connection handle;
    do^ payload <- copy_bounded payload MAX_CFR_CONTROL_BYTES;
    locked p (
      do action <- core (fun signer => Connection.cfr_control signer payload);
      queue_actions [action])).

Definition fcp_connection_close (handle : option loc) (close_code : u16) :
    World -> option (World * FcpStatus * option unit) :=
  ffi_status (
    do^ p <- lock_connection handle;
    locked p (
      do action <- core (fun signer => Connection.close signer (CloseCode_from_u16 close_code));
      queue_actions [action])).

Definition fcp_connection_receive (handle : option loc) (envelope : FcpByteSlice) :
    World -> option (World * FcpStatus * option unit) :=
  ffi_status (
    do^ p <- lock_connection handle;
    do^ envelope <- copy_bounded envelope MAX_ENVELOPE_BYTES;
    do^ envelope <- clift (map_err status_from_core (Envelope.decode_verified envelope));
    locked p (
      do actions <- core (fun _ => Connection.receive envelope);
      queue_actions actions)).

Definition fcp_connection_transport_connected (handle : option loc) :
    World -> option (World * FcpStatus * option unit) :=
  ffi_status (
    do^ p <- lock_connection handle;
    locked p (
      do actions <- core (fun _ => Connection.transport_connected);
      queue_actions actions)).

Definition fcp_connection_transport_failed (handle : option loc) :
    World -> option (World * FcpStatus * option unit) :=
  ffi_status (
    do^ p <- lock_connection handle;
    locked p (core (fun _ => Connection.transport_failed))).

Definition pop_action : M ConnectionState FcpStatus QueuedAction := fun s =>
  match actions s with
  | [] => (s, Err FCP_STATUS_NO_ACTION)
  | a :: l => ({| connection := connection s; state_signer := state_signer s; actions := l |}, Ok a)
  end.

Definition fcp_connection_take_action (handle : option loc) (out : bool) :
    World -> option (World * FcpStatus * option FcpAction) :=
  ffi_status (
    do^ _ <- required_out out;
    do^ p <- lock_connection handle;
    do^ action <- locked p pop_action;
    do^ remote <- match queued_remote_endpoint action with
                  | Some endpoint => endpoint_buffer endpoint
                  | None => cret FcpOwnedBuffer_default
                  end;
    do^ payload <- owned_buffer (queued_payload action);
    cret {| kind := queued_kind action; binding := queued_binding action;
            sequence := queued_sequence action; close_code := queued_close_code action;
            envelope_id := queued_envelope_id action; remote_endpoint := remote;
            action_payload := payload |}).

Definition fcp_connection_phase (handle : option loc) (out : bool) :
    World -> option (World * FcpStatus * option Z) :=
  ffi_status (
    do^ _ <- required_out out;
    do^ (_, s) <- required_handle connections handle;
    cret (phase_code (Connection.phase (connection s)))).

Definition fcp_connection_free (handle : option (option loc)) :
    World -> option (World * option (option loc)) :=
  free_handle connections set_connections handle.

(** ** Stateless verification *)
Definition fcp_envelope_verify (envelope : FcpByteSlice) : World -> option (World * FcpStatus * option unit) :=
  ffi_status (
    do^ envelope <- copy_bounded envelope MAX_ENVELOPE_BYTES;
    do^ _ <- clift (map_err status_from_core (Envelope.decode_verified envelope));
    cret tt).

Definition fcp_configuration_verify (configuration : FcpByteSlice) :
    World -> option (World * FcpStatus * option unit) :=
  ffi_status (
    do^ configuration <- borrowed_bytes configuration;
    match SignedFederationConfiguration.decode_verified configuration with
    | None => cpanic
    | Some (Err e) => cfail (status_from_core e)
    | Some (Ok _) => cret tt
    end).

End abi.
End Abi.
