(* ===== verification/Boundary.v ===== *)
(** * What the C ABI guarantees

    The exported functions carry out the operations of the connection state
    machine and queue its actions, and no sequence of calls through the slots
    they fill, repeated releases included, touches memory that is not there or
    loses a box. *)

From Stdlib Require Import ZArith Lia String.
From stdpp Require Import base list option numbers decidable sets gmap.
From S2P Require Import Prelude Bytes BTree Types Identity Sample Wire Codec Conn Config Client Abi.

Module Boundary.
Import Abi.

Section boundary.
Context `{Cfr, Crypto}.

(** ** Calls on a connection *)
Inductive ConnectionCall : Type :=
| CallBeginOffer (binding description : FcpByteSlice)
| CallAnswer (binding description : FcpByteSlice)
| CallCandidate (sequence : u32) (candidate : FcpByteSlice)
| CallCfrControl (payload : FcpByteSlice)
| CallClose (close_code : u16)
| CallReceive (envelope : FcpByteSlice)
| CallConnected
| CallFailed.

Definition exported (c : ConnectionCall) (h : option loc) : World -> option (World * FcpStatus * option unit) :=
  match c with
  | CallBeginOffer b d => fcp_connection_begin_offer h b d
  | CallAnswer b d => fcp_connection_answer h b d
  | CallCandidate n s => fcp_connection_candidate h n s
  | CallCfrControl s => fcp_connection_cfr_control h s
  | CallClose code => fcp_connection_close h code
  | CallReceive s => fcp_connection_receive h s
  | CallConnected => fcp_connection_transport_connected h
  | CallFailed => fcp_connection_transport_failed h
  end.

(** What a slice holds: undefined, refused or its bytes. *)
Definition contents (f : gmap loc bytes) (s : FcpByteSlice) : option (result FcpStatus bytes) :=
  if decide (slice_len s = 0) then Some (Ok []) else
  match slice_data s with
  | None => Some (Err FCP_STATUS_INVALID_ARGUMENT)
  | Some p => l ← f !! p;
      if decide (slice_len s <= blen l) then Some (Ok (take (Z.to_nat (slice_len s)) l)) else None
  end.

Definition bounded (f : gmap loc bytes) (s : FcpByteSlice) (maximum : Z) : option (result FcpStatus bytes) :=
  if decide (maximum < slice_len s) then Some (Err FCP_STATUS_TOO_LARGE) else contents f s.

Definition exact (n : Z) (f : gmap loc bytes) (s : FcpByteSlice) : option (result FcpStatus (array n)) :=
  let* l := contents f s in Some (ok_or (array_try n l) FCP_STATUS_INVALID_ARGUMENT).

(** The input of the state machine a call stands for. *)
Definition input (f : gmap loc bytes) (sg : SigningIdentity) (c : ConnectionCall) :
    option (result FcpStatus (Connection.Input (S := SigningIdentity))) :=
  match c with
  | CallBeginOffer b d =>
      let* b := exact 32 f b in
      let* d := bounded f d MAX_DESCRIPTION_BYTES in
      Some (Ok (Connection.IBeginOffer sg (WebRtcBinding_from_bytes b) d))
  | CallAnswer b d =>
      let* b := exact 32 f b in
      let* d := bounded f d MAX_DESCRIPTION_BYTES in
      Some (Ok (Connection.IAnswer sg (WebRtcBinding_from_bytes b) d))
  | CallCandidate n s =>
      let* s := bounded f s MAX_CANDIDATE_BYTES in Some (Ok (Connection.ICandidate sg n s))
  | CallCfrControl s =>
      let* s := bounded f s MAX_CFR_CONTROL_BYTES in Some (Ok (Connection.ICfrControl sg s))
  | CallClose code => Some (Ok (Connection.IClose sg (CloseCode_from_u16 code)))
  | CallReceive s =>
      let* s := bounded f s MAX_ENVELOPE_BYTES in
      Some (let? e := map_err status_from_core (Envelope.decode_verified s) in Ok (Connection.IReceive e))
  | CallConnected => Some (Ok Connection.ITransportConnected)
  | CallFailed => Some (Ok Connection.ITransportFailed)
  end.

(** The queue entries of actions. *)
Definition queued (l : list Action) : list QueuedAction := omap (fun a => res_ok (queued_action a)) l.

(** The contract of a call on the connection at [p] in state [s]. *)
Definition connection_outcome (w : World) (p : loc) (s : ConnectionState) (c : ConnectionCall) :
    option (World * FcpStatus * option unit) :=
  match input (foreign w) (state_signer s) c with
  | None => None
  | Some (Err e) => Some (w, e, None)
  | Some (Ok i) =>
      match Connection.run i (connection s) with
      | (c', Ok acts) =>
          Some (set_connections (<[p := {| connection := c'; state_signer := state_signer s;
                                           actions := actions s ++ queued acts |}]> (connections w)) w,
                FCP_STATUS_OK, Some tt)
      | (_, Err _) => Some (w, FCP_STATUS_PROTOCOL, None)
      end
  end.

Lemma borrowed_run s w :
  borrowed_bytes s w = (fun r => (w, map_err Status r)) <$> contents (foreign w) s.
Proof.
  unfold borrowed_bytes, contents, cret, cfail. case_decide; [done|].
  destruct (slice_data s) as [p|]; [|done]. simpl. destruct (foreign w !! p) as [l|]; simpl; [|done].
  by case_decide.
Qed.

Lemma copy_run s n w :
  copy_bounded s n w = (fun r => (w, map_err Status r)) <$> bounded (foreign w) s n.
Proof. unfold copy_bounded, bounded. case_decide; [done|]. apply borrowed_run. Qed.

Lemma fixed_run n s w :
  fixed n s w = (fun r => (w, map_err Status r)) <$> exact n (foreign w) s.
Proof.
  unfold fixed, exact, cbind. rewrite borrowed_run.
  destruct (contents (foreign w) s) as [[l|e]|]; simpl; [|done|done]. by destruct (array_try n l).
Qed.

Lemma lock_run p w s : connections w !! p = Some s -> lock_connection (Some p) w = Some (w, Ok p).
Proof. intros Hp. unfold lock_connection, cbind, required_handle. by rewrite Hp. Qed.

(** *** Queueing *)
Definition encodable (a : Action) : Prop :=
  match a with Send e => Body_validate (body e) = Ok tt | _ => True end.

Lemma run_encodable (i : Connection.Input (S := SigningIdentity)) c c' acts :
  Connection.run i c = (c', Ok acts) -> Forall encodable acts.
Proof.
  destruct i as [sg b d|sg b d|sg n cd|sg q|sg r|e| |]; cbn [Connection.run]; intros Hr.
  - apply Connection.begin_offer_ok in Hr as (_ & _ & Hv & _ & ->). by repeat constructor.
  - apply Connection.one_ok in Hr as (a & (_ & _ & ids & _ & Hv & _ & ->)%Connection.answer_ok & ->).
    by repeat constructor.
  - apply Connection.one_ok in Hr as (a & (_ & _ & ids & _ & Hv & _ & ->)%Connection.candidate_ok & ->).
    by repeat constructor.
  - apply Connection.one_ok in Hr as (a & (_ & _ & Hv & _ & ->)%Connection.cfr_control_ok & ->).
    by repeat constructor.
  - apply Connection.one_ok in Hr as (a & Hc & ->). rewrite Connection.close_run in Hc.
    repeat case_match; simplify_eq. by repeat constructor.
  - apply Connection.receive_ok in Hr as (_ & _ & id & _ & [(_ & _ & ->)|(_ & _ & _ & ->)]);
      repeat constructor. by destruct (body e).
  - apply Connection.transport_connected_ok in Hr as (_ & _ & ->). constructor.
  - apply bind_ok in Hr as (c1 & [] & _ & [= _ <-]). constructor.
Qed.

Lemma queue_run l s :
  Forall encodable l ->
  queue_actions l s =
  ({| connection := connection s; state_signer := state_signer s; actions := actions s ++ queued l |}, Ok tt).
Proof.
  intros Hl. revert s. induction Hl as [|a l Ha _ IH]; intros s.
  { destruct s. simpl. unfold ret. by rewrite app_nil_r. }
  assert (Hq : exists q, queued_action a = Ok q).
  { destruct a as [e| | | | | |]; simpl; eauto. rewrite encode_ok by done. simpl. eauto. }
  destruct Hq as [q Hq]. cbn [queue_actions]. unfold bind, lift, modify. rewrite Hq, IH. simpl.
  unfold queued. simpl. rewrite Hq. simpl. by rewrite <- app_assoc.
Qed.

(** Code under the lock that runs one input. *)
Lemma locked_run w p s (m : M ConnectionState FcpStatus unit) i :
  connections w !! p = Some s ->
  m s = match Connection.run i (connection s) with
        | (c', Ok acts) =>
            ({| connection := c'; state_signer := state_signer s; actions := actions s ++ queued acts |}, Ok tt)
        | (c', Err _) => ({| connection := c'; state_signer := state_signer s; actions := actions s |},
                          Err FCP_STATUS_PROTOCOL)
        end ->
  ffi_status (locked p m) w =
  match Connection.run i (connection s) with
  | (c', Ok acts) =>
      Some (set_connections (<[p := {| connection := c'; state_signer := state_signer s;
                                       actions := actions s ++ queued acts |}]> (connections w)) w,
            FCP_STATUS_OK, Some tt)
  | (_, Err _) => Some (w, FCP_STATUS_PROTOCOL, None)
  end.
Proof.
  intros Hp Hm. unfold ffi_status, locked. rewrite Hp, Hm.
  destruct (Connection.run i (connection s)) as [c' [acts|e]] eqn:E; [done|].
  apply Connection.run_err in E as ->. simpl. do 3 f_equal. destruct s, w; simpl in *.
  unfold set_connections. simpl. by rewrite insert_id.
Qed.

(** An operation that yields a list of actions, and one that yields one. *)
Lemma core_queue (f : SigningIdentity -> Connection.C (list Action)) i s :
  Connection.run i = f (state_signer s) ->
  (do actions <- core f; queue_actions actions) s =
  match Connection.run i (connection s) with
  | (c', Ok acts) =>
      ({| connection := c'; state_signer := state_signer s; actions := actions s ++ queued acts |}, Ok tt)
  | (c', Err _) => ({| connection := c'; state_signer := state_signer s; actions := actions s |},
                    Err FCP_STATUS_PROTOCOL)
  end.
Proof.
  intros Hi. unfold bind, core. pose proof (run_encodable i (connection s)) as He. rewrite Hi in *.
  destruct (f (state_signer s) (connection s)) as [c' [acts|e]]; [|done]. simpl.
  rewrite queue_run by by eapply He. done.
Qed.

Lemma core_queue_one (f : SigningIdentity -> Connection.C Action) i s :
  Connection.run i = Connection.one (f (state_signer s)) ->
  (do action <- core f; queue_actions [action]) s =
  match Connection.run i (connection s) with
  | (c', Ok acts) =>
      ({| connection := c'; state_signer := state_signer s; actions := actions s ++ queued acts |}, Ok tt)
  | (c', Err _) => ({| connection := c'; state_signer := state_signer s; actions := actions s |},
                    Err FCP_STATUS_PROTOCOL)
  end.
Proof.
  intros Hi. unfold bind at 1, core. pose proof (run_encodable i (connection s)) as He. rewrite Hi in *.
  unfold Connection.one, bind, ret in *. destruct (f (state_signer s) (connection s)) as [c' [a|e]]; [|done].
  simpl map_err. cbv iota. rewrite queue_run by by eapply He. done.
Qed.

(** Reading the arguments, then running the call. *)
Lemma ffi_bind {A B} (m : Call A) (k : A -> Call B) w r :
  m w = (fun r => (w, map_err Status r)) <$> r ->
  ffi_status (cbind m k) w =
  match r with
  | Some (Ok a) => ffi_status (k a) w
  | Some (Err e) => Some (w, e, None)
  | None => None
  end.
Proof. intros Hm. unfold ffi_status, cbind. rewrite Hm. by destruct r as [[a|e]|]. Qed.

Lemma ffi_lock {B} p s w (k : loc -> Call B) :
  connections w !! p = Some s ->
  ffi_status (cbind (lock_connection (Some p)) k) w = ffi_status (k p) w.
Proof. intros Hp. unfold ffi_status, cbind. by rewrite (lock_run _ _ _ Hp). Qed.

Lemma exported_run c p s w :
  connections w !! p = Some s -> exported c (Some p) w = connection_outcome w p s c.
Proof.
  intros Hp. unfold connection_outcome.
  destruct c as [b d|b d|n sl|sl|code|sl| |]; cbn [exported input].
  - unfold fcp_connection_begin_offer. rewrite (ffi_lock _ _ _ _ Hp), (ffi_bind _ _ _ _ (fixed_run _ _ _)).
    destruct (exact 32 (foreign w) b) as [[b'|e]|]; [|done|done]. cbn [xbind].
    rewrite (ffi_bind _ _ _ _ (copy_run _ _ _)).
    destruct (bounded (foreign w) d _) as [[d'|e]|]; [|done|done]. cbn [xbind].
    by apply locked_run, core_queue.
  - unfold fcp_connection_answer. rewrite (ffi_lock _ _ _ _ Hp), (ffi_bind _ _ _ _ (fixed_run _ _ _)).
    destruct (exact 32 (foreign w) b) as [[b'|e]|]; [|done|done]. cbn [xbind].
    rewrite (ffi_bind _ _ _ _ (copy_run _ _ _)).
    destruct (bounded (foreign w) d _) as [[d'|e]|]; [|done|done]. cbn [xbind].
    by apply locked_run, core_queue_one.
  - unfold fcp_connection_candidate. rewrite (ffi_lock _ _ _ _ Hp), (ffi_bind _ _ _ _ (copy_run _ _ _)).
    destruct (bounded (foreign w) sl _) as [[d'|e]|]; [|done|done]. cbn [xbind].
    by apply locked_run, core_queue_one.
  - unfold fcp_connection_cfr_control. rewrite (ffi_lock _ _ _ _ Hp), (ffi_bind _ _ _ _ (copy_run _ _ _)).
    destruct (bounded (foreign w) sl _) as [[d'|e]|]; [|done|done]. cbn [xbind].
    by apply locked_run, core_queue_one.
  - unfold fcp_connection_close. rewrite (ffi_lock _ _ _ _ Hp). by apply locked_run, core_queue_one.
  - unfold fcp_connection_receive. rewrite (ffi_lock _ _ _ _ Hp), (ffi_bind _ _ _ _ (copy_run _ _ _)).
    destruct (bounded (foreign w) sl _) as [[d'|e]|]; [|done|done]. cbn [xbind].
    rewrite (ffi_bind _ _ _ (Some (map_err status_from_core (Envelope.decode_verified d')))) by done.
    destruct (Envelope.decode_verified d') as [e|er]; [|done]. by apply locked_run, core_queue.
  - unfold fcp_connection_transport_connected. rewrite (ffi_lock _ _ _ _ Hp).
    by apply locked_run, core_queue.
  - unfold fcp_connection_transport_failed. rewrite (ffi_lock _ _ _ _ Hp). apply locked_run; [done|].
    unfold core. cbn [Connection.run]. unfold bind, ret.
    destruct (Connection.transport_failed (connection s)) as [c' [[]|e]]; [|done].
    simpl. by rewrite app_nil_r.
Qed.

(** C24: every function of the C ABI that acts on a connection is an operation of
    the connection state machine on the arguments it reads: an argument that is
    null, too large or of the wrong width, bytes that do not verify and an
    operation the state machine refuses leave memory as it was and yield the
    documented status; otherwise the connection moves as the state machine does
    and exactly its actions are queued, after those queued before. *)
Theorem abi_refines_connection c p s w :
  connections w !! p = Some s -> exported c (Some p) w = connection_outcome w p s c.
Proof. apply exported_run. Qed.

(** A record holds what a queue entry says, its bytes in boxes of [m]. *)
Definition holds (m : gmap loc bytes) (b : FcpOwnedBuffer) (l : bytes) : Prop :=
  len b = blen l /\
  match data b with
  | Some p => m !! p = Some l /\ l <> []
  | None => l = []
  end.

Definition carries (m : gmap loc bytes) (a : FcpAction) (q : QueuedAction) : Prop :=
  kind a = queued_kind q /\ binding a = queued_binding q /\ sequence a = queued_sequence q /\
  close_code a = queued_close_code q /\ envelope_id a = queued_envelope_id q /\
  holds m (remote_endpoint a) (from_option identity_bytes [] (queued_remote_endpoint q)) /\
  holds m (action_payload a) (queued_payload q).

(** Boxing bytes leaves every box there was. *)
Definition fresh (w : World) : Prop := forall p l, buffers w !! p = Some l -> (p < next w)%N.

Lemma owned_run l w :
  fresh w ->
  exists w' b, owned_buffer l w = Some (w', Ok b) /\ holds (buffers w') b l /\ fresh w' /\
    buffers w ⊆ buffers w' /\ (next w <= next w')%N /\
    (w' = w \/ w' = bump (set_buffers (<[next w := l]> (buffers w)) w)).
Proof.
  intros Hf. destruct l as [|x l].
  { exists w, FcpOwnedBuffer_default. split_and!; try done. by left. }
  eexists _, _. split; [reflexivity|]. split_and!; simpl.
  - split; [done|]. simpl. by rewrite lookup_insert_eq.
  - intros p l'. simpl. rewrite lookup_insert_Some. intros [[<- _]|[_ Hp]]; [lia|].
    specialize (Hf _ _ Hp). lia.
  - apply insert_subseteq. destruct (buffers w !! next w) eqn:E; [|done]. specialize (Hf _ _ E). lia.
  - lia.
  - by right.
Qed.

Lemma holds_weaken m m' b l : holds m b l -> m ⊆ m' -> holds m' b l.
Proof.
  intros [Hl Hd] Hm. split; [done|]. destruct (data b) as [p|]; [|done]. destruct Hd as [Hp Hn].
  split; [|done]. by eapply lookup_weaken.
Qed.

Definition popped (p : loc) (s : ConnectionState) (l : list QueuedAction) (w : World) : World :=
  set_connections (<[p := {| connection := connection s; state_signer := state_signer s; actions := l |}]>
    (connections w)) w.

Lemma take_run p s w :
  connections w !! p = Some s -> fresh w ->
  match actions s with
  | [] => fcp_connection_take_action (Some p) true w = Some (w, FCP_STATUS_NO_ACTION, None)
  | q :: l => exists w1 b1 w2 b2,
      match queued_remote_endpoint q with
      | Some e => endpoint_buffer e
      | None => cret FcpOwnedBuffer_default
      end (popped p s l w) = Some (w1, Ok b1) /\ fresh w1 /\
      owned_buffer (queued_payload q) w1 = Some (w2, Ok b2) /\
      holds (buffers w1) b1 (from_option identity_bytes [] (queued_remote_endpoint q)) /\
      holds (buffers w2) b2 (queued_payload q) /\ buffers w ⊆ buffers w1 /\ buffers w1 ⊆ buffers w2 /\
      fcp_connection_take_action (Some p) true w =
      Some (w2, FCP_STATUS_OK, Some
        {| kind := queued_kind q; binding := queued_binding q; sequence := queued_sequence q;
           close_code := queued_close_code q; envelope_id := queued_envelope_id q;
           remote_endpoint := b1; action_payload := b2 |})
  end.
Proof.
  intros Hp Hf. destruct (actions s) as [|q l] eqn:Ha.
  - unfold fcp_connection_take_action, ffi_status, cbind at 1. simpl.
    unfold cbind at 1. rewrite (lock_run _ _ _ Hp). unfold cbind, locked. rewrite Hp. unfold pop_action.
    rewrite Ha. simpl. do 3 f_equal. destruct w; unfold set_connections; simpl in *. by rewrite insert_id.
  - assert (H1 : exists w1 b1, match queued_remote_endpoint q with
      | Some e => endpoint_buffer e
      | None => cret FcpOwnedBuffer_default
      end (popped p s l w) = Some (w1, Ok b1) /\
      holds (buffers w1) b1 (from_option identity_bytes [] (queued_remote_endpoint q)) /\ fresh w1 /\
      buffers w ⊆ buffers w1).
    { destruct (queued_remote_endpoint q) as [e|].
      - destruct (owned_run (identity_bytes e) (popped p s l w)) as (w1 & b1 & E & Hh & Hf1 & Hsub & _);
          [exact Hf|]. by exists w1, b1.
      - by exists (popped p s l w), FcpOwnedBuffer_default. }
    destruct H1 as (w1 & b1 & E1 & Hh1 & Hf1 & Hs1).
    destruct (owned_run (queued_payload q) w1 Hf1) as (w2 & b2 & E2 & Hh2 & _ & Hs2 & _).
    exists w1, b1, w2, b2. split_and!; try done.
    unfold fcp_connection_take_action, ffi_status, cbind at 1. simpl.
    unfold cbind at 1. rewrite (lock_run _ _ _ Hp). unfold cbind at 1, locked. rewrite Hp. unfold pop_action.
    rewrite Ha. simpl. fold (popped p s l w). unfold cbind. rewrite E1, E2. done.
Qed.

(** Actions leave the C ABI in the order they were queued, one per call and
    exactly: taking from a connection pops the first entry and writes a record
    with its fields, whose buffers are boxes of their own holding exactly the
    signed envelope, the engine's bytes or the CFR payload, and the complete
    identity of the sender; all other boxes stay; an empty queue is reported as
    such and changes nothing. *)
Theorem abi_take_action p s w :
  connections w !! p = Some s -> fresh w ->
  match actions s with
  | [] => fcp_connection_take_action (Some p) true w = Some (w, FCP_STATUS_NO_ACTION, None)
  | q :: l => exists w' a,
      fcp_connection_take_action (Some p) true w = Some (w', FCP_STATUS_OK, Some a) /\
      carries (buffers w') a q /\ buffers w ⊆ buffers w' /\
      connections w' !! p =
        Some {| connection := connection s; state_signer := state_signer s; actions := l |}
  end.
Proof.
  intros Hp Hf. pose proof (take_run p s w Hp Hf) as Ht. destruct (actions s) as [|q l]; [done|].
  destruct Ht as (w1 & b1 & w2 & b2 & E1 & Hf1 & E2 & Hh1 & Hh2 & Hs1 & Hs2 & Et).
  eexists w2, _. split; [exact Et|]. split_and!.
  - unfold carries. simpl. split_and!; try done. by eapply holds_weaken.
  - by etrans.
  - assert (Hc1 : connections w1 = connections (popped p s l w)).
    { destruct (queued_remote_endpoint q); [|by injection E1 as <-].
      unfold endpoint_buffer, owned_buffer in E1. destruct (identity_bytes _); by injection E1 as <-. }
    assert (Hc2 : connections w2 = connections w1).
    { unfold owned_buffer in E2. destruct (queued_payload q); by injection E2 as <-. }
    rewrite Hc2, Hc1. apply lookup_insert_eq.
Qed.

(** ** Callers

    A caller keeps what it is given in slots and passes slots back; an index
    without a slot is the null pointer.  Outputs go to fresh slots. *)
Record Host : Type := {
  world : World;
  signer_slots : list (option loc);
  client_slots : list (option loc);
  connection_slots : list (option loc);
  held : list FcpOwnedBuffer;
  held_actions : list FcpAction;
}.

Inductive HostCall : Type :=
| SignerGenerate (drawn : option SigningIdentity)
| SignerIdentity (i : nat)
| SignerFree (i : nat)
| ClientCreate (options : FcpClientOptions)
| ClientApply (i : nat) (configuration : FcpByteSlice)
| ClientEpoch (i : nat)
| ClientFree (i : nat)
| ConnectionCreate (i : nat) (options : FcpConnectionOptions)
| OnConnection (c : ConnectionCall) (i : nat)
| TakeAction (i : nat)
| ConnectionPhase (i : nat)
| ConnectionFree (i : nat)
| BufferFree (i : nat)
| ActionFree (i : nat)
| VerifyEnvelope (envelope : FcpByteSlice)
| VerifyConfiguration (configuration : FcpByteSlice).

Definition slot_value (slots : list (option loc)) (i : nat) : option loc := default None (slots !! i).
Definition store {A} (l : list A) (o : option A) : list A := l ++ option_list o.
Definition put {A} (l : list A) (i : nat) (o : option A) : list A :=
  match o with Some x => <[i := x]> l | None => l end.

Definition with_world (h : Host) (w : World) : Host :=
  {| world := w; signer_slots := signer_slots h; client_slots := client_slots h;
     connection_slots := connection_slots h; held := held h; held_actions := held_actions h |}.
Definition with_signers (h : Host) (w : World) (l : list (option loc)) : Host :=
  {| world := w; signer_slots := l; client_slots := client_slots h;
     connection_slots := connection_slots h; held := held h; held_actions := held_actions h |}.
Definition with_clients (h : Host) (w : World) (l : list (option loc)) : Host :=
  {| world := w; signer_slots := signer_slots h; client_slots := l;
     connection_slots := connection_slots h; held := held h; held_actions := held_actions h |}.
Definition with_connections (h : Host) (w : World) (l : list (option loc)) : Host :=
  {| world := w; signer_slots := signer_slots h; client_slots := client_slots h;
     connection_slots := l; held := held h; held_actions := held_actions h |}.
Definition with_held (h : Host) (w : World) (l : list FcpOwnedBuffer) : Host :=
  {| world := w; signer_slots := signer_slots h; client_slots := client_slots h;
     connection_slots := connection_slots h; held := l; held_actions := held_actions h |}.
Definition with_actions (h : Host) (w : World) (l : list FcpAction) : Host :=
  {| world := w; signer_slots := signer_slots h; client_slots := client_slots h;
     connection_slots := connection_slots h; held := held h; held_actions := l |}.

Definition host_step (c : HostCall) (h : Host) : option Host :=
  let w := world h in
  match c with
  | SignerGenerate drawn =>
      '(w', _, o) ← fcp_signer_generate drawn true w;
      Some (with_signers h w' (store (signer_slots h) (Some <$> o)))
  | SignerIdentity i =>
      '(w', _, o) ← fcp_signer_public_identity (slot_value (signer_slots h) i) true w;
      Some (with_held h w' (store (held h) o))
  | SignerFree i =>
      '(w', o) ← fcp_signer_free (signer_slots h !! i) w;
      Some (with_signers h w' (put (signer_slots h) i o))
  | ClientCreate options =>
      '(w', _, o) ← fcp_client_create options true w;
      Some (with_clients h w' (store (client_slots h) (Some <$> o)))
  | ClientApply i configuration =>
      '(w', _, _) ← fcp_client_apply_configuration (slot_value (client_slots h) i) configuration w;
      Some (with_world h w')
  | ClientEpoch i =>
      '(w', _, _) ← fcp_client_accepted_epoch (slot_value (client_slots h) i) true true w;
      Some (with_world h w')
  | ClientFree i =>
      '(w', o) ← fcp_client_free (client_slots h !! i) w;
      Some (with_clients h w' (put (client_slots h) i o))
  | ConnectionCreate i options =>
      '(w', _, o) ← fcp_connection_create (slot_value (signer_slots h) i) options true w;
      Some (with_connections h w' (store (connection_slots h) (Some <$> o)))
  | OnConnection c i =>
      '(w', _, _) ← exported c (slot_value (connection_slots h) i) w;
      Some (with_world h w')
  | TakeAction i =>
      '(w', _, o) ← fcp_connection_take_action (slot_value (connection_slots h) i) true w;
      Some (with_actions h w' (store (held_actions h) o))
  | ConnectionPhase i =>
      '(w', _, _) ← fcp_connection_phase (slot_value (connection_slots h) i) true w;
      Some (with_world h w')
  | ConnectionFree i =>
      '(w', o) ← fcp_connection_free (connection_slots h !! i) w;
      Some (with_connections h w' (put (connection_slots h) i o))
  | BufferFree i =>
      '(w', o) ← fcp_buffer_free (held h !! i) w;
      Some (with_held h w' (put (held h) i o))
  | ActionFree i =>
      '(w', o) ← fcp_action_free (held_actions h !! i) w;
      Some (with_actions h w' (put (held_actions h) i o))
  | VerifyEnvelope s => '(w', _, _) ← fcp_envelope_verify s w; Some (with_world h w')
  | VerifyConfiguration s => '(w', _, _) ← fcp_configuration_verify s w; Some (with_world h w')
  end.

Fixpoint host_run (cs : list HostCall) (h : Host) : option Host :=
  match cs with
  | [] => Some h
  | c :: cs => host_step c h ≫= host_run cs
  end.

(** The slices a call passes; they are to be readable. *)
Definition connection_slices (c : ConnectionCall) : list FcpByteSlice :=
  match c with
  | CallBeginOffer b d | CallAnswer b d => [b; d]
  | CallCandidate _ s | CallCfrControl s | CallReceive s => [s]
  | CallClose _ | CallConnected | CallFailed => []
  end.
Definition slices (c : HostCall) : list FcpByteSlice :=
  match c with
  | ClientCreate o => [client_federation o; client_authority o; client_cfr_identity o; client_endpoint o]
  | ClientApply _ s | VerifyEnvelope s | VerifyConfiguration s => [s]
  | ConnectionCreate _ o => [option_federation o; option_attempt o; option_remote_endpoint o]
  | OnConnection c _ => connection_slices c
  | _ => []
  end.
Definition readable (f : gmap loc bytes) (s : FcpByteSlice) : Prop := is_Some (contents f s).

(** *** Ownership

    The boxes of a table are exactly the ones the slots point to, once each. *)
Definition owns (ps : list loc) (D : gset loc) (n : loc) : Prop :=
  NoDup ps /\ (forall p, p ∈ ps <-> p ∈ D) /\ (forall p, p ∈ D -> (p < n)%N).

Definition pointers (slots : list (option loc)) : list loc := omap id slots.
Definition action_buffers (a : FcpAction) : list FcpOwnedBuffer := [remote_endpoint a; action_payload a].
Definition buffers_of (h : Host) : list FcpOwnedBuffer := held h ++ (held_actions h ≫= action_buffers).

Definition owned (h : Host) : Prop :=
  let w := world h in
  owns (pointers (signer_slots h)) (dom (signers w)) (next w) /\
  owns (pointers (client_slots h)) (dom (clients w)) (next w) /\
  owns (pointers (connection_slots h)) (dom (connections w)) (next w) /\
  owns (omap data (buffers_of h)) (dom (buffers w)) (next w) /\
  Forall (fun b => exists l, holds (buffers w) b l) (buffers_of h).

#[global] Instance owns_perm : Proper ((≡ₚ) ==> (=) ==> (=) ==> iff) owns.
Proof.
  assert (Hd : forall ps qs D n, ps ≡ₚ qs -> owns ps D n -> owns qs D n).
  { intros ps qs D n Hp (Hn & He & Hl). split_and!; [by rewrite <- Hp| |done].
    intros p. rewrite <- He. by rewrite Hp. }
  intros ps qs Hp D ? <- n ? <-. split; by apply Hd.
Qed.

Lemma owns_grow ps D n n' : owns ps D n -> (n <= n')%N -> owns ps D n'.
Proof. intros (Hn & He & Hl) Hle. split_and!; [done..|]. intros p Hp. specialize (Hl p Hp). lia. Qed.

Lemma owns_alloc ps D n : owns ps D n -> owns (n :: ps) ({[n]} ∪ D) (N.succ n).
Proof.
  intros (Hn & He & Hl). split_and!.
  - apply NoDup_cons. split; [|done]. rewrite He. intros Hp%Hl. lia.
  - intros p. rewrite elem_of_cons, He. set_solver.
  - intros p. rewrite elem_of_union, elem_of_singleton. intros [->|Hp%Hl]; lia.
Qed.

Lemma owns_free p ps D n : owns (p :: ps) D n -> owns ps (D ∖ {[p]}) n.
Proof.
  intros ([Hp Hn]%NoDup_cons & He & Hl). split_and!; [done| |set_solver].
  intros q. specialize (He q). rewrite elem_of_cons in He. rewrite elem_of_difference, elem_of_singleton.
  split; [|set_solver]. intros Hq. split; [apply He; auto|]. by intros ->.
Qed.

Lemma owns_live {T} ps (m : gmap loc T) n p : owns ps (dom m) n -> p ∈ ps -> is_Some (m !! p).
Proof. intros (_ & He & _) Hp. apply elem_of_dom, He, Hp. Qed.

Lemma pointers_app l k : pointers (l ++ k) = pointers l ++ pointers k.
Proof. apply omap_app. Qed.

Lemma slot_pointer l i p : slot_value l i = Some p -> p ∈ pointers l.
Proof.
  unfold slot_value. intros Hh. destruct (l !! i) as [o|] eqn:E; simplify_eq/=.
  apply list_elem_of_omap. exists (Some p). split; [by eapply list_elem_of_lookup_2|done].
Qed.

Lemma pointers_put l i p : l !! i = Some (Some p) -> pointers l ≡ₚ p :: pointers (<[i := None]> l).
Proof.
  intros Hi. rewrite insert_take_drop by by eapply lookup_lt_Some.
  rewrite <- (take_drop_middle l i (Some p) Hi) at 1. rewrite !pointers_app. simpl.
  by rewrite Permutation_middle.
Qed.

(** *** Buffers *)
Definition boxed (bs : list FcpOwnedBuffer) (w : World) : Prop :=
  owns (omap data bs) (dom (buffers w)) (next w) /\
  Forall (fun b => exists l, holds (buffers w) b l) bs.

#[global] Instance boxed_perm : Proper ((≡ₚ) ==> (=) ==> iff) boxed.
Proof. intros bs cs Hp w ? <-. unfold boxed. by rewrite Hp. Qed.

(** The tables of handles and the caller's memory are as before. *)
Definition same_handles (w w' : World) : Prop :=
  foreign w' = foreign w /\ signers w' = signers w /\ clients w' = clients w /\
  connections w' = connections w /\ (next w <= next w')%N.

Lemma boxed_fresh bs w : boxed bs w -> fresh w.
Proof. intros [(_ & _ & Hl) _] p l Hp. apply Hl, elem_of_dom. eauto. Qed.

Lemma boxed_alloc bs w l :
  boxed bs w -> exists w' b, owned_buffer l w = Some (w', Ok b) /\ boxed (b :: bs) w' /\ same_handles w w'.
Proof.
  intros Hb. destruct (owned_run l w (boxed_fresh _ _ Hb)) as (w' & b & E & Hh & _ & Hsub & Hn & Hw).
  exists w', b. split; [done|]. destruct Hb as [Ho Hf]. split.
  - split.
    + destruct l as [|x l]; unfold owned_buffer, cret in E; simplify_eq; [done|]. simpl.
      rewrite dom_insert_L. by apply owns_alloc.
    + constructor; [by exists l|]. eapply Forall_impl; [exact Hf|]. intros c [k Hk]. exists k.
      by eapply holds_weaken.
  - destruct Hw as [-> | ->]; (split_and!; simpl; [done..|lia]).
Qed.

Lemma boxed_free b bs w :
  boxed (b :: bs) w ->
  exists w', fcp_buffer_free (Some b) w = Some (w', Some FcpOwnedBuffer_default) /\
    boxed (FcpOwnedBuffer_default :: bs) w' /\ same_handles w w'.
Proof.
  intros [Ho Hf]. apply Forall_cons_1 in Hf as [[l [Hl Hd]] Hf].
  assert (Hdef : forall m, exists l, holds m FcpOwnedBuffer_default l) by (intros m; by exists []).
  unfold fcp_buffer_free. destruct (data b) as [p|] eqn:E.
  - destruct Hd as [Hp Hn]. rewrite decide_False by (destruct l; [done|]; unfold blen in Hl; simpl in Hl; lia).
    rewrite Hp, decide_True by done. eexists. split; [done|]. simpl in Ho. rewrite E in Ho. split.
    + split; simpl; [rewrite dom_delete_L; by apply owns_free|]. constructor; [done|].
      apply list.Forall_forall. intros c Hc. rewrite list.Forall_forall in Hf. destruct (Hf c Hc) as [k [Hk Hdk]].
      exists k. split; [done|]. destruct (data c) as [q|] eqn:Eq; [|done]. destruct Hdk as [Hq Hne].
      split; [|done]. rewrite lookup_delete_ne; [done|]. intros <-.
      destruct Ho as ([Hnp _]%NoDup_cons & _). apply Hnp, list_elem_of_omap. eauto.
    + by split_and!.
  - subst l. rewrite decide_True by (by rewrite Hl). exists w. split; [done|]. simpl in Ho. rewrite E in Ho.
    split; [|by split_and!]. split; [done|]. by constructor.
Qed.

(** *** Handles *)
Lemma free_spec {T} (table : World -> gmap loc T) putw slots i w n :
  owns (pointers slots) (dom (table w)) n ->
  exists w' o, free_handle table putw (slots !! i) w = Some (w', o) /\
    ((w' = w /\ put slots i o = slots) \/
     exists p, w' = putw (delete p (table w)) w /\ put slots i o = <[i := None]> slots /\
       owns (pointers (<[i := None]> slots)) (dom (delete p (table w))) n).
Proof.
  intros Ho. unfold free_handle. destruct (slots !! i) as [[p|]|] eqn:E.
  - destruct (owns_live _ _ _ p Ho) as [x Hx].
    { apply (slot_pointer _ i). unfold slot_value. by rewrite E. }
    rewrite Hx. eexists _, _. split; [done|]. right. exists p. split_and!; [done..|].
    rewrite dom_delete_L. apply owns_free. by rewrite <- pointers_put.
  - eexists _, _. split; [done|]. left. split; [done|]. simpl. by apply list_insert_id.
  - eexists _, _. split; [done|]. by left.
Qed.

(** Calls that leave every box where it is. *)
Definition same_boxes (w w' : World) : Prop :=
  foreign w' = foreign w /\ buffers w' = buffers w /\ next w' = next w /\
  dom (signers w') = dom (signers w) /\ dom (clients w') = dom (clients w) /\
  dom (connections w') = dom (connections w).

Lemma owned_handles h w : owned h -> same_boxes (world h) w -> owned (with_world h w).
Proof.
  intros (H1 & H2 & H3 & H4 & H5) (_ & E1 & E2 & E3 & E4 & E5). unfold owned. simpl.
  change (buffers_of (with_world h w)) with (buffers_of h). rewrite E1, E2, E3, E4, E5. by split_and!.
Qed.

Lemma same_refl w : same_boxes w w.
Proof. by split_and!. Qed.

Lemma readable_bounded f s n : readable f s -> is_Some (bounded f s n).
Proof. intros Hs. unfold bounded. case_decide; [by eexists|done]. Qed.

Lemma readable_exact n f s : readable f s -> is_Some (exact n f s).
Proof. intros [[l|e] Hs]; unfold exact; rewrite Hs; by eexists. Qed.

Lemma input_defined f sg c : Forall (readable f) (connection_slices c) -> is_Some (input f sg c).
Proof.
  destruct c as [b d|b d|n s|s|code|s| |]; simpl; intros Hf; rewrite ?Forall_cons, ?Forall_nil in Hf;
    try (by eexists).
  1-2: destruct Hf as (Hb & Hd & _); destruct (readable_exact 32 f b Hb) as [[b'|e] ->]; [|by eexists];
    destruct (readable_bounded f d MAX_DESCRIPTION_BYTES Hd) as [[d'|e] ->]; by eexists.
  1: destruct Hf as [Hd _]; destruct (readable_bounded f s MAX_CANDIDATE_BYTES Hd) as [[d'|e] ->]; by eexists.
  1: destruct Hf as [Hd _]; destruct (readable_bounded f s MAX_CFR_CONTROL_BYTES Hd) as [[d'|e] ->]; by eexists.
  destruct Hf as [Hd _]. destruct (readable_bounded f s MAX_ENVELOPE_BYTES Hd) as [[d'|e] ->]; by eexists.
Qed.

Lemma exported_null c w : exported c None w = Some (w, FCP_STATUS_INVALID_ARGUMENT, None).
Proof. by destruct c. Qed.

Lemma exported_same c h w :
  (forall p, h = Some p -> is_Some (connections w !! p)) -> Forall (readable (foreign w)) (connection_slices c) ->
  exists w' st o, exported c h w = Some (w', st, o) /\ same_boxes w w'.
Proof.
  intros Hh Hr. destruct h as [p|]; [|rewrite exported_null; by eexists _, _, _].
  destruct (Hh p eq_refl) as [s Hp]. rewrite (exported_run _ _ _ _ Hp). unfold connection_outcome.
  destruct (input_defined _ (state_signer s) _ Hr) as [[i|e] ->]; [|by eexists _, _, _].
  destruct (Connection.run i (connection s)) as [c' [acts|er]]; [|by eexists _, _, _].
  eexists _, _, _. split; [done|]. split_and!; simpl; try done.
  rewrite dom_insert_L. apply elem_of_dom_2 in Hp. set_solver.
Qed.

(** A call that only reads. *)
Definition reads {A} (m : Call A) (w : World) : Prop := exists r, m w = Some (w, r).

Lemma readable_bind {A B} (m : Call A) (k : A -> Call B) w :
  reads m w -> (forall a, reads (k a) w) -> reads (cbind m k) w.
Proof. intros [[a|e] Hm] Hk; unfold cbind, reads; rewrite Hm; [apply Hk|by eexists]. Qed.

Lemma reads_fixed n s w : readable (foreign w) s -> reads (fixed n s) w.
Proof. intros Hr. destruct (readable_exact n _ _ Hr) as [r E]. unfold reads. rewrite fixed_run, E. by eexists. Qed.

Lemma reads_copy s n w : readable (foreign w) s -> reads (copy_bounded s n) w.
Proof. intros Hr. destruct (readable_bounded _ _ n Hr) as [r E]. unfold reads. rewrite copy_run, E. by eexists. Qed.

Lemma reads_identity s w : readable (foreign w) s -> reads (endpoint_identity s) w.
Proof.
  intros Hr. apply readable_bind; [by apply reads_fixed|]. intros a. repeat case_match; by eexists.
Qed.

Lemma reads_handle {T} (table : World -> gmap loc T) h w :
  (forall p, h = Some p -> is_Some (table w !! p)) -> reads (required_handle table h) w.
Proof.
  intros Hh. unfold reads, required_handle. destruct h as [p|]; [|by eexists].
  destruct (Hh p eq_refl) as [x ->]. by eexists.
Qed.

Lemma readable_lift {A} (r : result FcpStatus A) w : reads (clift r) w.
Proof. by eexists. Qed.

(** A call that reads and then, unless it fails, does one thing. *)
Lemma ffi_reads {A B} (m : Call A) (k : A -> Call B) w (P : option (World * FcpStatus * option B) -> Prop) :
  reads m w -> (forall st, P (Some (w, st, None))) -> (forall a, P (ffi_status (k a) w)) ->
  P (ffi_status (cbind m k) w).
Proof.
  intros [[a|[s|]] Hm] Hf Hk; unfold ffi_status, cbind; rewrite Hm; [apply Hk|apply Hf..].
Qed.

Lemma handle_live {T} slots i (m : gmap loc T) n :
  owns (pointers slots) (dom m) n -> forall p, slot_value slots i = Some p -> is_Some (m !! p).
Proof. intros Ho p Hp. eapply owns_live; [done|]. by eapply slot_pointer. Qed.

(** Storing the outcome of a call that made a box, or none. *)
Definition stored {T} (table : World -> gmap loc T) (w : World)
    (r : option (World * FcpStatus * option loc)) : Prop :=
  exists w' st o, r = Some (w', st, o) /\
    ((w' = w /\ o = None) \/
     (o = Some (next w) /\ dom (table w') = {[next w]} ∪ dom (table w) /\
      next w' = N.succ (next w) /\ foreign w' = foreign w /\ buffers w' = buffers w)).

Lemma generate_stored drawn w :
  stored signers w (fcp_signer_generate drawn true w) /\
  (forall w' st o, fcp_signer_generate drawn true w = Some (w', st, o) ->
     clients w' = clients w /\ connections w' = connections w).
Proof.
  unfold fcp_signer_generate, ffi_status, cbind, required_out, cret, cpanic.
  destruct drawn as [sg|]; (split; [|intros; by simplify_eq]); eexists _, _, _; (split; [reflexivity|]).
  - right. simpl. by rewrite dom_insert_L.
  - by left.
Qed.

Lemma client_create_stored options w :
  Forall (readable (foreign w)) [client_federation options; client_authority options;
    client_cfr_identity options; client_endpoint options] ->
  let r := fcp_client_create options true w in
  stored clients w r /\
  (forall w' st o, r = Some (w', st, o) -> signers w' = signers w /\ connections w' = connections w).
Proof.
  rewrite !Forall_cons. intros (H1 & H2 & H3 & H4 & _). cbv zeta. unfold fcp_client_create.
  assert (Hf : forall st, stored clients w (Some (w, st, None)) /\
    (forall w' st' o, Some (w, st, None (A := loc)) = Some (w', st', o) ->
      signers w' = signers w /\ connections w' = connections w)).
  { intros st. split; [eexists _, _, _; split; [done|by left]|]. intros; by simplify_eq. }
  apply ffi_reads; [by apply reads_fixed|exact Hf|intros fed].
  apply ffi_reads; [by apply reads_identity|exact Hf|intros au].
  apply ffi_reads; [by apply reads_fixed|exact Hf|intros cfr].
  apply ffi_reads; [by apply reads_identity|exact Hf|intros ep].
  apply ffi_reads; [by eexists|exact Hf|intros _].
  split; [|intros w' st o E; unfold ffi_status in E; simpl in E; by simplify_eq].
  eexists _, _, _. split; [done|]. right. simpl. by rewrite dom_insert_L.
Qed.

Lemma connection_create_stored h options w :
  (forall p, h = Some p -> is_Some (signers w !! p)) ->
  Forall (readable (foreign w)) [option_federation options; option_attempt options;
    option_remote_endpoint options] ->
  let r := fcp_connection_create h options true w in
  stored connections w r /\
  (forall w' st o, r = Some (w', st, o) -> signers w' = signers w /\ clients w' = clients w).
Proof.
  rewrite !Forall_cons. intros Hh (H1 & H2 & H3 & _). cbv zeta. unfold fcp_connection_create.
  assert (Hf : forall st, stored connections w (Some (w, st, None)) /\
    (forall w' st' o, Some (w, st, None (A := loc)) = Some (w', st', o) ->
      signers w' = signers w /\ clients w' = clients w)).
  { intros st. split; [eexists _, _, _; split; [done|by left]|]. intros; by simplify_eq. }
  apply ffi_reads; [by apply reads_handle|exact Hf|intros [p sg]].
  apply ffi_reads; [by apply reads_fixed|exact Hf|intros fed].
  apply ffi_reads; [by apply reads_fixed|exact Hf|intros at_].
  apply ffi_reads; [by apply reads_identity|exact Hf|intros rem].
  apply ffi_reads; [by eexists|exact Hf|intros _].
  apply ffi_reads; [by apply readable_lift|exact Hf|intros c].
  split; [|intros w' st o E; unfold ffi_status in E; simpl in E; by simplify_eq].
  eexists _, _, _. split; [done|]. right. simpl. by rewrite dom_insert_L.
Qed.

(** A table with the outcome of such a call, and one that did not change. *)
Lemma stored_owns {T} (table : World -> gmap loc T) slots w w' st o :
  stored table w (Some (w', st, o)) -> owns (pointers slots) (dom (table w)) (next w) ->
  owns (pointers (store slots (Some <$> o))) (dom (table w')) (next w').
Proof.
  intros (w1 & st1 & o1 & [= <- <- <-] & [[-> ->]|(-> & Hd & Hn & _)]) Ho; unfold store; simpl.
  - by rewrite app_nil_r.
  - rewrite pointers_app, Hd, Hn. simpl. rewrite <- Permutation_cons_append. by apply owns_alloc.
Qed.

Lemma stored_next {T} (table : World -> gmap loc T) w w' st o :
  stored table w (Some (w', st, o)) ->
  (next w <= next w')%N /\ buffers w' = buffers w /\ foreign w' = foreign w.
Proof.
  intros (w1 & st1 & o1 & [= <- <- <-] & [[-> _]|(_ & _ & Hn & Hf & Hb)]); [done|].
  rewrite Hn. split_and!; [lia|done..].
Qed.

Lemma boxed_grow bs w w' : boxed bs w -> (next w <= next w')%N -> buffers w' = buffers w -> boxed bs w'.
Proof. intros [Ho Hf] Hn Hb. unfold boxed. rewrite Hb. split; [by eapply owns_grow|done]. Qed.

(** Ownership of a host, apart from its buffers. *)
Definition handled (h : Host) (w : World) : Prop :=
  owns (pointers (signer_slots h)) (dom (signers w)) (next w) /\
  owns (pointers (client_slots h)) (dom (clients w)) (next w) /\
  owns (pointers (connection_slots h)) (dom (connections w)) (next w).

Lemma owned_split h : owned h <-> handled h (world h) /\ boxed (buffers_of h) (world h).
Proof. unfold owned, handled, boxed. tauto. Qed.

Lemma handled_same h w w' : handled h w -> same_handles w w' -> handled h w'.
Proof.
  intros (H1 & H2 & H3) (_ & E1 & E2 & E3 & Hn). unfold handled. rewrite E1, E2, E3.
  split_and!; by eapply owns_grow.
Qed.

Lemma identity_boxed h bs w :
  (forall p, h = Some p -> is_Some (signers w !! p)) -> boxed bs w ->
  exists w' st o, fcp_signer_public_identity h true w = Some (w', st, o) /\
    boxed (option_list o ++ bs) w' /\ same_handles w w'.
Proof.
  intros Hh Hb. unfold fcp_signer_public_identity.
  apply (ffi_reads _ _ _ (fun r => exists w' st o, r = Some (w', st, o) /\
    boxed (option_list o ++ bs) w' /\ same_handles w w')); [by apply reads_handle| |intros [p sg]].
  { intros st. eexists _, _, _. split; [done|]. by split; [|split_and!]. }
  unfold endpoint_buffer. destruct (boxed_alloc bs w (identity_bytes (endpoint sg)) Hb) as (w' & b & E & Hb' & Hs).
  unfold ffi_status, cbind, required_out, cret. rewrite E. by eexists _, _, (Some b).
Qed.

Lemma take_boxed h bs w :
  (forall p, h = Some p -> is_Some (connections w !! p)) -> boxed bs w ->
  exists w' st o, fcp_connection_take_action h true w = Some (w', st, o) /\
    boxed ((option_list o ≫= action_buffers) ++ bs) w' /\
    foreign w' = foreign w /\ signers w' = signers w /\ clients w' = clients w /\
    dom (connections w') = dom (connections w) /\ (next w <= next w')%N.
Proof.
  intros Hh Hb. destruct h as [p|].
  2:{ eexists _, _, None. split; [reflexivity|]. by split_and!. }
  destruct (Hh p eq_refl) as [s Hp]. pose proof (take_run p s w Hp (boxed_fresh _ _ Hb)) as Ht.
  destruct (actions s) as [|q l].
  { rewrite Ht. eexists _, _, None. split; [reflexivity|]. by split_and!. }
  destruct Ht as (w1 & b1 & w2 & b2 & E1 & _ & E2 & _ & _ & _ & _ & ->).
  eexists _, _, _. split; [reflexivity|]. simpl.
  assert (H1 : boxed (b1 :: bs) w1 /\ same_handles (popped p s l w) w1).
  { assert (Hb0 : boxed bs (popped p s l w)) by exact Hb.
    destruct (queued_remote_endpoint q) as [e|].
    - destruct (boxed_alloc bs _ (identity_bytes e) Hb0) as (w' & b & E & Hb' & Hs).
      unfold endpoint_buffer in E1. rewrite E in E1. by simplify_eq.
    - unfold cret in E1. simplify_eq. split; [|by split_and!]. destruct Hb0 as [Ho Hf].
      split; [done|]. constructor; [by exists []|done]. }
  destruct H1 as [Hb1 (F1 & F2 & F3 & F4 & F5)].
  destruct (boxed_alloc _ _ (queued_payload q) Hb1) as (w' & b & E & Hb2 & (G1 & G2 & G3 & G4 & G5)).
  rewrite E in E2. injection E2 as <- <-. split_and!.
  - by rewrite (Permutation_swap b b1 bs).
  - by rewrite G1, F1.
  - by rewrite G2, F2.
  - by rewrite G3, F3.
  - rewrite G4, F4. simpl. rewrite dom_insert_L. apply elem_of_dom_2 in Hp. set_solver.
  - simpl in F5. lia.
Qed.

Lemma boxed_action_free a bs w :
  boxed (action_buffers a ++ bs) w ->
  exists w', fcp_action_free (Some a) w = Some (w', Some FcpAction_default) /\
    boxed (action_buffers FcpAction_default ++ bs) w' /\ same_handles w w'.
Proof.
  cbn [action_buffers app]. intros Hb. destruct (boxed_free _ _ _ Hb) as (w1 & E1 & Hb1 & S1).
  rewrite Permutation_swap in Hb1. destruct (boxed_free _ _ _ Hb1) as (w2 & E2 & Hb2 & S2).
  exists w2. split; [|split; [done|]].
  { unfold fcp_action_free. rewrite E1. cbn [mbind option_bind]. rewrite E2. done. } unfold same_handles in *. destruct S1 as (?&?&?&?&?), S2 as (?&?&?&?&?).
  split_and!; try congruence. lia.
Qed.

(** The record at an index of a list, and the list with another in its place. *)
Lemma insert_split {A} (l : list A) i x y : l !! i = Some x ->
  l = take i l ++ x :: drop (S i) l /\ <[i := y]> l = take i l ++ y :: drop (S i) l.
Proof.
  intros Hi. split; [by rewrite take_drop_middle|]. apply insert_take_drop. by eapply lookup_lt_Some.
Qed.

(** *** Steps of a caller *)
Definition steps_owned (h : Host) (o : option Host) : Prop :=
  exists h', o = Some h' /\ owned h' /\ foreign (world h') = foreign (world h).

Lemma step_signer_free h i : owned h -> steps_owned h (host_step (SignerFree i) h).
Proof.
  intros [(H1 & H2 & H3) Hb]%owned_split. cbn [host_step].
  destruct (free_spec signers set_signers _ i (world h) _ H1) as (w' & o & E & Hc).
  unfold fcp_signer_free. rewrite E. simpl. eexists. split; [done|].
  destruct Hc as [[-> ->]|(p & -> & -> & Ho)]; (split; [|done]); apply owned_split; by split.
Qed.

Lemma step_client_free h i : owned h -> steps_owned h (host_step (ClientFree i) h).
Proof.
  intros [(H1 & H2 & H3) Hb]%owned_split. cbn [host_step].
  destruct (free_spec clients set_clients _ i (world h) _ H2) as (w' & o & E & Hc).
  unfold fcp_client_free. rewrite E. simpl. eexists. split; [done|].
  destruct Hc as [[-> ->]|(p & -> & -> & Ho)]; (split; [|done]); apply owned_split; by split.
Qed.

Lemma step_connection_free h i : owned h -> steps_owned h (host_step (ConnectionFree i) h).
Proof.
  intros [(H1 & H2 & H3) Hb]%owned_split. cbn [host_step].
  destruct (free_spec connections set_connections _ i (world h) _ H3) as (w' & o & E & Hc).
  unfold fcp_connection_free. rewrite E. simpl. eexists. split; [done|].
  destruct Hc as [[-> ->]|(p & -> & -> & Ho)]; (split; [|done]); apply owned_split; by split.
Qed.

Lemma step_same h o :
  owned h -> (exists w', o = Some (with_world h w') /\ same_boxes (world h) w') -> steps_owned h o.
Proof.
  intros Ho (w' & -> & Hs). eexists. split; [done|]. split; [by apply owned_handles|]. by destruct Hs.
Qed.

Lemma step_create h c : owned h -> Forall (readable (foreign (world h))) (slices c) ->
  match c with SignerGenerate _ | ClientCreate _ | ConnectionCreate _ _ => True | _ => False end ->
  steps_owned h (host_step c h).
Proof.
  intros [(H1 & H2 & H3) Hb]%owned_split Hr Hc. destruct c as [drawn| | |opts| | | |i opts| | | | | | | |]; try done;
    cbn [host_step slices] in *.
  - destruct (generate_stored drawn (world h)) as [Hs Hk]. pose proof Hs as (w' & st & o & E & _).
    rewrite E in Hs |- *. destruct (Hk _ _ _ E) as [E1 E2]. destruct (stored_next _ _ _ _ _ Hs) as (Hn & Eb & Ef).
    simpl. eexists. split; [done|]. split; [|done]. apply owned_split. split; [|by eapply boxed_grow].
    split_and!; simpl; [by eapply stored_owns|rewrite E1; by eapply owns_grow|rewrite E2; by eapply owns_grow].
  - destruct (client_create_stored opts (world h) Hr) as [Hs Hk]. pose proof Hs as (w' & st & o & E & _).
    rewrite E in Hs |- *. destruct (Hk _ _ _ E) as [E1 E2]. destruct (stored_next _ _ _ _ _ Hs) as (Hn & Eb & Ef).
    simpl. eexists. split; [done|]. split; [|done]. apply owned_split. split; [|by eapply boxed_grow].
    split_and!; simpl; [rewrite E1; by eapply owns_grow|by eapply stored_owns|rewrite E2; by eapply owns_grow].
  - destruct (connection_create_stored (slot_value (signer_slots h) i) opts (world h)) as [Hs Hk];
      [by eapply handle_live|done|]. pose proof Hs as (w' & st & o & E & _).
    rewrite E in Hs |- *. destruct (Hk _ _ _ E) as [E1 E2]. destruct (stored_next _ _ _ _ _ Hs) as (Hn & Eb & Ef).
    simpl. eexists. split; [done|]. split; [|done]. apply owned_split. split; [|by eapply boxed_grow].
    split_and!; simpl; [rewrite E1; by eapply owns_grow|rewrite E2; by eapply owns_grow|by eapply stored_owns].
Qed.

Lemma step_identity h i : owned h -> steps_owned h (host_step (SignerIdentity i) h).
Proof.
  intros [Hh Hb]%owned_split. cbn [host_step].
  destruct (identity_boxed (slot_value (signer_slots h) i) (buffers_of h) (world h)) as (w' & st & o & E & Hb' & Hs);
    [eapply handle_live; apply Hh|exact Hb|]. rewrite E. simpl. eexists. split; [done|].
  split; [|by destruct Hs]. apply owned_split. split; [by eapply handled_same|].
  unfold buffers_of, store in *. simpl. by rewrite (Permutation_app_comm (held h)), <- app_assoc.
Qed.

Lemma step_take h i : owned h -> steps_owned h (host_step (TakeAction i) h).
Proof.
  intros [(H1 & H2 & H3) Hb]%owned_split. cbn [host_step].
  destruct (take_boxed (slot_value (connection_slots h) i) (buffers_of h) (world h)) as (w' & st & o & E & Hb' & Ef & E1 & E2 & E3 & Hn);
    [by eapply handle_live|exact Hb|]. rewrite E. simpl. eexists. split; [done|]. split; [|done].
  apply owned_split. split.
  - split_and!; simpl; [rewrite E1|rewrite E2|rewrite E3]; by eapply owns_grow.
  - unfold buffers_of, store in *. simpl. rewrite bind_app, app_assoc. by rewrite Permutation_app_comm.
Qed.

Lemma step_buffer_free h i : owned h -> steps_owned h (host_step (BufferFree i) h).
Proof.
  intros [Hh Hb]%owned_split. cbn [host_step]. destruct (held h !! i) as [b|] eqn:E.
  2:{ simpl. eexists. split; [done|]. split; [|done]. apply owned_split. by split. }
  destruct (insert_split _ _ _ FcpOwnedBuffer_default E) as [E1 E2].
  unfold buffers_of in Hb. rewrite E1, <- app_assoc in Hb. simpl in Hb. rewrite <- Permutation_middle in Hb.
  destruct (boxed_free _ _ _ Hb) as (w' & Ew & Hb' & Hs). rewrite Ew. simpl. eexists. split; [done|].
  split; [|by destruct Hs]. apply owned_split. split; [by eapply handled_same|].
  unfold buffers_of. simpl. rewrite E2, <- app_assoc. simpl. by rewrite <- Permutation_middle.
Qed.

Lemma step_action_free h i : owned h -> steps_owned h (host_step (ActionFree i) h).
Proof.
  intros [Hh Hb]%owned_split. cbn [host_step]. destruct (held_actions h !! i) as [a|] eqn:E.
  2:{ simpl. eexists. split; [done|]. split; [|done]. apply owned_split. by split. }
  destruct (insert_split _ _ _ FcpAction_default E) as [E1 E2].
  assert (Hp : forall b l1 l2, held h ++ ((l1 ++ b :: l2) ≫= action_buffers) ≡ₚ
    action_buffers b ++ held h ++ (l1 ≫= action_buffers) ++ (l2 ≫= action_buffers)).
  { intros b l1 l2. rewrite bind_app, bind_cons. solve_Permutation. }
  unfold buffers_of in Hb. rewrite E1, Hp in Hb.
  destruct (boxed_action_free _ _ _ Hb) as (w' & Ew & Hb' & Hs). rewrite Ew. simpl. eexists. split; [done|].
  split; [|by destruct Hs]. apply owned_split. split; [by eapply handled_same|].
  unfold buffers_of. simpl. by rewrite E2, Hp.
Qed.

(** Running a call that only reads. *)
Lemma ffi_same {A} (m : Call A) w : reads m w -> exists st o, ffi_status m w = Some (w, st, o).
Proof. intros [[a|[s|]] Hm]; unfold ffi_status; rewrite Hm; eauto. Qed.

Lemma apply_same h s w :
  (forall p, h = Some p -> is_Some (clients w !! p)) -> readable (foreign w) s ->
  exists w' st o, fcp_client_apply_configuration h s w = Some (w', st, o) /\ same_boxes w w'.
Proof.
  intros Hh Hr. unfold fcp_client_apply_configuration.
  assert (Hl : forall p, h = Some p -> p ∈ dom (clients w)) by (intros p Hp; by apply elem_of_dom, Hh).
  destruct h as [p|]; [|by eexists _, _, _].
  destruct (Hh p eq_refl) as [c Hc]. specialize (Hl p eq_refl).
  unfold ffi_status, cbind, required_handle. rewrite Hc.
  destruct (reads_copy s MAX_ENVELOPE_BYTES w Hr) as [[l|[st|]] ->]; [|by eexists _, _, _..].
  destruct (SignedFederationConfiguration.decode_verified l) as [[cfg|e]|]; [|by eexists _, _, _..].
  destruct (FederationClient.apply_configuration cfg c) as [c' [[]|e]]; simpl;
    (eexists _, _, _; split; [reflexivity|]; split_and!; simpl; try done; rewrite dom_insert_L; set_solver).
Qed.

Lemma step_owned c h :
  owned h -> Forall (readable (foreign (world h))) (slices c) -> steps_owned h (host_step c h).
Proof.
  intros Ho Hr. pose proof Ho as [(H1 & H2 & H3) _]%owned_split. destruct c; cbn [slices] in Hr.
  1, 4, 8: by apply step_create.
  - by apply step_identity.
  - by apply step_signer_free.
  - apply step_same; [done|]. cbn [host_step]. apply Forall_cons_1 in Hr as [Hs _].
    destruct (apply_same (slot_value (client_slots h) i) configuration (world h)) as (w' & st & o & E & Hw);
      [by eapply handle_live|done|]. rewrite E. simpl. eauto.
  - apply step_same; [done|]. cbn [host_step]. unfold fcp_client_accepted_epoch.
    edestruct (ffi_same (A := Z * Z)) as (st & o & E); [|rewrite E; simpl; eauto using same_refl].
    apply readable_bind; [apply reads_handle; by eapply handle_live|]. intros [p x].
    do 2 (apply readable_bind; [by eexists|intros _]). destruct (FederationClient.accepted_epoch x); by eexists.
  - by apply step_client_free.
  - apply step_same; [done|]. cbn [host_step].
    destruct (exported_same c (slot_value (connection_slots h) i) (world h)) as (w' & st & o & E & Hw);
      [by eapply handle_live|done|]. rewrite E. simpl. eauto.
  - by apply step_take.
  - apply step_same; [done|]. cbn [host_step]. unfold fcp_connection_phase.
    edestruct (ffi_same (A := Z)) as (st & o & E); [|rewrite E; simpl; eauto using same_refl].
    apply readable_bind; [by eexists|intros _].
    apply readable_bind; [apply reads_handle; by eapply handle_live|]. intros [p x]. by eexists.
  - by apply step_connection_free.
  - by apply step_buffer_free.
  - by apply step_action_free.
  - apply step_same; [done|]. cbn [host_step]. unfold fcp_envelope_verify. apply Forall_cons_1 in Hr as [Hs _].
    edestruct (ffi_same (A := unit)) as (st & o & E); [|rewrite E; simpl; eauto using same_refl].
    apply readable_bind; [by apply reads_copy|intros l]. apply readable_bind; [apply readable_lift|intros ?]. by eexists.
  - apply step_same; [done|]. cbn [host_step]. unfold fcp_configuration_verify. apply Forall_cons_1 in Hr as [Hs _].
    edestruct (ffi_same (A := unit)) as (st & o & E); [|rewrite E; simpl; eauto using same_refl].
    destruct Hs as [[l|e] Hc]; unfold reads, cbind; rewrite borrowed_run, Hc; simpl; [|by eexists].
    repeat case_match; by eexists.
Qed.

Definition start (f : gmap loc bytes) : Host :=
  {| world := {| foreign := f; buffers := ∅; signers := ∅; clients := ∅; connections := ∅; next := 0 |};
     signer_slots := []; client_slots := []; connection_slots := []; held := []; held_actions := [] |}.

Lemma start_owned f : owned (start f).
Proof.
  assert (Ho : owns [] ∅ 0%N) by (split_and!; [constructor|set_solver..]).
  apply owned_split. split; [split_and!|split]; simpl; rewrite ?dom_empty_L; done.
Qed.

Lemma run_owned cs h :
  owned h -> Forall (fun c => Forall (readable (foreign (world h))) (slices c)) cs ->
  exists h', host_run cs h = Some h' /\ owned h'.
Proof.
  revert h. induction cs as [|c cs IH]; intros h Ho Hr; simpl; [eauto|].
  apply Forall_cons_1 in Hr as [Hc Hr]. destruct (step_owned c h Ho Hc) as (h1 & -> & Ho1 & Hf).
  simpl. apply IH; [done|]. by rewrite Hf.
Qed.

(** C23: the C ABI is memory safe for callers that pass back the slots it filled
    and readable input: whatever they call, in any order, null slots, repeated
    releases and failing calls included, no call touches a box that does not
    exist; and in every state the boxes that exist are exactly the ones some slot
    points to, one slot each, so nothing is lost or released twice. *)
Theorem abi_memory_safe f cs :
  Forall (fun c => Forall (readable f) (slices c)) cs ->
  exists h, host_run cs (start f) = Some h /\ owned h.
Proof. intros Hr. by apply (run_owned cs (start f)); [apply start_owned|]. Qed.

End boundary.
End Boundary.

(** ** Concrete callers *)
Module BoundaryExamples.
Import Abi Boundary.

#[local] Existing Instance Sample.crypto.
#[local] Existing Instance Sample.crypto_laws.
#[local] Existing Instance ClientExamples.cfr.

(** The caller's memory: a federation, an attempt, a peer, a binding and a
    description. *)
Definition memory : gmap loc bytes :=
  <[1%N := replicate 32 x01]> (<[2%N := replicate 16 x02]> (<[3%N := replicate 1984 x04]>
  (<[4%N := replicate 32 x05]> (<[5%N := [x06; x07]]> ∅)))).

Definition at_ (p : loc) (n : Z) : FcpByteSlice := {| slice_data := Some p; slice_len := n |}.
Definition options : FcpConnectionOptions :=
  {| option_federation := at_ 1 32; option_attempt := at_ 2 16; option_remote_endpoint := at_ 3 1984 |}.
Definition offer : ConnectionCall := CallBeginOffer (at_ 4 32) (at_ 5 2).

(** A whole life: the offer is taken and everything is released, twice. *)
Definition life : list HostCall :=
  [SignerGenerate (Some (Sample.signer x03)); SignerIdentity 0; ConnectionCreate 0 options; SignerFree 0;
   OnConnection offer 0; OnConnection offer 0; TakeAction 0; TakeAction 0; TakeAction 0;
   ActionFree 0; ActionFree 1; ActionFree 1; BufferFree 0; BufferFree 0; ConnectionFree 0; ConnectionFree 0;
   SignerFree 0; TakeAction 0].

Definition after (cs : list HostCall) : Host := default (start memory) (host_run cs (start memory)).

Lemma abi_memory_safe_witness :
  exists h, host_run life (start memory) = Some h /\ owned h /\ length (held_actions h) = 2%nat /\
    buffers (world h) = ∅.
Proof.
  assert (Hr : Forall (fun c => Forall (readable memory) (slices c)) life).
  { unfold life. repeat (constructor; [repeat constructor; vm_compute; eexists; reflexivity|]). constructor. }
  destruct (abi_memory_safe memory life Hr) as (h & Hh & Ho). exists h.
  split; [exact Hh|]. split; [exact Ho|].
  assert (Hv : match host_run life (start memory) with
    | Some h => bool_decide (length (held_actions h) = 2%nat) && bool_decide (buffers (world h) = ∅)
    | None => false end = true) by (vm_compute; reflexivity).
  rewrite Hh in Hv. apply andb_true_iff in Hv as [Hv1 Hv2].
  split; [exact (bool_decide_eq_true_1 _ Hv1) | exact (bool_decide_eq_true_1 _ Hv2)].
Defined.

(** An idle connection at address [7]. *)
Definition state : ConnectionState :=
  {| connection := Connection.Examples.idle x03 x04; state_signer := Sample.signer x03; actions := [] |}.
Definition idle_world : World :=
  {| foreign := memory; buffers := ∅; signers := ∅; clients := ∅; connections := {[7%N := state]}; next := 8 |}.

Lemma abi_refines_connection_witness :
  exported offer (Some 7%N) idle_world = connection_outcome idle_world 7 state offer /\
  match exported offer (Some 7%N) idle_world with Some (_, st, _) => st | None => 9 end = FCP_STATUS_OK.
Proof.
  split; [exact (abi_refines_connection offer 7%N state idle_world eq_refl)|vm_compute; reflexivity].
Defined.

(** A delivered payload waits in its queue. *)
Definition entry : QueuedAction :=
  {| queued_kind := 6; queued_binding := zero32; queued_sequence := zero_u32;
     queued_close_code := zero_u16; queued_envelope_id := zero32;
     queued_remote_endpoint := Some (Sample.identity x04); queued_payload := [x0c] |}.
Definition waiting_state : ConnectionState :=
  {| connection := Connection.Examples.idle x03 x04; state_signer := Sample.signer x03; actions := [entry] |}.
Definition waiting_world : World :=
  {| foreign := memory; buffers := ∅; signers := ∅; clients := ∅;
     connections := {[7%N := waiting_state]}; next := 8 |}.

Lemma abi_take_action_witness :
  exists w' a,
    fcp_connection_take_action (Some 7%N) true waiting_world = Some (w', FCP_STATUS_OK, Some a) /\
    carries (buffers w') a entry.
Proof.
  destruct (abi_take_action 7%N waiting_state waiting_world eq_refl) as (w' & a & E & Hc & _).
  { intros p l Hp. change ((∅ : gmap loc bytes) !! p = Some l) in Hp. rewrite lookup_empty in Hp. discriminate Hp. }
  exists w', a. split; [exact E|exact Hc].
Defined.

End BoundaryExamples.
