(* ===== verification/Wasm.v ===== *)
(** * The browser façade

    [crates/libfcp-wasm/src]: the classes and functions exported to JavaScript.
    Byte arrays arrive and leave by value, so there is no memory to model; a
    [JsError] is its message, and [None] is a panic.  The C ABI and this façade
    wrap the same state machine, and the last theorem relates them. *)

From Stdlib Require Import ZArith Lia String.
From stdpp Require Import base list option numbers decidable sets gmap.
From S2P Require Import Prelude Bytes BTree Types Identity Sample Wire Codec Conn Config Client Abi Boundary.

Abbreviation JsError := string.

(** An action as JavaScript reads it. *)
Module JsAction.
Record FcpAction : Type := {
  kind : Z;
  binding : bytes;
  sequence : u32;
  close_code : u16;
  envelope_id : bytes;
  remote_endpoint : bytes;
  payload : bytes;
}.
End JsAction.

Module FcpConnection.
Import JsAction.

Section facade.
Context `{Cfr, Crypto}.

(** ** Arguments ([error.rs]) *)
Definition bounded (value : bytes) (maximum : Z) : result JsError unit :=
  if decide (maximum < blen value) then Err "FCP input exceeds its fixed public bound"%string else Ok tt.

Definition core_error (_ : Error) : JsError := "FCP canonical validation or state transition failed"%string.

Definition fixed (n : Z) (l : bytes) : result JsError (array n) :=
  ok_or (array_try n l) "FCP fixed-width value has an invalid byte length"%string.

(** The copy of the second key panics on a length that does not match. *)
Definition endpoint_identity (l : bytes) : X JsError EndpointIdentity :=
  if decide (blen l <> 1984) then xret (Err "FCP endpoint identity has an invalid fixed width"%string) else
  let* classical := xret (fixed 32 (take 32 l)) in
  match array_try 1952 (drop 32 l) with
  | Some post_quantum => xret (Ok (EndpointIdentity_new (EndpointKey_from_bytes classical) post_quantum))
  | None => None
  end.

(** ** Actions ([action.rs]) *)
Definition blank (kind : Z) (payload : bytes) : FcpAction :=
  {| kind := kind; binding := replicate 32 x00; sequence := zero_u32; close_code := zero_u16;
     envelope_id := replicate 32 x00; remote_endpoint := []; payload := payload |}.

Definition convert_action (action : Action) : result JsError FcpAction :=
  match action with
  | Send envelope =>
      let? payload := map_err core_error (Envelope.encode envelope) in
      Ok (blank 1 payload)
  | ApplyOffer b description =>
      Ok {| kind := 2; binding := abytes (binding_as_bytes b); sequence := zero_u32;
            close_code := zero_u16; envelope_id := replicate 32 x00; remote_endpoint := [];
            payload := description |}
  | ApplyAnswer b description =>
      Ok {| kind := 3; binding := abytes (binding_as_bytes b); sequence := zero_u32;
            close_code := zero_u16; envelope_id := replicate 32 x00; remote_endpoint := [];
            payload := description |}
  | AddCandidate sequence candidate =>
      Ok {| kind := 4; binding := replicate 32 x00; sequence := sequence; close_code := zero_u16;
            envelope_id := replicate 32 x00; remote_endpoint := []; payload := candidate |}
  | OpenControlChannel => Ok (blank 5 [])
  | DeliverCfr id remote payload =>
      Ok {| kind := 6; binding := replicate 32 x00; sequence := zero_u32; close_code := zero_u16;
            envelope_id := abytes (envelope_id_as_bytes id); remote_endpoint := identity_bytes remote;
            payload := payload |}
  | CloseTransport reason =>
      Ok {| kind := 7; binding := replicate 32 x00; sequence := zero_u32;
            close_code := close_code_as_u16 reason; envelope_id := replicate 32 x00;
            remote_endpoint := []; payload := [] |}
  end.

(** ** Connections ([connection.rs]) *)
Record ConnectionState : Type := {
  connection : Connection.t;
  signer : SigningIdentity;
  actions : list FcpAction;
}.

Definition set_actions (l : list FcpAction) (s : ConnectionState) : ConnectionState :=
  {| connection := connection s; signer := signer s; actions := l |}.

(** A method of the inner connection, its error converted. *)
Definition core {A} (m : SigningIdentity -> Connection.C A) : M ConnectionState JsError A :=
  fun s =>
    let '(c, r) := m (signer s) (connection s) in
    ({| connection := c; signer := signer s; actions := actions s |}, map_err core_error r).

Fixpoint enqueue (l : list Action) : M ConnectionState JsError unit :=
  match l with
  | [] => ret tt
  | action :: l =>
      do a <- lift (convert_action action);
      do_ modify (fun s => set_actions (actions s ++ [a]) s);
      enqueue l
  end.

Definition new (s : SigningIdentity) (federation attempt remote_endpoint : bytes) :
    X JsError ConnectionState :=
  let* federation := xret (fixed 32 federation) in
  let* attempt := xret (fixed 16 attempt) in
  let* remote := endpoint_identity remote_endpoint in
  let* connection := xret (map_err core_error
    (Connection.new (FederationId_from_bytes federation) (AttemptId_from_bytes attempt)
       (endpoint s) remote)) in
  xret (Ok {| connection := connection; signer := s; actions := [] |}).

Definition begin_offer (binding description : bytes) : M ConnectionState JsError unit :=
  do_ lift (bounded description MAX_DESCRIPTION_BYTES);
  do binding <- lift (fixed 32 binding);
  do actions <- core (fun signer =>
    Connection.begin_offer signer (WebRtcBinding_from_bytes binding) description);
  enqueue actions.

Definition answer (binding description : bytes) : M ConnectionState JsError unit :=
  do_ lift (bounded description MAX_DESCRIPTION_BYTES);
  do binding <- lift (fixed 32 binding);
  do action <- core (fun signer =>
    Connection.answer signer (WebRtcBinding_from_bytes binding) description);
  enqueue [action].

Definition add_candidate (sequence : u32) (candidate : bytes) : M ConnectionState JsError unit :=
  do_ lift (bounded candidate MAX_CANDIDATE_BYTES);
  do action <- core (fun signer => Connection.candidate signer sequence candidate);
  enqueue [action].

Definition cfr_control (payload : bytes) : M ConnectionState JsError unit :=
  do_ lift (bounded payload MAX_CFR_CONTROL_BYTES);
  do action <- core (fun signer => Connection.cfr_control signer payload);
  enqueue [action].

Definition close_with_code (close_code : u16) : M ConnectionState JsError unit :=
  do action <- core (fun signer => Connection.close signer (CloseCode_from_u16 close_code));
  enqueue [action].

Definition receive (envelope : bytes) : M ConnectionState JsError unit :=
  do_ lift (bounded envelope MAX_ENVELOPE_BYTES);
  do envelope <- lift (map_err core_error (Envelope.decode_verified envelope));
  do actions <- core (fun _ => Connection.receive envelope);
  enqueue actions.

Definition transport_connected : M ConnectionState JsError unit :=
  do actions <- core (fun _ => Connection.transport_connected);
  enqueue actions.

Definition transport_failed : M ConnectionState JsError unit :=
  core (fun _ => Connection.transport_failed).

(** [VecDeque::pop_front]; [None] is JavaScript's [undefined]. *)
Definition take_action (s : ConnectionState) : ConnectionState * option FcpAction :=
  match actions s with
  | [] => (s, None)
  | a :: l => (set_actions l s, Some a)
  end.

Definition phase (s : ConnectionState) : Z :=
  match Connection.phase (connection s) with
  | Idle => 0
  | OfferSent => 1
  | OfferReceived => 2
  | AnswerSent => 3
  | AnswerReceived => 4
  | Established => 5
  | Closed => 6
  end.

(** ** Verification ([lib.rs]) *)
Definition verify_envelope (envelope : bytes) : result JsError unit :=
  let? _ := bounded envelope MAX_ENVELOPE_BYTES in
  let? _ := map_err core_error (Envelope.decode_verified envelope) in
  Ok tt.

Definition verify_configuration (configuration : bytes) : X JsError unit :=
  match SignedFederationConfiguration.decode_verified configuration with
  | None => None
  | Some r => xret (let? _ := map_err core_error r in Ok tt)
  end.

End facade.
End FcpConnection.

(** ** The two façades *)
Module Facades.
Import JsAction FcpConnection.

Section facades.
Context `{Cfr, Crypto}.

(** A call from JavaScript. *)
Inductive BrowserCall : Type :=
| BeginOffer (binding description : bytes)
| Answer (binding description : bytes)
| Candidate (sequence : u32) (candidate : bytes)
| CfrControl (payload : bytes)
| Close (close_code : u16)
| Receive (envelope : bytes)
| Connected
| Failed.

Definition invoke (c : BrowserCall) : M ConnectionState JsError unit :=
  match c with
  | BeginOffer b d => begin_offer b d
  | Answer b d => answer b d
  | Candidate n l => add_candidate n l
  | CfrControl l => cfr_control l
  | Close code => close_with_code code
  | Receive l => receive l
  | Connected => transport_connected
  | Failed => transport_failed
  end.

(** The input of the state machine a call stands for. *)
Definition browser_input (sg : SigningIdentity) (c : BrowserCall) :
    result JsError (Connection.Input (S := SigningIdentity)) :=
  match c with
  | BeginOffer b d =>
      let? _ := bounded d MAX_DESCRIPTION_BYTES in
      let? b := fixed 32 b in Ok (Connection.IBeginOffer sg (WebRtcBinding_from_bytes b) d)
  | Answer b d =>
      let? _ := bounded d MAX_DESCRIPTION_BYTES in
      let? b := fixed 32 b in Ok (Connection.IAnswer sg (WebRtcBinding_from_bytes b) d)
  | Candidate n l => let? _ := bounded l MAX_CANDIDATE_BYTES in Ok (Connection.ICandidate sg n l)
  | CfrControl l => let? _ := bounded l MAX_CFR_CONTROL_BYTES in Ok (Connection.ICfrControl sg l)
  | Close code => Ok (Connection.IClose sg (CloseCode_from_u16 code))
  | Receive l =>
      let? _ := bounded l MAX_ENVELOPE_BYTES in
      let? e := map_err core_error (Envelope.decode_verified l) in Ok (Connection.IReceive e)
  | Connected => Ok Connection.ITransportConnected
  | Failed => Ok Connection.ITransportFailed
  end.

(** The record JavaScript reads for a queue entry of the C ABI. *)
Definition converted (q : QueuedAction) : FcpAction :=
  {| kind := queued_kind q; binding := abytes (queued_binding q); sequence := queued_sequence q;
     close_code := queued_close_code q; envelope_id := abytes (queued_envelope_id q);
     remote_endpoint := from_option identity_bytes [] (queued_remote_endpoint q);
     payload := queued_payload q |}.

Lemma convert_queued a q : Abi.queued_action a = Ok q -> convert_action a = Ok (converted q).
Proof.
  destruct a as [e| | | | | |]; simpl; [|by intros [= <-]..].
  by destruct (Envelope.encode e) as [l|er]; [intros [= <-]|].
Qed.

Definition outcome (s : ConnectionState) (i : Connection.Input (S := SigningIdentity)) :
    ConnectionState * result JsError unit :=
  match Connection.run i (connection s) with
  | (c', Ok acts) =>
      ({| connection := c'; signer := signer s; actions := actions s ++ (converted <$> Boundary.queued acts) |}, Ok tt)
  | (_, Err e) => (s, Err (core_error e))
  end.

Lemma enqueue_run l s :
  Forall Boundary.encodable l ->
  enqueue l s = (set_actions (actions s ++ (converted <$> Boundary.queued l)) s, Ok tt).
Proof.
  intros Hl. revert s. induction Hl as [|a l Ha _ IH]; intros s.
  { destruct s. simpl. unfold ret, set_actions. by rewrite app_nil_r. }
  destruct (Abi.queued_action a) as [q|e] eqn:Hq.
  - cbn [enqueue]. unfold bind, lift, modify. rewrite (convert_queued _ _ Hq), IH. simpl.
    unfold Boundary.queued. simpl. rewrite Hq. simpl. unfold set_actions. simpl. by rewrite <- app_assoc.
  - destruct a as [e'| | | | | |]; simplify_eq/=. by rewrite encode_ok in Hq.
Qed.

Lemma core_enqueue (f : SigningIdentity -> Connection.C (list Action)) i s :
  Connection.run i = f (signer s) -> (do actions <- core f; enqueue actions) s = outcome s i.
Proof.
  intros Hi. unfold bind, core, outcome.
  pose proof (Boundary.run_encodable i (connection s)) as He. pose proof (Connection.run_err i (connection s)) as Hx.
  rewrite Hi in *. destruct (f (signer s) (connection s)) as [c' [acts|e]]; simpl.
  - by rewrite enqueue_run by by eapply He.
  - rewrite (Hx _ _ eq_refl). by destruct s.
Qed.

Lemma core_enqueue_one (f : SigningIdentity -> Connection.C Action) i s :
  Connection.run i = Connection.one (f (signer s)) ->
  (do action <- core f; enqueue [action]) s = outcome s i.
Proof.
  intros Hi. rewrite <- (core_enqueue (fun sg => Connection.one (f sg)) i s Hi).
  unfold bind, core, Connection.one, bind, ret. by destruct (f (signer s) (connection s)) as [c' [a|e]].
Qed.

Lemma invoke_run c s :
  invoke c s = match browser_input (signer s) c with
               | Ok i => outcome s i
               | Err e => (s, Err e)
               end.
Proof.
  destruct c as [b d|b d|n l|l|code|l| |]; cbn [invoke browser_input];
    unfold begin_offer, answer, add_candidate, cfr_control, close_with_code, receive.
  - unfold bind at 1 2, lift. destruct (bounded d _) as [[]|e]; [|done]. simpl.
    destruct (fixed 32 b) as [b'|e]; [|done]. by apply core_enqueue.
  - unfold bind at 1 2, lift. destruct (bounded d _) as [[]|e]; [|done]. simpl.
    destruct (fixed 32 b) as [b'|e]; [|done]. by apply core_enqueue_one.
  - unfold bind at 1, lift. destruct (bounded l _) as [[]|e]; [|done]. by apply core_enqueue_one.
  - unfold bind at 1, lift. destruct (bounded l _) as [[]|e]; [|done]. by apply core_enqueue_one.
  - by apply core_enqueue_one.
  - unfold bind at 1 2, lift. destruct (bounded l _) as [[]|e]; [|done]. simpl.
    destruct (Envelope.decode_verified l) as [e|er]; [|done]. by apply core_enqueue.
  - by apply core_enqueue.
  - unfold transport_failed, core, outcome. cbn [Connection.run]. unfold bind, ret.
    pose proof (Connection.run_err (S := SigningIdentity) Connection.ITransportFailed (connection s)) as Hx.
    cbn [Connection.run] in Hx. unfold bind, ret in Hx.
    destruct (Connection.transport_failed (connection s)) as [c' [[]|e]]; simpl.
    + by rewrite app_nil_r.
    + rewrite (Hx _ _ eq_refl). by destruct s.
Qed.

(** ** The same call from C

    [lends f s l]: the range [s] of the memory [f] holds the bytes [l]. *)
Definition lends (f : gmap loc bytes) (s : FcpByteSlice) (l : bytes) : Prop :=
  Boundary.contents f s = Some (Ok l).

Definition same_call (f : gmap loc bytes) (c : Boundary.ConnectionCall) (c' : BrowserCall) : Prop :=
  match c, c' with
  | Boundary.CallBeginOffer b d, BeginOffer b' d' | Boundary.CallAnswer b d, Answer b' d' =>
      lends f b b' /\ lends f d d'
  | Boundary.CallCandidate n s, Candidate n' l => n = n' /\ lends f s l
  | Boundary.CallCfrControl s, CfrControl l | Boundary.CallReceive s, Receive l => lends f s l
  | Boundary.CallClose code, Close code' => code = code'
  | Boundary.CallConnected, Connected | Boundary.CallFailed, Failed => True
  | _, _ => False
  end.

Definition same_state (s : Abi.ConnectionState) (b : ConnectionState) : Prop :=
  connection b = Abi.connection s /\ signer b = Abi.state_signer s /\ actions b = converted <$> Abi.actions s.

Lemma lends_bounded f s l n :
  0 <= n -> lends f s l ->
  if decide (n < blen l) then Boundary.bounded f s n = Some (Err FCP_STATUS_TOO_LARGE)
  else Boundary.bounded f s n = Some (Ok l).
Proof.
  unfold lends, Boundary.bounded. intros Hn Hl. assert (Hb : n < slice_len s <-> n < blen l).
  { unfold Boundary.contents in Hl. case_decide as Hz; simplify_eq/=; [unfold blen; simpl; lia|].
    destruct (slice_data s); simplify_eq/=. destruct (f !! _) as [m|]; simplify_eq/=.
    case_decide; simplify_eq/=. unfold blen in *. rewrite length_take. lia. }
  destruct (decide (n < blen l)) as [Hd|Hd]; [by rewrite decide_True by tauto|by rewrite decide_False by tauto].
Qed.

(** What both façades make of the same arguments. *)
Lemma inputs_agree f sg c c' :
  same_call f c c' ->
  match browser_input sg c' with
  | Ok i => Boundary.input f sg c = Some (Ok i)
  | Err _ => exists e, Boundary.input f sg c = Some (Err e) /\ e <> FCP_STATUS_OK
  end.
Proof.
  destruct c as [b d|b d|n s|s|code|s| |], c' as [b' d'|b' d'|n' l|l|code'|l| |]; simpl; try done.
  1,2: intros [Hb Hd]; unfold lends in Hb; unfold Boundary.exact; rewrite Hb; simpl;
    apply (lends_bounded _ _ _ MAX_DESCRIPTION_BYTES) in Hd; [|done]; unfold bounded, fixed;
    destruct (decide _); simpl; destruct (array_try 32 b'); simpl; rewrite ?Hd; simpl; eauto.
  1: intros [-> Hl]; apply (lends_bounded _ _ _ MAX_CANDIDATE_BYTES) in Hl; [|done].
  2: intros Hl; apply (lends_bounded _ _ _ MAX_CFR_CONTROL_BYTES) in Hl; [|done].
  3: by intros ->.
  3: intros Hl; apply (lends_bounded _ _ _ MAX_ENVELOPE_BYTES) in Hl; [|done].
  1,2,3: unfold bounded; destruct (decide _); rewrite Hl; simpl; eauto.
  destruct (Envelope.decode_verified l); simpl; eauto.
Qed.

Lemma calls_agree c c' p s w b :
  Abi.connections w !! p = Some s -> same_state s b -> same_call (Abi.foreign w) c c' ->
  exists w' st o s',
    Boundary.exported c (Some p) w = Some (w', st, o) /\
    Abi.connections w' !! p = Some s' /\ same_state s' (fst (invoke c' b)) /\
    (st = FCP_STATUS_OK <-> snd (invoke c' b) = Ok tt).
Proof.
  intros Hp Hs Hc. rewrite (Boundary.exported_run _ _ _ _ Hp), invoke_run.
  destruct Hs as (Hsc & Hsg & Hsa). apply (inputs_agree _ (signer b)) in Hc. rewrite Hsg in *.
  unfold Boundary.connection_outcome, outcome. destruct (browser_input _ c') as [i|e].
  - rewrite Hc, Hsc. destruct (Connection.run i _) as [cn [acts|e]]; eexists _, _, _, _; (split; [reflexivity|]).
    + simpl. rewrite lookup_insert_eq. split; [done|]. split; [|done].
      unfold same_state. simpl. by rewrite Hsg, Hsa, fmap_app.
    + done.
  - destruct Hc as (e' & -> & He). eexists _, _, _, _; (split; [reflexivity|]). simpl.
    split; [done|]. split; [done|]. split; intros Hx; [by destruct He|by inversion Hx].
Qed.

(** C26: the browser façade and the C ABI agree.  On connections in the same state,
    a call from JavaScript and the call from C that lends the same bytes either
    both succeed or both fail; afterwards the connections are again in the same
    state, their queues holding the same actions in the same order. *)
Theorem facades_agree c c' p s w b :
  Abi.connections w !! p = Some s -> same_state s b -> same_call (Abi.foreign w) c c' ->
  exists w' st o s',
    Boundary.exported c (Some p) w = Some (w', st, o) /\
    Abi.connections w' !! p = Some s' /\ same_state s' (fst (invoke c' b)) /\
    (st = FCP_STATUS_OK <-> snd (invoke c' b) = Ok tt).
Proof. apply calls_agree. Qed.

End facades.
End Facades.

(** ** An offer made from both *)
Module WasmExamples.
Import FcpConnection Facades.

#[local] Existing Instance Sample.crypto.
#[local] Existing Instance Sample.crypto_laws.
#[local] Existing Instance ClientExamples.cfr.

Definition browser_state : ConnectionState :=
  {| connection := Connection.Examples.idle x03 x04; signer := Sample.signer x03; actions := [] |}.
Definition browser_offer : BrowserCall := BeginOffer (replicate 32 x05) [x06; x07].

Lemma facades_agree_witness :
  exists w' o s',
    Boundary.exported BoundaryExamples.offer (Some 7%N) BoundaryExamples.idle_world = Some (w', FCP_STATUS_OK, o) /\
    same_state s' (fst (invoke browser_offer browser_state)) /\
    match snd (invoke browser_offer browser_state) with Ok _ => true | Err _ => false end = true.
Proof.
  destruct (facades_agree BoundaryExamples.offer browser_offer 7%N BoundaryExamples.state
              BoundaryExamples.idle_world browser_state eq_refl) as (w' & st & o & s' & E & _ & Hs & Hst).
  { split; [reflexivity|]. split; reflexivity. }
  { split; vm_compute; reflexivity. }
  assert (Ho : match snd (invoke browser_offer browser_state) with Ok _ => true | Err _ => false end = true)
    by (vm_compute; reflexivity).
  assert (Hu : snd (invoke browser_offer browser_state) = Ok tt).
  { destruct (snd (invoke browser_offer browser_state)) as [[]|e]; [reflexivity|discriminate Ho]. }
  apply Hst in Hu. subst st. exists w', o, s'. split; [exact E|]. split; [exact Hs|exact Ho].
Defined.

End WasmExamples.
