(* ===== verification/Python.v ===== *)
(** * The Python binding

    [bindings/python/src/libfcp_python/__init__.py], a caller of the C ABI.  Bytes
    passed to a call are copied to storage that lives as long as the call; what
    the library returns is copied out of its memory and released.  Arguments are
    of their annotated types, [ctypes] keeps the low bits of an integer, and a
    native status other than success is the exception [NativeStatusError]; as in
    [Abi], [None] is undefined behaviour.  Loading the library and its prototypes
    are left out. *)

From Stdlib Require Import ZArith Lia String.
From stdpp Require Import base list option numbers decidable sets gmap.
From S2P Require Import Prelude Bytes BTree Types Identity Sample Wire Codec Conn Config Client Abi Boundary Wasm.

Module Python.
Import Abi.

(** [c_uint32(n)] and [c_uint16(n)]: no overflow check. *)
Definition c_uint32 (n : Z) : u32 := default zero_u32 (uint_try 32 (n mod 2 ^ 32)).
Definition c_uint16 (n : Z) : u16 := default zero_u16 (uint_try 16 (n mod 2 ^ 16)).

Inductive PyError : Type := NativeStatusError (status : FcpStatus).

(** One copied action, the fields JavaScript reads as well. *)
Abbreviation Action := JsAction.FcpAction.

Section python.
Context `{Cfr, Crypto}.

Definition Py (A : Type) : Type := World -> option (World * result PyError A).

Definition set_foreign (m : gmap loc bytes) (w : World) : World :=
  {| foreign := m; buffers := buffers w; signers := signers w; clients := clients w;
     connections := connections w; next := next w |}.

(** [_borrow]: no storage for no bytes. *)
Definition borrow (value : bytes) (w : World) : World * FcpByteSlice :=
  if bool_decide (value = []) then (w, {| slice_data := None; slice_len := 0 |})
  else (bump (set_foreign (<[next w := value]> (foreign w)) w),
        {| slice_data := Some (next w); slice_len := blen value |}).

(** A call with borrowed bytes, whose storage is gone when it returns. *)
Definition borrowing {A} (value : bytes) (call : FcpByteSlice -> World -> option (World * A)) (w : World) :
    option (World * A) :=
  let '(w1, slice) := borrow value w in
  '(w2, a) ← call slice w1;
  Some (set_foreign (foreign w) w2, a).

(** [_require] on the status of a call; the value is what the call wrote. *)
Definition require {A} (r : option (World * FcpStatus * A)) : option (World * result PyError A) :=
  '(w, status, a) ← r;
  Some (w, if decide (status = FCP_STATUS_OK) then Ok a else Err (NativeStatusError status)).

(** [string_at]: native memory is read where a box is. *)
Definition string_at (data : option loc) (n : Z) (w : World) : option bytes :=
  p ← data; l ← buffers w !! p;
  if decide (n <= blen l) then Some (take (Z.to_nat n) l) else None.

Definition contents_of (buffer : FcpOwnedBuffer) (w : World) : option bytes :=
  if decide (len buffer = 0) then Some [] else string_at (data buffer) (len buffer) w.

Definition copy_and_free (buffer : FcpOwnedBuffer) : Py bytes := fun w =>
  l ← contents_of buffer w;
  '(w, _) ← fcp_buffer_free (Some buffer) w;
  Some (w, Ok l).

(** ** [Signer] *)
Definition Signer_init (drawn : option SigningIdentity) : Py (option loc) := fun w =>
  require (fcp_signer_generate drawn true w).

Definition Signer_close (handle : option loc) (w : World) : option (World * option loc) :=
  '(w, slot) ← fcp_signer_free (Some handle) w;
  Some (w, default None slot).

Definition public_identity (handle : option loc) : Py bytes := fun w =>
  '(w, r) ← require (fcp_signer_public_identity handle true w);
  match r with
  | Err e => Some (w, Err e)
  | Ok output => copy_and_free (default FcpOwnedBuffer_default output) w
  end.

(** ** [Connection] *)
Definition Connection_init (signer : option loc) (federation attempt remote_endpoint : bytes) : Py (option loc) :=
  borrowing federation (fun federation => borrowing attempt (fun attempt =>
    borrowing remote_endpoint (fun remote w =>
      require (fcp_connection_create signer
        {| option_federation := federation; option_attempt := attempt; option_remote_endpoint := remote |} true w)))).

Definition Connection_close (handle : option loc) (w : World) : option (World * option loc) :=
  '(w, slot) ← fcp_connection_free (Some handle) w;
  Some (w, default None slot).

Definition begin_offer (handle : option loc) (binding description : bytes) : Py (option unit) :=
  borrowing binding (fun binding => borrowing description (fun description w =>
    require (fcp_connection_begin_offer handle binding description w))).

Definition answer (handle : option loc) (binding description : bytes) : Py (option unit) :=
  borrowing binding (fun binding => borrowing description (fun description w =>
    require (fcp_connection_answer handle binding description w))).

Definition add_candidate (handle : option loc) (sequence : Z) (candidate : bytes) : Py (option unit) :=
  borrowing candidate (fun candidate w =>
    require (fcp_connection_candidate handle (c_uint32 sequence) candidate w)).

Definition receive (handle : option loc) (envelope : bytes) : Py (option unit) :=
  borrowing envelope (fun envelope w => require (fcp_connection_receive handle envelope w)).

Definition transport_connected (handle : option loc) : Py (option unit) := fun w =>
  require (fcp_connection_transport_connected handle w).

Definition transport_failed (handle : option loc) : Py (option unit) := fun w =>
  require (fcp_connection_transport_failed handle w).

Definition close_with_code (handle : option loc) (close_code : Z) : Py (option unit) := fun w =>
  require (fcp_connection_close handle (c_uint16 close_code) w).

Definition take_action (handle : option loc) : Py (option Action) := fun w =>
  '(w, status, o) ← fcp_connection_take_action handle true w;
  if decide (status = FCP_STATUS_NO_ACTION) then Some (w, Ok None) else
  if decide (status <> FCP_STATUS_OK) then Some (w, Err (NativeStatusError status)) else
  let action := default FcpAction_default o in
  remote ← contents_of (remote_endpoint action) w;
  payload ← contents_of (action_payload action) w;
  '(w, _) ← fcp_action_free (Some action) w;
  Some (w, Ok (Some {| JsAction.kind := kind action; JsAction.binding := abytes (binding action);
                       JsAction.sequence := sequence action; JsAction.close_code := close_code action;
                       JsAction.envelope_id := abytes (envelope_id action);
                       JsAction.remote_endpoint := remote; JsAction.payload := payload |})).

Definition phase (handle : option loc) : Py (option Z) := fun w =>
  require (fcp_connection_phase handle true w).

Definition verify_envelope (envelope : bytes) : Py (option unit) :=
  borrowing envelope (fun envelope w => require (fcp_envelope_verify envelope w)).

End python.
End Python.

(** ** What the binding guarantees *)
Module PythonProcess.
Import Abi Boundary Facades Python.

Section process.
Context `{Cfr, Crypto}.

(** Storage has addresses below the next one. *)
Definition stored_below (w : World) : Prop := forall p, p ∈ dom (foreign w) -> (p < next w)%N.

(** Only the storage of arguments differs. *)
Definition lent (w w1 : World) : Prop :=
  buffers w1 = buffers w /\ signers w1 = signers w /\ clients w1 = clients w /\
  connections w1 = connections w /\ (next w <= next w1)%N.

Lemma lends_more f p l s k : f !! p = None -> lends f s k -> lends (<[p := l]> f) s k.
Proof.
  unfold lends, contents. intros Hp. case_decide; [done|]. destruct (slice_data s) as [q|]; [|done]. simpl.
  destruct (f !! q) as [m|] eqn:E; simpl; [|done]. by rewrite lookup_insert_ne, E by congruence.
Qed.

Lemma borrow_lends value w :
  stored_below w ->
  let '(w1, s) := borrow value w in
  lent w w1 /\ lends (foreign w1) s value /\ stored_below w1 /\
  forall s' l', lends (foreign w) s' l' -> lends (foreign w1) s' l'.
Proof.
  intros Hb. unfold borrow. case_bool_decide as Hv.
  { subst. by split; [unfold lent|]. }
  split; [unfold lent; simpl; split_and!; try done; lia|]. split_and!; simpl.
  - unfold lends, contents. simpl. rewrite decide_False.
    2:{ destruct value; [done|]. unfold blen. simpl. lia. }
    rewrite lookup_insert_eq. simpl. rewrite decide_True by lia. unfold blen. by rewrite Nat2Z.id, take_ge.
  - intros p. simpl. rewrite dom_insert_L, elem_of_union, elem_of_singleton. intros [->|Hp%Hb]; lia.
  - intros s' l'. apply lends_more. apply not_elem_of_dom. intros Hp%Hb. lia.
Qed.

(** A call that finds its arguments. *)
Lemma borrowing_run {A} value (call : FcpByteSlice -> World -> option (World * A)) w (Q : World -> A -> Prop) :
  stored_below w ->
  (forall w1 s, lent w w1 -> lends (foreign w1) s value -> stored_below w1 ->
     (forall s' l', lends (foreign w) s' l' -> lends (foreign w1) s' l') ->
     exists w2 a, call s w1 = Some (w2, a) /\ Q (set_foreign (foreign w) w2) a) ->
  exists w2 a, borrowing value call w = Some (w2, a) /\ Q w2 a.
Proof.
  intros Hb Hc. pose proof (borrow_lends value w Hb) as Hl. unfold borrowing. destruct (borrow value w) as [w1 s].
  destruct Hl as (H1 & H2 & H3 & H4). destruct (Hc w1 s H1 H2 H3 H4) as (w2 & a & -> & HQ). simpl. eauto.
Qed.

Inductive Method : Type :=
| BeginOffer (binding description : bytes)
| Answer (binding description : bytes)
| AddCandidate (sequence : Z) (candidate : bytes)
| Receive (envelope : bytes)
| Connected
| Failed
| CloseWithCode (close_code : Z).

Definition method (m : Method) (handle : option loc) : Py (option unit) :=
  match m with
  | BeginOffer b d => begin_offer handle b d
  | Answer b d => answer handle b d
  | AddCandidate n l => add_candidate handle n l
  | Receive l => receive handle l
  | Connected => transport_connected handle
  | Failed => transport_failed handle
  | CloseWithCode n => close_with_code handle n
  end.

(** The call of the browser façade with the same arguments. *)
Definition browser (m : Method) : BrowserCall :=
  match m with
  | BeginOffer b d => Facades.BeginOffer b d
  | Answer b d => Facades.Answer b d
  | AddCandidate n l => Facades.Candidate (c_uint32 n) l
  | Receive l => Facades.Receive l
  | Connected => Facades.Connected
  | Failed => Facades.Failed
  | CloseWithCode n => Facades.Close (c_uint16 n)
  end.

(** Every method is one call of the C ABI, with its arguments lent. *)
Lemma method_calls m h w (Q : World -> result PyError (option unit) -> Prop) :
  stored_below w ->
  (forall c w1, lent w w1 -> same_call (foreign w1) c (browser m) ->
     exists w2 r, require (exported c h w1) = Some (w2, r) /\ Q (set_foreign (foreign w) w2) r) ->
  (forall w2 r, Q (set_foreign (foreign w) w2) r -> foreign w2 = foreign w -> Q w2 r) ->
  (forall c w2 st o, exported c h w = Some (w2, st, o) -> foreign w2 = foreign w) ->
  exists w2 r, method m h w = Some (w2, r) /\ Q w2 r.
Proof.
  intros Hb Hc HQ Hf. assert (Hs : lent w w) by by split_and!.
  assert (H1 : forall c, same_call (foreign w) c (browser m) ->
    exists w2 r, require (exported c h w) = Some (w2, r) /\ Q w2 r).
  { intros c Hcall. destruct (Hc c w Hs Hcall) as (w2 & r & E & Hq). exists w2, r. split; [done|]. apply HQ; [done|].
    unfold require in E. destruct (exported c h w) as [[[w3 st] o]|] eqn:Ee; [|done]. simpl in E. simplify_eq.
    by eapply Hf. }
  assert (H2 : forall value (k : FcpByteSlice -> ConnectionCall),
    (forall w1 s, lends (foreign w1) s value -> same_call (foreign w1) (k s) (browser m)) ->
    exists w2 r, borrowing value (fun s w => require (exported (k s) h w)) w = Some (w2, r) /\ Q w2 r).
  { intros value k Hk. apply borrowing_run; [done|]. intros w1 s Hl Hv _ _. apply Hc; [done|by apply Hk]. }
  destruct m as [b d|b d|n l|l| | |n]; cbn [method browser] in *.
  1,2: apply borrowing_run; [done|]; intros w1 s1 Hl1 Hs1 Hb1 _;
    apply (borrowing_run d _ w1 (fun w2 r => Q (set_foreign (foreign w) w2) r) Hb1); intros w2 s2 Hl2 Hs2 _ Hkeep.
  - apply (Hc (CallBeginOffer s1 s2)); [|simpl; auto]. unfold lent in *. destruct Hl1 as (?&?&?&?&?), Hl2 as (?&?&?&?&?).
    split_and!; try congruence. lia.
  - apply (Hc (CallAnswer s1 s2)); [|simpl; auto]. unfold lent in *. destruct Hl1 as (?&?&?&?&?), Hl2 as (?&?&?&?&?).
    split_and!; try congruence. lia.
  - by apply (H2 l (CallCandidate (c_uint32 n))).
  - by apply (H2 l CallReceive).
  - by apply (H1 CallConnected).
  - by apply (H1 CallFailed).
  - by apply (H1 (CallClose (c_uint16 n))).
Qed.

(** What a call on a connection leaves alone. *)
Lemma exported_frame c h w w2 st o :
  (forall p, h = Some p -> is_Some (connections w !! p)) -> exported c h w = Some (w2, st, o) ->
  foreign w2 = foreign w /\ buffers w2 = buffers w /\ signers w2 = signers w /\ clients w2 = clients w /\
  next w2 = next w /\ dom (connections w2) = dom (connections w).
Proof.
  intros Hh. destruct h as [p|]; [|rewrite exported_null; by intros [= <- _ _]].
  destruct (Hh p eq_refl) as [s Hp]. rewrite (exported_run _ _ _ _ Hp). unfold connection_outcome.
  destruct (input _ _ c) as [[i|e]|]; [|by intros [= <- _ _]|done].
  destruct (Connection.run i (connection s)) as [c' [acts|er]]; intros [= <- _ _]; [|done].
  split_and!; simpl; try done. rewrite dom_insert_L. apply elem_of_dom_2 in Hp. set_solver.
Qed.

Lemma contents_holds m b l w : buffers w = m -> holds m b l -> contents_of b w = Some l.
Proof.
  intros Hm [Hl Hd]. unfold contents_of, string_at. destruct (data b) as [p|].
  - destruct Hd as [Hp Hn]. rewrite decide_False by (destruct l; [done|]; unfold blen in Hl; simpl in Hl; lia).
    simpl. rewrite Hm, Hp. simpl. rewrite decide_True by lia. rewrite Hl. unfold blen. by rewrite Nat2Z.id, take_ge.
  - subst l. by rewrite decide_True by (by rewrite Hl).
Qed.

Lemma methods_agree m p s w b :
  connections w !! p = Some s -> same_state s b -> stored_below w ->
  exists w' r s',
    method m (Some p) w = Some (w', r) /\ connections w' !! p = Some s' /\
    same_state s' (fst (invoke (browser m) b)) /\
    (is_ok r = true <-> snd (invoke (browser m) b) = Ok tt) /\
    foreign w' = foreign w /\ buffers w' = buffers w /\ signers w' = signers w.
Proof.
  intros Hp Hs Hb.
  assert (Hh : forall q, Some p = Some q -> is_Some (connections w !! q)) by (intros q [= <-]; by eexists).
  destruct (method_calls m (Some p) w (fun w' r => exists s', connections w' !! p = Some s' /\
    same_state s' (fst (invoke (browser m) b)) /\ (is_ok r = true <-> snd (invoke (browser m) b) = Ok tt) /\
    foreign w' = foreign w /\ buffers w' = buffers w /\ signers w' = signers w) Hb) as (w2 & r & E & s' & Hr).
  - intros c w1 (L1 & L2 & L3 & L4 & L5) Hc. rewrite <- L4 in Hp.
    destruct (calls_agree c (browser m) p s w1 b Hp Hs Hc) as (w2 & st & o & s' & E & Hp' & Hs' & Hst).
    destruct (exported_frame c (Some p) w1 w2 st o) as (_ & F2 & F3 & _); [intros q [= <-]; by eexists|done|].
    rewrite E. simpl. eexists _, _. split; [reflexivity|]. exists s'. simpl. split_and!; try done; try congruence.
    rewrite <- Hst. by case_decide.
  - intros w2 r (s' & H1 & H2 & H3 & _ & H5 & H6) Hf. by exists s'.
  - intros c w2 st o E. by apply exported_frame in E as [? _].
  - by exists w2, r, s'.
Qed.

(** ** Programs

    The objects of a program by the handles they hold; exceptions are caught. *)
Record Process : Type := {
  world : World;
  signer_objects : list (option loc);
  connection_objects : list (option loc);
}.

Inductive PyCall : Type :=
| NewSigner (drawn : option SigningIdentity)
| SignerClose (i : nat)
| Identity (i : nat)
| NewConnection (i : nat) (federation attempt remote_endpoint : bytes)
| ConnectionClose (i : nat)
| Invoke (m : Method) (i : nat)
| TakeAction (i : nat)
| Phase (i : nat)
| Verify (envelope : bytes).

(** An object whose constructor raised is not there. *)
Definition created (l : list (option loc)) (r : result PyError (option loc)) : list (option loc) :=
  match r with Ok handle => l ++ [handle] | Err _ => l end.

Definition py_step (c : PyCall) (P : Process) : option Process :=
  let w := world P in
  let keep w := {| world := w; signer_objects := signer_objects P; connection_objects := connection_objects P |} in
  let signer i := slot_value (signer_objects P) i in
  let connection i := slot_value (connection_objects P) i in
  match c with
  | NewSigner drawn =>
      '(w, r) ← Signer_init drawn w;
      Some {| world := w; signer_objects := created (signer_objects P) r; connection_objects := connection_objects P |}
  | SignerClose i =>
      '(w, h) ← Signer_close (signer i) w;
      Some {| world := w; signer_objects := <[i := h]> (signer_objects P); connection_objects := connection_objects P |}
  | Identity i => '(w, _) ← public_identity (signer i) w; Some (keep w)
  | NewConnection i federation attempt remote =>
      '(w, r) ← Connection_init (signer i) federation attempt remote w;
      Some {| world := w; signer_objects := signer_objects P; connection_objects := created (connection_objects P) r |}
  | ConnectionClose i =>
      '(w, h) ← Connection_close (connection i) w;
      Some {| world := w; signer_objects := signer_objects P; connection_objects := <[i := h]> (connection_objects P) |}
  | Invoke m i => '(w, _) ← method m (connection i) w; Some (keep w)
  | TakeAction i => '(w, _) ← take_action (connection i) w; Some (keep w)
  | Phase i => '(w, _) ← phase (connection i) w; Some (keep w)
  | Verify l => '(w, _) ← verify_envelope l w; Some (keep w)
  end.

Fixpoint py_run (cs : list PyCall) (P : Process) : option Process :=
  match cs with
  | [] => Some P
  | c :: cs => py_step c P ≫= py_run cs
  end.

(** Nothing is held but what open objects hold, each its own. *)
Definition tidy (P : Process) : Prop :=
  owns (pointers (signer_objects P)) (dom (signers (world P))) (next (world P)) /\
  owns (pointers (connection_objects P)) (dom (connections (world P))) (next (world P)) /\
  buffers (world P) = ∅ /\ foreign (world P) = ∅.

Definition fresh_process : Process :=
  {| world := {| foreign := ∅; buffers := ∅; signers := ∅; clients := ∅; connections := ∅; next := 0 |};
     signer_objects := []; connection_objects := [] |}.

(** A call that leaves the tables of handles as they are. *)
Definition unchanged (w w' : World) : Prop :=
  dom (signers w') = dom (signers w) /\ dom (connections w') = dom (connections w) /\
  buffers w' = ∅ /\ foreign w' = ∅ /\ (next w <= next w')%N.

Lemma tidy_unchanged P w :
  tidy P -> unchanged (world P) w ->
  tidy {| world := w; signer_objects := signer_objects P; connection_objects := connection_objects P |}.
Proof.
  intros (H1 & H2 & _ & _) (E1 & E2 & E3 & E4 & Hn). unfold tidy. simpl. rewrite E1, E2.
  split_and!; try done; by eapply owns_grow.
Qed.

Lemma boxed_nothing w : buffers w = ∅ -> boxed [] w.
Proof. intros Hb. split; [|done]. rewrite Hb, dom_empty_L. split_and!; [constructor|set_solver..]. Qed.

Lemma boxed_empty bs w : Forall (fun b => data b = None) bs -> boxed bs w -> buffers w = ∅.
Proof.
  intros Hd [(_ & He & _) _]. apply dom_empty_inv_L, set_eq. intros p. rewrite <- He.
  split; [|set_solver]. intros (b & Hb & E)%list_elem_of_omap. rewrite list.Forall_forall in Hd. specialize (Hd b Hb). congruence.
Qed.

Lemma identity_unchanged h w :
  (forall p, h = Some p -> is_Some (signers w !! p)) -> buffers w = ∅ -> foreign w = ∅ ->
  exists w' r, public_identity h w = Some (w', r) /\ unchanged w w'.
Proof.
  intros Hh Hb Hf. unfold public_identity. destruct h as [p|].
  2:{ eexists w, _. split; [reflexivity|]. by split_and!. }
  destruct (Hh p eq_refl) as [sg Hp].
  destruct (boxed_alloc [] w (identity_bytes (endpoint sg)) (boxed_nothing w Hb)) as (w1 & b & E & Hb1 & (S1 & S2 & _ & S4 & S5)).
  assert (Ei : fcp_signer_public_identity (Some p) true w = Some (w1, FCP_STATUS_OK, Some b)).
  { unfold fcp_signer_public_identity, ffi_status, cbind, required_handle, required_out, cret, endpoint_buffer.
    by rewrite Hp, E. }
  rewrite Ei. unfold require. cbn [mbind option_bind]. rewrite decide_True by done. cbn [default from_option].
  destruct (boxed_free b [] w1 Hb1) as (w2 & Ef & Hb2 & (T1 & T2 & _ & T4 & T5)).
  destruct Hb1 as [_ [[l Hl] _]%Forall_cons_1]. unfold copy_and_free, id.
  rewrite (contents_holds _ _ _ _ eq_refl Hl). cbn [mbind option_bind]. rewrite Ef. cbn [mbind option_bind]. eexists _, _. split; [reflexivity|]. split_and!.
  - by rewrite T2, S2.
  - by rewrite T4, S4.
  - eapply boxed_empty; [|exact Hb2]. by repeat constructor.
  - by rewrite T1, S1.
  - lia.
Qed.

Lemma take_unchanged h w :
  (forall p, h = Some p -> is_Some (connections w !! p)) -> buffers w = ∅ -> foreign w = ∅ ->
  exists w' r, take_action h w = Some (w', r) /\ unchanged w w'.
Proof.
  intros Hh Hb Hf. unfold take_action.
  assert (Hsame : unchanged w w) by by split_and!.
  destruct h as [p|]; [|by eexists w, _].
  destruct (Hh p eq_refl) as [s Hp]. pose proof (take_run p s w Hp (boxed_fresh _ _ (boxed_nothing w Hb))) as Ht.
  destruct (take_boxed (Some p) [] w Hh (boxed_nothing w Hb)) as (w1 & st & o & E & Hb1 & F1 & F2 & _ & F4 & F5).
  destruct (actions s) as [|q l]; [rewrite Ht; by eexists w, _|].
  destruct Ht as (wa & b1 & wb & b2 & _ & _ & _ & _ & _ & _ & _ & Et). rewrite Et in E. injection E as <- <- <-. rewrite Et.
  cbn [mbind option_bind]. rewrite decide_False by done. rewrite decide_False by (by intros []). cbn [from_option]. unfold id.
  simpl in Hb1. pose proof Hb1 as [_ [[la Hla] [[lb Hlb] _]%Forall_cons_1]%Forall_cons_1].
  cbn [remote_endpoint action_payload]. rewrite (contents_holds _ _ _ _ eq_refl Hla), (contents_holds _ _ _ _ eq_refl Hlb).
  cbn [mbind option_bind].
  match goal with |- context [fcp_action_free (Some ?a) wb] =>
    destruct (boxed_action_free a [] wb Hb1) as (w2 & Ef & Hb2 & (T1 & T2 & _ & T4 & T5)) end.
  rewrite Ef. cbn [mbind option_bind]. eexists _, _. split; [reflexivity|]. split_and!.
  - by rewrite T2, F2.
  - by rewrite T4, F4.
  - eapply boxed_empty; [|exact Hb2]. by repeat constructor.
  - by rewrite T1, F1.
  - lia.
Qed.

(** Closing an object: its box is gone, or there was none. *)
Lemma close_spec {T} (table : World -> gmap loc T) putw slots i w n :
  owns (pointers slots) (dom (table w)) n ->
  exists w' h, ('(w, slot) ← free_handle table putw (Some (slot_value slots i)) w; Some (w, default None slot)) = Some (w', h) /\
    ((w' = w /\ <[i := h]> slots = slots) \/
     exists p, w' = putw (delete p (table w)) w /\ owns (pointers (<[i := h]> slots)) (dom (delete p (table w))) n).
Proof.
  intros Ho. destruct (slots !! i) as [o|] eqn:E.
  - destruct (free_spec table putw slots i w n Ho) as (w' & o' & Ef & Hc). unfold slot_value. rewrite E in Ef |- *. cbn [from_option].
    unfold id. rewrite Ef. cbn [mbind option_bind].
    assert (Ho' : exists h, o' = Some h). { unfold free_handle in Ef. destruct o; [|by simplify_eq; eexists]. destruct (table w !! _); simplify_eq. by eexists. }
    destruct Ho' as [h ->]. eexists _, _. split; [reflexivity|]. simpl in *.
    destruct Hc as [[-> Hp]|(p & -> & Hp & Hop)]; [by left|right]. exists p. split; [done|]. by rewrite Hp.
  - unfold slot_value. rewrite E. simpl. eexists w, _. split; [reflexivity|]. left. split; [done|].
    apply list_insert_ge. by apply lookup_ge_None_1.
Qed.

Lemma ffi_written {A} (m : Call A) w w' st a : ffi_status m w = Some (w', st, Some a) -> st = FCP_STATUS_OK.
Proof. unfold ffi_status. destruct (m w) as [[w1 [x|[s|]]]|]; by intros; simplify_eq. Qed.

(** The object of a constructor that returned or raised. *)
Lemma created_owns {T} (table : World -> gmap loc T) slots w (m : Call loc) r :
  stored table w (ffi_status m w) -> owns (pointers slots) (dom (table w)) (next w) ->
  require (ffi_status m w) = r ->
  exists w' x, r = Some (w', x) /\ owns (pointers (created slots x)) (dom (table w')) (next w') /\
    (next w <= next w')%N /\ buffers w' = buffers w /\ foreign w' = foreign w.
Proof.
  intros Hs Ho <-. pose proof Hs as (w' & st & o & E & _). rewrite E in Hs.
  pose proof (stored_owns _ slots _ _ _ _ Hs Ho) as Hn. destruct (stored_next _ _ _ _ _ Hs) as (Hle & Eb & Ef).
  rewrite E. simpl. eexists _, _. split; [reflexivity|]. split; [|done].
  destruct o as [p|].
  - apply ffi_written in E as ->. exact Hn.
  - unfold store in Hn. simpl in Hn. rewrite app_nil_r in Hn. case_decide; simpl; [|done].
    by rewrite pointers_app, app_nil_r.
Qed.

Lemma lends_readable f s l : lends f s l -> readable f s.
Proof. intros Hl. unfold readable. rewrite Hl. by eexists. Qed.

Lemma lent_trans w1 w2 w3 : lent w1 w2 -> lent w2 w3 -> lent w1 w3.
Proof. unfold lent. intros (?&?&?&?&?) (?&?&?&?&?). split_and!; try congruence. lia. Qed.

Lemma step_new_connection P i federation attempt remote :
  tidy P -> exists P', py_step (NewConnection i federation attempt remote) P = Some P' /\ tidy P'.
Proof.
  intros (H1 & H2 & H3 & H4). cbn [py_step]. unfold Connection_init.
  assert (Hb : stored_below (world P)) by (intros p; rewrite H4, dom_empty_L; set_solver).
  set (Q := fun (w' : World) (x : result PyError (option loc)) =>
    owns (pointers (created (connection_objects P) x)) (dom (connections w')) (next w') /\
    (next (world P) <= next w')%N /\ buffers w' = ∅ /\ foreign w' = ∅ /\ signers w' = signers (world P)).
  match goal with |- exists P', (?c ≫= _) = _ /\ _ => assert (Hc : exists w' x, c = Some (w', x) /\ Q w' x) end.
  { apply borrowing_run; [done|]. intros w1 s1 L1 R1 B1 _.
    apply (borrowing_run attempt _ w1 (fun w x => Q (set_foreign (foreign (world P)) w) x) B1). intros w2 s2 L2 R2 B2 K2.
    apply (borrowing_run remote _ w2 (fun w x => Q (set_foreign (foreign (world P)) w) x) B2). intros w3 s3 L3 R3 _ K3.
    pose proof (lent_trans _ _ _ L1 (lent_trans _ _ _ L2 L3)) as (E1 & E2 & E3 & E4 & E5).
    destruct (connection_create_stored (slot_value (signer_objects P) i)
      {| option_federation := s1; option_attempt := s2; option_remote_endpoint := s3 |} w3) as [Hs Hk].
    { rewrite E2. by eapply handle_live. }
    { simpl. repeat constructor; eapply lends_readable; eauto. }
    pose proof (created_owns connections (connection_objects P) w3 _ _ Hs ltac:(rewrite E4; by eapply owns_grow) eq_refl)
      as (w4 & x & E & Ho & Hn & Eb & Ef).
    exists w4, x. split; [exact E|]. unfold Q. simpl. unfold require in E.
    match type of E with (?c ≫= _) = _ => destruct c as [[[w5 st] o]|] eqn:Ec; [|done] end. simpl in E. injection E as <- <-.
    destruct (Hk _ _ _ Ec) as [Es _]. split_and!; try done; try congruence. lia. }
  destruct Hc as (w' & x & -> & Ho & Hn & Eb & Ef & Es). simpl. eexists. split; [reflexivity|].
  unfold tidy. simpl. rewrite Es. split_and!; try done. by eapply owns_grow.
Qed.

Lemma method_unchanged m h w :
  (forall p, h = Some p -> is_Some (connections w !! p)) -> buffers w = ∅ -> foreign w = ∅ ->
  exists w' r, method m h w = Some (w', r) /\ unchanged w w'.
Proof.
  intros Hh Hb Hf.
  assert (Hd : stored_below w) by (intros p; rewrite Hf, dom_empty_L; set_solver).
  apply (method_calls m h w (fun w' _ => unchanged w w') Hd).
  - intros c w1 (L1 & L2 & L3 & L4 & L5) Hc. assert (Hh1 : forall p, h = Some p -> is_Some (connections w1 !! p)) by by rewrite L4.
    destruct (exported_same c h w1) as (w2 & st & o & E & _).
    { done. }
    { destruct c, m; simpl in Hc |- *; try done; repeat constructor; eapply lends_readable; tauto || apply Hc. }
    destruct (exported_frame _ _ _ _ _ _ Hh1 E) as (_ & F2 & F3 & _ & F5 & F6). rewrite E. simpl. eexists _, _. split; [reflexivity|].
    split_and!; simpl; congruence || lia.
  - intros w2 r (U1 & U2 & U3 & U4 & U5) Hf2. split_and!; try done. by rewrite Hf2.
  - intros c w2 st o E. by apply exported_frame in E as [? _].
Qed.

Lemma verify_unchanged l w :
  buffers w = ∅ -> foreign w = ∅ -> exists w' r, verify_envelope l w = Some (w', r) /\ unchanged w w'.
Proof.
  intros Hb Hf. assert (Hd : stored_below w) by (intros p; rewrite Hf, dom_empty_L; set_solver).
  apply (borrowing_run l _ w (fun w' _ => unchanged w w') Hd). intros w1 s (L1 & L2 & L3 & L4 & L5) Hs _ _.
  unfold fcp_envelope_verify. edestruct (ffi_same (A := unit)) as (st & o & E).
  2:{ rewrite E. simpl. eexists _, _. split; [reflexivity|]. split_and!; simpl; congruence || lia. }
  apply readable_bind; [by eapply reads_copy, lends_readable|intros e].
  apply readable_bind; [apply readable_lift|intros ?]. by eexists.
Qed.

Lemma phase_unchanged h w :
  (forall p, h = Some p -> is_Some (connections w !! p)) -> buffers w = ∅ -> foreign w = ∅ ->
  exists w' r, phase h w = Some (w', r) /\ unchanged w w'.
Proof.
  intros Hh Hb Hf. unfold phase, fcp_connection_phase. edestruct (ffi_same (A := Z)) as (st & o & E).
  2:{ rewrite E. simpl. eexists _, _. split; [reflexivity|]. by split_and!. }
  apply readable_bind; [by eexists|intros _]. apply readable_bind; [by apply reads_handle|]. intros [p x]. by eexists.
Qed.

Lemma py_step_tidy c P : tidy P -> exists P', py_step c P = Some P' /\ tidy P'.
Proof.
  intros HP. pose proof HP as (H1 & H2 & H3 & H4).
  assert (Hsg : forall i p, slot_value (signer_objects P) i = Some p -> is_Some (signers (world P) !! p))
    by (intros i; by eapply handle_live).
  assert (Hcn : forall i p, slot_value (connection_objects P) i = Some p -> is_Some (connections (world P) !! p))
    by (intros i; by eapply handle_live).
  assert (Hkeep : forall A (m : option (World * A)), (exists w' r, m = Some (w', r) /\ unchanged (world P) w') ->
    exists P', ('(w, _) ← m; Some {| world := w; signer_objects := signer_objects P;
      connection_objects := connection_objects P |}) = Some P' /\ tidy P').
  { intros A m (w' & r & -> & Hu). simpl. eexists. split; [reflexivity|]. by apply tidy_unchanged. }
  destruct c as [drawn|i|i|i f a r|i|m i|i|i|l]; cbn [py_step];
    [| |apply Hkeep, identity_unchanged; eauto|by apply step_new_connection| |apply Hkeep, method_unchanged; eauto
     |apply Hkeep, take_unchanged; eauto|apply Hkeep, phase_unchanged; eauto|apply Hkeep, verify_unchanged; eauto].
  - unfold Signer_init. destruct (generate_stored drawn (world P)) as [Hs Hk].
    pose proof (created_owns signers (signer_objects P) (world P) _ _ Hs H1 eq_refl) as (w' & x & E & Ho & Hn & Eb & Ef).
    change (require (fcp_signer_generate drawn true (world P)) = Some (w', x)) in E. rewrite E. simpl.
    eexists. split; [reflexivity|]. unfold require in E.
    destruct (fcp_signer_generate drawn true (world P)) as [[[w5 st] o]|] eqn:Ec; [|done]. simpl in E. injection E as <- <-.
    destruct (Hk _ _ _ eq_refl) as [_ Ecn]. unfold tidy. simpl. rewrite Ecn.
    split_and!; try congruence; by eapply owns_grow.
  - unfold Signer_close. destruct (close_spec signers set_signers _ i (world P) _ H1) as (w' & h & E & Hc).
    unfold fcp_signer_free. rewrite E. simpl. eexists. split; [reflexivity|].
    destruct Hc as [[-> ->]|(p & -> & Ho)]; [by destruct P|]. by unfold tidy.
  - destruct (close_spec connections set_connections _ i (world P) _ H2) as (w' & h & E & Hc).
    change (Connection_close (slot_value (connection_objects P) i) (world P) = Some (w', h)) in E. rewrite E. simpl.
    eexists. split; [reflexivity|]. destruct Hc as [[-> ->]|(p & -> & Ho)]; [by destruct P|]. by unfold tidy.
Qed.

Lemma py_run_tidy cs P : tidy P -> exists P', py_run cs P = Some P' /\ tidy P'.
Proof.
  revert P. induction cs as [|c cs IH]; intros P HP; simpl; [eauto|].
  destruct (py_step_tidy c P HP) as (P1 & -> & HP1). simpl. by apply IH.
Qed.

(** C25: the Python binding is memory safe and does not leak.  Whatever a program
    calls, in any order, methods of closed objects, repeated closes and calls that
    raise included, no call is undefined; and whenever none is running, the library
    holds no buffer, no argument is kept, and the signers and connections that
    exist are exactly those of the objects not closed yet, one each. *)
Theorem python_memory_safe cs : exists P, py_run cs fresh_process = Some P /\ tidy P.
Proof.
  apply py_run_tidy. assert (Ho : owns [] ∅ 0%N) by (split_and!; [constructor|set_solver..]).
  unfold tidy. simpl. by rewrite !dom_empty_L.
Qed.

Lemma take_agrees p s w b :
  connections w !! p = Some s -> same_state s b -> buffers w = ∅ ->
  exists w' s',
    take_action (Some p) w = Some (w', Ok (snd (FcpConnection.take_action b))) /\
    connections w' !! p = Some s' /\ same_state s' (fst (FcpConnection.take_action b)) /\ buffers w' = ∅.
Proof.
  intros Hp (Sc & Ss & Sa) Hb. unfold take_action, FcpConnection.take_action. rewrite Sa.
  pose proof (take_run p s w Hp (boxed_fresh _ _ (boxed_nothing w Hb))) as Ht.
  destruct (take_boxed (Some p) [] w) as (w1 & st & o & E & Hb1 & _); [intros q [= <-]; by eexists|by apply boxed_nothing|].
  destruct (actions s) as [|q l] eqn:Ea; cbn [fmap list_fmap].
  { rewrite Ht. eexists w, s. split; [reflexivity|]. unfold same_state. by rewrite Ea. }
  destruct Ht as (wa & b1 & wb & b2 & E1 & _ & E2 & Hh1 & Hh2 & _ & Hsub & Et).
  rewrite Et in E. injection E as <- <- <-. rewrite Et. cbn [mbind option_bind].
  rewrite decide_False by done. rewrite decide_False by (by intros []). cbn [from_option]. unfold id.
  cbn [remote_endpoint action_payload]. rewrite (contents_holds _ _ _ _ eq_refl (holds_weaken _ _ _ _ Hh1 Hsub)), (contents_holds _ _ _ _ eq_refl Hh2).
  cbn [mbind option_bind].
  match goal with |- context [fcp_action_free (Some ?a) wb] =>
    destruct (boxed_action_free a [] wb Hb1) as (w2 & Ef & Hb2 & (_ & _ & _ & T4 & _)) end.
  rewrite Ef. cbn [mbind option_bind]. eexists w2, _. split; [reflexivity|]. split.
  { rewrite T4. assert (Hc2 : connections wb = connections wa) by (unfold owned_buffer in E2; destruct (queued_payload q); by injection E2 as <-).
    assert (Hc1 : connections wa = connections (popped p s l w)).
    { destruct (queued_remote_endpoint q); [|by injection E1 as <-].
      unfold endpoint_buffer, owned_buffer in E1. destruct (identity_bytes _); by injection E1 as <-. }
    rewrite Hc2, Hc1. apply lookup_insert_eq. }
  split; [by unfold same_state|]. eapply boxed_empty; [|exact Hb2]. by repeat constructor.
Qed.

(** C27: the Python binding does what the state machine does.  A method of an open
    connection has the effect of the browser façade's method with the same
    arguments, raising exactly when that fails; an integer too wide for its
    argument is cut to its low bits.  [take_action] returns what the façade's does,
    the next action or none.  Arguments are not kept, no buffer of the library is
    left behind, and nothing else it holds is touched. *)
Theorem python_agrees m p s w b :
  connections w !! p = Some s -> same_state s b -> stored_below w -> buffers w = ∅ ->
  (exists w' r s',
    method m (Some p) w = Some (w', r) /\ connections w' !! p = Some s' /\
    same_state s' (fst (invoke (browser m) b)) /\
    (is_ok r = true <-> snd (invoke (browser m) b) = Ok tt) /\
    foreign w' = foreign w /\ buffers w' = buffers w /\ signers w' = signers w) /\
  exists w' s',
    take_action (Some p) w = Some (w', Ok (snd (FcpConnection.take_action b))) /\
    connections w' !! p = Some s' /\ same_state s' (fst (FcpConnection.take_action b)) /\ buffers w' = ∅.
Proof. intros Hp Hs Hb Hn. split; [by eapply methods_agree|by eapply take_agrees]. Qed.

End process.
End PythonProcess.

(** ** An offer from Python *)
Module PythonExamples.
Import Abi Boundary Facades Python PythonProcess.

#[local] Existing Instance Sample.crypto.
#[local] Existing Instance Sample.crypto_laws.
#[local] Existing Instance ClientExamples.cfr.

Definition py_world : World :=
  {| foreign := ∅; buffers := ∅; signers := ∅; clients := ∅;
     connections := {[7%N := BoundaryExamples.state]}; next := 8 |}.

Lemma python_agrees_witness :
  (exists w' r s', method (BeginOffer (replicate 32 x05) [x06; x07]) (Some 7%N) py_world = Some (w', r) /\
     same_state s' (fst (invoke WasmExamples.browser_offer WasmExamples.browser_state)) /\ is_ok r = true) /\
  match method (BeginOffer (replicate 32 x05) [x06; x07]) (Some 7%N) py_world with
  | Some (_, Ok _) => true
  | _ => false
  end = true.
Proof.
  split; [|vm_compute; reflexivity].
  destruct (python_agrees (BeginOffer (replicate 32 x05) [x06; x07]) 7%N BoundaryExamples.state py_world
              WasmExamples.browser_state eq_refl) as [(w' & r & s' & E & _ & Hs & Hr & _) _].
  { split; [reflexivity|]. split; reflexivity. }
  { intros p Hp. apply elem_of_dom in Hp as [l Hl]. change ((∅ : gmap loc bytes) !! p = Some l) in Hl.
    rewrite lookup_empty in Hl. discriminate Hl. }
  { reflexivity. }
  exists w', r, s'. split; [exact E|]. split; [exact Hs|]. apply Hr.
  assert (Ho : match snd (invoke WasmExamples.browser_offer WasmExamples.browser_state) with Ok _ => true | Err _ => false end = true)
    by (vm_compute; reflexivity).
  change (browser (BeginOffer (replicate 32 x05) [x06; x07])) with WasmExamples.browser_offer.
  destruct (snd (invoke WasmExamples.browser_offer WasmExamples.browser_state)) as [[]|e]; [reflexivity|discriminate Ho].
Defined.

End PythonExamples.
