(* ===== verification/Domain.v ===== *)
(** * Domain types of the fabric authority

    [crates/fcp-fabric-domain/src]: canonical domains, local logins and user
    addresses, roles and permissions, and the administration commands with
    their policy checks.  Unicode normalisation and IDNA come from other crates
    and are parameters. *)

From Stdlib Require Import ZArith Lia String.
From stdpp Require Import base list option numbers decidable sets.
From S2P Require Import Prelude Bytes Str.

(** ** Identifiers ([ids.rs]) *)
Abbreviation Uuid := (array 16).

Record TenantId : Type := TenantId_from_uuid { tenant_as_uuid : Uuid }.
Record AccountId : Type := AccountId_from_uuid { account_as_uuid : Uuid }.
Record AuditEventId : Type := AuditEventId_from_uuid { audit_as_uuid : Uuid }.

#[export] Instance TenantId_eq_dec : EqDecision TenantId.
Proof. solve_decision. Defined.
#[export] Instance AccountId_eq_dec : EqDecision AccountId.
Proof. solve_decision. Defined.
#[export] Instance AuditEventId_eq_dec : EqDecision AuditEventId.
Proof. solve_decision. Defined.

Inductive PolicyVersionError : Type := Exhausted.

Module PolicyVersion.

Record t : Type := new { version : u64 }.

Definition next (self : t) : result PolicyVersionError t :=
  ok_or (new <$> uint_try 64 (uval (version self) + 1)) Exhausted.

End PolicyVersion.

(** ** Names ([identity.rs]) *)
Class Unicode : Type := {
  (** [UnicodeNormalization::nfc] collected. *)
  nfc : str -> str;
  (** [idna::domain_to_ascii]. *)
  domain_to_ascii : str -> option str;
}.

(** ASCII text is in normalisation form C; a domain conversion yields ASCII, and
    converting its lower-cased result again gives the same name up to case. *)
Class UnicodeLaws (U : Unicode) : Prop := {
  nfc_ascii : forall s, ascii s -> nfc s = s;
  to_ascii_ascii : forall s t, domain_to_ascii s = Some t -> ascii t;
  to_ascii_again : forall s t, domain_to_ascii s = Some t ->
    exists t', domain_to_ascii (to_ascii_lowercase t) = Some t' /\
      to_ascii_lowercase t' = to_ascii_lowercase t;
}.

Inductive DomainError : Type := InvalidDomain.
Inductive LocalpartError : Type := InvalidLocalpart.
Inductive UserAddressError : Type :=
| InvalidAddress
| AddressLocalpart (source : LocalpartError)
| AddressDomain (source : DomainError).

(** Characters the parsers name. *)
Definition DOT : Z := 46.
Definition HYPHEN : Z := 45.
Definition AT : Z := 64.
Definition SLASH : Z := 47.
Definition COLON : Z := 58.

Record DomainName : Type := DomainName_of { domain_as_str : str }.
Record Localpart : Type := Localpart_of { localpart_as_str : str }.
Record UserAddress : Type := { localpart : Localpart; domain : DomainName }.

#[export] Instance DomainName_eq_dec : EqDecision DomainName.
Proof. solve_decision. Defined.

Module DomainName.

(** The condition of the loop over the labels. *)
Definition bad_label (label : str) : bool :=
  bool_decide (label = []) || (63 <? str_len label) || starts_with HYPHEN label
  || ends_with HYPHEN label
  || negb (forallb (fun b => byte_is_alphanumeric b || bool_decide (b = x2d)) (str_bytes label)).

Fixpoint check_labels (labels : list str) : result DomainError unit :=
  match labels with
  | [] => Ok tt
  | label :: rest => if bad_label label then Err InvalidDomain else check_labels rest
  end.

Definition parse `{Unicode} (input : str) : result DomainError DomainName :=
  if bool_decide (input = []) || bool_decide (trim input <> input) then Err InvalidDomain else
  if (contains SLASH input || contains COLON input || contains AT input) || ends_with DOT input
  then Err InvalidDomain else
  let? ascii := ok_or (domain_to_ascii input) InvalidDomain in
  let canonical := to_ascii_lowercase ascii in
  if (253 <? str_len canonical) || negb (contains DOT canonical) then Err InvalidDomain else
  let? _ := check_labels (split DOT canonical) in
  Ok (DomainName_of canonical).

End DomainName.

Module Localpart.

Definition localpart_byte (b : byte) : bool :=
  byte_is_lowercase b || byte_is_digit b
  || bool_decide (b = x2e) || bool_decide (b = x5f) || bool_decide (b = x2d).

Definition parse `{Unicode} (input : str) : result LocalpartError Localpart :=
  let normalized := nfc input in
  if bool_decide (normalized = []) || (64 <? str_len normalized)
     || bool_decide (normalized <> input)
     || negb (forallb localpart_byte (str_bytes normalized))
     || starts_with DOT normalized || ends_with DOT normalized || contains_pair DOT normalized
  then Err InvalidLocalpart else
  Ok (Localpart_of normalized).

End Localpart.

Module UserAddress.

Definition parse `{Unicode} (input : str) : result UserAddressError UserAddress :=
  let? (l, d) := ok_or
    (match split_once AT input with
     | Some (l, remainder) => if contains AT remainder then None else Some (l, remainder)
     | None => None
     end) InvalidAddress in
  let? localpart := map_err AddressLocalpart (Localpart.parse l) in
  let? domain := map_err AddressDomain (DomainName.parse d) in
  Ok {| localpart := localpart; domain := domain |}.

(** [Display]. *)
Definition display (self : UserAddress) : str :=
  localpart_as_str (localpart self) ++ AT :: domain_as_str (domain self).

End UserAddress.

(** ** Policy ([policy.rs]) *)
Inductive AccountState : Type := Active | MfaEnrollmentRequired | Suspended | Deactivated.

#[export] Instance AccountState_eq_dec : EqDecision AccountState.
Proof. solve_decision. Defined.

Definition permits_session (self : AccountState) : bool :=
  match self with Active => true | _ => false end.

Inductive Role : Type := Owner | Admin | Operator | Auditor | Member.

#[export] Instance Role_eq_dec : EqDecision Role.
Proof. solve_decision. Defined.

Inductive Permission : Type :=
| ManageTenant
| ManageRoles
| ManageAccounts
| PublishConfiguration
| ManageFederation
| ReadAudit
| ManageOwnSecurity
| UseApplication.

Definition grants (self : Role) (permission : Permission) : bool :=
  match self with
  | Owner => true
  | Admin =>
      match permission with
      | ManageAccounts | PublishConfiguration | ReadAudit | ManageOwnSecurity | UseApplication => true
      | _ => false
      end
  | Operator =>
      match permission with
      | PublishConfiguration | ReadAudit | ManageOwnSecurity | UseApplication => true
      | _ => false
      end
  | Auditor =>
      match permission with
      | ReadAudit | ManageOwnSecurity | UseApplication => true
      | _ => false
      end
  | Member =>
      match permission with
      | ManageOwnSecurity | UseApplication => true
      | _ => false
      end
  end.

Inductive FederationTrustState : Type := Pending | TrustActive | TrustSuspended | Revoked.

#[export] Instance FederationTrustState_eq_dec : EqDecision FederationTrustState.
Proof. solve_decision. Defined.

Definition accepts_requests (self : FederationTrustState) : bool :=
  match self with TrustActive => true | _ => false end.

Inductive AuthorizationError : Type := AccountUnavailable | AuthPermissionDenied | AuthStepUpRequired.

Module AuthorizationContext.

Record t : Type := new {
  tenant_id : TenantId;
  account_id : AccountId;
  state : AccountState;
  roles : list Role;
  step_up_verified : bool;
}.

Definition require (self : t) (permission : Permission) : result AuthorizationError unit :=
  if negb (permits_session (state self)) then Err AccountUnavailable else
  if existsb (fun role => grants role permission) (roles self) then Ok tt
  else Err AuthPermissionDenied.

Definition require_step_up (self : t) : result AuthorizationError unit :=
  if step_up_verified self then Ok tt else Err AuthStepUpRequired.

End AuthorizationContext.

(** ** Administration ([administration.rs]) *)
Inductive AdministrationError : Type :=
| CrossTenantMutation
| ActorUnavailable
| PermissionDenied
| StepUpRequired
| InvalidCorrelationId
| PrivilegedRoleRequiresDedicatedWorkflow
| OwnerRoleRequiresDedicatedWorkflow.

Definition validate_correlation_id (value : str) : result AdministrationError unit :=
  if bool_decide (value = []) || (128 <? str_len value) || existsb is_control value
  then Err InvalidCorrelationId else Ok tt.

Module AdministrationActor.

Record t : Type := {
  tenant_id : TenantId;
  account_id : AccountId;
  roles : list Role;
  step_up_verified : bool;
  account_state : AccountState;
}.

Definition require_same_tenant (self : t) (target_tenant : TenantId) :
    result AdministrationError unit :=
  if decide (tenant_id self = target_tenant) then Ok tt else Err CrossTenantMutation.

Definition require (self : t) (permission : Permission) : result AdministrationError unit :=
  if negb (permits_session (account_state self)) then Err ActorUnavailable else
  if existsb (fun role => grants role permission) (roles self) then Ok tt else Err PermissionDenied.

Definition require_step_up (self : t) : result AdministrationError unit :=
  if step_up_verified self then Ok tt else Err StepUpRequired.

End AdministrationActor.

Module BootstrapTenant.

Record t : Type := { domain : DomainName; owner_localpart : Localpart; correlation_id : str }.

Definition validate (self : t) : result AdministrationError unit :=
  validate_correlation_id (correlation_id self).

End BootstrapTenant.

Record BootstrapResult : Type := {
  result_tenant_id : TenantId;
  owner_id : AccountId;
  policy_version : PolicyVersion.t;
  owner_state : AccountState;
}.

Module InviteAccount.

Record t : Type := {
  tenant_id : TenantId;
  localpart : Localpart;
  initial_role : Role;
  actor : AdministrationActor.t;
  correlation_id : str;
}.

Definition validate (self : t) : result AdministrationError unit :=
  let? _ := AdministrationActor.require_same_tenant (actor self) (tenant_id self) in
  let? _ := AdministrationActor.require (actor self) ManageAccounts in
  if match initial_role self with Owner | Admin => true | _ => false end
  then Err PrivilegedRoleRequiresDedicatedWorkflow else
  validate_correlation_id (correlation_id self).

End InviteAccount.

Module ChangeRole.

Record t : Type := {
  tenant_id : TenantId;
  target_account_id : AccountId;
  role : Role;
  grant : bool;
  actor : AdministrationActor.t;
  correlation_id : str;
}.

Definition validate (self : t) : result AdministrationError unit :=
  let? _ := AdministrationActor.require_same_tenant (actor self) (tenant_id self) in
  let? _ := AdministrationActor.require (actor self) ManageRoles in
  let? _ := AdministrationActor.require_step_up (actor self) in
  if decide (role self = Owner) then Err OwnerRoleRequiresDedicatedWorkflow else
  validate_correlation_id (correlation_id self).

End ChangeRole.

(** ** Audit events ([audit.rs]) *)
Inductive AuditAction : Type :=
| TenantBootstrapped
| AccountCreated
| RoleChanged
| PasswordChanged
| MfaChanged
| LoginTransactionIssued
| LoginTransactionConsumed
| SessionIssued
| SessionRevoked
| StepUpGranted
| StepUpConsumed
| WebauthnCeremonyIssued
| WebauthnCeremonyConsumed
| PasskeyChanged
| FederationTrustChanged
| FederationRequestEvaluated.

#[export] Instance AuditAction_eq_dec : EqDecision AuditAction.
Proof. solve_decision. Defined.

(** ** Theorems on administration *)
Lemma correlation_ok s : validate_correlation_id s = Ok tt <-> bounded_text 128 s = true.
Proof.
  unfold validate_correlation_id, bounded_text.
  case_bool_decide; simpl; [done|]. rewrite Z.leb_antisym.
  destruct (128 <? str_len s), (existsb is_control s); simpl; done.
Qed.

Lemma actor_require_ok a p :
  AdministrationActor.require a p = Ok tt <->
  AdministrationActor.account_state a = Active /\
  exists r, r ∈ AdministrationActor.roles a /\ grants r p = true.
Proof.
  unfold AdministrationActor.require.
  destruct (AdministrationActor.account_state a); simpl; try naive_solver.
  destruct (existsb _ _) eqn:E.
  - apply existsb_exists in E as (r & Hr & Hg). apply list_elem_of_In in Hr. naive_solver.
  - split; [done|]. intros (_ & r & Hr & Hg). apply not_true_iff_false in E. destruct E.
    apply existsb_exists. exists r. by rewrite <- list_elem_of_In.
Qed.

(** Neither command hands out the owner role. *)
Lemma change_not_owner c : ChangeRole.validate c = Ok tt -> ChangeRole.role c <> Owner.
Proof.
  unfold ChangeRole.validate. intros (_ & _ & H)%res_bind_ok. apply res_bind_ok in H as (_ & _ & H).
  apply res_bind_ok in H as (_ & _ & H). by case_decide.
Qed.

Lemma invite_not_owner i : InviteAccount.validate i = Ok tt -> InviteAccount.initial_role i <> Owner.
Proof.
  unfold InviteAccount.validate. intros (_ & _ & H)%res_bind_ok. apply res_bind_ok in H as (_ & _ & H).
  by destruct (InviteAccount.initial_role i).
Qed.

(** Who may administer accounts: a role change passes exactly when the actor
    acts in the own tenant, is active, holds the owner role, completed the
    step-up bound to the action, and the changed role is not the owner role; an
    invitation exactly when an active owner or administrator of the tenant asks
    for a role below administrator.  Both need a bounded, printable correlation
    id. *)
Theorem administration_policy (c : ChangeRole.t) (i : InviteAccount.t) :
  (ChangeRole.validate c = Ok tt <->
   let a := ChangeRole.actor c in
   AdministrationActor.tenant_id a = ChangeRole.tenant_id c /\
   AdministrationActor.account_state a = Active /\ Owner ∈ AdministrationActor.roles a /\
   AdministrationActor.step_up_verified a = true /\ ChangeRole.role c <> Owner /\
   bounded_text 128 (ChangeRole.correlation_id c) = true) /\
  (InviteAccount.validate i = Ok tt <->
   let a := InviteAccount.actor i in
   AdministrationActor.tenant_id a = InviteAccount.tenant_id i /\
   AdministrationActor.account_state a = Active /\
   (Owner ∈ AdministrationActor.roles a \/ Admin ∈ AdministrationActor.roles a) /\
   InviteAccount.initial_role i ∈ [Operator; Auditor; Member] /\
   bounded_text 128 (InviteAccount.correlation_id i) = true).
Proof.
  split.
  - unfold ChangeRole.validate, AdministrationActor.require_same_tenant.
    case_decide as Ht; cbn [res_bind]; [|naive_solver]. rewrite <- correlation_ok.
    destruct (AdministrationActor.require (ChangeRole.actor c) ManageRoles) as [[]|] eqn:Hr.
    + apply actor_require_ok in Hr as (Ha & r & Hin & Hg). destruct r; try done.
      unfold AdministrationActor.require_step_up. cbn [res_bind].
      destruct (AdministrationActor.step_up_verified _); cbn [res_bind]; [|naive_solver].
      case_decide; naive_solver.
    + split; [done|]. intros (_ & Ha & Ho & _). cbn [res_bind].
      rewrite (proj2 (actor_require_ok _ _)) in Hr; [done|]. split; [done|]. by exists Owner.
  - unfold InviteAccount.validate, AdministrationActor.require_same_tenant.
    case_decide as Ht; cbn [res_bind]; [|naive_solver]. rewrite <- correlation_ok.
    destruct (AdministrationActor.require (InviteAccount.actor i) ManageAccounts) as [[]|] eqn:Hr.
    + apply actor_require_ok in Hr as (Ha & r & Hin & Hg). cbn [res_bind].
      assert (Owner ∈ AdministrationActor.roles (InviteAccount.actor i) \/
              Admin ∈ AdministrationActor.roles (InviteAccount.actor i)) by (destruct r; naive_solver).
      destruct (InviteAccount.initial_role i); set_solver.
    + split; [done|]. intros (_ & Ha & Ho & _). cbn [res_bind].
      rewrite (proj2 (actor_require_ok _ _)) in Hr; [done|]. split; [done|].
      destruct Ho; [by exists Owner | by exists Admin].
Qed.

(** ** Canonical names *)
Lemma byte_of_Z_eq c b : 0 <= c < 256 -> byte_of_Z c = b -> c = Z_of_byte b.
Proof. intros Hc <-. by rewrite byte_of_Z_small. Qed.

(** Letters, digits, hyphen and dot. *)
Definition name_char (c : Z) : Prop :=
  48 <= c <= 57 \/ 65 <= c <= 90 \/ 97 <= c <= 122 \/ c = HYPHEN \/ c = DOT.

Lemma name_char_plain c :
  name_char c -> is_whitespace c = false /\ c <> AT /\ c <> SLASH /\ c <> COLON.
Proof. unfold name_char, is_whitespace, HYPHEN, DOT, AT, SLASH, COLON. lia. Qed.

Lemma label_chars x :
  ascii x -> DomainName.bad_label x = false -> x <> [] /\ Forall name_char x.
Proof.
  unfold DomainName.bad_label. intros Ha Hb. repeat apply orb_false_iff in Hb as [Hb ?].
  apply bool_decide_eq_false in Hb. split; [done|].
  apply negb_false_iff, ascii_bytes_forallb in H; [|done].
  rewrite list.Forall_forall in H. apply list.Forall_forall. intros c Hc. specialize (H c Hc).
  unfold ascii in Ha. rewrite list.Forall_forall in Ha. specialize (Ha c Hc).
  unfold name_char, byte_is_alphanumeric, byte_is_digit, byte_is_lowercase, byte_is_uppercase in *.
  rewrite byte_of_Z_small in H by lia.
  apply orb_true_iff in H as [H|H%bool_decide_eq_true]; [lia|].
  apply byte_of_Z_eq in H; [|lia]. change (Z_of_byte x2d) with 45 in H. unfold HYPHEN. lia.
Qed.

Lemma check_labels_ok ls :
  DomainName.check_labels ls = Ok tt <-> Forall (fun x => DomainName.bad_label x = false) ls.
Proof.
  induction ls as [|x ls IH]; simpl; [split; [constructor|done]|]. rewrite Forall_cons, <- IH.
  destruct (DomainName.bad_label x); naive_solver.
Qed.

(** What [DomainName::parse] promises of its result. *)
Definition canonical_domain (d : str) : Prop :=
  ascii d /\ to_ascii_lowercase d = d /\ str_len d <= 253 /\ DOT ∈ d /\
  Forall (fun x => DomainName.bad_label x = false) (split DOT d).

Lemma split_ascii sep s x : ascii s -> x ∈ split sep s -> ascii x.
Proof.
  unfold ascii. revert x. induction s as [|c s IH]; intros x Ha; simpl.
  - intros ->%list_elem_of_singleton. constructor.
  - apply Forall_cons_1 in Ha as [Hc Ha]. destruct (c =? sep).
    + intros [->|Hx]%elem_of_cons; [constructor|by apply IH].
    + destruct (split sep s) as [|y ys]; [intros ->%list_elem_of_singleton; constructor; [done|constructor]|].
      intros [->|Hx]%elem_of_cons; [constructor; [done|apply IH; [done|by left]]|apply IH; [done|by right]].
Qed.

Lemma canonical_chars d :
  canonical_domain d -> d <> [] /\ Forall name_char d /\ ends_with DOT d = false.
Proof.
  intros (Ha & _ & _ & Hd & Hl). rewrite list.Forall_forall in Hl. split_and!.
  - intros ->. by apply elem_of_nil in Hd.
  - apply list.Forall_forall. intros c [->|(x & Hx & Hc)]%(split_elem DOT); [by unfold name_char; auto|].
    destruct (label_chars x) as [_ Hf]; [by eapply split_ascii|by apply Hl|].
    rewrite list.Forall_forall in Hf. by apply Hf.
  - destruct (ends_with DOT d) eqn:E; [|done]. apply ends_with_snoc in E as [s' ->].
    assert (Hb : DomainName.bad_label [] = false); [|done].
    apply Hl. rewrite split_snoc, elem_of_app. right. by left.
Qed.

Lemma not_contains c s : c ∉ s -> contains c s = false.
Proof. intros Hc. unfold contains. by rewrite bool_decide_eq_false. Qed.

Section names.
Context `{U : Unicode} `{!UnicodeLaws U}.

Lemma lowercase_ascii s : ascii s -> ascii (to_ascii_lowercase s).
Proof.
  intros Hs. unfold ascii, to_ascii_lowercase in *. apply Forall_fmap.
  eapply Forall_impl; [exact Hs|]. intros c Hc. simpl in *. case_match; lia.
Qed.

Lemma lowercase_idem s : to_ascii_lowercase (to_ascii_lowercase s) = to_ascii_lowercase s.
Proof.
  unfold to_ascii_lowercase. rewrite <- list_fmap_compose. apply list_fmap_ext.
  intros i c _. simpl. destruct ((65 <=? c) && (c <=? 90)) eqn:E; [|by rewrite E].
  rewrite (proj2 (andb_false_iff _ _)); [done|]. right. lia.
Qed.

Lemma parse_domain_inv s d :
  DomainName.parse s = Ok d ->
  exists t, domain_to_ascii s = Some t /\ domain_as_str d = to_ascii_lowercase t /\
    canonical_domain (domain_as_str d).
Proof.
  unfold DomainName.parse. case_match; [done|]. case_match; [done|].
  intros (t & Ht%ok_or_ok & Hd)%res_bind_ok.
  destruct ((253 <? str_len (to_ascii_lowercase t)) || _) eqn:E; [done|].
  apply res_bind_ok in Hd as ([] & Hl%check_labels_ok & [= <-]).
  apply orb_false_iff in E as [Hlen Hdot]. apply negb_false_iff, bool_decide_eq_true in Hdot.
  exists t. split_and!; try done. split_and!; try done.
  - apply lowercase_ascii. by eapply to_ascii_ascii.
  - apply lowercase_idem.
  - simpl. lia.
Qed.

(** A canonical domain that the conversion keeps is its own canonical form. *)
Lemma parse_domain_fix d t :
  canonical_domain d -> domain_to_ascii d = Some t -> to_ascii_lowercase t = d ->
  DomainName.parse d = Ok (DomainName_of d).
Proof.
  intros Hd Ht Hl. destruct (canonical_chars d Hd) as (Hne & Hf & He).
  destruct Hd as (Ha & _ & Hlen & Hdot & Hlabels).
  assert (Hp : Forall (fun c => is_whitespace c = false /\ c <> AT /\ c <> SLASH /\ c <> COLON) d).
  { eapply Forall_impl; [exact Hf|]. apply name_char_plain. }
  rewrite list.Forall_forall in Hp.
  unfold DomainName.parse. rewrite (bool_decide_eq_false_2 (d = [])) by done.
  rewrite bool_decide_eq_false_2.
  2:{ intros Hn. apply Hn, trim_id, list.Forall_forall. intros c Hc. by apply Hp. }
  rewrite !not_contains by (intros Hc; apply Hp in Hc; naive_solver). rewrite He. cbn [orb].
  rewrite Ht. cbn [ok_or res_bind]. rewrite Hl.
  rewrite (proj2 (Z.ltb_ge _ _)) by lia. unfold contains. rewrite bool_decide_eq_true_2 by done.
  cbn [orb negb]. by rewrite (proj2 (check_labels_ok _) Hlabels).
Qed.

Lemma localpart_byte_ascii b : Localpart.localpart_byte b = true -> Z_of_byte b < 128.
Proof.
  unfold Localpart.localpart_byte, byte_is_lowercase, byte_is_digit.
  repeat (rewrite orb_true_iff || rewrite bool_decide_eq_true).
  intros [[[[?|?]| ->]| ->]| ->]; try lia; done.
Qed.

Lemma localpart_chars s l :
  scalar s -> Localpart.parse s = Ok l -> l = Localpart_of s /\ ascii s /\ AT ∉ s.
Proof.
  intros Hs. unfold Localpart.parse. case_match eqn:E; [done|]. intros [= <-].
  apply orb_false_iff in E as [[[[[_ E3]%orb_false_iff E4]%orb_false_iff _]%orb_false_iff _]%orb_false_iff _].
  apply bool_decide_eq_false, dec_stable in E3. rewrite E3 in *. split; [done|].
  apply negb_false_iff, ascii_of_bytes in E4 as [Ha Hf]; [|done|apply localpart_byte_ascii].
  split; [done|]. intros Hin. rewrite list.Forall_forall in Hf. by apply Hf in Hin.
Qed.

(** Parsing a user address canonicalises it once and for all: the printed
    form of a parsed address parses to the same address, its domain is lower-case
    ASCII of at most 253 bytes with at least two well-formed labels, and its
    local part is the exact input text before the only separator. *)
Theorem address_canonical s u :
  scalar s -> UserAddress.parse s = Ok u ->
  UserAddress.parse (UserAddress.display u) = Ok u /\
  canonical_domain (domain_as_str (domain u)) /\
  exists rest, s = localpart_as_str (localpart u) ++ AT :: rest /\
    AT ∉ localpart_as_str (localpart u) /\ AT ∉ rest.
Proof.
  intros Hs. unfold UserAddress.parse at 1.
  intros ([l d] & Hsp%ok_or_ok & Hp)%res_bind_ok.
  destruct (split_once AT s) as [[l' d']|] eqn:E; [|done].
  destruct (contains AT d') eqn:Hc; [done|]. injection Hsp as -> ->.
  apply split_once_some in E as [-> Hl]. apply bool_decide_eq_false in Hc.
  apply res_bind_ok in Hp as (lp & Hlp%map_err_ok & (dn & Hdn%map_err_ok & [= <-])%res_bind_ok).
  assert (Hsl : scalar l) by (by apply Forall_app in Hs as [? _]).
  destruct (localpart_chars l lp Hsl Hlp) as (-> & Ha & _).
  destruct (parse_domain_inv d dn Hdn) as (t & Ht & Hd & Hcan). cbn [localpart domain localpart_as_str].
  split_and!; [|done|by exists d].
  destruct (to_ascii_again _ _ Ht) as (t' & Ht' & Hlow). rewrite <- Hd in Ht', Hlow.
  destruct (canonical_chars _ Hcan) as (_ & Hf & _).
  unfold UserAddress.parse, UserAddress.display. cbn [localpart domain localpart_as_str].
  rewrite (proj2 (split_once_some AT _ l (domain_as_str dn)) (conj eq_refl Hl)).
  rewrite not_contains.
  2:{ intros Hin. rewrite list.Forall_forall in Hf. apply Hf, name_char_plain in Hin. naive_solver. }
  cbn [ok_or res_bind]. rewrite Hlp. cbn [map_err res_bind].
  rewrite (parse_domain_fix _ _ Hcan Ht' Hlow). by destruct dn.
Qed.
End names.

(** ** Concrete runs *)
Module DomainExamples.

(** ASCII names are kept as they are, others are not converted. *)
#[local] Instance ascii_only : Unicode := {|
  nfc s := s;
  domain_to_ascii s := if forallb (fun c => (0 <=? c) && (c <? 128)) s then Some s else None;
|}.

Lemma ascii_forallb s : forallb (fun c => (0 <=? c) && (c <? 128)) s = true <-> ascii s.
Proof.
  unfold ascii. induction s as [|c s IH]; simpl; [by split; [constructor|]|].
  rewrite Forall_cons, <- IH, andb_true_iff. split; intros []; split; try done; lia.
Qed.

#[local] Instance ascii_only_laws : UnicodeLaws ascii_only.
Proof.
  split; simpl.
  - done.
  - intros s t. case_match eqn:E; [|done]. intros [= ->]. by apply ascii_forallb.
  - intros s t. case_match eqn:E; [|done]. intros [= ->]. exists (to_ascii_lowercase t).
    rewrite (proj2 (ascii_forallb _)); [by rewrite lowercase_idem|].
    by apply lowercase_ascii, ascii_forallb.
Qed.

Definition benjamin : UserAddress :=
  {| localpart := Localpart_of (lit "benjamin"); domain := DomainName_of (lit "parley.io") |}.

Lemma address_canonical_witness :
  UserAddress.parse (UserAddress.display benjamin) = Ok benjamin /\
  canonical_domain (domain_as_str (domain benjamin)) /\
  exists rest, lit "benjamin@Parley.io" = localpart_as_str (localpart benjamin) ++ AT :: rest /\
    AT ∉ localpart_as_str (localpart benjamin) /\ AT ∉ rest.
Proof.
  apply (address_canonical (lit "benjamin@Parley.io") benjamin).
  - apply ascii_scalar, ascii_forallb. reflexivity.
  - reflexivity.
Defined.

End DomainExamples.
