(* ===== verification/Totp.v ===== *)
(** * Time-based one-time passwords

    [crates/fcp-fabric-auth/src/totp.rs]: enrollment, sealing of the seed under
    the factor's identity, code computation and verification.  HMAC-SHA-256,
    AES-256-GCM and the printing of UUIDs are parameters; the values drawn from
    the operating system's generator are arguments. *)

From Stdlib Require Import ZArith Lia String.
From stdpp Require Import base list option numbers decidable sets.
From S2P Require Import Prelude Bytes Sample Str Domain.

Definition SEED_BYTES : Z := 32.
Definition NONCE_BYTES : Z := 12.
Definition PERIOD_SECONDS : Z := 30.
Definition DIGITS : Z := 6.

Inductive TotpError : Type :=
| InvalidKeyReference
| InvalidIssuer
| EncryptionFailed
| DecryptionFailed
| UnsupportedParameters
| InvalidCodeFormat
| InvalidTime
| VerificationFailed.

Class TotpCrypto : Type := {
  (** [Hmac<Sha256>] over one message. *)
  hmac_sha256 : bytes -> bytes -> array 32;
  (** [Aes256Gcm::encrypt] and [decrypt]: key, nonce, associated data, text. *)
  aes_gcm_encrypt : array 32 -> array 12 -> bytes -> bytes -> option bytes;
  aes_gcm_decrypt : array 32 -> array 12 -> bytes -> bytes -> option bytes;
  (** [Uuid]'s [Display]. *)
  uuid_display : Uuid -> str;
}.

(** What the crates document: sealing a seed succeeds, opening with the same
    key, nonce and associated data restores the text, opening with other
    associated data fails, and a UUID prints as 36 ASCII characters that
    determine it. *)
Class TotpCryptoLaws (T : TotpCrypto) : Prop := {
  aead_seals : forall k n aad m, blen m = SEED_BYTES ->
    exists c, aes_gcm_encrypt k n aad m = Some c;
  aead_opens : forall k n aad m c,
    aes_gcm_encrypt k n aad m = Some c -> aes_gcm_decrypt k n aad c = Some m;
  aead_binds : forall k n aad aad' m c,
    aes_gcm_encrypt k n aad m = Some c -> aad' <> aad -> aes_gcm_decrypt k n aad' c = None;
  uuid_display_ascii : forall u, ascii (uuid_display u);
  uuid_display_len : forall u, length (uuid_display u) = 36%nat;
  uuid_display_inj : forall u v, uuid_display u = uuid_display v -> u = v;
}.

Record TotpKeyReference : Type := TotpKeyReference_of { key_reference_as_str : str }.

Definition TotpKeyReference_new (value : str) : result TotpError TotpKeyReference :=
  if bool_decide (value = []) || (256 <? str_len value) || existsb is_control value
  then Err InvalidKeyReference else Ok (TotpKeyReference_of value).

Record TotpBinding : Type := {
  binding_tenant_id : TenantId;
  binding_account_id : AccountId;
  factor_id : Uuid;
}.

Record EncryptedTotpSeed : Type := {
  ciphertext : bytes;
  nonce : array 12;
  key_reference : TotpKeyReference;
  digits : Z;
  period_seconds : Z;
}.

Record TotpProvisioning : Type := { secret_base32 : str; uri : str }.
Record TotpEnrollment : Type := {
  encrypted_seed : EncryptedTotpSeed;
  provisioning : TotpProvisioning;
}.

(** An accepted moving time step. *)
Record AcceptedTotpStep : Type := AcceptedTotpStep_of { step : Z }.

(** ** Base 32 *)
Definition ALPHABET : str := lit "ABCDEFGHIJKLMNOPQRSTUVWXYZ234567".

Definition alphabet (index : Z) : Z := nth (Z.to_nat index) ALPHABET 0.

(** The inner loop: emit while five bits are buffered.  [bits] is at most 12,
    so three rounds are enough. *)
Fixpoint base32_emit (fuel : nat) (buffer bits : Z) (output : str) : Z * str :=
  match fuel with
  | O => (bits, output)
  | S f =>
      if 5 <=? bits then
        let index := Z.land (Z.shiftr buffer (bits - 5)) 31 in
        base32_emit f buffer (bits - 5) (output ++ [alphabet index])
      else (bits, output)
  end.

(** The outer loop over the bytes; the buffer is a [u16]. *)
Fixpoint base32_loop (l : bytes) (buffer bits : Z) (output : str) : Z * Z * str :=
  match l with
  | [] => (buffer, bits, output)
  | b :: l' =>
      let buffer := Z.lor (Z.land (Z.shiftl buffer 8) 65535) (Z_of_byte b) in
      let bits := bits + 8 in
      let '(bits, output) := base32_emit 3 buffer bits output in
      base32_loop l' buffer bits output
  end.

Definition base32_no_padding (l : bytes) : str :=
  let '(buffer, bits, output) := base32_loop l 0 0 [] in
  if 0 <? bits then
    let index := Z.land (Z.land (Z.shiftl buffer (5 - bits)) 65535) 31 in
    output ++ [alphabet index]
  else output.

(** ** Codes *)
Section totp.
Context `{TotpCrypto}.

(** [format!(...).into_bytes()]. *)
Definition associated_data (self : TotpBinding) : bytes :=
  str_bytes (lit "fcp-fabric/totp/v1/" ++ uuid_display (tenant_as_uuid (binding_tenant_id self))
    ++ lit "/" ++ uuid_display (account_as_uuid (binding_account_id self))
    ++ lit "/" ++ uuid_display (factor_id self)).

(** [nonce] is what [OsRng] filled in. *)
Definition encrypt_seed (key : array 32) (key_reference : TotpKeyReference)
    (binding : TotpBinding) (seed : array 32) (nonce : array 12) :
    result TotpError EncryptedTotpSeed :=
  let? ciphertext :=
    ok_or (aes_gcm_encrypt key nonce (associated_data binding) (abytes seed)) EncryptionFailed in
  Ok {| ciphertext := ciphertext; nonce := nonce; key_reference := key_reference;
        digits := DIGITS; period_seconds := PERIOD_SECONDS |}.

Definition decrypt_seed (key : array 32) (encrypted : EncryptedTotpSeed)
    (binding : TotpBinding) : result TotpError (array 32) :=
  let? plaintext :=
    ok_or (aes_gcm_decrypt key (nonce encrypted) (associated_data binding) (ciphertext encrypted))
      DecryptionFailed in
  ok_or (array_try 32 plaintext) DecryptionFailed.

Definition code_for_step (seed : array 32) (step : Z) : result TotpError Z :=
  let digest := hmac_sha256 (abytes seed) (be_bytes 8 step) in
  let last := nth 31 (abytes digest) x00 in
  let offset := Z.land (Z_of_byte last) 15 in
  let? window := ok_or (get_range (abytes digest) offset (offset + 4)) VerificationFailed in
  let truncated := Z.land (be_val window) 2147483647 in
  Ok (truncated mod 10 ^ DIGITS).

(** [str::parse::<u32>]. *)
Fixpoint parse_digits (s : str) (acc : Z) : option Z :=
  match s with
  | [] => Some acc
  | c :: s' =>
      if (48 <=? c) && (c <=? 57) then
        let acc := acc * 10 + (c - 48) in
        if acc <? 2 ^ 32 then parse_digits s' acc else None
      else None
  end.
Definition parse_u32 (s : str) : option Z :=
  match s with
  | [] => None
  | c :: s' =>
      if (c =? 43) && negb (bool_decide (s' = [])) then parse_digits s' 0 else parse_digits s 0
  end.

(** [checked_sub] of an [i64]. *)
Definition i64_checked_sub (a b : Z) : option Z :=
  if (- 2 ^ 63 <=? a - b) && (a - b <? 2 ^ 63) then Some (a - b) else None.

(** The loop of [verify_totp] over the candidate steps. *)
Fixpoint try_steps (seed : array 32) (code : str) (last_accepted_step : option Z)
    (steps : list Z) : result TotpError AcceptedTotpStep :=
  match steps with
  | [] => Err VerificationFailed
  | s :: rest =>
      if decide (Some s = last_accepted_step) then try_steps seed code last_accepted_step rest else
      let? expected := code_for_step seed s in
      let? supplied := ok_or (parse_u32 code) InvalidCodeFormat in
      if expected =? supplied then Ok (AcceptedTotpStep_of s)
      else try_steps seed code last_accepted_step rest
  end.

Definition verify_totp (key : array 32) (encrypted : EncryptedTotpSeed) (binding : TotpBinding)
    (code : str) (unix_timestamp : Z) (last_accepted_step : option Z) :
    result TotpError AcceptedTotpStep :=
  if negb (digits encrypted =? DIGITS) || negb (period_seconds encrypted =? PERIOD_SECONDS)
  then Err UnsupportedParameters else
  if negb (str_len code =? DIGITS) || negb (forallb byte_is_digit (str_bytes code))
  then Err InvalidCodeFormat else
  let? seed := decrypt_seed key encrypted binding in
  let current_step := Z.quot unix_timestamp PERIOD_SECONDS in
  let? previous_step := ok_or (i64_checked_sub current_step 1) InvalidTime in
  try_steps seed code last_accepted_step [current_step; previous_step].

(** [seed] and [nonce] are what [OsRng] filled in. *)
Definition begin_totp_enrollment (key : array 32) (key_reference : TotpKeyReference)
    (binding : TotpBinding) (address : UserAddress) (issuer : str) (seed : array 32)
    (nonce : array 12) : result TotpError TotpEnrollment :=
  if bool_decide (issuer = []) || (64 <? str_len issuer) || existsb is_control issuer
  then Err InvalidIssuer else
  let? encrypted_seed := encrypt_seed key key_reference binding seed nonce in
  let secret_base32 := base32_no_padding (abytes seed) in
  let label := issuer ++ lit ":" ++ localpart_as_str (localpart address) ++ lit "%40"
               ++ domain_as_str (domain address) in
  let uri := lit "otpauth://totp/" ++ label ++ lit "?secret=" ++ secret_base32
             ++ lit "&issuer=" ++ issuer ++ lit "&algorithm=SHA256&digits=6&period=30" in
  Ok {| encrypted_seed := encrypted_seed;
        provisioning := {| secret_base32 := secret_base32; uri := uri |} |}.

End totp.

(** ** Base 32 against a reference *)

(** The [k] base-32 digits of a number, most significant first. *)
Fixpoint digits32 (k : nat) (n : Z) : list Z :=
  match k with
  | O => []
  | S k' => digits32 k' (n / 32) ++ [n mod 32]
  end.

Definition val32 (l : list Z) : Z := foldl (fun acc d => acc * 32 + d) 0 l.

Lemma val32_snoc l d : val32 (l ++ [d]) = val32 l * 32 + d.
Proof. unfold val32. by rewrite foldl_app. Qed.

Lemma val32_digits32 k n : 0 <= n < 32 ^ Z.of_nat k -> val32 (digits32 k n) = n.
Proof.
  revert n. induction k as [|k IH]; intros n Hn; [simpl in *; change (val32 []) with 0; lia|].
  simpl digits32. rewrite val32_snoc, IH; [Z.to_euclidean_division_equations; lia|].
  rewrite Nat2Z.inj_succ, Z.pow_succ_r in Hn by lia.
  split; [Z.to_euclidean_division_equations; lia|]. apply Z.div_lt_upper_bound; lia.
Qed.

Lemma digits32_range k n d : d ∈ digits32 k n -> 0 <= d < 32.
Proof.
  revert n. induction k as [|k IH]; intros n; simpl; [by intros []%elem_of_nil|].
  rewrite elem_of_app, list_elem_of_singleton. intros [?| ->]; [by eapply IH|].
  apply Z.mod_pos_bound. lia.
Qed.

Lemma length_digits32 k n : length (digits32 k n) = k.
Proof. revert n. induction k as [|k IH]; intros n; simpl; [done|]. rewrite length_app, IH. simpl. lia. Qed.

Lemma land_ones_mod a k : 0 <= k -> Z.land a (2 ^ k - 1) = a mod 2 ^ k.
Proof. intros. rewrite <- Z.land_ones by lia. f_equal. rewrite Z.ones_equiv. lia. Qed.

(** The encoder's state after a prefix of value [v]: [m] digits are out, they
    are those of [v] without its last [bits] bits, and these are the last bits
    of the buffer. *)
Definition emitted (v : Z) (m : nat) (buffer bits : Z) (output : str) : Prop :=
  0 <= bits <= 12 /\ buffer mod 2 ^ bits = v mod 2 ^ bits /\
  output = alphabet <$> digits32 m (v / 2 ^ bits).

Lemma mod_pow_le a b i j : 0 <= i <= j -> a mod 2 ^ j = b mod 2 ^ j -> a mod 2 ^ i = b mod 2 ^ i.
Proof.
  intros Hij H. replace j with (i + (j - i)) in H by lia. rewrite Z.pow_add_r in H by lia.
  rewrite <- (Z.mod_mod_divide a (2 ^ i * 2 ^ (j - i)) (2 ^ i)) by (exists (2 ^ (j - i)); lia).
  rewrite <- (Z.mod_mod_divide b (2 ^ i * 2 ^ (j - i)) (2 ^ i)) by (exists (2 ^ (j - i)); lia).
  by rewrite H.
Qed.

(** One digit of the buffer is one digit of the value. *)
Lemma emit_digit buffer v bits :
  5 <= bits -> buffer mod 2 ^ bits = v mod 2 ^ bits ->
  Z.land (Z.shiftr buffer (bits - 5)) 31 = (v / 2 ^ (bits - 5)) mod 32.
Proof.
  intros Hb H. rewrite Z.shiftr_div_pow2 by lia.
  change 31 with (2 ^ 5 - 1). rewrite land_ones_mod by lia. change 32 with (2 ^ 5).
  assert (Hd : forall a, (a / 2 ^ (bits - 5)) mod 2 ^ 5 = (a mod 2 ^ bits) / 2 ^ (bits - 5)).
  { intros a. replace bits with ((bits - 5) + 5) at 2 by lia. rewrite Z.pow_add_r by lia.
    rewrite Z.rem_mul_r by lia. rewrite Z.mul_comm, Z.div_add by lia.
    rewrite (Z.div_small (a mod _)); [lia|]. apply Z.mod_pos_bound. lia. }
  by rewrite !Hd, H.
Qed.

Lemma emitted_step v m buffer bits output :
  5 <= bits -> emitted v m buffer bits output ->
  emitted v (S m) buffer (bits - 5)
    (output ++ [alphabet (Z.land (Z.shiftr buffer (bits - 5)) 31)]).
Proof.
  intros Hb (Hr & Hbuf & ->). split_and!; [lia | lia | by apply (mod_pow_le _ _ _ bits); [lia|] |].
  rewrite (emit_digit buffer v bits) by done. simpl. rewrite fmap_app. simpl. do 3 f_equal.
  rewrite Z.div_div by lia. change 32 with (2 ^ 5) at 1. rewrite <- Z.pow_add_r by lia. do 2 f_equal. lia.
Qed.

Lemma base32_emit_spec fuel v m buffer bits output :
  emitted v m buffer bits output -> bits < 5 * (Z.of_nat fuel + 1) ->
  let '(bits', output') := base32_emit fuel buffer bits output in
  bits' < 5 /\ exists m', emitted v m' buffer bits' output' /\
    5 * Z.of_nat m' + bits' = 5 * Z.of_nat m + bits.
Proof.
  revert m bits output. induction fuel as [|fuel IH]; intros m bits output He Hf; simpl.
  - split; [lia|]. by exists m.
  - destruct (Z.leb_spec 5 bits).
    + pose proof (emitted_step _ _ _ _ _ ltac:(done) He) as He'.
      specialize (IH _ _ _ He' ltac:(lia)).
      destruct (base32_emit fuel buffer (bits - 5) _) as [bits' output'].
      destruct IH as (Hlt & m' & Hm & Hc). split; [done|]. exists m'. split; [done|]. lia.
    + split; [done|]. by exists m.
Qed.

Lemma lor_shiftl_low a x : 0 <= x < 256 -> Z.lor (Z.shiftl a 8) x = a * 256 + x.
Proof.
  intros Hx. rewrite <- Z.add_nocarry_lor.
  - rewrite Z.shiftl_mul_pow2 by lia. change (2 ^ 8) with 256. lia.
  - apply Z.bits_inj'. intros n Hn. rewrite Z.land_spec, Z.bits_0.
    destruct (Z.lt_ge_cases n 8).
    + by rewrite Z.shiftl_spec_low.
    + rewrite <- (Z.mod_small x (2 ^ 8)) by (change (2 ^ 8) with 256; lia).
      rewrite Z.mod_pow2_bits_high by lia. apply andb_false_r.
Qed.

(** Pushing a byte into the 16-bit buffer. *)
Lemma push_buffer buffer x bits :
  0 <= x < 256 -> 0 <= bits <= 4 ->
  Z.lor (Z.land (Z.shiftl buffer 8) 65535) x mod 2 ^ (bits + 8) =
  (buffer * 256 + x) mod 2 ^ (bits + 8).
Proof.
  intros Hx Hb.
  assert (Hs : Z.land (Z.shiftl buffer 8) 65535 = Z.shiftl (buffer mod 256) 8).
  { change 65535 with (2 ^ 16 - 1). rewrite land_ones_mod, !Z.shiftl_mul_pow2 by lia.
    change (2 ^ 16) with (256 * 256). change (2 ^ 8) with 256.
    rewrite Z.mul_mod_distr_r by lia. done. }
  rewrite Hs, lor_shiftl_low by done.
  apply (mod_pow_le _ _ _ 16); [lia|]. change (2 ^ 16) with (256 * 256).
  rewrite (Z.div_mod buffer 256) at 2 by lia.
  replace ((256 * (buffer / 256) + buffer mod 256) * 256 + x)
    with (buffer mod 256 * 256 + x + (buffer / 256) * (256 * 256)) by lia.
  by rewrite Z.mod_add by lia.
Qed.

Lemma mod_byte a x k : 0 <= x < 256 -> 0 < k -> (a * 256 + x) mod (256 * k) = x + 256 * (a mod k).
Proof.
  intros Hx Hk. rewrite Z.rem_mul_r, Z.div_add_l, (Z.div_small x), Z.add_0_r by lia.
  rewrite (Z.add_comm (a * 256) x), Z.mod_add, Z.mod_small by lia. done.
Qed.

Lemma emitted_push v m buffer bits output x :
  0 <= x < 256 -> bits < 5 -> emitted v m buffer bits output ->
  emitted (v * 256 + x) m (Z.lor (Z.land (Z.shiftl buffer 8) 65535) x) (bits + 8) output.
Proof.
  intros Hx Hb (Hr & Hbuf & ->). split_and!; [lia|lia| |].
  - rewrite push_buffer by lia. rewrite Z.pow_add_r by lia. change (2 ^ 8) with 256.
    by rewrite (Z.mul_comm (2 ^ bits)), !mod_byte, Hbuf by lia.
  - f_equal. f_equal. rewrite Z.pow_add_r, (Z.mul_comm (2 ^ bits)), <- Z.div_div by lia.
    change (2 ^ 8) with 256. by rewrite Z.div_add_l, (Z.div_small x), Z.add_0_r by lia.
Qed.

Lemma base32_loop_spec l v m buffer bits output :
  bits < 5 -> emitted v m buffer bits output ->
  let '(buffer', bits', output') := base32_loop l buffer bits output in
  bits' < 5 /\ exists m', emitted (v * 256 ^ blen l + be_val l) m' buffer' bits' output' /\
    5 * Z.of_nat m' + bits' = 5 * Z.of_nat m + bits + 8 * blen l.
Proof.
  revert v m buffer bits output. induction l as [|b l IH]; intros v m buffer bits output Hb He; cbn [base32_loop be_val].
  - split; [done|]. exists m. change (blen (@nil byte)) with 0. rewrite Z.mul_1_r, Z.add_0_r. split; [done|unfold blen; simpl; lia].
  - pose proof (emitted_push _ _ _ _ _ _ (Z_of_byte_range b) Hb He) as He'.
    pose proof (base32_emit_spec 3 _ _ _ _ _ He' ltac:(lia)) as Hs.
    destruct (base32_emit 3 _ (bits + 8) output) as [bits1 output1].
    destruct Hs as (Hb1 & m1 & He1 & Hc1). specialize (IH _ _ _ _ _ Hb1 He1).
    destruct (base32_loop l _ bits1 output1) as [[buffer' bits'] output'].
    destruct IH as (Hb' & m' & Hm' & Hc'). split; [done|]. exists m'. rewrite blen_cons.
    rewrite Z.pow_add_r, Z.pow_1_r by (pose proof (blen_nonneg l); lia). split; [|lia].
    replace (v * (256 * 256 ^ blen l) + _)
      with ((v * 256 + Z_of_byte b) * 256 ^ blen l + be_val l) by lia. done.
Qed.

(** RFC 4648 without padding: the bits of the input, zero-filled to a multiple of
    five, five at a time; and its inverse. *)
Definition base32_reference (l : bytes) : str :=
  let k := (8 * blen l + 4) / 5 in
  alphabet <$> digits32 (Z.to_nat k) (be_val l * 2 ^ (5 * k - 8 * blen l)).

Definition index_of (c : Z) : option Z := Z.of_nat <$> (fst <$> list_find (c =.) ALPHABET).

Definition base32_decode (s : str) : option bytes :=
  let k := blen s in
  let n := 5 * k / 8 in
  (fun ds => be_bytes (Z.to_nat n) (val32 ds / 2 ^ (5 * k - 8 * n))) <$> mapM index_of s.

Lemma base32_correct l : base32_no_padding l = base32_reference l.
Proof.
  unfold base32_no_padding, base32_reference.
  assert (H0 : emitted 0 0 0 0 []) by (split_and!; done || lia).
  pose proof (base32_loop_spec l 0 0 0 0 [] ltac:(lia) H0) as Hl.
  destruct (base32_loop l 0 0 []) as [[buffer bits] output].
  destruct Hl as (Hb & m & (Hr & Hbuf & ->) & Hc). rewrite Z.mul_0_l, Z.add_0_l in *.
  destruct (Z.ltb_spec 0 bits).
  - replace ((8 * blen l + 4) / 5) with (Z.of_nat m + 1)
      by (apply Z.div_unique with (4 + bits - 5); lia).
    replace (Z.to_nat (Z.of_nat m + 1)) with (S m) by lia.
    replace (5 * (Z.of_nat m + 1) - 8 * blen l) with (5 - bits) by lia.
    assert (H32 : 32 = 2 ^ bits * 2 ^ (5 - bits))
      by (rewrite <- Z.pow_add_r by lia; by replace (bits + (5 - bits)) with 5 by lia).
    simpl digits32. rewrite fmap_app. simpl. f_equal.
    + rewrite H32. by rewrite Z.div_mul_cancel_r by lia.
    + change 65535 with (2 ^ 16 - 1). change 31 with (2 ^ 5 - 1).
      rewrite !land_ones_mod, Z.shiftl_mul_pow2 by lia.
      rewrite Z.mod_mod_divide by (by exists 2048). change (2 ^ 5) with 32.
      rewrite H32, !Z.mul_mod_distr_r, Hbuf by lia. done.
  - assert (bits = 0) as -> by lia.
    replace ((8 * blen l + 4) / 5) with (Z.of_nat m) by (apply Z.div_unique with 4; lia).
    rewrite Nat2Z.id. replace (5 * Z.of_nat m - 8 * blen l) with 0 by lia.
    by rewrite Z.mul_1_r, Z.div_1_r.
Qed.

Lemma index_of_alphabet d : 0 <= d < 32 -> index_of (alphabet d) = Some d.
Proof.
  intros Hd.
  assert (Hall : Forall (fun d => index_of (alphabet d) = Some d) (Z.of_nat <$> seq 0 32)).
  { vm_compute. repeat (constructor; [done|]). constructor. }
  rewrite list.Forall_forall in Hall. apply Hall, list_elem_of_fmap. exists (Z.to_nat d).
  split; [lia|]. apply elem_of_seq. lia.
Qed.

Lemma mapM_index ds : (forall d, d ∈ ds -> 0 <= d < 32) -> mapM index_of (alphabet <$> ds) = Some ds.
Proof.
  induction ds as [|d ds IH]; intros Hd; [done|]. rewrite fmap_cons. simpl.
  rewrite index_of_alphabet by (apply Hd; by left). simpl.
  rewrite IH by (intros; apply Hd; by right). done.
Qed.

Lemma base32_decode_encode l : base32_decode (base32_no_padding l) = Some l.
Proof.
  rewrite base32_correct. unfold base32_decode, base32_reference.
  set (k := (8 * blen l + 4) / 5). pose proof (blen_nonneg l) as Hn.
  assert (Hk : 8 * blen l <= 5 * k < 8 * blen l + 5)
    by (unfold k; Z.to_euclidean_division_equations; lia).
  set (ds := digits32 _ _). assert (Hlen : blen (alphabet <$> ds) = k).
  { unfold blen. rewrite length_fmap. unfold ds. rewrite length_digits32. lia. }
  rewrite Hlen, mapM_index by (intros d; apply digits32_range). simpl. f_equal.
  replace (5 * k / 8) with (blen l) by (apply Z.div_unique with (5 * k - 8 * blen l); lia).
  pose proof (be_val_range l) as Hv. change 256 with (2 ^ 8) in Hv. rewrite <- Z.pow_mul_r in Hv by lia.
  unfold ds. rewrite val32_digits32.
  - rewrite Z.div_mul by lia. unfold blen. rewrite Nat2Z.id. apply be_bytes_be_val.
  - rewrite Z2Nat.id by lia. change 32 with (2 ^ 5). rewrite <- Z.pow_mul_r by lia.
    assert (Hp : 2 ^ (5 * k) = 2 ^ (8 * blen l) * 2 ^ (5 * k - 8 * blen l))
      by (rewrite <- Z.pow_add_r by lia; f_equal; lia).
    rewrite Hp. nia.
Qed.

(** the hand-written base-32 encoder, which shifts bytes through a 16-bit
    buffer, computes the RFC 4648 encoding without padding for inputs of every
    length, and decoding its output restores the input. *)
Theorem base32_no_padding_correct l :
  base32_no_padding l = base32_reference l /\ base32_decode (base32_no_padding l) = Some l.
Proof. split; [apply base32_correct | apply base32_decode_encode]. Qed.

(** ** Codes *)
Section codes.
Context `{TotpCrypto}.

(** The value [code_for_step] computes. *)
Definition code (seed : array 32) (s : Z) : Z :=
  match code_for_step seed s with
  | Ok c => c
  | Err _ => 0
  end.

Lemma code_for_step_ok seed s : code_for_step seed s = Ok (code seed s) /\ 0 <= code seed s < 10 ^ 6.
Proof.
  unfold code, code_for_step.
  set (digest := hmac_sha256 _ _). set (last := nth 31 _ _).
  assert (Ho : 0 <= Z.land (Z_of_byte last) 15 <= 15).
  { change 15 with (2 ^ 4 - 1) at 1 2. rewrite land_ones_mod by lia.
    pose proof (Z.mod_pos_bound (Z_of_byte last) (2 ^ 4) ltac:(lia)). lia. }
  destruct (get_range (abytes digest) _ _) as [window|] eqn:Hw.
  - cbn [ok_or res_bind]. split; [done|]. apply Z.mod_pos_bound. done.
  - exfalso. unfold get_range in Hw. rewrite array_len in Hw.
    rewrite (proj2 (Z.leb_le _ _)), (proj2 (Z.leb_le _ _)) in Hw by lia. done.
Qed.

(** The number a string of decimal digits denotes. *)
Definition decimal (s : str) : Z := foldl (fun acc c => acc * 10 + (c - 48)) 0 s.

Definition is_code (s : str) : Prop := length s = 6%nat /\ Forall (fun c => 48 <= c <= 57) s.

Lemma parse_digits_ok s acc :
  0 <= acc -> Forall (fun c => 48 <= c <= 57) s ->
  (acc + 1) * 10 ^ Z.of_nat (length s) <= 2 ^ 32 ->
  parse_digits s acc = Some (foldl (fun acc c => acc * 10 + (c - 48)) acc s).
Proof.
  intros Ha Hs. revert acc Ha. induction Hs as [|c s Hc _ IH]; intros acc Ha Hb; simpl; [done|].
  rewrite (proj2 (andb_true_iff _ _)) by lia.
  simpl length in Hb. rewrite Nat2Z.inj_succ, Z.pow_succ_r in Hb by lia.
  assert (0 < 10 ^ Z.of_nat (length s)) by lia.
  rewrite (proj2 (Z.ltb_lt _ _)) by nia. apply IH; [lia|]. nia.
Qed.

Lemma parse_code s : is_code s -> parse_u32 s = Some (decimal s).
Proof.
  intros [Hl Hs]. unfold parse_u32, decimal. destruct s as [|c s]; [done|].
  pose proof (Forall_cons_1 _ _ _ Hs) as [Hc _].
  rewrite (proj2 (Z.eqb_neq c 43)) by lia. cbn [andb]. apply parse_digits_ok; [lia|done|].
  rewrite Hl. done.
Qed.

(** The format check of [verify_totp]. *)
Lemma code_format s :
  scalar s ->
  negb (str_len s =? DIGITS) || negb (forallb byte_is_digit (str_bytes s)) = false <-> is_code s.
Proof.
  intros Hs. rewrite orb_false_iff, !negb_false_iff, Z.eqb_eq. unfold is_code, str_len, DIGITS.
  assert (HP : forall b, byte_is_digit b = true -> Z_of_byte b < 128)
    by (unfold byte_is_digit; lia).
  split.
  - intros [Hl Hd]. destruct (ascii_of_bytes _ _ Hs HP Hd) as [Ha Hf].
    rewrite ascii_bytes in Hl by done. unfold blen in Hl. rewrite length_fmap in Hl.
    split; [lia|]. unfold ascii in Ha. rewrite list.Forall_forall in *. intros c Hc.
    specialize (Hf c Hc). specialize (Ha c Hc). unfold byte_is_digit in Hf.
    rewrite byte_of_Z_small in Hf by lia. lia.
  - intros [Hl Hd]. assert (Ha : ascii s).
    { eapply Forall_impl; [exact Hd|]. simpl. lia. }
    rewrite ascii_bytes_forallb, ascii_bytes by done. unfold blen. rewrite length_fmap.
    split; [lia|]. rewrite list.Forall_forall in *. intros c Hc. specialize (Hd c Hc).
    unfold byte_is_digit. rewrite byte_of_Z_small by lia. lia.
Qed.

Lemma try_steps_ok seed s last steps a :
  is_code s ->
  try_steps seed s last steps = Ok (AcceptedTotpStep_of a) <->
  exists pre post, steps = pre ++ a :: post /\ Some a <> last /\ code seed a = decimal s /\
    Forall (fun b => Some b = last \/ code seed b <> decimal s) pre.
Proof.
  intros Hs. induction steps as [|b steps IH]; cbn [try_steps].
  - split; [done|]. intros ([|? ?] & post & ? & _); done.
  - rewrite (proj1 (code_for_step_ok seed b)), parse_code by done. cbn [ok_or res_bind].
    assert (Hskip : Some b = last \/ code seed b <> decimal s ->
      (try_steps seed s last steps = Ok (AcceptedTotpStep_of a) <->
       exists pre post, b :: steps = pre ++ a :: post /\ Some a <> last /\ code seed a = decimal s /\
         Forall (fun b => Some b = last \/ code seed b <> decimal s) pre)).
    { intros Hb. rewrite IH. split.
      - intros (pre & post & -> & ? & ? & ?). exists (b :: pre), post. split_and!; try done. by constructor.
      - intros ([|x pre] & post & [= -> ->] & ? & ? & Hf); [naive_solver|].
        apply Forall_cons_1 in Hf as [_ Hf]. eauto 10. }
    case_decide as Hl; [by apply Hskip; left|].
    destruct (Z.eqb_spec (code seed b) (decimal s)) as [Hc|Hc]; [|by apply Hskip; right].
    split.
    + intros [= ->]. by exists [], steps.
    + intros ([|x pre] & post & [= -> ->] & ? & ? & Hf); [done|].
      apply Forall_cons_1 in Hf as [[?|?] _]; done.
Qed.

Lemma quot_sub ts : - 2 ^ 63 <= ts < 2 ^ 63 ->
  i64_checked_sub (Z.quot ts PERIOD_SECONDS) 1 = Some (Z.quot ts PERIOD_SECONDS - 1).
Proof.
  intros H63. unfold i64_checked_sub, PERIOD_SECONDS.
  rewrite (proj2 (andb_true_iff _ _)); [done|]. Z.to_euclidean_division_equations; lia.
Qed.

(** The step a code is accepted for: the current one, or the previous one when
    the current one is spent or has another code. *)
Definition accepted_for (seed : array 32) (value : Z) (last : option Z) (current s : Z) : Prop :=
  Some s <> last /\ code seed s = value /\
  (s = current \/ s = current - 1 /\ (Some current = last \/ code seed current <> value)).

Lemma try_two_steps seed s last current a :
  is_code s ->
  try_steps seed s last [current; current - 1] = Ok a <->
  accepted_for seed (decimal s) last current (step a).
Proof.
  intros Hs. destruct a as [a]. rewrite try_steps_ok by done. unfold accepted_for. cbn [step]. split.
  - intros (pre & post & Heq & Hl & Hc & Hf). split_and!; [done..|].
    destruct pre as [|x [|y [|z pre]]]; simplify_eq/=; [by left|].
    right. apply Forall_cons_1 in Hf as [? _]. done.
  - intros (Hl & Hc & [->|[-> Hcur]]).
    + exists [], [current - 1]. split_and!; [done..|]. constructor.
    + exists [current], []. split_and!; [done..|]. by apply Forall_singleton.
Qed.

Lemma verify_totp_ok key e b s ts last a :
  scalar s -> - 2 ^ 63 <= ts < 2 ^ 63 ->
  verify_totp key e b s ts last = Ok a <->
  digits e = 6 /\ period_seconds e = 30 /\ is_code s /\
  exists seed, decrypt_seed key e b = Ok seed /\
    accepted_for seed (decimal s) last (Z.quot ts 30) (step a).
Proof.
  intros Hs Hts. unfold verify_totp. rewrite <- (code_format s Hs).
  unfold DIGITS at 1, PERIOD_SECONDS at 1.
  destruct (Z.eqb_spec (digits e) 6) as [->|]; [|split; [done|naive_solver]].
  destruct (Z.eqb_spec (period_seconds e) 30) as [->|]; [|split; [done|naive_solver]]. cbn [negb orb].
  destruct (negb (str_len s =? DIGITS) || _) eqn:Hf; [split; [done|naive_solver]|].
  apply code_format in Hf; [|done]. rewrite quot_sub by done. cbn [ok_or res_bind].
  destruct (decrypt_seed key e b) as [seed|err]; cbn [res_bind];
    [|split; [done|intros (_ & _ & _ & ? & ? & _); done]].
  rewrite try_two_steps by done. unfold PERIOD_SECONDS. naive_solver.
Qed.

(** Six decimal digits, as an authenticator shows a code. *)
Fixpoint show_digits (k : nat) (n : Z) : str :=
  match k with
  | O => []
  | S k' => show_digits k' (n / 10) ++ [48 + n mod 10]
  end.

Lemma show_digits_ok k n :
  length (show_digits k n) = k /\ Forall (fun c => 48 <= c <= 57) (show_digits k n) /\
  (0 <= n < 10 ^ Z.of_nat k -> decimal (show_digits k n) = n).
Proof.
  revert n. induction k as [|k IH]; intros n.
  { split_and!; [done|constructor|]. intros Hn. change (decimal (show_digits 0 n)) with 0. simpl in Hn. lia. }
  cbn [show_digits]. destruct (IH (n / 10)) as (Hl & Hd & Hv).
  pose proof (Z.mod_pos_bound n 10 ltac:(lia)). split_and!.
  - rewrite length_app, Hl. simpl. lia.
  - apply Forall_app. split; [done|]. repeat constructor; lia.
  - intros Hn. rewrite Nat2Z.inj_succ, Z.pow_succ_r in Hn by lia.
    unfold decimal in *. rewrite foldl_app, Hv; cbn [foldl].
    + pose proof (Z.div_mod n 10). lia.
    + split; [apply Z.div_pos; lia|]. apply Z.div_lt_upper_bound; lia.
Qed.

Lemma show_code seed s :
  is_code (show_digits 6 (code seed s)) /\ decimal (show_digits 6 (code seed s)) = code seed s /\
  scalar (show_digits 6 (code seed s)).
Proof.
  destruct (show_digits_ok 6 (code seed s)) as (Hl & Hd & Hv).
  split_and!; [done| by apply Hv, code_for_step_ok |].
  eapply Forall_impl; [exact Hd|]. simpl. lia.
Qed.
End codes.

(** ** The properties *)
Section properties.
Context `{T : TotpCrypto} {L : TotpCryptoLaws T}.

Lemma associated_data_inj a b : associated_data a = associated_data b -> a = b.
Proof.
  unfold associated_data. intros E. apply ascii_bytes_inj in E.
  2,3: unfold ascii; rewrite !Forall_app; split_and!; try apply uuid_display_ascii;
       apply (bool_decide_unpack _); vm_compute; exact I.
  apply app_inv_head in E.
  apply app_inj_1 in E as [E1%uuid_display_inj E]; [|by rewrite !uuid_display_len].
  apply app_inv_head in E.
  apply app_inj_1 in E as [E2%uuid_display_inj E]; [|by rewrite !uuid_display_len].
  apply app_inv_head, uuid_display_inj in E.
  destruct a as [[] [] ], b as [[] [] ]; simpl in *. by subst.
Qed.

Lemma encrypt_decrypt key kr b seed n e :
  encrypt_seed key kr b seed n = Ok e ->
  digits e = 6 /\ period_seconds e = 30 /\ decrypt_seed key e b = Ok seed /\
  forall b', b' <> b -> decrypt_seed key e b' = Err DecryptionFailed.
Proof.
  unfold encrypt_seed. intros (c & Hc%ok_or_ok & [= <-])%res_bind_ok.
  split_and!; [done..| |].
  - unfold decrypt_seed. cbn [nonce ciphertext]. rewrite (aead_opens _ _ _ _ _ Hc). cbn [ok_or res_bind].
    by rewrite array_try_abytes.
  - intros b' Hb. unfold decrypt_seed. cbn [nonce ciphertext].
    rewrite (aead_binds _ _ _ _ _ _ Hc); [done|]. intros E. by apply Hb, associated_data_inj.
Qed.

(** What [verify_totp] accepts.  A code is accepted for a step exactly when
    the factor has the supported parameters, the code is six decimal digits,
    the seed opens under the factor's binding, and the step is the current
    30-second step or the one before it, is not the last accepted step, and has
    this code; the current step is preferred. *)
Theorem verify_totp_iff key e b s ts last a :
  scalar s -> - 2 ^ 63 <= ts < 2 ^ 63 ->
  verify_totp key e b s ts last = Ok a <->
  digits e = 6 /\ period_seconds e = 30 /\ is_code s /\
  exists seed, decrypt_seed key e b = Ok seed /\
    accepted_for seed (decimal s) last (Z.quot ts 30) (step a).
Proof. apply verify_totp_ok. Qed.

(** Enrollment.  Whatever seed and nonce are drawn, enrolling with a valid
    issuer succeeds; the secret shown to the user decodes to the sealed seed;
    at every time the six digits of the current step's code are accepted for
    that step unless it was the last accepted one; and under any other tenant,
    account or factor the sealed seed does not open. *)
Theorem totp_enrollment key kr b address issuer seed n :
  issuer <> [] -> str_len issuer <= 64 -> existsb is_control issuer = false ->
  exists e, begin_totp_enrollment key kr b address issuer seed n = Ok e /\
    base32_decode (secret_base32 (provisioning e)) = Some (abytes seed) /\
    key_reference (encrypted_seed e) = kr /\
    (forall ts last, - 2 ^ 63 <= ts < 2 ^ 63 -> last <> Some (Z.quot ts 30) ->
       verify_totp key (encrypted_seed e) b (show_digits 6 (code seed (Z.quot ts 30))) ts last
       = Ok (AcceptedTotpStep_of (Z.quot ts 30))) /\
    (forall b' s ts last, scalar s -> is_code s -> b' <> b ->
       verify_totp key (encrypted_seed e) b' s ts last = Err DecryptionFailed).
Proof.
  intros Hi Hl Hc. unfold begin_totp_enrollment.
  rewrite (bool_decide_eq_false_2 _ Hi), (proj2 (Z.ltb_ge 64 _) Hl), Hc. cbn [orb].
  destruct (aead_seals key n (associated_data b) (abytes seed) (array_len seed)) as [c Hs].
  assert (He : encrypt_seed key kr b seed n = Ok {| ciphertext := c; nonce := n;
    key_reference := kr; digits := DIGITS; period_seconds := PERIOD_SECONDS |})
    by (unfold encrypt_seed; by rewrite Hs).
  rewrite He. cbn [res_bind]. destruct (encrypt_decrypt _ _ _ _ _ _ He) as (Hd & Hp & Ho & Hb).
  eexists. split; [done|]. cbn [provisioning secret_base32 encrypted_seed key_reference].
  split_and!; [apply base32_decode_encode | done | |].
  - intros ts last Hts Hlast. destruct (show_code seed (Z.quot ts 30)) as (Hf & Hv & Hsc).
    apply verify_totp_ok; [done..|]. split_and!; [done..|]. exists seed. split; [done|].
    unfold accepted_for. cbn [step]. rewrite Hv. split_and!; [congruence|done|by left].
  - intros b' s ts last Hsc Hf Hne. unfold verify_totp. cbn [digits period_seconds].
    rewrite (proj2 (code_format s Hsc) Hf), (Hb b' Hne). done.
Qed.
End properties.

(** ** Concrete runs *)
Module TotpExamples.

Definition hex_digit (n : Z) : Z := if n <? 10 then 48 + n else 87 + n.
Definition hex (l : bytes) : str :=
  mjoin ((fun b => [hex_digit (Z_of_byte b / 16); hex_digit (Z_of_byte b mod 16)]) <$> l).

(** The hyphenated form of a UUID. *)
Definition hyphenated (u : Uuid) : str :=
  let h := hex (abytes u) in
  take 8 h ++ lit "-" ++ take 4 (drop 8 h) ++ lit "-" ++ take 4 (drop 12 h) ++ lit "-"
  ++ take 4 (drop 16 h) ++ lit "-" ++ drop 20 h.


(** A checksum for the HMAC, and sealing that appends the associated data. *)
#[local] Instance sample : TotpCrypto := {|
  hmac_sha256 k m := Sample.padded 24 (Sample.checksum (Sample.checksum 0 k) m);
  aes_gcm_encrypt _ _ aad m := if blen m =? 32 then Some (m ++ aad) else None;
  aes_gcm_decrypt _ _ aad c :=
    if (32 <=? blen c) && bool_decide (drop 32 c = aad) then Some (take 32 c) else None;
  uuid_display := hyphenated;
|}.

Lemma hex_digit_ok n : 0 <= n < 16 -> 0 <= hex_digit n < 128 /\ hex_digit n <> 45.
Proof. unfold hex_digit. destruct (Z.ltb_spec n 10); lia. Qed.

Lemma hex_ok l : Forall (fun c => 0 <= c < 128 /\ c <> 45) (hex l).
Proof.
  unfold hex. induction l as [|b l IH]; [constructor|]. rewrite fmap_cons.
  pose proof (Z_of_byte_range b). constructor; [|constructor; [|done]]; apply hex_digit_ok;
    Z.to_euclidean_division_equations; lia.
Qed.

Lemma length_hex l : length (hex l) = (2 * length l)%nat.
Proof. unfold hex. induction l as [|b l IH]; [done|]. rewrite fmap_cons. simpl in *. lia. Qed.

Lemma hex_inj l m : hex l = hex m -> l = m.
Proof.
  assert (Hd : forall a b, 0 <= a < 16 -> 0 <= b < 16 -> hex_digit a = hex_digit b -> a = b)
    by (unfold hex_digit; intros a b; destruct (Z.ltb_spec a 10), (Z.ltb_spec b 10); lia).
  unfold hex. revert m. induction l as [|b l IH]; intros [|c m]; try done.
  rewrite !fmap_cons. cbn [mjoin list_join app]. intros [= E1 E2 E3]. f_equal; [|by apply IH].
  pose proof (Z_of_byte_range b). pose proof (Z_of_byte_range c).
  apply Hd in E1, E2; try (Z.to_euclidean_division_equations; lia).
  apply Z_of_byte_inj. rewrite (Z.div_mod (Z_of_byte b) 16), E1, E2 by lia.
  symmetry. apply Z.div_mod. lia.
Qed.

(** Without its hyphens, the printed form is the hexadecimal one. *)
Lemma hyphenated_hex u : filter (fun c => c <> 45) (hyphenated u) = hex (abytes u).
Proof.
  pose proof (hex_ok (abytes u)) as Hf. unfold hyphenated. set (h := hex (abytes u)) in *.
  assert (Hid : forall s, Forall (fun c => 0 <= c < 128 /\ c <> 45) s -> filter (fun c => c <> 45) s = s).
  { intros s Hs. induction Hs as [|c s [_ Hc] _ IH]; [done|]. rewrite filter_cons_True by done. by rewrite IH. }
  rewrite !filter_app. change (filter _ (lit "-")) with (@nil Z).
  rewrite !Hid by (repeat first [apply Forall_take | apply Forall_drop]; done). cbn [app].
  assert (Hj : forall k n m, (k + n)%nat = m -> take n (drop k h) ++ drop m h = drop k h)
    by (intros k n m <-; rewrite <- drop_drop; apply take_drop).
  rewrite !Hj by done. apply take_drop.
Qed.

#[local] Instance sample_laws : TotpCryptoLaws sample.
Proof.
  split; simpl.
  - intros _ _ aad m Hm. unfold SEED_BYTES in Hm. rewrite (proj2 (Z.eqb_eq _ _) Hm). eauto.
  - intros _ _ aad m c. destruct (Z.eqb_spec (blen m) 32) as [Hm|]; [|done]. intros [= <-].
    assert (length m = 32)%nat as Hl by (unfold blen in Hm; lia).
    rewrite <- Hl, drop_app_length, take_app_length, bool_decide_eq_true_2 by done.
    rewrite blen_app, (proj2 (Z.leb_le _ _)); [done|]. pose proof (blen_nonneg aad). lia.
  - intros _ _ aad aad' m c. destruct (Z.eqb_spec (blen m) 32) as [Hm|]; [|done]. intros [= <-] Hne.
    assert (length m = 32)%nat as Hl by (unfold blen in Hm; lia).
    rewrite <- Hl, drop_app_length, bool_decide_eq_false_2, andb_false_r by congruence. done.
  - intros u. unfold hyphenated, ascii. pose proof (hex_ok (abytes u)) as Hf.
    assert (Ha : Forall (fun c => 0 <= c < 128) (hex (abytes u)))
      by (eapply Forall_impl; [exact Hf|]; simpl; tauto).
    rewrite !Forall_app. split_and!;
      first [ repeat first [apply Forall_take | apply Forall_drop]; exact Ha
            | apply (bool_decide_unpack _); vm_compute; exact I ].
  - intros u. unfold hyphenated. rewrite !length_app, !length_take, !length_drop, length_hex.
    pose proof (array_len u) as Hl. unfold blen in Hl. change (length (lit "-")) with 1%nat. lia.
  - intros u v E. apply array_eq, hex_inj. by rewrite <- !hyphenated_hex, E.
Qed.

Definition factor : TotpBinding :=
  {| binding_tenant_id := TenantId_from_uuid (array_fill 16 x01);
     binding_account_id := AccountId_from_uuid (array_fill 16 x02);
     factor_id := array_fill 16 x03 |}.
Definition other_factor : TotpBinding :=
  {| binding_tenant_id := TenantId_from_uuid (array_fill 16 x01);
     binding_account_id := AccountId_from_uuid (array_fill 16 x04);
     factor_id := array_fill 16 x03 |}.
Definition reference : TotpKeyReference := TotpKeyReference_of (lit "kms-1").
Definition benjamin : UserAddress :=
  {| localpart := Localpart_of (lit "benjamin"); domain := DomainName_of (lit "parley.io") |}.
Definition sealed : EncryptedTotpSeed :=
  {| ciphertext := replicate 32 x05 ++ associated_data factor; nonce := array_fill 12 x06;
     key_reference := reference; digits := 6; period_seconds := 30 |}.

(** At time 95 the current step is 3; its code spent, the code of step 2 is
    accepted for step 2. *)
Lemma verify_totp_iff_witness :
  verify_totp (array_fill 32 x07) sealed factor (show_digits 6 (code (array_fill 32 x05) 2)) 95 (Some 3)
  = Ok (AcceptedTotpStep_of 2).
Proof.
  apply (verify_totp_iff (array_fill 32 x07) sealed factor
    (show_digits 6 (code (array_fill 32 x05) 2)) 95 (Some 3) (AcceptedTotpStep_of 2)).
  - apply show_code.
  - lia.
  - destruct (show_code (array_fill 32 x05) 2) as (Hc & Hv & _).
    split_and!; [done|done|done|]. exists (array_fill 32 x05). split.
    { apply (encrypt_decrypt _ reference _ _ (array_fill 12 x06)). reflexivity. }
    rewrite Hv. split_and!; [done|done|]. right. split; [done|by left].
Defined.

Lemma totp_enrollment_witness :
  exists e, begin_totp_enrollment (array_fill 32 x07) reference factor benjamin (lit "Parley")
      (array_fill 32 x05) (array_fill 12 x06) = Ok e /\
    verify_totp (array_fill 32 x07) (encrypted_seed e) factor
      (show_digits 6 (code (array_fill 32 x05) 3)) 95 None = Ok (AcceptedTotpStep_of 3) /\
    verify_totp (array_fill 32 x07) (encrypted_seed e) other_factor
      (show_digits 6 (code (array_fill 32 x05) 3)) 95 None = Err DecryptionFailed.
Proof.
  destruct (totp_enrollment (array_fill 32 x07) reference factor benjamin (lit "Parley")
    (array_fill 32 x05) (array_fill 12 x06)) as (e & He & _ & _ & Hv & Ho);
    [done | by vm_compute | reflexivity |].
  exists e. split_and!; [done | by apply (Hv 95) |].
  apply Ho; [apply show_code | apply show_code | intros E; by apply (f_equal binding_account_id) in E].
Defined.

End TotpExamples.
