(* ===== verification/Clock.v ===== *)
(** * Times

    What the Fabric crates use of the [time] crate and of the database driver's
    encoding of times, as an interface: an [OffsetDateTime] is opaque, it has a
    Unix time in whole seconds, an order, and a microsecond count that stands
    for it in a [TIMESTAMPTZ] column; durations are opaque likewise.  Arithmetic on the seconds is [i64]
    arithmetic, which has no result outside the width. *)

From Stdlib Require Import ZArith Lia.
From stdpp Require Import base list option numbers decidable.
From S2P Require Import Prelude Bytes Str.

Class TimeLib : Type := {
  OffsetDateTime : Type;
  datetime_eq_dec : EqDecision OffsetDateTime;
  (** [unix_timestamp]. *)
  unix_timestamp : OffsetDateTime -> Z;
  (** [<=] on [OffsetDateTime]. *)
  datetime_leb : OffsetDateTime -> OffsetDateTime -> bool;
  (** The value stored in, and read from, a [TIMESTAMPTZ] column. *)
  timestamptz : OffsetDateTime -> Z;
  from_timestamptz : Z -> OffsetDateTime;
  (** [OffsetDateTime::parse] with [Rfc3339]. *)
  parse_rfc3339 : str -> option OffsetDateTime;
  (** [format] with [Rfc3339]. *)
  format_rfc3339 : OffsetDateTime -> option str;
  (** [Duration], its order, [Duration::ZERO], [minutes] and [days]. *)
  Duration : Type;
  duration_leb : Duration -> Duration -> bool;
  duration_zero : Duration;
  duration_minutes : Z -> Duration;
  duration_days : Z -> Duration;
  (** [OffsetDateTime + Duration]; none when it panics. *)
  datetime_add : OffsetDateTime -> Duration -> option OffsetDateTime;
}.
#[export] Existing Instance datetime_eq_dec.

(** The years a time can have are bounded, so its seconds are far from the ends
    of [i64]; times are totally ordered, seconds and stored values follow the
    order, and adding a positive duration gives a later time. *)
Class TimeLaws (T : TimeLib) : Prop := {
  unix_timestamp_range : forall t, - 2 ^ 45 < unix_timestamp t < 2 ^ 45;
  datetime_total : forall a b, datetime_leb a b = true \/ datetime_leb b a = true;
  datetime_trans : forall a b c,
    datetime_leb a b = true -> datetime_leb b c = true -> datetime_leb a c = true;
  datetime_antisym : forall a b, datetime_leb a b = true -> datetime_leb b a = true -> a = b;
  timestamptz_mono : forall a b, datetime_leb a b = true -> timestamptz a <= timestamptz b;
  unix_timestamp_mono : forall a b, datetime_leb a b = true -> unix_timestamp a <= unix_timestamp b;
  duration_minutes_pos : forall n, 0 < n <= 60 -> duration_leb (duration_minutes n) duration_zero = false;
  datetime_add_later : forall t d t', duration_leb d duration_zero = false ->
    datetime_add t d = Some t' -> datetime_leb t' t = false;
  timestamptz_read : forall t, timestamptz (from_timestamptz (timestamptz t)) = timestamptz t;
}.

(** [i64] addition and subtraction: no value on overflow. *)
Definition i64_in (z : Z) : bool := (- 2 ^ 63 <=? z) && (z <? 2 ^ 63).
Definition i64_add {E} (a b : Z) : X E Z := if i64_in (a + b) then xret (Ok (a + b)) else None.
Definition i64_sub {E} (a b : Z) : X E Z := if i64_in (a - b) then xret (Ok (a - b)) else None.

Lemma i64_add_ok {E} a b : - 2 ^ 63 <= a + b < 2 ^ 63 -> i64_add (E:=E) a b = Some (Ok (a + b)).
Proof. intros H. unfold i64_add, i64_in. by rewrite (proj2 (andb_true_iff _ _)) by lia. Qed.

Lemma i64_sub_ok {E} a b : - 2 ^ 63 <= a - b < 2 ^ 63 -> i64_sub (E:=E) a b = Some (Ok (a - b)).
Proof. intros H. unfold i64_sub, i64_in. by rewrite (proj2 (andb_true_iff _ _)) by lia. Qed.

(** ** A concrete clock

    Whole seconds of 40 bits; a text of one character is the time its code
    point counts. *)
Module SampleClock.

Definition at_second (z : Z) : uint 40 := default (@UInt 40 0 eq_refl) (uint_try 40 z).

Lemma at_second_val t : at_second (uval t) = t.
Proof.
  unfold at_second. destruct (uint_try 40 (uval t)) as [u|] eqn:E; simpl.
  - apply uint_try_some in E as [_ E]. by apply uint_eq.
  - pose proof (uint_range t) as Hr. destruct t as [z Hz].
    assert (uint_try 40 z = Some (UInt z Hz)) by (by apply uint_try_some). simpl in *. congruence.
Qed.

#[export] Instance clock : TimeLib := {|
  OffsetDateTime := uint 40;
  datetime_eq_dec := _;
  unix_timestamp t := uval t;
  datetime_leb a b := uval a <=? uval b;
  timestamptz t := uval t;
  from_timestamptz := at_second;
  parse_rfc3339 s := match s with [c] => uint_try 40 c | _ => None end;
  format_rfc3339 t := Some [uval t];
  Duration := Z;
  duration_leb := Z.leb;
  duration_zero := 0;
  duration_minutes n := n * 60;
  duration_days n := n * 86400;
  datetime_add t d := uint_try 40 (uval t + d);
|}.

(** The time [z] seconds into the count. *)
Definition second (z : Z) : OffsetDateTime := at_second z.

#[export] Instance clock_laws : TimeLaws clock.
Proof.
  split; simpl.
  - intros t. pose proof (uint_range t). lia.
  - intros a b. rewrite !Z.leb_le. lia.
  - intros a b c. rewrite !Z.leb_le. lia.
  - intros a b. rewrite !Z.leb_le. intros. apply uint_eq. lia.
  - intros a b. by rewrite Z.leb_le.
  - intros a b. by rewrite Z.leb_le.
  - intros n Hn. rewrite Z.leb_gt. lia.
  - intros t d t'. rewrite !Z.leb_gt. intros Hd [_ ->]%uint_try_some. lia.
  - intros t. by rewrite at_second_val.
Qed.

End SampleClock.
