(* ===== verification/Auth.v ===== *)
(** * Passwords and opaque tokens

    [crates/fcp-fabric-auth/src/password.rs] and [session.rs], with the
    interface of the libraries the Fabric crates build on: hashing, base64, UUID
    text, JSON decoding and Argon2id are parameters with the behaviour their
    crates document.  Random values are arguments. *)

From Stdlib Require Import ZArith Lia String.
From stdpp Require Import base list option numbers decidable.
From S2P Require Import Prelude Bytes Sample Str Domain Totp.

Class FabricLib : Type := {
  sha256 : bytes -> array 32;
  (** [URL_SAFE_NO_PAD.decode] and [encode]. *)
  base64url_decode : str -> option bytes;
  base64url_encode : bytes -> str;
  (** [Uuid::parse_str] and [Uuid]'s [Display]. *)
  uuid_parse : str -> option Uuid;
  uuid_text : Uuid -> str;
  (** Stored JSON values, and [serde_json::from_value] at
      [StoredEndpointIdentityDocument]: both members are strings and there is
      no other. *)
  Document : Type;
  document_from_value : Document -> option (str * str);
}.

(** A UUID prints as 36 characters, none of them a control character. *)
Class FabricLaws (F : FabricLib) : Prop := {
  uuid_text_len : forall u, str_len (uuid_text u) = 36;
  uuid_text_plain : forall u, existsb is_control (uuid_text u) = false;
}.

(** ** Passwords ([password.rs]) *)

(** Argon2id through the [argon2] and [password_hash] crates. *)
Class Argon2 : Type := {
  (** [Params::new(memory_kib, iterations, parallelism, Some(32))] succeeds. *)
  params_ok : Z -> Z -> Z -> bool;
  (** [PasswordHash::new]: the algorithm and version of a PHC string. *)
  phc_parse : str -> option (str * option Z);
  (** [hash_password] with the parameters and a salt, printed. *)
  argon2_hash : Z * Z * Z -> bytes -> bytes -> option str;
  (** [Argon2::default().verify_password] on the parsed string. *)
  argon2_verify : bytes -> str -> bool;
}.

(** A printed hash is an Argon2id PHC string of version 19 that verifies the
    hashed input. *)
Class Argon2Laws (A : Argon2) : Prop := {
  argon2_prints : forall p m salt phc, argon2_hash p m salt = Some phc ->
    phc_parse phc = Some (lit "argon2id", Some 19);
  argon2_verifies : forall p m salt phc, argon2_hash p m salt = Some phc -> argon2_verify m phc = true;
}.

Inductive PasswordError : Type :=
| InvalidPolicy | TooShort | InvalidLength | Blocked | HashingFailed
| MalformedVerifier | UnsupportedVerifier | PasswordVerificationFailed.

Record PasswordPolicy : Type := {
  minimum_characters : Z;
  maximum_bytes : Z;
  memory_kib : Z;
  iterations : Z;
  parallelism : Z;
}.

Record PasswordVerifierString : Type := PasswordVerifierString_of { verifier_as_str : str }.

#[export] Instance PasswordVerifierString_eq_dec : EqDecision PasswordVerifierString.
Proof. solve_decision. Defined.

Section passwords.
Context `{A : Argon2} `{U : Unicode}.

Definition PasswordPolicy_new (minimum_characters maximum_bytes memory_kib iterations parallelism : Z) :
    result PasswordError PasswordPolicy :=
  if negb ((8 <=? minimum_characters) && (minimum_characters <=? 1024))
     || (maximum_bytes <? minimum_characters) || (16384 <? maximum_bytes)
  then Err InvalidPolicy else
  if negb (params_ok memory_kib iterations parallelism) then Err InvalidPolicy else
  Ok {| minimum_characters := minimum_characters; maximum_bytes := maximum_bytes;
        memory_kib := memory_kib; iterations := iterations; parallelism := parallelism |}.

Definition password_only_baseline : result PasswordError PasswordPolicy :=
  PasswordPolicy_new 15 1024 (19 * 1024) 2 1.

Definition argon2 (self : PasswordPolicy) : result PasswordError (Z * Z * Z) :=
  if params_ok (memory_kib self) (iterations self) (parallelism self)
  then Ok (memory_kib self, iterations self, parallelism self) else Err InvalidPolicy.

(** The algorithm and version check [from_persisted] and [verify_password] share. *)
Definition supported (parsed : str * option Z) : bool :=
  bool_decide (parsed.1 = lit "argon2id") && bool_decide (parsed.2 = Some 19).

Definition from_persisted (value : str) : result PasswordError PasswordVerifierString :=
  let? parsed := ok_or (phc_parse value) MalformedVerifier in
  if negb (supported parsed) then Err UnsupportedVerifier else Ok (PasswordVerifierString_of value).

Definition normalize_for_verification (candidate : str) (maximum_bytes : Z) : result PasswordError str :=
  let normalized := nfc candidate in
  if bool_decide (normalized = []) || (maximum_bytes <? str_len normalized)
  then Err InvalidLength else Ok normalized.

(** [blocklist] is the [PasswordBlocklist] in use. *)
Definition normalize_candidate (candidate : str) (policy : PasswordPolicy) (blocklist : str -> bool) :
    result PasswordError str :=
  let? normalized := normalize_for_verification candidate (maximum_bytes policy) in
  if blen normalized <? minimum_characters policy then Err TooShort else
  if blocklist normalized then Err Blocked else Ok normalized.

(** [salt] is what [SaltString::generate] drew. *)
Definition hash_password (candidate : str) (policy : PasswordPolicy) (blocklist : str -> bool)
    (salt : bytes) : result PasswordError PasswordVerifierString :=
  let? normalized := normalize_candidate candidate policy blocklist in
  let? params := argon2 policy in
  let? verifier := ok_or (argon2_hash params (str_bytes normalized) salt) HashingFailed in
  Ok (PasswordVerifierString_of verifier).

Definition verify_password (candidate : str) (verifier : PasswordVerifierString) (maximum_bytes : Z) :
    result PasswordError unit :=
  let? normalized := normalize_for_verification candidate maximum_bytes in
  let? parsed := ok_or (phc_parse (verifier_as_str verifier)) MalformedVerifier in
  if negb (supported parsed) then Err UnsupportedVerifier else
  if argon2_verify (str_bytes normalized) (verifier_as_str verifier) then Ok tt
  else Err PasswordVerificationFailed.

End passwords.

(** ** Opaque tokens ([session.rs]) *)
Record TokenDigestKey : Type := TokenDigestKey_from_bytes { digest_key_bytes : array 32 }.
Record OpaqueTokenDigest : Type := OpaqueTokenDigest_of { digest_as_bytes : array 32 }.
Record IssuedOpaqueToken : Type := { raw : str; digest : OpaqueTokenDigest }.

#[export] Instance OpaqueTokenDigest_eq_dec : EqDecision OpaqueTokenDigest.
Proof. solve_decision. Defined.

Section tokens.
Context `{C : TotpCrypto} `{F : FabricLib}.

Definition token_digest (key : TokenDigestKey) (raw : str) : OpaqueTokenDigest :=
  OpaqueTokenDigest_of (hmac_sha256 (abytes (digest_key_bytes key)) (str_bytes raw)).

(** [drawn] is what [OsRng] filled in. *)
Definition issue_opaque_token (key : TokenDigestKey) (drawn : array 32) : IssuedOpaqueToken :=
  let raw := base64url_encode (abytes drawn) in
  {| raw := raw; digest := token_digest key raw |}.

Definition derive_opaque_token_digest (key : TokenDigestKey) (raw : str) : OpaqueTokenDigest :=
  token_digest key raw.

Definition verify_opaque_token (key : TokenDigestKey) (supplied : str) (stored : OpaqueTokenDigest) : bool :=
  bool_decide (abytes (digest_as_bytes (derive_opaque_token_digest key supplied))
               = abytes (digest_as_bytes stored)).

Lemma issued_digest key drawn :
  digest (issue_opaque_token key drawn) =
  derive_opaque_token_digest key (raw (issue_opaque_token key drawn)).
Proof. done. Qed.

End tokens.
