(* ===== verification/Delivery.v ===== *)
(** * Signed federation deliveries

    [crates/fcp-fabric-service/src/federation.rs]: the delivery record one
    authority signs for another, its canonical transcript, and the admission of
    a signed delivery under a pinned peer policy. *)

From Stdlib Require Import ZArith Lia String.
From stdpp Require Import base list option numbers decidable.
From S2P Require Import Prelude Bytes Types Identity Sample Str Domain Clock.

Definition DOMAIN_TAG : bytes := str_bytes (lit "fcp-fabric/federation/delivery/v1").
Definition MAX_PAYLOAD_BYTES : Z := 65536.
Definition MAX_DELIVERY_LIFETIME_SECONDS : Z := 300.
Definition MAX_CLOCK_SKEW_SECONDS : Z := 60.

Inductive FederationError : Type :=
| SenderDomainMismatch
| RecipientDomainMismatch
| PayloadTooLarge
| InvalidLifetime
| InvalidCanonicalField
| PeerNotActive
| WrongDestination
| WrongSource
| ExpiredOrNotYetValid
| UnexpectedAuthorityIdentity
| Core (source : Error).


Definition write_u8_bytes (b value : bytes) : result FederationError bytes :=
  if blen value <=? 255 then Ok (b ++ be_bytes 1 (blen value) ++ value)
  else Err InvalidCanonicalField.

Definition write_u16_bytes (b value : bytes) : result FederationError bytes :=
  if blen value <=? 65535 then Ok (b ++ be_bytes 2 (blen value) ++ value)
  else Err InvalidCanonicalField.

Record FederationDelivery `{TimeLib} : Type := {
  source_domain : DomainName;
  destination_domain : DomainName;
  sender : UserAddress;
  recipient : UserAddress;
  request_id : Uuid;
  issued_at : OffsetDateTime;
  expires_at : OffsetDateTime;
  payload : bytes;
}.

Module FederationDelivery.

Definition validate `{TimeLib} (self : FederationDelivery) : X FederationError unit :=
  if decide (domain (sender self) <> source_domain self) then xret (Err SenderDomainMismatch) else
  if decide (domain (recipient self) <> destination_domain self)
  then xret (Err RecipientDomainMismatch) else
  if MAX_PAYLOAD_BYTES <? blen (payload self) then xret (Err PayloadTooLarge) else
  let issued := unix_timestamp (issued_at self) in
  let expires := unix_timestamp (expires_at self) in
  if expires <=? issued then xret (Err InvalidLifetime) else
  let* lifetime := i64_sub expires issued in
  if MAX_DELIVERY_LIFETIME_SECONDS <? lifetime then xret (Err InvalidLifetime) else xret (Ok tt).

Definition transcript `{TimeLib} (self : FederationDelivery) : X FederationError bytes :=
  let* _ := validate self in
  xret (
  let b := DOMAIN_TAG in
  let? b := write_u8_bytes b (str_bytes (domain_as_str (source_domain self))) in
  let? b := write_u8_bytes b (str_bytes (domain_as_str (destination_domain self))) in
  let? b := write_u16_bytes b (str_bytes (UserAddress.display (sender self))) in
  let? b := write_u16_bytes b (str_bytes (UserAddress.display (recipient self))) in
  let b := b ++ abytes (request_id self) in
  let b := b ++ be_bytes 8 (unix_timestamp (issued_at self)) in
  let b := b ++ be_bytes 8 (unix_timestamp (expires_at self)) in
  let? payload_length := ok_or (uint_try 32 (blen (payload self))) PayloadTooLarge in
  let b := b ++ be_bytes 4 (uval payload_length) in
  Ok (b ++ payload self)).

End FederationDelivery.

Record SignedFederationDelivery `{TimeLib} : Type := {
  delivery : FederationDelivery;
  authority_identity : EndpointIdentity;
  classical_signature : array 64;
  post_quantum_signature : mldsa_signature;
}.

Module SignedFederationDelivery.

Definition sign `{TimeLib} {S : Type} `{EndpointSigner S} (signer : S) (d : FederationDelivery) :
    X FederationError SignedFederationDelivery :=
  let* transcript := FederationDelivery.transcript d in
  xret (Ok {| authority_identity := endpoint signer;
              classical_signature := sign_classical signer transcript;
              post_quantum_signature := sign_post_quantum signer transcript;
              delivery := d |}).

(** [sha256] stands for [Sha256::digest]. *)
Definition canonical_body_digest `{TimeLib} (sha256 : bytes -> array 32)
    (self : SignedFederationDelivery) : X FederationError (array 32) :=
  let* transcript := FederationDelivery.transcript (delivery self) in
  xret (Ok (sha256 transcript)).

Definition verify `{TimeLib} `{Crypto} (self : SignedFederationDelivery)
    (expected_identity : EndpointIdentity) : X FederationError unit :=
  if decide (authority_identity self <> expected_identity)
  then xret (Err UnexpectedAuthorityIdentity) else
  let* transcript := FederationDelivery.transcript (delivery self) in
  let* _ := xret (map_err Core
    (verify_classical expected_identity transcript (classical_signature self))) in
  xret (map_err Core
    (verify_post_quantum expected_identity transcript (post_quantum_signature self))).

End SignedFederationDelivery.

Record RemotePeerPolicy : Type := {
  local_domain : DomainName;
  remote_domain : DomainName;
  trust_state : FederationTrustState;
  active_authority_identity : EndpointIdentity;
}.

Module RemotePeerPolicy.

Definition admit_delivery `{TimeLib} `{Crypto} (self : RemotePeerPolicy) (now : OffsetDateTime)
    (signed : SignedFederationDelivery) : X FederationError unit :=
  if negb (accepts_requests (trust_state self)) then xret (Err PeerNotActive) else
  if decide (destination_domain (delivery signed) <> local_domain self)
  then xret (Err WrongDestination) else
  if decide (source_domain (delivery signed) <> remote_domain self)
  then xret (Err WrongSource) else
  let now_seconds := unix_timestamp now in
  let issued_seconds := unix_timestamp (issued_at (delivery signed)) in
  let expires_seconds := unix_timestamp (expires_at (delivery signed)) in
  let* latest := i64_add now_seconds MAX_CLOCK_SKEW_SECONDS in
  let* stale :=
    (if latest <? issued_seconds then xret (Ok true) else
     let* earliest := i64_sub now_seconds MAX_CLOCK_SKEW_SECONDS in
     xret (Ok (expires_seconds <? earliest))) in
  if (stale : bool) then xret (Err ExpiredOrNotYetValid) else
  SignedFederationDelivery.verify signed (active_authority_identity self).

End RemotePeerPolicy.

(** ** The transcript *)

(** A field behind its [k]-byte length is delimited. *)
Lemma be_prefix_inj k (d d' s s' : bytes) :
  blen d < 256 ^ Z.of_nat k -> blen d' < 256 ^ Z.of_nat k ->
  be_bytes k (blen d) ++ d ++ s = be_bytes k (blen d') ++ d' ++ s' -> d = d' /\ s = s'.
Proof.
  intros Hd Hd' H. apply app_inj_1 in H as [Hl H]; [|by rewrite !length_be_bytes].
  apply (f_equal be_val) in Hl. rewrite !be_val_be_bytes in Hl.
  pose proof (blen_nonneg d). pose proof (blen_nonneg d').
  rewrite !Z.mod_small in Hl by done.
  apply app_inj_1 in H as [-> ->]; [done|]. unfold blen in Hl. lia.
Qed.

Lemma uint_try_fits w z : 0 <= z < 2 ^ w -> exists u, uint_try w z = Some u /\ uval u = z.
Proof.
  intros Hz. assert (H : (0 <=? z) && (z <? 2 ^ w) = true) by lia.
  exists (UInt z H). split; [|done]. by apply uint_try_some.
Qed.

Section transcripts.
Context `{T : TimeLib} {L : TimeLaws T}.

(** The fields a canonical transcript can be made of. *)
Definition well_formed (d : FederationDelivery) : Prop :=
  domain (sender d) = source_domain d /\ domain (recipient d) = destination_domain d /\
  blen (payload d) <= 65536 /\
  0 < unix_timestamp (expires_at d) - unix_timestamp (issued_at d) <= 300 /\
  blen (str_bytes (domain_as_str (source_domain d))) <= 255 /\
  blen (str_bytes (domain_as_str (destination_domain d))) <= 255 /\
  blen (str_bytes (UserAddress.display (sender d))) <= 65535 /\
  blen (str_bytes (UserAddress.display (recipient d))) <= 65535.

Definition delivery_bytes (d : FederationDelivery) : bytes :=
  DOMAIN_TAG
  ++ (be_bytes 1 (blen (str_bytes (domain_as_str (source_domain d))))
      ++ str_bytes (domain_as_str (source_domain d)))
  ++ (be_bytes 1 (blen (str_bytes (domain_as_str (destination_domain d))))
      ++ str_bytes (domain_as_str (destination_domain d)))
  ++ (be_bytes 2 (blen (str_bytes (UserAddress.display (sender d))))
      ++ str_bytes (UserAddress.display (sender d)))
  ++ (be_bytes 2 (blen (str_bytes (UserAddress.display (recipient d))))
      ++ str_bytes (UserAddress.display (recipient d)))
  ++ abytes (request_id d)
  ++ be_bytes 8 (unix_timestamp (issued_at d)) ++ be_bytes 8 (unix_timestamp (expires_at d))
  ++ be_bytes 4 (blen (payload d)) ++ payload d.

(** [validate] always answers. *)
Lemma validate_delivery d :
  exists r, FederationDelivery.validate d = Some r /\
    (r = Ok tt <->
     domain (sender d) = source_domain d /\ domain (recipient d) = destination_domain d /\
     blen (payload d) <= 65536 /\
     0 < unix_timestamp (expires_at d) - unix_timestamp (issued_at d) <= 300).
Proof.
  unfold FederationDelivery.validate, MAX_PAYLOAD_BYTES, MAX_DELIVERY_LIFETIME_SECONDS, xret.
  case_decide as H1; [eexists; split; [done|naive_solver]|].
  case_decide as H2; [eexists; split; [done|naive_solver]|].
  destruct (Z.ltb_spec 65536 (blen (payload d))); [eexists; split; [done|split; [done|lia]]|].
  pose proof (unix_timestamp_range (expires_at d)). pose proof (unix_timestamp_range (issued_at d)).
  destruct (Z.leb_spec (unix_timestamp (expires_at d)) (unix_timestamp (issued_at d)));
    [eexists; split; [done|split; [done|lia]]|].
  rewrite i64_sub_ok by lia. cbn [xbind].
  destruct (Z.ltb_spec 300 (unix_timestamp (expires_at d) - unix_timestamp (issued_at d)));
    (eexists; split; [done|]).
  - split; [done|lia].
  - split; [intros _|done]. split_and!; try done; lia.
Qed.

Lemma write_u8_ok b v t : write_u8_bytes b v = Ok t <-> blen v <= 255 /\ t = b ++ be_bytes 1 (blen v) ++ v.
Proof. unfold write_u8_bytes. destruct (Z.leb_spec (blen v) 255); split; [naive_solver..|]. intros []; lia. Qed.

Lemma write_u16_ok b v t : write_u16_bytes b v = Ok t <-> blen v <= 65535 /\ t = b ++ be_bytes 2 (blen v) ++ v.
Proof. unfold write_u16_bytes. destruct (Z.leb_spec (blen v) 65535); split; [naive_solver..|]. intros []; lia. Qed.

Lemma transcript_total d : exists r, FederationDelivery.transcript d = Some r.
Proof.
  unfold FederationDelivery.transcript. destruct (validate_delivery d) as (r & -> & _).
  destruct r; simpl; unfold xret; eauto.
Qed.

Lemma transcript_ok d t :
  FederationDelivery.transcript d = Some (Ok t) <-> well_formed d /\ t = delivery_bytes d.
Proof.
  unfold FederationDelivery.transcript. destruct (validate_delivery d) as (r & -> & Hr).
  unfold well_formed, delivery_bytes. split.
  - intros H. apply xbind_ok in H as ([] & [= ->] & H). destruct (proj1 Hr eq_refl) as (? & ? & Hp & ?).
    unfold xret in H. injection H as H.
    apply res_bind_ok in H as (b1 & [Hb1 ->]%write_u8_ok & H).
    apply res_bind_ok in H as (b2 & [Hb2 ->]%write_u8_ok & H).
    apply res_bind_ok in H as (b3 & [Hb3 ->]%write_u16_ok & H).
    apply res_bind_ok in H as (b4 & [Hb4 ->]%write_u16_ok & H).
    apply res_bind_ok in H as (n & Hn%ok_or_ok & [= <-]).
    apply uint_try_some in Hn as [_ ->]. split; [done|]. by rewrite <- !app_assoc.
  - intros ((? & ? & Hp & ? & H1 & H2 & H3 & H4) & ->). rewrite (proj2 Hr) by done. cbn [xbind]. unfold xret.
    rewrite (proj2 (write_u8_ok _ _ _) (conj H1 eq_refl)). cbn [res_bind].
    rewrite (proj2 (write_u8_ok _ _ _) (conj H2 eq_refl)). cbn [res_bind].
    rewrite (proj2 (write_u16_ok _ _ _) (conj H3 eq_refl)). cbn [res_bind].
    rewrite (proj2 (write_u16_ok _ _ _) (conj H4 eq_refl)). cbn [res_bind].
    destruct (uint_try_fits 32 (blen (payload d))) as (n & -> & Hn);
      [pose proof (blen_nonneg (payload d)); lia|].
    cbn [ok_or res_bind]. rewrite Hn. by rewrite <- !app_assoc.
Qed.
End transcripts.

(** ** Admission *)
Section admission.
Context `{T : TimeLib} {L : TimeLaws T} `{C : Crypto}.

Lemma verify_delivery_ok s i :
  SignedFederationDelivery.verify s i = Some (Ok tt) <->
  authority_identity s = i /\ well_formed (delivery s) /\
  dual_verify i (delivery_bytes (delivery s)) (classical_signature s) (post_quantum_signature s) = Ok tt.
Proof.
  unfold SignedFederationDelivery.verify. rewrite dual_verify_ok. case_decide as Hi; [naive_solver|].
  rewrite xbind_ok. setoid_rewrite transcript_ok. setoid_rewrite xbind_ok. unfold xret. split.
  - intros (t & [Hw ->] & [] & [= Hc%map_err_ok] & [= Hp%map_err_ok]). done.
  - intros (_ & Hw & Hc & Hp). exists (delivery_bytes (delivery s)). split; [done|]. exists ().
    by rewrite Hc, Hp.
Qed.

Lemma verify_delivery_total s i : exists r, SignedFederationDelivery.verify s i = Some r.
Proof.
  unfold SignedFederationDelivery.verify, xret. case_decide; [eauto|].
  destruct (transcript_total (delivery s)) as [[t|e] ->]; simpl; [|eauto].
  destruct (verify_classical _ _ _); simpl; eauto.
Qed.

(** What a policy admits: [s] is what [p] asks for, at [now]. *)
Definition admissible (p : RemotePeerPolicy) (now : OffsetDateTime) (s : SignedFederationDelivery) : Prop :=
  trust_state p = TrustActive /\
  destination_domain (delivery s) = local_domain p /\ source_domain (delivery s) = remote_domain p /\
  unix_timestamp (issued_at (delivery s)) - 60 <= unix_timestamp now
    <= unix_timestamp (expires_at (delivery s)) + 60 /\
  authority_identity s = active_authority_identity p /\ well_formed (delivery s) /\
  dual_verify (active_authority_identity p) (delivery_bytes (delivery s))
    (classical_signature s) (post_quantum_signature s) = Ok tt.

Lemma admit_delivery_ok p now s :
  RemotePeerPolicy.admit_delivery p now s = Some (Ok tt) <-> admissible p now s.
Proof.
  unfold RemotePeerPolicy.admit_delivery, admissible, MAX_CLOCK_SKEW_SECONDS.
  assert (Ht : accepts_requests (trust_state p) = true <-> trust_state p = TrustActive)
    by (destruct (trust_state p); done).
  destruct (accepts_requests (trust_state p)); cbn [negb]; [|naive_solver].
  case_decide; [naive_solver|]. case_decide; [naive_solver|].
  pose proof (unix_timestamp_range now). rewrite i64_add_ok by lia. cbn [xbind].
  destruct (Z.ltb_spec (unix_timestamp now + 60) (unix_timestamp (issued_at (delivery s)))).
  { simpl. split; [done|lia]. }
  rewrite i64_sub_ok by lia. cbn [xbind xret].
  destruct (Z.ltb_spec (unix_timestamp (expires_at (delivery s))) (unix_timestamp now - 60)).
  { simpl. split; [done|lia]. }
  cbn [xbind]. rewrite verify_delivery_ok. split; [intros (? & ? & ?)|intros (? & ? & ? & ? & ? & ? & ?)];
    split_and!; try done; try lia. by apply Ht.
Qed.

Lemma admit_delivery_total p now s : exists r, RemotePeerPolicy.admit_delivery p now s = Some r.
Proof.
  unfold RemotePeerPolicy.admit_delivery, MAX_CLOCK_SKEW_SECONDS, xret.
  destruct (negb _); [eauto|]. case_decide; [eauto|]. case_decide; [eauto|].
  pose proof (unix_timestamp_range now). rewrite i64_add_ok by lia. cbn [xbind].
  case_match; [simpl; eauto|]. rewrite i64_sub_ok by lia. cbn [xbind].
  case_match; [eauto|]. apply verify_delivery_total.
Qed.

(** Admission of a federation delivery never overflows or panics, and it
    succeeds exactly when the peer is active, the delivery is from the pinned
    remote domain to the local domain, the current second is within the
    delivery's lifetime widened by 60 seconds, the embedded identity is the
    pinned one, the delivery is well formed (users belong to their domains,
    payload and lifetime are bounded) and both signatures verify over its
    canonical transcript. *)
Theorem admit_delivery_iff p now s :
  (RemotePeerPolicy.admit_delivery p now s = Some (Ok tt) <-> admissible p now s) /\
  (~ admissible p now s -> exists e, RemotePeerPolicy.admit_delivery p now s = Some (Err e)).
Proof.
  split; [apply admit_delivery_ok|]. intros Hn.
  destruct (admit_delivery_total p now s) as [[[]|e] He]; [|by eauto].
  destruct Hn. by apply admit_delivery_ok.
Qed.

(** The names of a delivery as the parsers of [Domain] leave them. *)
Definition plain_names (d : FederationDelivery) : Prop :=
  ascii (domain_as_str (source_domain d)) /\ ascii (domain_as_str (destination_domain d)) /\
  ascii (localpart_as_str (localpart (sender d))) /\ ascii (localpart_as_str (localpart (recipient d))).

Lemma display_inj u v :
  ascii (localpart_as_str (localpart u)) -> ascii (localpart_as_str (localpart v)) ->
  ascii (domain_as_str (domain u)) -> domain u = domain v ->
  str_bytes (UserAddress.display u) = str_bytes (UserAddress.display v) -> u = v.
Proof.
  intros Hu Hv Hd Heq E. unfold UserAddress.display in E.
  apply ascii_bytes_inj in E.
  - rewrite Heq in E. apply app_inj_2 in E as [E _]; [|done].
    destruct u as [[lu] du], v as [[lv] dv]; simpl in *. by subst.
  - apply Forall_app. split; [done|]. constructor; [unfold AT; lia|done].
  - apply Forall_app. rewrite <- Heq. split; [done|]. constructor; [unfold AT; lia|done].
Qed.

Lemma time_bytes_inj t u :
  be_bytes 8 (unix_timestamp t) = be_bytes 8 (unix_timestamp u) -> unix_timestamp t = unix_timestamp u.
Proof.
  intros E. apply (f_equal be_val) in E. rewrite !be_val_be_bytes in E.
  change (256 ^ Z.of_nat 8) with (2 ^ 64) in E.
  pose proof (unix_timestamp_range t). pose proof (unix_timestamp_range u).
  Z.to_euclidean_division_equations; lia.
Qed.

(** What the two signatures of a delivery commit to.  Well-formed deliveries
    between parsed names with the same canonical transcript agree on both
    domains, on sender and recipient, on the request identifier, on the payload
    and on both times to the second. *)
Theorem delivery_transcript_injective d d' :
  well_formed d -> well_formed d' -> plain_names d -> plain_names d' ->
  delivery_bytes d = delivery_bytes d' ->
  source_domain d = source_domain d' /\ destination_domain d = destination_domain d' /\
  sender d = sender d' /\ recipient d = recipient d' /\ request_id d = request_id d' /\
  unix_timestamp (issued_at d) = unix_timestamp (issued_at d') /\
  unix_timestamp (expires_at d) = unix_timestamp (expires_at d') /\ payload d = payload d'.
Proof.
  intros (Hs & Hr & Hp & _ & H1 & H2 & H3 & H4) (Hs' & Hr' & Hp' & _ & H1' & H2' & H3' & H4')
    (Pa & Pb & Pc & Pd) (Pa' & Pb' & Pc' & Pd'). unfold delivery_bytes. intros E.
  apply app_inv_head in E. rewrite <- !app_assoc in E.
  apply be_prefix_inj in E as [Es E]; [|lia..]. apply be_prefix_inj in E as [Ed E]; [|lia..].
  apply be_prefix_inj in E as [Eu E]; [|lia..]. apply be_prefix_inj in E as [Ev E]; [|lia..].
  apply app_inj_1 in E as [Er%array_eq E].
  2:{ pose proof (array_len (request_id d)). pose proof (array_len (request_id d')). unfold blen in *. lia. }
  apply app_inj_1 in E as [Ei%time_bytes_inj E]; [|by rewrite !length_be_bytes].
  apply app_inj_1 in E as [Ex%time_bytes_inj E]; [|by rewrite !length_be_bytes].
  apply app_inj_1 in E as [_ Ep]; [|by rewrite !length_be_bytes].
  apply ascii_bytes_inj in Es, Ed; [|done..].
  assert (source_domain d = source_domain d') as Hsd
    by (by destruct (source_domain d), (source_domain d'); simpl in *; subst).
  assert (destination_domain d = destination_domain d') as Hdd
    by (by destruct (destination_domain d), (destination_domain d'); simpl in *; subst).
  split_and!; try done.
  - apply display_inj; congruence.
  - apply display_inj; congruence.
Qed.
End admission.

(** from one authority to the other.  Whatever well-formed delivery an
    authority signs is admitted by every active policy that pins its identity
    for those domains, at any second of the widened lifetime; pinned to any
    other identity, no policy admits it. *)
Theorem delivery_signed_admitted `{T : TimeLib} {L : TimeLaws T} `{C : Crypto} {S : Type}
    `{E : EndpointSigner S} {LS : LawfulSigner S} (signer : S) d p now :
  well_formed d -> trust_state p = TrustActive ->
  local_domain p = destination_domain d -> remote_domain p = source_domain d ->
  unix_timestamp (issued_at d) - 60 <= unix_timestamp now <= unix_timestamp (expires_at d) + 60 ->
  exists s, SignedFederationDelivery.sign signer d = Some (Ok s) /\ delivery s = d /\
    (RemotePeerPolicy.admit_delivery p now s = Some (Ok tt) <->
     active_authority_identity p = endpoint signer).
Proof.
  intros Hw Ht Hl Hr Hn. unfold SignedFederationDelivery.sign.
  rewrite (proj2 (transcript_ok d _) (conj Hw eq_refl)). cbn [xbind]. unfold xret.
  eexists. split; [done|]. split; [done|]. rewrite admit_delivery_ok. unfold admissible. cbn [delivery
    authority_identity classical_signature post_quantum_signature].
  split; [by intros (_ & _ & _ & _ & ? & _)|]. intros Hi.
  split_and!; try done; [lia..|]. rewrite Hi. apply signer_verifies.
Qed.

(** ** Concrete runs *)
Module DeliveryExamples.
#[local] Existing Instance SampleClock.clock.
#[local] Existing Instance SampleClock.clock_laws.
#[local] Existing Instance Sample.crypto.
#[local] Existing Instance Sample.crypto_laws.

Definition parley : DomainName := DomainName_of (lit "parley.io").
Definition nextfcp : DomainName := DomainName_of (lit "nextfcp.io").

(** Issued at second 1000 for 120 seconds. *)
Definition greeting : FederationDelivery :=
  {| source_domain := nextfcp; destination_domain := parley;
     sender := {| localpart := Localpart_of (lit "alice"); domain := nextfcp |};
     recipient := {| localpart := Localpart_of (lit "benjamin"); domain := parley |};
     request_id := array_fill 16 x07;
     issued_at := SampleClock.second 1000; expires_at := SampleClock.second 1120;
     payload := [x01; x02; x03] |}.

Definition pinning (trust : FederationTrustState) (b : byte) : RemotePeerPolicy :=
  {| local_domain := parley; remote_domain := nextfcp; trust_state := trust;
     active_authority_identity := Sample.identity b |}.

Definition signed_greeting : SignedFederationDelivery :=
  {| delivery := greeting; authority_identity := Sample.identity x01;
     classical_signature := sign_classical (Sample.signer x01) (delivery_bytes greeting);
     post_quantum_signature := sign_post_quantum (Sample.signer x01) (delivery_bytes greeting) |}.

Lemma greeting_well_formed : well_formed greeting.
Proof. repeat split; vm_compute; congruence. Qed.

Lemma greeting_admissible : admissible (pinning TrustActive x01) (SampleClock.second 1180) signed_greeting.
Proof.
  pose proof (signer_verifies (Sample.signer x01) (delivery_bytes greeting)) as H.
  rewrite Sample.identity_signer in H. pose proof greeting_well_formed as Hw.
  unfold admissible, signed_greeting, pinning. cbn [delivery authority_identity classical_signature
    post_quantum_signature trust_state local_domain remote_domain active_authority_identity].
  split; [done|]. split; [done|]. split; [done|]. split; [vm_compute; split; congruence|].
  split; [done|]. split; [exact Hw | exact H].
Qed.

(** Sixty seconds after its expiry the greeting is still admitted; a pending
    peer is refused. *)
Lemma admit_delivery_iff_witness :
  RemotePeerPolicy.admit_delivery (pinning TrustActive x01) (SampleClock.second 1180) signed_greeting
    = Some (Ok tt) /\
  exists e, RemotePeerPolicy.admit_delivery (pinning Pending x01) (SampleClock.second 1000)
    signed_greeting = Some (Err e).
Proof.
  split.
  - destruct (admit_delivery_iff (pinning TrustActive x01) (SampleClock.second 1180) signed_greeting)
      as [[_ H] _].
    exact (H greeting_admissible).
  - destruct (admit_delivery_iff (pinning Pending x01) (SampleClock.second 1000) signed_greeting)
      as [_ H].
    apply H. intros [Hp _]. discriminate Hp.
Defined.

Lemma delivery_signed_admitted_witness :
  exists s, SignedFederationDelivery.sign (Sample.signer x01) greeting = Some (Ok s) /\
    RemotePeerPolicy.admit_delivery (pinning TrustActive x01) (SampleClock.second 1060) s = Some (Ok tt).
Proof.
  destruct (delivery_signed_admitted (Sample.signer x01) greeting (pinning TrustActive x01)
    (SampleClock.second 1060) greeting_well_formed eq_refl eq_refl eq_refl) as (s & Hs & _ & Ha).
  - vm_compute. split; congruence.
  - exists s. split; [exact Hs|]. apply Ha. symmetry. apply Sample.identity_signer.
Defined.

End DeliveryExamples.
