(* ===== verification/Db.v ===== *)
(** * The authority database

    The tables of [crates/fcp-fabric-store/migrations] that the modelled store
    operations use, the constraints their statements run into, and the shared
    helpers of [helpers.rs].  A table is the list of its rows in insertion order
    and a column keeps its SQL value: text as a string, a [TIMESTAMPTZ] as its
    microseconds, NULL as [None]; columns no modelled statement reads or writes
    are left out.  A statement that violates a key, a foreign key
    or a check fails with [Database]; an operation that fails inside a
    transaction leaves the database as it found it.  Every store method is one
    step: its statements are not interleaved with those of another. *)

From Stdlib Require Import ZArith Lia String.
From stdpp Require Import base list option numbers decidable sorting.
From S2P Require Import Prelude Bytes Str Domain Totp Clock Auth.

Inductive StoreError : Type :=
| Database
| Migration
| Administration (source : AdministrationError)
| Credential (source : PasswordError)
| TotpFailure (source : TotpError)
| InvalidStoredTotp
| InvalidTotpDataKeyEnvelope
| CorruptAccountState
| CorruptFederationTrustState
| InvalidCorrelationId
| CorruptRole
| InvalidStoredAddress
| PolicyVersionOverflow
| TargetNotFoundOrUnchanged
| InvalidLoginTransactionExpiry
| InvalidRecoveryCodeSet
| InvalidStepUpGrantExpiry
| InvalidFederationReplayExpiry
| InvalidWebauthnCeremonyExpiry
| InvalidOrExpiredWebauthnCeremony
| CorruptWebauthnCeremonyKind
| InvalidWebauthnCredentialId
| InvalidWebauthnPasskeyLabel
| InvalidOrExpiredLoginTransaction
| InvalidSessionExpiry.

(** ** Tables *)
Module Tenants.
Record row : Type := {
  id : Uuid; canonical_domain : str; policy_version : Z; created_at : Z; updated_at : Z;
}.
End Tenants.

Module Accounts.
Record row : Type := {
  id : Uuid; tenant_id : Uuid; normalized_localpart : str; state : str;
  created_at : Z; updated_at : Z;
}.
Definition set_state (value : str) (now : Z) (r : row) : row :=
  {| id := id r; tenant_id := tenant_id r; normalized_localpart := normalized_localpart r;
     state := value; created_at := created_at r; updated_at := now |}.
End Accounts.

Module AccountRoles.
Record row : Type := {
  tenant_id : Uuid; account_id : Uuid; role : str;
  granted_by_account_id : option Uuid; granted_at : Z;
}.
End AccountRoles.

Module PasswordCredentials.
Record row : Type := {
  account_id : Uuid; tenant_id : Uuid; phc_verifier : str;
  pepper_key_version : option str; changed_at : Z;
}.
End PasswordCredentials.

Module TotpFactors.
Record row : Type := {
  id : Uuid; tenant_id : Uuid; account_id : Uuid; status : str;
  seed_ciphertext : bytes; seed_nonce : bytes; key_reference : str; algorithm : str;
  digits : Z; period_seconds : Z; last_accepted_time_step : option Z;
  created_at : Z; activated_at : option Z;
}.
Definition activate (now : Z) (accepted_step : Z) (r : row) : row :=
  {| id := id r; tenant_id := tenant_id r; account_id := account_id r; status := lit "active";
     seed_ciphertext := seed_ciphertext r; seed_nonce := seed_nonce r;
     key_reference := key_reference r; algorithm := algorithm r; digits := digits r;
     period_seconds := period_seconds r; last_accepted_time_step := Some accepted_step;
     created_at := created_at r; activated_at := Some now |}.
Definition accept_step (accepted_step : Z) (r : row) : row :=
  {| id := id r; tenant_id := tenant_id r; account_id := account_id r; status := status r;
     seed_ciphertext := seed_ciphertext r; seed_nonce := seed_nonce r;
     key_reference := key_reference r; algorithm := algorithm r; digits := digits r;
     period_seconds := period_seconds r; last_accepted_time_step := Some accepted_step;
     created_at := created_at r; activated_at := activated_at r |}.
End TotpFactors.

Module RecoveryCodeSets.
Record row : Type := {
  id : Uuid; tenant_id : Uuid; account_id : Uuid; created_at : Z; invalidated_at : option Z;
}.
Definition invalidate (now : Z) (r : row) : row :=
  {| id := id r; tenant_id := tenant_id r; account_id := account_id r; created_at := created_at r;
     invalidated_at := Some now |}.
End RecoveryCodeSets.

Module RecoveryCodeVerifiers.
Record row : Type := { id : Uuid; set_id : Uuid; verifier : str; consumed_at : option Z }.
Definition consume (now : Z) (r : row) : row :=
  {| id := id r; set_id := set_id r; verifier := verifier r; consumed_at := Some now |}.
End RecoveryCodeVerifiers.

Module LoginTransactions.
Record row : Type := {
  id : Uuid; tenant_id : Uuid; account_id : Uuid; token_digest : array 32; stage : str;
  binding_digest : array 32; factor_id : option Uuid; issued_at : Z; expires_at : Z;
  consumed_at : option Z;
}.
Definition consume (now : Z) (r : row) : row :=
  {| id := id r; tenant_id := tenant_id r; account_id := account_id r;
     token_digest := token_digest r; stage := lit "consumed"; binding_digest := binding_digest r;
     factor_id := factor_id r; issued_at := issued_at r; expires_at := expires_at r;
     consumed_at := Some now |}.
End LoginTransactions.

Module TotpDataKeyEnvelopes.
Record row : Type := {
  key_reference : str; provider : str; wrapping_key_reference : str; encrypted_data_key : bytes;
  created_at : Z;
}.
End TotpDataKeyEnvelopes.

Module WebauthnCredentials.
Record row (Document : Type) : Type := {
  id : Uuid; tenant_id : Uuid; account_id : Uuid; credential_id : str; passkey : Document;
  label : option str; created_at : Z; last_used_at : option Z; disabled_at : option Z;
}.
Arguments id {_} _.
Arguments tenant_id {_} _.
Arguments account_id {_} _.
Arguments credential_id {_} _.
Arguments passkey {_} _.
Arguments label {_} _.
Arguments created_at {_} _.
Arguments last_used_at {_} _.
Arguments disabled_at {_} _.
Definition use {Document} (value : Document) (now : Z) (r : row Document) : row Document :=
  {| id := id r; tenant_id := tenant_id r; account_id := account_id r; credential_id := credential_id r;
     passkey := value; label := label r; created_at := created_at r; last_used_at := Some now;
     disabled_at := disabled_at r |}.
End WebauthnCredentials.

Module WebauthnCeremonies.
Record row (Document : Type) : Type := {
  id : Uuid; tenant_id : Uuid; account_id : Uuid; kind : str; state : Document;
  token_digest : array 32; binding_digest : array 32; created_at : Z; expires_at : Z;
  consumed_at : option Z;
}.
Arguments id {_} _.
Arguments tenant_id {_} _.
Arguments account_id {_} _.
Arguments kind {_} _.
Arguments state {_} _.
Arguments token_digest {_} _.
Arguments binding_digest {_} _.
Arguments created_at {_} _.
Arguments expires_at {_} _.
Arguments consumed_at {_} _.
Definition consume {Document} (now : Z) (r : row Document) : row Document :=
  {| id := id r; tenant_id := tenant_id r; account_id := account_id r; kind := kind r; state := state r;
     token_digest := token_digest r; binding_digest := binding_digest r; created_at := created_at r;
     expires_at := expires_at r; consumed_at := Some now |}.
End WebauthnCeremonies.

Module SessionFamilies.
Record row : Type := {
  id : Uuid; tenant_id : Uuid; account_id : Uuid; created_at : Z;
  revoked_at : option Z; revoke_reason : option str;
}.
Definition revoke (now : Z) (reason : str) (r : row) : row :=
  {| id := id r; tenant_id := tenant_id r; account_id := account_id r; created_at := created_at r;
     revoked_at := Some now; revoke_reason := Some reason |}.
End SessionFamilies.

Module RefreshCredentials.
Record row : Type := {
  id : Uuid; tenant_id : Uuid; account_id : Uuid; family_id : Uuid; token_digest : array 32;
  issued_at : Z; expires_at : Z; consumed_at : option Z; replaced_by : option Uuid;
}.
Definition consume (now : Z) (successor : Uuid) (r : row) : row :=
  {| id := id r; tenant_id := tenant_id r; account_id := account_id r; family_id := family_id r;
     token_digest := token_digest r; issued_at := issued_at r; expires_at := expires_at r;
     consumed_at := Some now; replaced_by := Some successor |}.
End RefreshCredentials.

Module AccessSessions.
Record row : Type := {
  id : Uuid; tenant_id : Uuid; account_id : Uuid; family_id : Uuid; token_digest : array 32;
  issued_at : Z; expires_at : Z; revoked_at : option Z;
}.
Definition revoke (now : Z) (r : row) : row :=
  {| id := id r; tenant_id := tenant_id r; account_id := account_id r; family_id := family_id r;
     token_digest := token_digest r; issued_at := issued_at r; expires_at := expires_at r;
     revoked_at := Some now |}.
End AccessSessions.

Module StepUpGrants.
Record row : Type := {
  id : Uuid; tenant_id : Uuid; account_id : Uuid; family_id : Uuid; action : str; target_digest : array 32;
  token_digest : array 32; issued_at : Z; expires_at : Z; consumed_at : option Z;
}.
Definition consume (now : Z) (r : row) : row :=
  {| id := id r; tenant_id := tenant_id r; account_id := account_id r; family_id := family_id r; action := action r;
     target_digest := target_digest r; token_digest := token_digest r; issued_at := issued_at r;
     expires_at := expires_at r; consumed_at := Some now |}.
End StepUpGrants.

Module FederationPeers.
Record row : Type := {
  id : Uuid; tenant_id : Uuid; remote_domain : str; trust_state : str;
  expected_key_fingerprint : bytes;
}.
End FederationPeers.

(** [Document] is a stored JSON value. *)
Module FederationKeys.
Record row (Document : Type) : Type := {
  peer_id : Uuid; key_id : str; public_key_document : Document; valid_until : Z;
  retired_at : option Z; first_seen_at : Z;
}.
Arguments peer_id {Document} _.
Arguments key_id {Document} _.
Arguments public_key_document {Document} _.
Arguments valid_until {Document} _.
Arguments retired_at {Document} _.
Arguments first_seen_at {Document} _.
End FederationKeys.

Module FederationReplays.
Record row : Type := {
  tenant_id : Uuid; peer_id : Uuid; request_id : Uuid; body_digest : array 32;
  accepted_at : Z; expires_at : Z;
}.
End FederationReplays.

(** The members of the JSON objects written as audit metadata. *)
Inductive Json : Type :=
| JUuid (u : Uuid)
| JText (s : str)
| JNull
| JNumber (z : Z)
| JBool (b : bool).

Module AuditEvents.
Record row : Type := {
  id : Uuid; tenant_id : Uuid; actor_id : option Uuid; action : str; correlation_id : str;
  metadata : list (str * Json); occurred_at : Z;
}.
End AuditEvents.

Record Db {Document : Type} : Type := {
  tenants : list Tenants.row;
  accounts : list Accounts.row;
  account_roles : list AccountRoles.row;
  password_credentials : list PasswordCredentials.row;
  mfa_totp_factors : list TotpFactors.row;
  totp_data_key_envelopes : list TotpDataKeyEnvelopes.row;
  recovery_code_sets : list RecoveryCodeSets.row;
  recovery_code_verifiers : list RecoveryCodeVerifiers.row;
  login_transactions : list LoginTransactions.row;
  webauthn_credentials : list (WebauthnCredentials.row Document);
  webauthn_ceremonies : list (WebauthnCeremonies.row Document);
  session_families : list SessionFamilies.row;
  refresh_credentials : list RefreshCredentials.row;
  access_sessions : list AccessSessions.row;
  step_up_grants : list StepUpGrants.row;
  federation_peers : list FederationPeers.row;
  federation_keys : list (FederationKeys.row Document);
  federation_replays : list FederationReplays.row;
  audit_events : list AuditEvents.row;
}.
Arguments Db Document : clear implicits.

Section statements.
Context {Document : Type}.
Abbreviation Db := (Db Document).
Abbreviation Tx := (M Db StoreError).

Definition set_tenants (rows : list Tenants.row) (db : Db) : Db :=
  {| tenants := rows; accounts := accounts db; account_roles := account_roles db;
     password_credentials := password_credentials db; mfa_totp_factors := mfa_totp_factors db;
     totp_data_key_envelopes := totp_data_key_envelopes db;
     recovery_code_sets := recovery_code_sets db;
     recovery_code_verifiers := recovery_code_verifiers db;
     login_transactions := login_transactions db; webauthn_credentials := webauthn_credentials db;
     webauthn_ceremonies := webauthn_ceremonies db; session_families := session_families db;
     refresh_credentials := refresh_credentials db; access_sessions := access_sessions db;
     step_up_grants := step_up_grants db; federation_peers := federation_peers db;
     federation_keys := federation_keys db; federation_replays := federation_replays db; audit_events := audit_events db |}.
Definition set_accounts (rows : list Accounts.row) (db : Db) : Db :=
  {| tenants := tenants db; accounts := rows; account_roles := account_roles db;
     password_credentials := password_credentials db; mfa_totp_factors := mfa_totp_factors db;
     totp_data_key_envelopes := totp_data_key_envelopes db;
     recovery_code_sets := recovery_code_sets db;
     recovery_code_verifiers := recovery_code_verifiers db;
     login_transactions := login_transactions db; webauthn_credentials := webauthn_credentials db;
     webauthn_ceremonies := webauthn_ceremonies db; session_families := session_families db;
     refresh_credentials := refresh_credentials db; access_sessions := access_sessions db;
     step_up_grants := step_up_grants db; federation_peers := federation_peers db;
     federation_keys := federation_keys db; federation_replays := federation_replays db; audit_events := audit_events db |}.
Definition set_account_roles (rows : list AccountRoles.row) (db : Db) : Db :=
  {| tenants := tenants db; accounts := accounts db; account_roles := rows;
     password_credentials := password_credentials db; mfa_totp_factors := mfa_totp_factors db;
     totp_data_key_envelopes := totp_data_key_envelopes db;
     recovery_code_sets := recovery_code_sets db;
     recovery_code_verifiers := recovery_code_verifiers db;
     login_transactions := login_transactions db; webauthn_credentials := webauthn_credentials db;
     webauthn_ceremonies := webauthn_ceremonies db; session_families := session_families db;
     refresh_credentials := refresh_credentials db; access_sessions := access_sessions db;
     step_up_grants := step_up_grants db; federation_peers := federation_peers db;
     federation_keys := federation_keys db; federation_replays := federation_replays db; audit_events := audit_events db |}.
Definition set_password_credentials (rows : list PasswordCredentials.row) (db : Db) : Db :=
  {| tenants := tenants db; accounts := accounts db; account_roles := account_roles db;
     password_credentials := rows; mfa_totp_factors := mfa_totp_factors db;
     totp_data_key_envelopes := totp_data_key_envelopes db;
     recovery_code_sets := recovery_code_sets db;
     recovery_code_verifiers := recovery_code_verifiers db;
     login_transactions := login_transactions db; webauthn_credentials := webauthn_credentials db;
     webauthn_ceremonies := webauthn_ceremonies db; session_families := session_families db;
     refresh_credentials := refresh_credentials db; access_sessions := access_sessions db;
     step_up_grants := step_up_grants db; federation_peers := federation_peers db;
     federation_keys := federation_keys db; federation_replays := federation_replays db; audit_events := audit_events db |}.
Definition set_mfa_totp_factors (rows : list TotpFactors.row) (db : Db) : Db :=
  {| tenants := tenants db; accounts := accounts db; account_roles := account_roles db;
     password_credentials := password_credentials db; mfa_totp_factors := rows;
     totp_data_key_envelopes := totp_data_key_envelopes db;
     recovery_code_sets := recovery_code_sets db;
     recovery_code_verifiers := recovery_code_verifiers db;
     login_transactions := login_transactions db; webauthn_credentials := webauthn_credentials db;
     webauthn_ceremonies := webauthn_ceremonies db; session_families := session_families db;
     refresh_credentials := refresh_credentials db; access_sessions := access_sessions db;
     step_up_grants := step_up_grants db; federation_peers := federation_peers db;
     federation_keys := federation_keys db; federation_replays := federation_replays db; audit_events := audit_events db |}.
Definition set_totp_data_key_envelopes (rows : list TotpDataKeyEnvelopes.row) (db : Db) : Db :=
  {| tenants := tenants db; accounts := accounts db; account_roles := account_roles db;
     password_credentials := password_credentials db; mfa_totp_factors := mfa_totp_factors db;
     totp_data_key_envelopes := rows; recovery_code_sets := recovery_code_sets db;
     recovery_code_verifiers := recovery_code_verifiers db;
     login_transactions := login_transactions db; webauthn_credentials := webauthn_credentials db;
     webauthn_ceremonies := webauthn_ceremonies db; session_families := session_families db;
     refresh_credentials := refresh_credentials db; access_sessions := access_sessions db;
     step_up_grants := step_up_grants db; federation_peers := federation_peers db;
     federation_keys := federation_keys db; federation_replays := federation_replays db; audit_events := audit_events db |}.
Definition set_recovery_code_sets (rows : list RecoveryCodeSets.row) (db : Db) : Db :=
  {| tenants := tenants db; accounts := accounts db; account_roles := account_roles db;
     password_credentials := password_credentials db; mfa_totp_factors := mfa_totp_factors db;
     totp_data_key_envelopes := totp_data_key_envelopes db; recovery_code_sets := rows;
     recovery_code_verifiers := recovery_code_verifiers db;
     login_transactions := login_transactions db; webauthn_credentials := webauthn_credentials db;
     webauthn_ceremonies := webauthn_ceremonies db; session_families := session_families db;
     refresh_credentials := refresh_credentials db; access_sessions := access_sessions db;
     step_up_grants := step_up_grants db; federation_peers := federation_peers db;
     federation_keys := federation_keys db; federation_replays := federation_replays db; audit_events := audit_events db |}.
Definition set_recovery_code_verifiers (rows : list RecoveryCodeVerifiers.row) (db : Db) : Db :=
  {| tenants := tenants db; accounts := accounts db; account_roles := account_roles db;
     password_credentials := password_credentials db; mfa_totp_factors := mfa_totp_factors db;
     totp_data_key_envelopes := totp_data_key_envelopes db;
     recovery_code_sets := recovery_code_sets db; recovery_code_verifiers := rows;
     login_transactions := login_transactions db; webauthn_credentials := webauthn_credentials db;
     webauthn_ceremonies := webauthn_ceremonies db; session_families := session_families db;
     refresh_credentials := refresh_credentials db; access_sessions := access_sessions db;
     step_up_grants := step_up_grants db; federation_peers := federation_peers db;
     federation_keys := federation_keys db; federation_replays := federation_replays db; audit_events := audit_events db |}.
Definition set_login_transactions (rows : list LoginTransactions.row) (db : Db) : Db :=
  {| tenants := tenants db; accounts := accounts db; account_roles := account_roles db;
     password_credentials := password_credentials db; mfa_totp_factors := mfa_totp_factors db;
     totp_data_key_envelopes := totp_data_key_envelopes db;
     recovery_code_sets := recovery_code_sets db;
     recovery_code_verifiers := recovery_code_verifiers db; login_transactions := rows;
     webauthn_credentials := webauthn_credentials db;
     webauthn_ceremonies := webauthn_ceremonies db; session_families := session_families db;
     refresh_credentials := refresh_credentials db; access_sessions := access_sessions db;
     step_up_grants := step_up_grants db; federation_peers := federation_peers db;
     federation_keys := federation_keys db; federation_replays := federation_replays db; audit_events := audit_events db |}.
Definition set_webauthn_credentials (rows : list (WebauthnCredentials.row Document)) (db : Db) : Db :=
  {| tenants := tenants db; accounts := accounts db; account_roles := account_roles db;
     password_credentials := password_credentials db; mfa_totp_factors := mfa_totp_factors db;
     totp_data_key_envelopes := totp_data_key_envelopes db;
     recovery_code_sets := recovery_code_sets db;
     recovery_code_verifiers := recovery_code_verifiers db;
     login_transactions := login_transactions db; webauthn_credentials := rows;
     webauthn_ceremonies := webauthn_ceremonies db; session_families := session_families db;
     refresh_credentials := refresh_credentials db; access_sessions := access_sessions db;
     step_up_grants := step_up_grants db; federation_peers := federation_peers db;
     federation_keys := federation_keys db; federation_replays := federation_replays db; audit_events := audit_events db |}.
Definition set_webauthn_ceremonies (rows : list (WebauthnCeremonies.row Document)) (db : Db) : Db :=
  {| tenants := tenants db; accounts := accounts db; account_roles := account_roles db;
     password_credentials := password_credentials db; mfa_totp_factors := mfa_totp_factors db;
     totp_data_key_envelopes := totp_data_key_envelopes db;
     recovery_code_sets := recovery_code_sets db;
     recovery_code_verifiers := recovery_code_verifiers db;
     login_transactions := login_transactions db; webauthn_credentials := webauthn_credentials db;
     webauthn_ceremonies := rows; session_families := session_families db;
     refresh_credentials := refresh_credentials db; access_sessions := access_sessions db;
     step_up_grants := step_up_grants db; federation_peers := federation_peers db;
     federation_keys := federation_keys db; federation_replays := federation_replays db; audit_events := audit_events db |}.
Definition set_session_families (rows : list SessionFamilies.row) (db : Db) : Db :=
  {| tenants := tenants db; accounts := accounts db; account_roles := account_roles db;
     password_credentials := password_credentials db; mfa_totp_factors := mfa_totp_factors db;
     totp_data_key_envelopes := totp_data_key_envelopes db;
     recovery_code_sets := recovery_code_sets db;
     recovery_code_verifiers := recovery_code_verifiers db;
     login_transactions := login_transactions db; webauthn_credentials := webauthn_credentials db;
     webauthn_ceremonies := webauthn_ceremonies db; session_families := rows;
     refresh_credentials := refresh_credentials db; access_sessions := access_sessions db;
     step_up_grants := step_up_grants db; federation_peers := federation_peers db;
     federation_keys := federation_keys db; federation_replays := federation_replays db; audit_events := audit_events db |}.
Definition set_refresh_credentials (rows : list RefreshCredentials.row) (db : Db) : Db :=
  {| tenants := tenants db; accounts := accounts db; account_roles := account_roles db;
     password_credentials := password_credentials db; mfa_totp_factors := mfa_totp_factors db;
     totp_data_key_envelopes := totp_data_key_envelopes db;
     recovery_code_sets := recovery_code_sets db;
     recovery_code_verifiers := recovery_code_verifiers db;
     login_transactions := login_transactions db; webauthn_credentials := webauthn_credentials db;
     webauthn_ceremonies := webauthn_ceremonies db; session_families := session_families db;
     refresh_credentials := rows; access_sessions := access_sessions db;
     step_up_grants := step_up_grants db; federation_peers := federation_peers db;
     federation_keys := federation_keys db; federation_replays := federation_replays db; audit_events := audit_events db |}.
Definition set_access_sessions (rows : list AccessSessions.row) (db : Db) : Db :=
  {| tenants := tenants db; accounts := accounts db; account_roles := account_roles db;
     password_credentials := password_credentials db; mfa_totp_factors := mfa_totp_factors db;
     totp_data_key_envelopes := totp_data_key_envelopes db;
     recovery_code_sets := recovery_code_sets db;
     recovery_code_verifiers := recovery_code_verifiers db;
     login_transactions := login_transactions db; webauthn_credentials := webauthn_credentials db;
     webauthn_ceremonies := webauthn_ceremonies db; session_families := session_families db;
     refresh_credentials := refresh_credentials db; access_sessions := rows;
     step_up_grants := step_up_grants db; federation_peers := federation_peers db;
     federation_keys := federation_keys db; federation_replays := federation_replays db; audit_events := audit_events db |}.
Definition set_step_up_grants (rows : list StepUpGrants.row) (db : Db) : Db :=
  {| tenants := tenants db; accounts := accounts db; account_roles := account_roles db;
     password_credentials := password_credentials db; mfa_totp_factors := mfa_totp_factors db;
     totp_data_key_envelopes := totp_data_key_envelopes db;
     recovery_code_sets := recovery_code_sets db;
     recovery_code_verifiers := recovery_code_verifiers db;
     login_transactions := login_transactions db; webauthn_credentials := webauthn_credentials db;
     webauthn_ceremonies := webauthn_ceremonies db; session_families := session_families db;
     refresh_credentials := refresh_credentials db; access_sessions := access_sessions db;
     step_up_grants := rows; federation_peers := federation_peers db;
     federation_keys := federation_keys db; federation_replays := federation_replays db; audit_events := audit_events db |}.
Definition set_federation_replays (rows : list FederationReplays.row) (db : Db) : Db :=
  {| tenants := tenants db; accounts := accounts db; account_roles := account_roles db;
     password_credentials := password_credentials db; mfa_totp_factors := mfa_totp_factors db;
     totp_data_key_envelopes := totp_data_key_envelopes db;
     recovery_code_sets := recovery_code_sets db;
     recovery_code_verifiers := recovery_code_verifiers db;
     login_transactions := login_transactions db; webauthn_credentials := webauthn_credentials db;
     webauthn_ceremonies := webauthn_ceremonies db; session_families := session_families db;
     refresh_credentials := refresh_credentials db; access_sessions := access_sessions db;
     step_up_grants := step_up_grants db; federation_peers := federation_peers db;
     federation_keys := federation_keys db; federation_replays := rows; audit_events := audit_events db |}.
Definition set_audit_events (rows : list AuditEvents.row) (db : Db) : Db :=
  {| tenants := tenants db; accounts := accounts db; account_roles := account_roles db;
     password_credentials := password_credentials db; mfa_totp_factors := mfa_totp_factors db;
     totp_data_key_envelopes := totp_data_key_envelopes db;
     recovery_code_sets := recovery_code_sets db;
     recovery_code_verifiers := recovery_code_verifiers db;
     login_transactions := login_transactions db; webauthn_credentials := webauthn_credentials db;
     webauthn_ceremonies := webauthn_ceremonies db; session_families := session_families db;
     refresh_credentials := refresh_credentials db; access_sessions := access_sessions db;
     step_up_grants := step_up_grants db; federation_peers := federation_peers db;
     federation_keys := federation_keys db; federation_replays := federation_replays db; audit_events := rows |}.

(** ** Transactions and statements *)

(** [pool.begin()] ... [commit()]: an error rolls back. *)
Definition transaction {A} (body : Tx A) : Tx A := fun db =>
  match body db with
  | (db', Ok a) => (db', Ok a)
  | (_, Err e) => (db, Err e)
  end.

Definition require (b : bool) : Tx unit := if b then ret tt else fail Database.

(** [UPDATE] over the rows that satisfy [P]. *)
Definition update_where {R} (P : R -> Prop) `{forall r, Decision (P r)} (f : R -> R) (t : list R) : list R :=
  (fun r => if decide (P r) then f r else r) <$> t.

Definition rows_affected {R} (P : R -> Prop) `{forall r, Decision (P r)} (t : list R) : nat :=
  length (filter P t).

(** [fetch_optional]: the first row, when there is one. *)
Definition fetch_optional {A} (rows : list A) : option A := head rows.

(** Foreign keys. *)
Definition tenant_exists (db : Db) (t : Uuid) : bool :=
  bool_decide (Exists (fun r => Tenants.id r = t) (tenants db)).
Definition account_exists (db : Db) (a : Uuid) : bool :=
  bool_decide (Exists (fun r => Accounts.id r = a) (accounts db)).
Definition tenant_account_exists (db : Db) (t a : Uuid) : bool :=
  bool_decide (Exists (fun r => Accounts.tenant_id r = t /\ Accounts.id r = a) (accounts db)).
Definition family_exists (db : Db) (f : Uuid) : bool :=
  bool_decide (Exists (fun r => SessionFamilies.id r = f) (session_families db)).
Definition peer_exists (db : Db) (p : Uuid) : bool :=
  bool_decide (Exists (fun r => FederationPeers.id r = p) (federation_peers db)).

(** ** Shared helpers ([helpers.rs]) *)
Definition validate_correlation_id (value : str) : result StoreError unit :=
  if bool_decide (value = []) || (128 <? str_len value) || existsb is_control value
  then Err InvalidCorrelationId else Ok tt.

Definition audit_action_text (action : AuditAction) : str :=
  match action with
  | TenantBootstrapped => lit "tenant_bootstrapped"
  | AccountCreated => lit "account_created"
  | RoleChanged => lit "role_changed"
  | PasswordChanged => lit "password_changed"
  | MfaChanged => lit "mfa_changed"
  | LoginTransactionIssued => lit "login_transaction_issued"
  | LoginTransactionConsumed => lit "login_transaction_consumed"
  | SessionIssued => lit "session_issued"
  | SessionRevoked => lit "session_revoked"
  | StepUpGranted => lit "step_up_granted"
  | StepUpConsumed => lit "step_up_consumed"
  | WebauthnCeremonyIssued => lit "webauthn_ceremony_issued"
  | WebauthnCeremonyConsumed => lit "webauthn_ceremony_consumed"
  | PasskeyChanged => lit "passkey_changed"
  | FederationTrustChanged => lit "federation_trust_changed"
  | FederationRequestEvaluated => lit "federation_request_evaluated"
  end.

Definition parse_federation_trust_state (value : str) : result StoreError FederationTrustState :=
  if decide (value = lit "pending") then Ok Pending else
  if decide (value = lit "active") then Ok TrustActive else
  if decide (value = lit "suspended") then Ok TrustSuspended else
  if decide (value = lit "revoked") then Ok Revoked else
  Err CorruptFederationTrustState.

Definition parse_account_state (value : str) : result StoreError AccountState :=
  if decide (value = lit "active") then Ok Active else
  if decide (value = lit "mfa_enrollment_required") then Ok MfaEnrollmentRequired else
  if decide (value = lit "suspended") then Ok Suspended else
  if decide (value = lit "deactivated") then Ok Deactivated else
  Err CorruptAccountState.

(** The [CHECK] lists of [accounts.state] and [account_roles.role], as the schema
    spells them. *)
Definition account_state_check (value : str) : bool :=
  bool_decide (value ∈ [lit "active"; lit "mfa_enrollment_required"; lit "suspended"; lit "deactivated"]).
Definition role_check (value : str) : bool :=
  bool_decide (value ∈ [lit "owner"; lit "admin"; lit "operator"; lit "auditor"; lit "member"]).

Definition role_text (role : Role) : str :=
  match role with
  | Owner => lit "owner"
  | Admin => lit "admin"
  | Operator => lit "operator"
  | Auditor => lit "auditor"
  | Member => lit "member"
  end.

Definition parse_role (value : str) : result StoreError Role :=
  if decide (value = lit "owner") then Ok Owner else
  if decide (value = lit "admin") then Ok Admin else
  if decide (value = lit "operator") then Ok Operator else
  if decide (value = lit "auditor") then Ok Auditor else
  if decide (value = lit "member") then Ok Member else
  Err CorruptRole.

Record AuditWrite `{TimeLib} : Type := {
  audit_id : Uuid;
  audit_tenant_id : TenantId;
  audit_actor_id : option AccountId;
  audit_action : AuditAction;
  audit_correlation_id : str;
  audit_metadata : list (str * Json);
  audit_occurred_at : OffsetDateTime;
}.

Definition audit_row `{TimeLib} (event : AuditWrite) : AuditEvents.row :=
  {| AuditEvents.id := audit_id event;
     AuditEvents.tenant_id := tenant_as_uuid (audit_tenant_id event);
     AuditEvents.actor_id := account_as_uuid <$> audit_actor_id event;
     AuditEvents.action := audit_action_text (audit_action event);
     AuditEvents.correlation_id := audit_correlation_id event;
     AuditEvents.metadata := audit_metadata event;
     AuditEvents.occurred_at := timestamptz (audit_occurred_at event) |}.

Definition insert_audit `{TimeLib} (event : AuditWrite) : Tx unit :=
  let r := audit_row event in
  do db <- get;
  do_ require (bool_decide (Forall (fun r' => AuditEvents.id r' <> AuditEvents.id r) (audit_events db))
    && tenant_exists db (AuditEvents.tenant_id r)
    && match AuditEvents.actor_id r with Some a => account_exists db a | None => true end
    && (1 <=? blen (AuditEvents.correlation_id r)) && (blen (AuditEvents.correlation_id r) <=? 128));
  modify (set_audit_events (audit_events db ++ [r])).

(** ** Reasoning about statements *)
Lemma store_correlation_ok s :
  validate_correlation_id s = Ok tt -> 1 <= blen s <= 128.
Proof.
  unfold validate_correlation_id. case_match eqn:E; [done|]. intros _.
  apply orb_false_iff in E as [[E1%bool_decide_eq_false E2%Z.ltb_ge]%orb_false_iff _].
  pose proof (chars_le_bytes s). destruct s as [|c s]; [done|].
  rewrite blen_cons in *. pose proof (blen_nonneg s). lia.
Qed.

Definition auditable `{TimeLib} (db : Db) (event : AuditWrite) : Prop :=
  Forall (fun r => AuditEvents.id r <> audit_id event) (audit_events db) /\
  tenant_exists db (tenant_as_uuid (audit_tenant_id event)) = true /\
  match audit_actor_id event with Some a => account_exists db (account_as_uuid a) = true | None => True end /\
  1 <= blen (audit_correlation_id event) <= 128.
#[export] Instance auditable_dec `{TimeLib} db event : Decision (auditable db event).
Proof. unfold auditable. destruct (audit_actor_id event); apply _. Defined.

Lemma insert_audit_run `{TimeLib} event db :
  insert_audit event db =
  if decide (auditable db event)
  then (set_audit_events (audit_events db ++ [audit_row event]) db, Ok tt)
  else (db, Err Database).
Proof.
  unfold insert_audit, bind, get, require, modify.
  match goal with |- context [if ?b then ret tt else _] => assert (Hb : b = true <-> auditable db event) end.
  { unfold auditable. rewrite !andb_true_iff, bool_decide_eq_true, !Z.leb_le.
    cbn [audit_row AuditEvents.id AuditEvents.tenant_id AuditEvents.correlation_id AuditEvents.actor_id].
    destruct (audit_actor_id event); simpl; naive_solver. }
  case_decide as Hd.
  - by rewrite (proj2 Hb Hd).
  - match goal with |- context [if ?b then ret tt else _] => destruct b end; [by destruct Hd; apply Hb | done].
Qed.

Lemma insert_audit_ok `{TimeLib} event (db db' : Db) u :
  insert_audit event db = (db', Ok u) <->
  auditable db event /\ db' = set_audit_events (audit_events db ++ [audit_row event]) db.
Proof. rewrite insert_audit_run. destruct u. case_decide; naive_solver. Qed.

Lemma transaction_ok {A} (body : Tx A) db db' a :
  transaction body db = (db', Ok a) <-> body db = (db', Ok a).
Proof. unfold transaction. destruct (body db) as [? []]; naive_solver. Qed.

Lemma transaction_inv {A} (body : Tx A) db db' a :
  transaction body db = (db', Ok a) -> body db = (db', Ok a).
Proof. apply transaction_ok. Qed.

Lemma transaction_err {A} (body : Tx A) db db' e :
  transaction body db = (db', Err e) <-> db' = db /\ exists db1, body db = (db1, Err e).
Proof. unfold transaction. destruct (body db) as [? []]; naive_solver. Qed.

(** An operation that fails leaves the database as it was. *)
Definition atomic {A} (m : Tx A) : Prop := forall db db' e, m db = (db', Err e) -> db' = db.

Lemma atomic_transaction {A} (body : Tx A) : atomic (transaction body).
Proof. intros db db' e H. by apply transaction_err in H as [-> _]. Qed.

Lemma atomic_fail {A} e : atomic (fail e : Tx A).
Proof. by intros db db' e' [= <- _]. Qed.

Lemma atomic_ret {A} (a : A) : atomic (ret a).
Proof. by intros db db' e'. Qed.

Lemma atomic_after_lift {A B} (r : result StoreError B) (k : B -> Tx A) :
  (forall b, atomic (k b)) -> atomic (bind (lift r) k).
Proof. intros Hk db db' e. destruct r as [b|e']; unfold bind, lift; [apply Hk|by intros [= <- _]]. Qed.

Lemma atomic_after_get {A} (k : Db -> Tx A) : (forall db, atomic (k db)) -> atomic (bind get k).
Proof. intros Hk db db' e. apply Hk. Qed.

Lemma atomic_if {A} (b : bool) (m m' : Tx A) : atomic m -> atomic m' -> atomic (if b then m else m').
Proof. by destruct b. Qed.

(** A statement that is checked against the database and then writes. *)
Lemma checked_ok {A} (ok : Db -> bool) (write : Db -> Tx A) db db' a :
  (do db <- get; do_ require (ok db); write db) db = (db', Ok a) <->
  ok db = true /\ write db db = (db', Ok a).
Proof. unfold bind, get, require. destruct (ok db); simpl; naive_solver. Qed.

Lemma require_run b db : require b db = (db, if b then Ok tt else Err Database).
Proof. by destruct b. Qed.

(** ** Updates of rows *)
Section rows.
Context {R : Type} (P : R -> Prop) `{forall r, Decision (P r)}.

Lemma elem_of_update_where f r t :
  r ∈ update_where P f t <-> exists r0, r0 ∈ t /\ (P r0 /\ r = f r0 \/ ~ P r0 /\ r = r0).
Proof.
  unfold update_where. rewrite list_elem_of_fmap. split.
  - intros (r0 & -> & Hin). exists r0. split; [done|]. case_decide; auto.
  - intros (r0 & Hin & [[HP ->]|[HP ->]]); exists r0; (split; [|done]); by case_decide.
Qed.

Lemma update_where_column {K} f (k : R -> K) t :
  (forall r, k (f r) = k r) -> k <$> update_where P f t = k <$> t.
Proof.
  intros Hk. unfold update_where. rewrite <- list_fmap_compose. apply list_fmap_ext.
  intros _ r _. simpl. case_decide; [apply Hk|done].
Qed.

Lemma update_where_column_on {K} f (k : R -> K) t :
  (forall r, P r -> k (f r) = k r) -> k <$> update_where P f t = k <$> t.
Proof.
  intros Hk. unfold update_where. rewrite <- list_fmap_compose. apply list_fmap_ext.
  intros i r _. simpl. case_decide; auto.
Qed.

Lemma update_where_none f t : (forall r, r ∈ t -> ~ P r) -> update_where P f t = t.
Proof.
  intros Hn. unfold update_where. rewrite <- (list_fmap_id t) at 2. apply list_fmap_ext.
  intros i r Hr. apply list_elem_of_lookup_2 in Hr. rewrite decide_False by (by apply Hn). done.
Qed.

Lemma filter_update_where (Q : R -> Prop) `{forall r, Decision (Q r)} f t :
  (forall r, Q (f r) <-> Q r) -> filter Q (update_where P f t) = update_where P f (filter Q t).
Proof.
  intros HQ. induction t as [|r t IH]; [done|]. unfold update_where in *. rewrite fmap_cons.
  rewrite !filter_cons, IH. destruct (decide (P r)) eqn:E; destruct (decide (Q r)) as [Hq|Hq].
  - rewrite decide_True by by apply HQ. by rewrite fmap_cons, E.
  - rewrite decide_False by by rewrite HQ. done.
  - by rewrite fmap_cons, E.
  - done.
Qed.

Lemma rows_affected_pos t : rows_affected P t <> 0%nat <-> exists r, r ∈ t /\ P r.
Proof.
  unfold rows_affected. split.
  - destruct (filter P t) as [|r l] eqn:E; [done|]. intros _. exists r.
    assert (Hr : r ∈ filter P t) by (rewrite E; by left).
    apply list_elem_of_filter in Hr. tauto.
  - intros (r & Hr & HP) Hl. apply nil_length_inv in Hl.
    assert (Hin : r ∈ filter P t) by (by apply list_elem_of_filter). rewrite Hl in Hin.
    by apply elem_of_nil in Hin.
Qed.

Lemma rows_affected_unique {K} (k : R -> K) t :
  NoDup (k <$> t) -> (forall r r', P r -> P r' -> k r = k r') -> (rows_affected P t <= 1)%nat.
Proof.
  intros Hnd Hk. unfold rows_affected.
  assert (Hs : forall l, NoDup (k <$> l) -> (length (filter P l) <= 1)%nat).
  { clear t Hnd. induction l as [|r l IH]; intros Hnd; [simpl; lia|].
    rewrite fmap_cons, NoDup_cons in Hnd. destruct Hnd as [Hn Hnd]. rewrite filter_cons.
    case_decide as HP; [|by apply IH]. simpl.
    assert (filter P l = []) as ->; [|simpl; lia].
    destruct (filter P l) as [|r' l'] eqn:E; [done|]. destruct Hn.
    assert (Hr' : r' ∈ filter P l) by (rewrite E; by left).
    apply list_elem_of_filter in Hr' as [HP' Hr']. rewrite (Hk r r') by done.
    by apply list_elem_of_fmap_2. }
  by apply Hs.
Qed.
End rows.

(** Rows with the same value in a unique column are equal. *)
Lemma unique_row {R K} (k : R -> K) (t : list R) r r' :
  NoDup (k <$> t) -> r ∈ t -> r' ∈ t -> k r = k r' -> r = r'.
Proof.
  induction t as [|x t IH]; [by intros _ []%elem_of_nil|].
  rewrite fmap_cons, NoDup_cons, !elem_of_cons. intros [Hn Hnd].
  intros [->|Hr] [->|Hr'] Hk; [done| | |by apply IH].
  - destruct Hn. rewrite Hk. by apply list_elem_of_fmap_2.
  - destruct Hn. rewrite <- Hk. by apply list_elem_of_fmap_2.
Qed.

Lemma NoDup_snoc_column {R K} (k : R -> K) (t : list R) r :
  NoDup (k <$> t) -> Forall (fun r' => k r' <> k r) t -> NoDup (k <$> (t ++ [r])).
Proof.
  intros Hnd Hf. rewrite fmap_app. change (k <$> [r]) with [k r]. apply NoDup_app. split; [done|]. split.
  - intros x (r' & -> & Hr')%list_elem_of_fmap. rewrite list_elem_of_singleton.
    rewrite list.Forall_forall in Hf. by apply Hf.
  - apply NoDup_singleton.
Qed.

(** A query whose rows are all equal returns its row. *)
Lemma fetch_unique {A} (l : list A) x :
  (forall y z, y ∈ l -> z ∈ l -> y = z) -> fetch_optional l = Some x <-> x ∈ l.
Proof.
  intros Hu. split; [apply head_Some_elem_of|]. destruct l as [|y l]; [by intros []%elem_of_nil|].
  intros Hx. simpl. f_equal. apply Hu; [by left|done].
Qed.

Lemma fetch_none {A} (l : list A) : fetch_optional l = None <-> forall x, x ∉ l.
Proof.
  destruct l as [|y l]; simpl.
  - split; [intros _ x; apply not_elem_of_nil|done].
  - split; [done|]. intros H. destruct (H y). by left.
Qed.

End statements.

Create HintDb fabric.
#[export] Hint Resolve atomic_transaction atomic_fail atomic_ret atomic_after_lift atomic_after_get atomic_if : fabric.
