(* ===== verification/Ingress.v ===== *)
(** * Federation ingress

    The path of an inbound delivery through the service:
    [transport/federation.rs] (the HTTP request and its status),
    [federation_ingress.rs] (policy resolution and admission) and
    [fcp-fabric-store/src/federation.rs] (peer material and replay records).
    SHA-256, base64, UUID text and JSON decoding are parameters.  Each reading
    of the clock and each drawn identifier is an argument. *)

From Stdlib Require Import ZArith Lia String.
From stdpp Require Import base list option numbers decidable sorting.
From S2P Require Import Prelude Bytes Types Identity Sample Str Domain Totp Clock Auth Delivery Db.

Section ingress.
Context `{T : TimeLib} `{C : Crypto} `{U : Unicode} `{F : FabricLib}.
Abbreviation Db := (Db Document).
Abbreviation Tx := (M Db StoreError).

(** ** Store ([fcp-fabric-store/src/federation.rs]) *)
Record StoredFederationKeyMaterial : Type := {
  key_id : str;
  public_key_document : Document;
  valid_until : OffsetDateTime;
}.

Record StoredFederationPeerMaterial : Type := {
  material_tenant_id : TenantId;
  material_peer_id : Uuid;
  material_trust_state : FederationTrustState;
  expected_key_fingerprint : bytes;
  keys : list StoredFederationKeyMaterial;
}.

(** The rows of the peer joined with its tenant; a tenant's identifier is its
    primary key, so a peer joins at most one tenant. *)
Definition peer_rows (db : Db) (local_domain remote_domain : DomainName) : list FederationPeers.row :=
  filter (fun peer =>
    Exists (fun tenant => Tenants.id tenant = FederationPeers.tenant_id peer /\
      Tenants.canonical_domain tenant = domain_as_str local_domain) (tenants db) /\
    FederationPeers.remote_domain peer = domain_as_str remote_domain) (federation_peers db).

Definition first_seen_le (a b : FederationKeys.row Document) : Prop :=
  FederationKeys.first_seen_at a <= FederationKeys.first_seen_at b.
#[local] Instance first_seen_le_dec : RelDecision first_seen_le.
Proof. intros a b. unfold first_seen_le. apply _. Defined.

Definition key_rows (db : Db) (peer : Uuid) (now : OffsetDateTime) : list (FederationKeys.row Document) :=
  merge_sort first_seen_le (filter (fun key =>
    FederationKeys.peer_id key = peer /\ FederationKeys.retired_at key = None /\
    timestamptz now < FederationKeys.valid_until key) (federation_keys db)).

Definition federation_peer_material (local_domain remote_domain : DomainName)
    (now : OffsetDateTime) : Tx (option StoredFederationPeerMaterial) :=
  do db <- get;
  match fetch_optional (peer_rows db local_domain remote_domain) with
  | None => ret None
  | Some peer =>
      let keys := (fun key => {| key_id := FederationKeys.key_id key;
                                 public_key_document := FederationKeys.public_key_document key;
                                 valid_until := from_timestamptz (FederationKeys.valid_until key) |})
                  <$> key_rows db (FederationPeers.id peer) now in
      do trust_state <- lift (parse_federation_trust_state (FederationPeers.trust_state peer));
      ret (Some {| material_tenant_id := TenantId_from_uuid (FederationPeers.tenant_id peer);
                   material_peer_id := FederationPeers.id peer;
                   material_trust_state := trust_state;
                   expected_key_fingerprint := FederationPeers.expected_key_fingerprint peer;
                   keys := keys |})
  end.

Record RecordFederationReplay : Type := {
  replay_tenant_id : TenantId;
  replay_peer_id : Uuid;
  replay_request_id : Uuid;
  replay_body_digest : array 32;
  replay_expires_at : OffsetDateTime;
  replay_correlation_id : str;
}.

(** The row the [INSERT] of [record_federation_replay] writes. *)
Definition replay_row (request : RecordFederationReplay) (now : OffsetDateTime) : FederationReplays.row :=
  {| FederationReplays.tenant_id := tenant_as_uuid (replay_tenant_id request);
     FederationReplays.peer_id := replay_peer_id request;
     FederationReplays.request_id := replay_request_id request;
     FederationReplays.body_digest := replay_body_digest request;
     FederationReplays.accepted_at := timestamptz now;
     FederationReplays.expires_at := timestamptz (replay_expires_at request) |}.

Definition same_request (tenant peer request : Uuid) (r : FederationReplays.row) : Prop :=
  FederationReplays.tenant_id r = tenant /\ FederationReplays.peer_id r = peer /\
  FederationReplays.request_id r = request.
#[local] Instance same_request_dec t p q r : Decision (same_request t p q r).
Proof. unfold same_request. apply _. Defined.

Definition recorded (db : Db) (tenant peer request : Uuid) : Prop :=
  Exists (same_request tenant peer request) (federation_replays db).
#[local] Instance recorded_dec db t p q : Decision (recorded db t p q).
Proof. unfold recorded. apply _. Defined.

(** [INSERT INTO federation_replays ... ON CONFLICT DO NOTHING]: the number of
    inserted rows.  Checks are enforced before the conflict is looked for,
    foreign keys after the insertion. *)
Definition insert_replay (r : FederationReplays.row) : Tx nat :=
  do db <- get;
  do_ require (FederationReplays.accepted_at r <? FederationReplays.expires_at r);
  if decide (recorded db (FederationReplays.tenant_id r) (FederationReplays.peer_id r)
               (FederationReplays.request_id r))
  then ret 0%nat
  else
    do_ require (tenant_exists db (FederationReplays.tenant_id r)
                 && peer_exists db (FederationReplays.peer_id r));
    do_ modify (set_federation_replays (federation_replays db ++ [r]));
    ret 1%nat.

Definition record_federation_replay (request : RecordFederationReplay)
    (now : OffsetDateTime) (new_audit_id : Uuid) : Tx bool :=
  do_ lift (validate_correlation_id (replay_correlation_id request));
  if datetime_leb (replay_expires_at request) now then fail InvalidFederationReplayExpiry else
  transaction (
    do inserted <- insert_replay (replay_row request now);
    if negb (inserted =? 1)%nat then ret false else
    do_ insert_audit
      {| audit_id := new_audit_id;
         audit_tenant_id := replay_tenant_id request;
         audit_actor_id := None;
         audit_action := FederationRequestEvaluated;
         audit_correlation_id := replay_correlation_id request;
         audit_metadata := [(lit "peer_id", JUuid (replay_peer_id request));
                            (lit "request_id", JUuid (replay_request_id request));
                            (lit "outcome", JText (lit "accepted"))];
         audit_occurred_at := now |};
    ret true).

(** ** Policy resolution ([federation_ingress.rs]) *)
Inductive FederationIngressError : Type :=
| Resolver
| Rejected
| Policy (source : FederationError)
| Store (source : StoreError).

Inductive FederationIngressOutcome : Type := Accepted | Replay.

Record ResolvedFederationPeer : Type := {
  tenant_id : TenantId;
  peer_id : Uuid;
  policy : RemotePeerPolicy;
}.

Definition decode_fixed (n : Z) (encoded : str) : option (array n) :=
  base64url_decode encoded ≫= array_try n.

Definition parse_pinned_identity (key : StoredFederationKeyMaterial) : option EndpointIdentity :=
  document ← document_from_value (public_key_document key);
  classical ← decode_fixed 32 (document.1);
  post_quantum ← decode_fixed 1952 (document.2);
  Some (EndpointIdentity_new (EndpointKey_from_bytes classical) post_quantum).

Definition FINGERPRINT_TAG : bytes :=
  str_bytes (lit "fcp-fabric/federation/identity-fingerprint/v1") ++ [x00].

Definition identity_fingerprint (identity : EndpointIdentity) : array 32 :=
  sha256 (FINGERPRINT_TAG ++ abytes (endpoint_key_as_bytes (classical identity))
          ++ abytes (post_quantum identity)).

Definition resolve (local_domain remote_domain : DomainName) (now : OffsetDateTime) (db : Db) :
    result FederationIngressError (option ResolvedFederationPeer) :=
  let? material := map_err Store (eval (federation_peer_material local_domain remote_domain now) db) in
  match material with
  | None => Ok None
  | Some material =>
      let? expected_fingerprint := ok_or (array_try 32 (expected_key_fingerprint material)) Resolver in
      match (identity ← find_map parse_pinned_identity (keys material);
             if decide (identity_fingerprint identity = expected_fingerprint)
             then Some identity else None) with
      | None => Ok None
      | Some identity =>
          Ok (Some {| tenant_id := material_tenant_id material;
                      peer_id := material_peer_id material;
                      policy := {| local_domain := local_domain;
                                   remote_domain := remote_domain;
                                   trust_state := material_trust_state material;
                                   active_authority_identity := identity |} |})
      end
  end.

(** The clock readings of one request, in order: the handler's, the
    resolver's and the replay record's; and the identifiers it draws. *)
Record Moment : Type := {
  handler_now : OffsetDateTime;
  resolve_now : OffsetDateTime;
  record_now : OffsetDateTime;
  correlation_uuid : Uuid;
  drawn_audit_id : Uuid;
}.

Definition admit_ingress (signed : SignedFederationDelivery) (correlation_id : str) (m : Moment)
    (db : Db) : option (Db * result FederationIngressError FederationIngressOutcome) :=
  let d := delivery signed in
  match resolve (destination_domain d) (source_domain d) (resolve_now m) db with
  | Err e => Some (db, Err e)
  | Ok None => Some (db, Err Rejected)
  | Ok (Some peer) =>
      match (let* _ := RemotePeerPolicy.admit_delivery (policy peer) (handler_now m) signed in
             SignedFederationDelivery.canonical_body_digest sha256 signed) with
      | None => None
      | Some (Err e) => Some (db, Err (Policy e))
      | Some (Ok body_digest) =>
          let '(db', inserted) := record_federation_replay
            {| replay_tenant_id := tenant_id peer; replay_peer_id := peer_id peer;
               replay_request_id := request_id d; replay_body_digest := body_digest;
               replay_expires_at := expires_at d; replay_correlation_id := correlation_id |}
            (record_now m) (drawn_audit_id m) db in
          Some (db', let? inserted := map_err Store inserted in
                     Ok (if (inserted : bool) then Accepted else Replay))
      end
  end.

(** ** The HTTP endpoint ([transport/federation.rs]) *)
Record FederationDeliveryRequest : Type := {
  req_source_domain : str;
  req_destination_domain : str;
  req_sender : str;
  req_recipient : str;
  req_request_id : str;
  req_issued_at : str;
  req_expires_at : str;
  req_payload : str;
  req_classical_public_key : str;
  req_post_quantum_public_key : str;
  req_classical_signature : str;
  req_post_quantum_signature : str;
}.

Definition into_signed (self : FederationDeliveryRequest) : option SignedFederationDelivery :=
  source_domain ← res_ok (DomainName.parse (req_source_domain self));
  destination_domain ← res_ok (DomainName.parse (req_destination_domain self));
  sender ← res_ok (UserAddress.parse (req_sender self));
  recipient ← res_ok (UserAddress.parse (req_recipient self));
  request_id ← uuid_parse (req_request_id self);
  issued_at ← parse_rfc3339 (req_issued_at self);
  expires_at ← parse_rfc3339 (req_expires_at self);
  payload ← base64url_decode (req_payload self);
  classical ← decode_fixed 32 (req_classical_public_key self);
  post_quantum ← decode_fixed 1952 (req_post_quantum_public_key self);
  classical_signature ← decode_fixed 64 (req_classical_signature self);
  post_quantum_signature ← decode_fixed 3309 (req_post_quantum_signature self);
  Some {| delivery := {| source_domain := source_domain; destination_domain := destination_domain;
                         sender := sender; recipient := recipient; request_id := request_id;
                         issued_at := issued_at; expires_at := expires_at; payload := payload |};
          authority_identity := EndpointIdentity_new (EndpointKey_from_bytes classical) post_quantum;
          classical_signature := classical_signature;
          post_quantum_signature := post_quantum_signature |}.

Inductive StatusCode : Type :=
| OK | CREATED | ACCEPTED | NO_CONTENT | BAD_REQUEST | UNAUTHORIZED | FORBIDDEN | NOT_FOUND | CONFLICT
| MISDIRECTED_REQUEST | UNPROCESSABLE_ENTITY | PRECONDITION_REQUIRED | INTERNAL_SERVER_ERROR | SERVICE_UNAVAILABLE.
#[export] Instance StatusCode_eq_dec : EqDecision StatusCode.
Proof. solve_decision. Defined.

(** [enabled]: the state has an ingress service. *)
Definition deliver_federation (enabled : bool) (path_request_id : str)
    (request : FederationDeliveryRequest) (m : Moment) (db : Db) : option (Db * StatusCode) :=
  if negb enabled then Some (db, NOT_FOUND) else
  match uuid_parse path_request_id with
  | None => Some (db, BAD_REQUEST)
  | Some path_id =>
      match into_signed request with
      | None => Some (db, BAD_REQUEST)
      | Some signed =>
          if decide (request_id (delivery signed) = path_id) then
            let correlation_id := lit "http-federation-" ++ uuid_text (correlation_uuid m) in
            match admit_ingress signed correlation_id m db with
            | None => None
            | Some (db', outcome) =>
                Some (db', match outcome with
                           | Ok Accepted => ACCEPTED
                           | Ok Replay => CONFLICT
                           | Err Rejected | Err (Policy _) => UNAUTHORIZED
                           | Err Resolver | Err (Store _) => SERVICE_UNAVAILABLE
                           end)
            end
          else Some (db, BAD_REQUEST)
      end
  end.

(** ** Replay records *)

Definition replay_audit (request : RecordFederationReplay) (now : OffsetDateTime) (new_id : Uuid) : AuditWrite :=
  {| audit_id := new_id;
     audit_tenant_id := replay_tenant_id request;
     audit_actor_id := None;
     audit_action := FederationRequestEvaluated;
     audit_correlation_id := replay_correlation_id request;
     audit_metadata := [(lit "peer_id", JUuid (replay_peer_id request));
                        (lit "request_id", JUuid (replay_request_id request));
                        (lit "outcome", JText (lit "accepted"))];
     audit_occurred_at := now |}.

(** What a successful record leaves behind: one replay row and one audit event. *)
Definition with_replay (request : RecordFederationReplay) (now : OffsetDateTime) (new_id : Uuid)
    (db : Db) : Db :=
  set_audit_events (audit_events db ++ [audit_row (replay_audit request now new_id)])
    (set_federation_replays (federation_replays db ++ [replay_row request now]) db).

Definition request_recorded (db : Db) (request : RecordFederationReplay) : Prop :=
  recorded db (tenant_as_uuid (replay_tenant_id request)) (replay_peer_id request)
    (replay_request_id request).

(** The conditions under which nothing but a duplicate stops the record. *)
Definition recordable (request : RecordFederationReplay) (now : OffsetDateTime) : Prop :=
  validate_correlation_id (replay_correlation_id request) = Ok tt /\
  datetime_leb (replay_expires_at request) now = false /\
  timestamptz now < timestamptz (replay_expires_at request).

Definition scoped (db : Db) (request : RecordFederationReplay) (new_id : Uuid) : Prop :=
  tenant_exists db (tenant_as_uuid (replay_tenant_id request)) = true /\
  peer_exists db (replay_peer_id request) = true /\
  Forall (fun r => AuditEvents.id r <> new_id) (audit_events db).

Lemma record_replay_run request now new_id db :
  let '(db', r) := record_federation_replay request now new_id db in
  match r with
  | Ok true => recordable request now /\ scoped db request new_id /\ ~ request_recorded db request /\
               db' = with_replay request now new_id db
  | Ok false => recordable request now /\ request_recorded db request /\ db' = db
  | Err _ => db' = db /\ ~ (recordable request now /\
               (request_recorded db request \/ scoped db request new_id))
  end.
Proof.
  unfold record_federation_replay, recordable, request_recorded, scoped, bind, lift.
  destruct (validate_correlation_id _) as [[]|e] eqn:Hc; [|naive_solver].
  pose proof (store_correlation_ok _ Hc) as Hlen.
  destruct (datetime_leb _ _) eqn:Ht; [simpl; naive_solver|].
  unfold transaction, insert_replay, require, bind, get, modify, ret, fail.
  cbn [replay_row FederationReplays.tenant_id FederationReplays.peer_id FederationReplays.request_id
       FederationReplays.accepted_at FederationReplays.expires_at].
  destruct (Z.ltb_spec (timestamptz now) (timestamptz (replay_expires_at request))) as [Hx|Hx];
    [|split; [done|lia]].
  case_decide as Hr; [simpl; naive_solver|].
  destruct (tenant_exists db _ && peer_exists db _) eqn:Hfk; cbn [negb Nat.eqb].
  2:{ split; [done|]. apply andb_false_iff in Hfk. naive_solver congruence. }
  apply andb_true_iff in Hfk as [Hfk1 Hfk2].
  fold (replay_audit request now new_id). rewrite insert_audit_run. unfold auditable.
  cbn [replay_audit audit_id audit_tenant_id audit_actor_id audit_correlation_id].
  change (audit_events (set_federation_replays _ db)) with (audit_events db).
  change (tenant_exists (set_federation_replays _ db)) with (tenant_exists db).
  case_decide as Ha; [naive_solver|]. split; [done|]. naive_solver.
Qed.

(** ** Admission *)

(** What a resolved peer is: the pinned row for the two domains, its trust
    state, and the identity in its first readable current key document, which
    has the pinned fingerprint. *)
Definition pinned (db : Db) (l r : DomainName) (now : OffsetDateTime) (p : ResolvedFederationPeer) : Prop :=
  exists row trust identity,
    fetch_optional (peer_rows db l r) = Some row /\
    parse_federation_trust_state (FederationPeers.trust_state row) = Ok trust /\
    find_map (fun key => parse_pinned_identity
      {| key_id := FederationKeys.key_id key;
         public_key_document := FederationKeys.public_key_document key;
         valid_until := from_timestamptz (FederationKeys.valid_until key) |})
      (key_rows db (FederationPeers.id row) now) = Some identity /\
    abytes (identity_fingerprint identity) = FederationPeers.expected_key_fingerprint row /\
    p = {| tenant_id := TenantId_from_uuid (FederationPeers.tenant_id row);
           peer_id := FederationPeers.id row;
           policy := {| local_domain := l; remote_domain := r; trust_state := trust;
                        active_authority_identity := identity |} |}.

Lemma resolve_pinned l r now db p : resolve l r now db = Ok (Some p) <-> pinned db l r now p.
Proof.
  unfold resolve, pinned, eval, federation_peer_material, bind, get, lift, ret.
  destruct (fetch_optional (peer_rows db l r)) as [row|]; simpl; [|naive_solver].
  destruct (parse_federation_trust_state (FederationPeers.trust_state row)) as [trust|e] eqn:Htr; simpl.
  2:{ split; [done|]. intros (row' & ? & ? & [= <-] & ? & _). congruence. }
  rewrite find_map_fmap. split.
  - destruct (array_try 32 (FederationPeers.expected_key_fingerprint row)) as [fp|] eqn:Hfp; simpl; [|done].
    apply array_try_some in Hfp. destruct (find_map _ _) as [identity|] eqn:Hf; simpl; [|done].
    case_decide as Hd; [|done]. intros [= <-]. exists row, trust, identity. split_and!; [done..|by rewrite Hd|done].
  - intros (row' & trust' & identity & [= <-] & Htr' & -> & Hfp & ->).
    assert (trust' = trust) as -> by congruence. rewrite <- Hfp, array_try_abytes. simpl. by rewrite decide_True.
Qed.

Lemma pinned_scope db l r now p :
  pinned db l r now p ->
  tenant_exists db (tenant_as_uuid (tenant_id p)) = true /\ peer_exists db (peer_id p) = true.
Proof.
  intros (row & trust & identity & Hrow & _ & _ & _ & ->). simpl.
  assert (Hin : row ∈ peer_rows db l r) by (apply head_Some_elem_of; exact Hrow).
  apply list_elem_of_filter in Hin as [[Ht _] Hin].
  split; apply bool_decide_eq_true; [eapply Exists_impl; [exact Ht|]; simpl; tauto|].
  apply Exists_exists. eauto.
Qed.

Definition replay_request (p : ResolvedFederationPeer) (s : SignedFederationDelivery) (cid : str) :
    RecordFederationReplay :=
  {| replay_tenant_id := tenant_id p; replay_peer_id := peer_id p;
     replay_request_id := request_id (delivery s);
     replay_body_digest := sha256 (delivery_bytes (delivery s));
     replay_expires_at := expires_at (delivery s); replay_correlation_id := cid |}.

(** The delivery [s] passes every check but the last one, for duplicates. *)
Definition passes (db : Db) (s : SignedFederationDelivery) (cid : str) (m : Moment)
    (p : ResolvedFederationPeer) : Prop :=
  pinned db (destination_domain (delivery s)) (source_domain (delivery s)) (resolve_now m) p /\
  admissible (policy p) (handler_now m) s /\ recordable (replay_request p s cid) (record_now m).

Context {L : TimeLaws T}.

Lemma policy_checks p now s :
  (exists e, (let* _ := RemotePeerPolicy.admit_delivery p now s in
    SignedFederationDelivery.canonical_body_digest sha256 s) = Some (Err e) /\ ~ admissible p now s) \/
  (let* _ := RemotePeerPolicy.admit_delivery p now s in
    SignedFederationDelivery.canonical_body_digest sha256 s)
  = Some (Ok (sha256 (delivery_bytes (delivery s)))) /\ admissible p now s.
Proof.
  destruct (admit_delivery_total p now s) as [[[]|e] Hr]; rewrite Hr; cbn [xbind].
  - apply admit_delivery_ok in Hr. right. split; [|done].
    destruct Hr as (_ & _ & _ & _ & _ & Hw & _). unfold SignedFederationDelivery.canonical_body_digest.
    by rewrite (proj2 (transcript_ok _ _) (conj Hw eq_refl)).
  - left. exists e. split; [done|]. intros Ha%admit_delivery_ok. congruence.
Qed.

(** What [admit_ingress] returns and leaves behind. *)
Lemma admit_ingress_run s cid m db :
  exists db' r, admit_ingress s cid m db = Some (db', r) /\
  match r with
  | Ok Accepted => exists p, passes db s cid m p /\ ~ request_recorded db (replay_request p s cid) /\
      Forall (fun a => AuditEvents.id a <> drawn_audit_id m) (audit_events db) /\
      db' = with_replay (replay_request p s cid) (record_now m) (drawn_audit_id m) db
  | Ok Replay => db' = db /\ exists p, passes db s cid m p /\ request_recorded db (replay_request p s cid)
  | Err _ => db' = db /\ forall p, passes db s cid m p ->
      ~ request_recorded db (replay_request p s cid) /\
      ~ Forall (fun a => AuditEvents.id a <> drawn_audit_id m) (audit_events db)
  end.
Proof.
  unfold admit_ingress, passes.
  destruct (resolve (destination_domain (delivery s)) (source_domain (delivery s)) (resolve_now m) db)
    as [[p|]|e] eqn:Hp.
  2,3: eexists _, _; split; [done|]; simpl; split; [done|]; intros p [Hq%resolve_pinned _]; congruence.
  assert (Hu : forall p', pinned db (destination_domain (delivery s)) (source_domain (delivery s))
    (resolve_now m) p' -> p' = p) by (intros p' Hp'%resolve_pinned; congruence).
  destruct (policy_checks (policy p) (handler_now m) s) as [(e & -> & Hn)|[-> Ha]].
  { eexists _, _; split; [done|]; simpl. split; [done|]. intros p' (->%Hu & Had & _). done. }
  apply resolve_pinned in Hp. pose proof (pinned_scope _ _ _ _ _ Hp) as [Ht Hpe].
  pose proof (record_replay_run (replay_request p s cid) (record_now m) (drawn_audit_id m) db) as Hr.
  fold (replay_request p s cid).
  destruct (record_federation_replay (replay_request p s cid) (record_now m) (drawn_audit_id m) db)
    as [db' [[]|e]]; eexists _, _; (split; [done|]); simpl.
  - destruct Hr as (Hrec & (_ & _ & Hf) & Hnr & ->). eauto 10.
  - destruct Hr as (Hrec & Hr & ->). eauto 10.
  - destruct Hr as [-> Hr]. split; [done|]. intros p' (->%Hu & _ & Hrec).
    split; intros Hx; apply Hr; (split; [done|]); [by left|]. right. done.
Qed.

(** C19: admission of an inbound delivery.  It always answers; it accepts exactly
    a delivery that resolves to a pinned peer, is admissible under that peer's
    policy, has not expired at the time of the record, draws a fresh audit
    identifier and has a request identifier the peer has not used; it reports a
    replay exactly when only the last condition fails.  Acceptance adds one
    replay record, bound to the digest of the signed transcript, and one audit
    event; every other outcome changes nothing. *)
Theorem ingress_admission s cid m db :
  exists db' r, admit_ingress s cid m db = Some (db', r) /\
  (r = Ok Accepted <-> exists p, passes db s cid m p /\
     ~ request_recorded db (replay_request p s cid) /\
     Forall (fun a => AuditEvents.id a <> drawn_audit_id m) (audit_events db)) /\
  (r = Ok Replay <-> exists p, passes db s cid m p /\ request_recorded db (replay_request p s cid)) /\
  (r = Ok Accepted -> exists p, passes db s cid m p /\
     db' = with_replay (replay_request p s cid) (record_now m) (drawn_audit_id m) db) /\
  (r <> Ok Accepted -> db' = db).
Proof.
  destruct (admit_ingress_run s cid m db) as (db' & r & Hr & Hm). exists db', r. split; [done|].
  assert (Hu : forall p p', passes db s cid m p -> passes db s cid m p' -> p' = p).
  { intros p p' [H1%resolve_pinned _] [H2%resolve_pinned _]. congruence. }
  destruct r as [[]|e]; split_and!.
  - split; [intros _|done]. destruct Hm as (p & ? & ? & ? & _). eauto.
  - split; [done|]. intros (p' & Hp' & Hrec). destruct Hm as (p & Hp & Hn & _).
    by rewrite (Hu p p') in Hrec by done.
  - intros _. destruct Hm as (p & ? & _ & _ & ->). eauto.
  - done.
  - split; [done|]. intros (p' & Hp' & Hn & _). destruct Hm as (_ & p & Hp & Hrec).
    by rewrite (Hu p p') in Hn by done.
  - destruct Hm as (_ & Hm). by split.
  - done.
  - by destruct Hm.
  - split; [done|]. intros (p & Hp & _ & Hf). by destruct Hm as [_ [_ []]%(fun H => H p Hp)].
  - split; [done|]. intros (p & Hp & Hrec). by destruct Hm as [_ [[] _]%(fun H => H p Hp)].
  - done.
  - by destruct Hm.
Qed.

(** ** Sequences of requests *)
Definition Request : Type := str * FederationDeliveryRequest * Moment.

Fixpoint serve (requests : list Request) (db : Db) : option (Db * list StatusCode) :=
  match requests with
  | [] => Some (db, [])
  | (path, request, m) :: rest =>
      '(db1, status) ← deliver_federation true path request m db;
      '(db', statuses) ← serve rest db1;
      Some (db', status :: statuses)
  end.

(** The domains and the request identifier a request carries. *)
Definition delivery_key (r : Request) : option (DomainName * DomainName * Uuid) :=
  s ← into_signed (r.1.2);
  Some (destination_domain (delivery s), source_domain (delivery s), request_id (delivery s)).

(** The peer of the key has recorded its request identifier. *)
Definition used (db : Db) (k : DomainName * DomainName * Uuid) : Prop :=
  exists row, fetch_optional (peer_rows db (k.1.1) (k.1.2)) = Some row /\
    recorded db (FederationPeers.tenant_id row) (FederationPeers.id row) (k.2).

Lemma with_replay_used request now new_id db k :
  used db k -> used (with_replay request now new_id db) k.
Proof.
  intros (row & Hrow & Hrec). exists row. split; [done|].
  unfold recorded. apply Exists_app. by left.
Qed.

Lemma deliver_accepted path request m db db' :
  deliver_federation true path request m db = Some (db', ACCEPTED) ->
  exists s p, into_signed request = Some s /\ uuid_parse path = Some (request_id (delivery s)) /\
    passes db s (lit "http-federation-" ++ uuid_text (correlation_uuid m)) m p /\
    ~ request_recorded db (replay_request p s (lit "http-federation-" ++ uuid_text (correlation_uuid m))) /\
    db' = with_replay (replay_request p s (lit "http-federation-" ++ uuid_text (correlation_uuid m)))
            (record_now m) (drawn_audit_id m) db.
Proof.
  unfold deliver_federation. cbn [negb].
  destruct (uuid_parse path) as [pid|]; [|done]. destruct (into_signed request) as [s|]; [|done].
  case_decide as Hid; [|done].
  destruct (admit_ingress_run s (lit "http-federation-" ++ uuid_text (correlation_uuid m)) m db)
    as (db1 & r & -> & Hm).
  intros [= -> Hc]. destruct r as [[]|[]]; try done.
  destruct Hm as (p & Hp & Hn & _ & ->). exists s, p. by rewrite Hid.
Qed.

Lemma deliver_step path request m db :
  exists db' c, deliver_federation true path request m db = Some (db', c) /\
    (c <> ACCEPTED -> db' = db).
Proof.
  unfold deliver_federation. cbn [negb].
  destruct (uuid_parse path) as [pid|]; [|by eexists _, _].
  destruct (into_signed request) as [s|]; [|by eexists _, _].
  case_decide; [|by eexists _, _].
  destruct (admit_ingress_run s (lit "http-federation-" ++ uuid_text (correlation_uuid m)) m db)
    as (db' & r & -> & Hm).
  destruct r as [[]|[]]; (eexists _, _; split; [done|]); naive_solver.
Qed.

Lemma deliver_used path request m db db' c :
  deliver_federation true path request m db = Some (db', c) ->
  (forall k, used db k -> used db' k) /\
  (c = ACCEPTED -> exists k, delivery_key (path, request, m) = Some k /\ ~ used db k /\ used db' k).
Proof.
  intros Hd. destruct (deliver_step path request m db) as (db1 & c1 & Hd1 & Hsame).
  rewrite Hd in Hd1. injection Hd1 as <- <-.
  destruct (decide (c = ACCEPTED)) as [->|Hc]; [|by rewrite Hsame].
  apply deliver_accepted in Hd as (s & p & Hs & _ & (Hp & _) & Hn & ->).
  destruct Hp as (row & trust & i & Hrow & _ & _ & _ & ->).
  split; [intros k; apply with_replay_used|]. intros _. unfold delivery_key. cbn [fst snd]. rewrite Hs.
  eexists. split; [done|]. split.
  - intros (row' & Hrow' & Hrec). simpl in *. assert (row' = row) as -> by congruence. done.
  - exists row. split; [done|]. unfold recorded. apply Exists_app. right. apply Exists_cons. by left.
Qed.

Lemma serve_used requests db k db' cs j r :
  used db k -> serve requests db = Some (db', cs) ->
  requests !! j = Some r -> delivery_key r = Some k -> cs !! j <> Some ACCEPTED.
Proof.
  revert db cs j. induction requests as [|[[path request] m] rest IH]; intros db cs j Hu; [done|].
  cbn [serve]. destruct (deliver_step path request m db) as (db1 & c & Hd & _).
  destruct (deliver_used _ _ _ _ _ _ Hd) as [Hmono Hacc]. rewrite Hd. simpl.
  destruct (serve rest db1) as [[db2 cs']|] eqn:Hs; [|done]. simpl. intros [= -> <-].
  destruct j as [|j]; simpl.
  - intros [= <-] Hk [= ->]. destruct (Hacc eq_refl) as (k' & Hk' & Hn & _).
    assert (k' = k) as -> by congruence. done.
  - intros Hr Hk. by apply (IH db1 cs' j (Hmono k Hu) Hs).
Qed.

Lemma accepted_once requests db db' cs i j r r' k :
  serve requests db = Some (db', cs) ->
  requests !! i = Some r -> requests !! j = Some r' ->
  delivery_key r = Some k -> delivery_key r' = Some k ->
  cs !! i = Some ACCEPTED -> cs !! j = Some ACCEPTED -> i = j.
Proof.
  revert db cs i j. induction requests as [|[[path request] m] rest IH]; intros db cs i j; [done|].
  cbn [serve]. destruct (deliver_step path request m db) as (db1 & c & Hd & _).
  destruct (deliver_used _ _ _ _ _ _ Hd) as [_ Hacc]. rewrite Hd. simpl.
  destruct (serve rest db1) as [[db2 cs']|] eqn:Hs; [|done]. simpl. intros [= -> <-].
  destruct i as [|i], j as [|j]; simpl; intros Hi Hj Hk Hk' Ci Cj; try done.
  - injection Hi as <-. injection Ci as ->. destruct (Hacc eq_refl) as (k1 & Hk1 & _ & Hu).
    assert (k1 = k) as -> by congruence. by destruct (serve_used rest db1 k db' cs' j r' Hu Hs Hj Hk').
  - injection Hj as <-. injection Cj as ->. destruct (Hacc eq_refl) as (k1 & Hk1 & _ & Hu).
    assert (k1 = k) as -> by congruence. by destruct (serve_used rest db1 k db' cs' i r Hu Hs Hi Hk).
  - f_equal. by eapply IH.
Qed.

(** C22: at most once.  However many requests the endpoint serves, in whatever
    order and with whatever contents, once one is answered 202 Accepted no other
    one that carries the same source and destination domains and the same request
    identifier is. *)
Theorem ingress_at_most_once requests db db' cs i j r r' k :
  serve requests db = Some (db', cs) ->
  requests !! i = Some r -> requests !! j = Some r' ->
  delivery_key r = Some k -> delivery_key r' = Some k ->
  i <> j -> cs !! i = Some ACCEPTED -> cs !! j <> Some ACCEPTED.
Proof.
  intros Hs Hi Hj Hk Hk' Hij Ci Cj. apply Hij. by eapply accepted_once.
Qed.

(** C39: the grace period for slow clocks is not honoured by the replay record.
    A delivery that the policy still admits up to 60 seconds after it expired is
    not recorded once it has: the request fails with the store's error, answered
    503 Service Unavailable, and nothing is written. *)
Theorem expired_grace_unavailable path request m db s p :
  uuid_parse path = Some (request_id (delivery s)) -> into_signed request = Some s ->
  pinned db (destination_domain (delivery s)) (source_domain (delivery s)) (resolve_now m) p ->
  admissible (policy p) (handler_now m) s ->
  datetime_leb (expires_at (delivery s)) (record_now m) = true ->
  deliver_federation true path request m db = Some (db, SERVICE_UNAVAILABLE).
Proof.
  intros Hpath Hs Hp Ha Hx. unfold deliver_federation. rewrite Hpath, Hs. cbn [negb].
  rewrite decide_True by done. unfold admit_ingress. rewrite (proj2 (resolve_pinned _ _ _ _ _) Hp).
  destruct (policy_checks (policy p) (handler_now m) s) as [(e & _ & Hn)|[-> _]]; [done|].
  unfold record_federation_replay, bind, lift. cbn [replay_correlation_id replay_expires_at].
  destruct (validate_correlation_id _) as [[]|e]; [|done]. by rewrite Hx.
Qed.
End ingress.

(** ** Concrete runs *)
Module IngressExamples.
#[local] Existing Instance SampleClock.clock.
#[local] Existing Instance SampleClock.clock_laws.
#[local] Existing Instance Sample.crypto.
#[local] Existing Instance DomainExamples.ascii_only.

(** Byte strings as texts of one character per byte. *)
Definition text (l : bytes) : str := (fun b => Z_of_byte b) <$> l.

#[local] Instance library : FabricLib := {|
  sha256 m := Sample.padded 24 (Sample.checksum 0 m);
  base64url_decode s := Some (byte_of_Z <$> s);
  base64url_encode b := text b;
  uuid_parse s := array_try 16 (byte_of_Z <$> s);
  uuid_text := TotpExamples.hyphenated;
  Document := str * str;
  document_from_value d := Some d;
|}.

(** A tenant for [parley.io] that pins the first sample identity for
    [nextfcp.io]. *)
Definition authority : Db Document :=
  {| tenants := [{| Tenants.id := array_fill 16 x01; Tenants.canonical_domain := lit "parley.io";
                    Tenants.policy_version := 1; Tenants.created_at := 0; Tenants.updated_at := 0 |}];
     accounts := []; account_roles := []; password_credentials := []; mfa_totp_factors := [];
     totp_data_key_envelopes := []; webauthn_credentials := []; webauthn_ceremonies := []; step_up_grants := [];
     recovery_code_sets := []; recovery_code_verifiers := []; login_transactions := []; session_families := []; refresh_credentials := [];
     access_sessions := [];
     federation_peers := [{| FederationPeers.id := array_fill 16 x02;
       FederationPeers.tenant_id := array_fill 16 x01;
       FederationPeers.remote_domain := lit "nextfcp.io";
       FederationPeers.trust_state := lit "active";
       FederationPeers.expected_key_fingerprint :=
         abytes (identity_fingerprint (Sample.identity x01)) |}];
     federation_keys := [{| FederationKeys.peer_id := array_fill 16 x02;
       FederationKeys.key_id := lit "key-1";
       FederationKeys.public_key_document :=
         (text (abytes (endpoint_key_as_bytes (classical (Sample.identity x01)))),
          text (abytes (post_quantum (Sample.identity x01))));
       FederationKeys.valid_until := 5000; FederationKeys.retired_at := None;
       FederationKeys.first_seen_at := 1 |}];
     federation_replays := []; audit_events := [] |}.

Definition request_of (s : SignedFederationDelivery) : FederationDeliveryRequest :=
  {| req_source_domain := lit "nextfcp.io"; req_destination_domain := lit "parley.io";
     req_sender := lit "alice@nextfcp.io"; req_recipient := lit "benjamin@parley.io";
     req_request_id := text (abytes (request_id (delivery s)));
     req_issued_at := [1000]; req_expires_at := [1120]; req_payload := text (payload (delivery s));
     req_classical_public_key := text (abytes (endpoint_key_as_bytes (classical (authority_identity s))));
     req_post_quantum_public_key := text (abytes (post_quantum (authority_identity s)));
     req_classical_signature := text (abytes (classical_signature s));
     req_post_quantum_signature := text (abytes (post_quantum_signature s)) |}.
Definition request : FederationDeliveryRequest := request_of DeliveryExamples.signed_greeting.

Definition changed : FederationDelivery :=
  let d := DeliveryExamples.greeting in
  {| source_domain := source_domain d; destination_domain := destination_domain d; sender := sender d;
     recipient := recipient d; request_id := request_id d; issued_at := issued_at d; expires_at := expires_at d;
     payload := [x04] |}.

Definition path : str := text (abytes (request_id (delivery DeliveryExamples.signed_greeting))).

Definition moment (z audit : Z) (record : Z) : Moment :=
  {| handler_now := SampleClock.second z; resolve_now := SampleClock.second z;
     record_now := SampleClock.second record; correlation_uuid := array_fill 16 x09;
     drawn_audit_id := array_fill 16 (byte_of_Z audit) |}.

Definition accepts (o : option (Db Document * result FederationIngressError FederationIngressOutcome)) : bool :=
  match o with
  | Some (_, Ok Accepted) => true
  | _ => false
  end.

Lemma greeting_accepted :
  accepts (admit_ingress DeliveryExamples.signed_greeting (lit "c") (moment 1060 1 1060) authority) = true.
Proof. vm_compute. reflexivity. Qed.

Lemma accepts_true o : accepts o = true -> exists db, o = Some (db, Ok Accepted).
Proof. destruct o as [[db [[]|]]|]; [eauto|done..]. Qed.

Lemma ingress_admission_witness :
  exists p, passes authority DeliveryExamples.signed_greeting (lit "c") (moment 1060 1 1060) p.
Proof.
  destruct (ingress_admission DeliveryExamples.signed_greeting (lit "c") (moment 1060 1 1060) authority)
    as (db' & r & Hr & Hacc & _).
  destruct (accepts_true _ greeting_accepted) as (db1 & H1).
  assert (r = Ok Accepted) as Ha by congruence.
  destruct (proj1 Hacc Ha) as (p & Hp & _). exists p. exact Hp.
Defined.

(** Another payload, signed by the same authority under the same identifier. *)
Definition second_request : FederationDeliveryRequest :=
  request_of {| delivery := changed; authority_identity := Sample.identity x01;
                classical_signature := sign_classical (Sample.signer x01) (delivery_bytes changed);
                post_quantum_signature := sign_post_quantum (Sample.signer x01) (delivery_bytes changed) |}.

Definition both : list Request := [(path, request, moment 1060 1 1060); (path, second_request, moment 1061 2 1061)].

(** Alone each is accepted; together, the second is a conflict. *)
Lemma each_accepted :
  (fun r => snd r) <$> serve [(path, second_request, moment 1061 2 1061)] authority = Some [ACCEPTED] /\
  (fun r => snd r) <$> serve both authority = Some [ACCEPTED; CONFLICT].
Proof. split; vm_compute; reflexivity. Qed.

Lemma both_keyed : exists k, delivery_key (path, request, moment 1060 1 1060) = Some k /\
  delivery_key (path, second_request, moment 1061 2 1061) = Some k.
Proof.
  destruct (delivery_key (path, request, moment 1060 1 1060)) as [k|] eqn:E; [|vm_compute in E; discriminate E].
  exists k. split; [done|]. rewrite <- E. vm_compute. reflexivity.
Qed.

Lemma ingress_at_most_once_witness : exists db' cs,
  serve both authority = Some (db', cs) /\ cs !! 0%nat = Some ACCEPTED /\ cs !! 1%nat <> Some ACCEPTED.
Proof.
  destruct each_accepted as [_ Ht]. destruct both_keyed as (k & Hk & Hk').
  destruct (serve both authority) as [[db' cs]|] eqn:E; [|discriminate Ht].
  assert (H0 : cs !! 0%nat = Some ACCEPTED) by (injection Ht as ->; reflexivity).
  exists db', cs. split; [reflexivity|]. split; [exact H0|].
  apply (ingress_at_most_once both authority db' cs 0 1 (path, request, moment 1060 1 1060)
    (path, second_request, moment 1061 2 1061) k E eq_refl eq_refl Hk Hk'); [discriminate|exact H0].
Defined.

Definition accepted (o : option (Db Document * StatusCode)) : bool :=
  match o with
  | Some (_, ACCEPTED) => true
  | _ => false
  end.

(** Ten seconds after its expiry the greeting is still admissible. *)
Lemma expired_grace_unavailable_witness :
  deliver_federation true path request (moment 1130 1 1130) authority = Some (authority, SERVICE_UNAVAILABLE).
Proof.
  assert (Ha : accepted (deliver_federation true path request (moment 1130 1 1060) authority) = true)
    by (vm_compute; reflexivity).
  destruct (deliver_federation true path request (moment 1130 1 1060) authority) as [[db' c]|] eqn:E;
    [|discriminate Ha].
  destruct c; try discriminate Ha.
  destruct (deliver_accepted _ _ _ _ _ E) as (s & p & Hs & Hpath & (Hp & Hadm & _) & _).
  apply (expired_grace_unavailable path request (moment 1130 1 1130) authority s p Hpath Hs Hp Hadm).
  assert (Hx : (fun s => uval (expires_at (delivery s))) <$> into_signed request = Some 1120)
    by (vm_compute; reflexivity).
  rewrite Hs in Hx. injection Hx as Hx. change (uval (expires_at (delivery s)) <=? 1130 = true).
  rewrite Hx. reflexivity.
Defined.

End IngressExamples.
