(* ===== verification/StoreAccounts.v ===== *)
(** * Tenants, accounts, roles and credentials

    [crates/fcp-fabric-store/src/accounts.rs].  The identifiers an operation
    draws and the clock it reads are arguments. *)

From Stdlib Require Import ZArith Lia String.
From stdpp Require Import base list option numbers decidable sorting.
From S2P Require Import Prelude Bytes Str Domain Totp Clock Auth Db.

Record LoginAccount : Type := {
  login_account_id : AccountId;
  login_tenant_id : TenantId;
  login_state : AccountState;
  login_verifier : option PasswordVerifierString;
}.

Section accounts.
Context {Document : Type} `{T : TimeLib} `{A : Argon2} `{U : Unicode}.
Abbreviation Db := (Db Document).
Abbreviation Tx := (M Db StoreError).

(** ** Statements *)
Definition insert_tenant (r : Tenants.row) : Tx unit :=
  do db <- get;
  do_ require (bool_decide (Forall (fun r' => Tenants.id r' <> Tenants.id r) (tenants db))
    && bool_decide (Forall (fun r' => Tenants.canonical_domain r' <> Tenants.canonical_domain r) (tenants db))
    && (1 <=? Tenants.policy_version r)
    && bool_decide (to_ascii_lowercase (Tenants.canonical_domain r) = Tenants.canonical_domain r));
  modify (set_tenants (tenants db ++ [r])).

Definition insert_account (r : Accounts.row) : Tx unit :=
  do db <- get;
  do_ require (bool_decide (Forall (fun r' => Accounts.id r' <> Accounts.id r) (accounts db))
    && bool_decide (Forall (fun r' => ~ (Accounts.tenant_id r' = Accounts.tenant_id r /\
         Accounts.normalized_localpart r' = Accounts.normalized_localpart r)) (accounts db))
    && account_state_check (Accounts.state r)
    && tenant_exists db (Accounts.tenant_id r));
  modify (set_accounts (accounts db ++ [r])).

(** The row's primary key. *)
Definition same_role (r r' : AccountRoles.row) : Prop :=
  AccountRoles.tenant_id r' = AccountRoles.tenant_id r /\
  AccountRoles.account_id r' = AccountRoles.account_id r /\ AccountRoles.role r' = AccountRoles.role r.
#[export] Instance same_role_dec r r' : Decision (same_role r r').
Proof. unfold same_role. apply _. Defined.

(** The foreign keys and the check of [account_roles]. *)
Definition role_refs (db : Db) (r : AccountRoles.row) : bool :=
  role_check (AccountRoles.role r)
  && tenant_exists db (AccountRoles.tenant_id r)
  && tenant_account_exists db (AccountRoles.tenant_id r) (AccountRoles.account_id r)
  && match AccountRoles.granted_by_account_id r with Some a => account_exists db a | None => true end.

Definition insert_role (r : AccountRoles.row) : Tx unit :=
  do db <- get;
  do_ require (bool_decide (Forall (fun r' => ~ same_role r r') (account_roles db)) && role_refs db r);
  modify (set_account_roles (account_roles db ++ [r])).

(** [INSERT ... WHERE EXISTS ... ON CONFLICT DO NOTHING]. *)
Definition insert_role_if_absent (r : AccountRoles.row) : Tx nat :=
  do db <- get;
  if negb (tenant_account_exists db (AccountRoles.tenant_id r) (AccountRoles.account_id r))
     || bool_decide (Exists (same_role r) (account_roles db))
  then ret 0%nat
  else
    do_ require (role_refs db r);
    do_ modify (set_account_roles (account_roles db ++ [r]));
    ret 1%nat.

Definition role_is (tenant account : Uuid) (role : str) (r : AccountRoles.row) : Prop :=
  AccountRoles.tenant_id r = tenant /\ AccountRoles.account_id r = account /\ AccountRoles.role r = role.
#[export] Instance role_is_dec t a role r : Decision (role_is t a role r).
Proof. unfold role_is. apply _. Defined.

Definition delete_role (tenant account : Uuid) (role : str) : Tx nat :=
  do db <- get;
  do_ modify (set_account_roles (filter (fun r => ~ role_is tenant account role r) (account_roles db)));
  ret (rows_affected (role_is tenant account role) (account_roles db)).

(** ** Mutations *)
Definition bootstrap_tenant (command : BootstrapTenant.t) (new_tenant new_owner new_audit : Uuid)
    (now : OffsetDateTime) : Tx BootstrapResult :=
  do_ lift (map_err Administration (BootstrapTenant.validate command));
  let version_one := PolicyVersion.new (@UInt 64 1 eq_refl) in
  transaction (
    do version <- lift (if uval (PolicyVersion.version version_one) <? 2 ^ 63
                        then Ok (uval (PolicyVersion.version version_one))
                        else Err PolicyVersionOverflow);
    do_ insert_tenant {| Tenants.id := new_tenant;
                         Tenants.canonical_domain := domain_as_str (BootstrapTenant.domain command);
                         Tenants.policy_version := version;
                         Tenants.created_at := timestamptz now; Tenants.updated_at := timestamptz now |};
    do_ insert_account {| Accounts.id := new_owner; Accounts.tenant_id := new_tenant;
                          Accounts.normalized_localpart :=
                            localpart_as_str (BootstrapTenant.owner_localpart command);
                          Accounts.state := lit "mfa_enrollment_required";
                          Accounts.created_at := timestamptz now;
                          Accounts.updated_at := timestamptz now |};
    do_ insert_role {| AccountRoles.tenant_id := new_tenant; AccountRoles.account_id := new_owner;
                       AccountRoles.role := lit "owner"; AccountRoles.granted_by_account_id := None;
                       AccountRoles.granted_at := timestamptz now |};
    do_ insert_audit {| audit_id := new_audit; audit_tenant_id := TenantId_from_uuid new_tenant;
                        audit_actor_id := Some (AccountId_from_uuid new_owner);
                        audit_action := TenantBootstrapped;
                        audit_correlation_id := BootstrapTenant.correlation_id command;
                        audit_metadata :=
                          [(lit "domain", JText (domain_as_str (BootstrapTenant.domain command)))];
                        audit_occurred_at := now |};
    ret {| result_tenant_id := TenantId_from_uuid new_tenant;
           owner_id := AccountId_from_uuid new_owner;
           policy_version := version_one;
           owner_state := MfaEnrollmentRequired |}).

Definition invite_account (command : InviteAccount.t) (new_account new_audit : Uuid)
    (now : OffsetDateTime) : Tx AccountId :=
  do_ lift (map_err Administration (InviteAccount.validate command));
  let tenant := tenant_as_uuid (InviteAccount.tenant_id command) in
  let actor := InviteAccount.actor command in
  transaction (
    do_ insert_account {| Accounts.id := new_account; Accounts.tenant_id := tenant;
                          Accounts.normalized_localpart := localpart_as_str (InviteAccount.localpart command);
                          Accounts.state := lit "mfa_enrollment_required";
                          Accounts.created_at := timestamptz now;
                          Accounts.updated_at := timestamptz now |};
    do_ insert_role {| AccountRoles.tenant_id := tenant; AccountRoles.account_id := new_account;
                       AccountRoles.role := role_text (InviteAccount.initial_role command);
                       AccountRoles.granted_by_account_id :=
                         Some (account_as_uuid (AdministrationActor.account_id actor));
                       AccountRoles.granted_at := timestamptz now |};
    do_ insert_audit {| audit_id := new_audit; audit_tenant_id := InviteAccount.tenant_id command;
                        audit_actor_id := Some (AdministrationActor.account_id actor);
                        audit_action := AccountCreated;
                        audit_correlation_id := InviteAccount.correlation_id command;
                        audit_metadata :=
                          [(lit "account_id", JUuid new_account);
                           (lit "initial_role", JText (role_text (InviteAccount.initial_role command)))];
                        audit_occurred_at := now |};
    ret (AccountId_from_uuid new_account)).

Definition change_role (command : ChangeRole.t) (new_audit : Uuid) (now : OffsetDateTime) : Tx unit :=
  do_ lift (map_err Administration (ChangeRole.validate command));
  let tenant := tenant_as_uuid (ChangeRole.tenant_id command) in
  let target := account_as_uuid (ChangeRole.target_account_id command) in
  let actor := ChangeRole.actor command in
  transaction (
    do affected <-
      (if ChangeRole.grant command
       then insert_role_if_absent
              {| AccountRoles.tenant_id := tenant; AccountRoles.account_id := target;
                 AccountRoles.role := role_text (ChangeRole.role command);
                 AccountRoles.granted_by_account_id :=
                   Some (account_as_uuid (AdministrationActor.account_id actor));
                 AccountRoles.granted_at := timestamptz now |}
       else delete_role tenant target (role_text (ChangeRole.role command)));
    if negb (affected =? 1)%nat then fail TargetNotFoundOrUnchanged else
    insert_audit {| audit_id := new_audit; audit_tenant_id := ChangeRole.tenant_id command;
                    audit_actor_id := Some (AdministrationActor.account_id actor);
                    audit_action := RoleChanged;
                    audit_correlation_id := ChangeRole.correlation_id command;
                    audit_metadata := [(lit "target_account_id", JUuid target);
                                       (lit "role", JText (role_text (ChangeRole.role command)));
                                       (lit "grant", JBool (ChangeRole.grant command))];
                    audit_occurred_at := now |}).

(** The row an upsert of a password writes. *)
Definition password_row (account tenant : Uuid) (verifier : str) (pepper : option str) (now : Z) :
    PasswordCredentials.row :=
  {| PasswordCredentials.account_id := account; PasswordCredentials.tenant_id := tenant;
     PasswordCredentials.phc_verifier := verifier;
     PasswordCredentials.pepper_key_version := pepper; PasswordCredentials.changed_at := now |}.

(** [INSERT ... WHERE EXISTS ... ON CONFLICT (account_id) DO UPDATE]: a stored
    row keeps its tenant. *)
Definition upsert_password (account tenant : Uuid) (verifier : str) (pepper : option str) (now : Z) :
    Tx nat :=
  do db <- get;
  if negb (tenant_account_exists db tenant account) then ret 0%nat else
  if bool_decide (Exists (fun r => PasswordCredentials.account_id r = account) (password_credentials db))
  then
    do_ modify (set_password_credentials
      (update_where (fun r => PasswordCredentials.account_id r = account)
         (fun r => password_row account (PasswordCredentials.tenant_id r) verifier pepper now)
         (password_credentials db)));
    ret 1%nat
  else
    do_ require (tenant_exists db tenant);
    do_ modify (set_password_credentials
      (password_credentials db ++ [password_row account tenant verifier pepper now]));
    ret 1%nat.

Definition store_password_verifier (tenant_id : TenantId) (account_id : AccountId)
    (verifier : PasswordVerifierString) (pepper_key_version : option str) (correlation_id : str)
    (new_audit : Uuid) (now : OffsetDateTime) : Tx unit :=
  do_ lift (validate_correlation_id correlation_id);
  transaction (
    do affected <- upsert_password (account_as_uuid account_id) (tenant_as_uuid tenant_id)
                     (verifier_as_str verifier) pepper_key_version (timestamptz now);
    if negb (affected =? 1)%nat then fail TargetNotFoundOrUnchanged else
    insert_audit {| audit_id := new_audit; audit_tenant_id := tenant_id;
                    audit_actor_id := Some account_id; audit_action := PasswordChanged;
                    audit_correlation_id := correlation_id;
                    audit_metadata := [(lit "pepper_key_version",
                      match pepper_key_version with Some v => JText v | None => JNull end)];
                    audit_occurred_at := now |}).

(** ** Queries *)

(** The tenant joined with its account and, when there is one, its password. *)
Definition login_rows (db : Db) (address : UserAddress) :
    list (Accounts.row * Tenants.row * option PasswordCredentials.row) :=
  tenant ← filter (fun t => Tenants.canonical_domain t = domain_as_str (domain address)) (tenants db);
  account ← filter (fun a => Accounts.tenant_id a = Tenants.id tenant /\
    Accounts.normalized_localpart a = localpart_as_str (localpart address)) (accounts db);
  match filter (fun p => PasswordCredentials.account_id p = Accounts.id account)
          (password_credentials db) with
  | [] => [(account, tenant, None)]
  | passwords => (fun p => (account, tenant, Some p)) <$> passwords
  end.

Definition login_account (address : UserAddress) : Tx (option LoginAccount) :=
  do db <- get;
  match fetch_optional (login_rows db address) with
  | None => ret None
  | Some (account, tenant, password) =>
      do state <- lift (parse_account_state (Accounts.state account));
      do verifier <- lift (match password with
        | None => Ok None
        | Some p => let? v := map_err Credential (from_persisted (PasswordCredentials.phc_verifier p)) in
                    Ok (Some v)
        end);
      ret (Some {| login_account_id := AccountId_from_uuid (Accounts.id account);
                   login_tenant_id := TenantId_from_uuid (Tenants.id tenant);
                   login_state := state; login_verifier := verifier |})
  end.

Definition user_address_for_account (tenant_id : TenantId) (account_id : AccountId) :
    Tx (option UserAddress) :=
  do db <- get;
  match fetch_optional (
    account ← filter (fun a => Accounts.tenant_id a = tenant_as_uuid tenant_id /\
                Accounts.id a = account_as_uuid account_id) (accounts db);
    tenant ← filter (fun t => Tenants.id t = Accounts.tenant_id account) (tenants db);
    [(Accounts.normalized_localpart account, Tenants.canonical_domain tenant)]) with
  | None => ret None
  | Some (localpart, domain) =>
      do address <- lift (map_err (fun _ => InvalidStoredAddress)
                            (UserAddress.parse (localpart ++ lit "@" ++ domain)));
      ret (Some address)
  end.

(** [ORDER BY role], on texts of lower-case letters. *)
Fixpoint text_leb (a b : str) : bool :=
  match a, b with
  | [], _ => true
  | _ :: _, [] => false
  | x :: a', y :: b' => (x <? y) || ((x =? y) && text_leb a' b')
  end.
#[export] Instance text_le_dec : RelDecision (fun a b => text_leb a b = true).
Proof. intros a b. apply _. Defined.

Fixpoint parse_roles (roles : list str) : result StoreError (list Role) :=
  match roles with
  | [] => Ok []
  | r :: rest => let? role := parse_role r in let? others := parse_roles rest in Ok (role :: others)
  end.

Definition role_texts (db : Db) (tenant account : Uuid) : list str :=
  AccountRoles.role <$> filter (fun r => AccountRoles.tenant_id r = tenant /\
    AccountRoles.account_id r = account) (account_roles db).

Definition roles_for_account (tenant_id : TenantId) (account_id : AccountId) : Tx (list Role) :=
  do db <- get;
  lift (parse_roles (merge_sort (fun a b => text_leb a b = true)
    (role_texts db (tenant_as_uuid tenant_id) (account_as_uuid account_id)))).

Definition session_authorization_context (tenant_id : TenantId) (account_id : AccountId) :
    Tx (option AuthorizationContext.t) :=
  do db <- get;
  match fetch_optional (filter (fun a => Accounts.tenant_id a = tenant_as_uuid tenant_id /\
          Accounts.id a = account_as_uuid account_id) (accounts db)) with
  | None => ret None
  | Some account =>
      do state <- lift (parse_account_state (Accounts.state account));
      if negb (permits_session state) then ret None else
      do roles <- roles_for_account tenant_id account_id;
      ret (Some (AuthorizationContext.new tenant_id account_id state roles false))
  end.

End accounts.
