(* ===== verification/StoreSessions.v ===== *)
(** * Session families, refresh credentials and access sessions

    [crates/fcp-fabric-store/src/sessions.rs] and the rotation and revocation
    helpers of [helpers.rs].  The clock readings and the identifiers an operation
    draws are arguments. *)

From Stdlib Require Import ZArith Lia String.
From stdpp Require Import base list option numbers decidable sorting.
From S2P Require Import Prelude Bytes Str Domain Totp Clock Auth Db StoreAccounts.

Record CreateRefreshSession `{TimeLib} : Type := {
  create_tenant_id : TenantId;
  create_account_id : AccountId;
  refresh_digest : OpaqueTokenDigest;
  access_digest : OpaqueTokenDigest;
  refresh_expires_at : OffsetDateTime;
  access_expires_at : OffsetDateTime;
  create_correlation_id : str;
}.

Record RefreshSessionRecord `{TimeLib} : Type := {
  session_family_id : Uuid;
  session_credential_id : Uuid;
  session_expires_at : OffsetDateTime;
  session_access_id : Uuid;
  session_access_expires_at : OffsetDateTime;
}.

Record RefreshRotationRecord `{TimeLib} : Type := {
  rotation_tenant_id : TenantId;
  rotation_account_id : AccountId;
  rotation_family_id : Uuid;
  rotation_credential_id : Uuid;
  rotation_expires_at : OffsetDateTime;
  rotation_access_session_id : Uuid;
  rotation_access_expires_at : OffsetDateTime;
}.

Inductive RefreshRotation `{TimeLib} : Type :=
| Rotated (record : RefreshRotationRecord)
| ReuseDetected
| Denied.

Record AccessSessionAuthorization : Type := {
  authorization_context : AuthorizationContext.t;
  authorization_family_id : Uuid;
}.

(** The identifiers drawn by one operation. *)
Record SessionIds : Type := {
  new_family : Uuid;
  new_credential : Uuid;
  new_access : Uuid;
  new_session_audit : Uuid;
}.

Section sessions.
Context {Document : Type} `{T : TimeLib}.
Abbreviation Db := (Db Document).
Abbreviation Tx := (M Db StoreError).

(** ** Statements *)
Definition active_account (db : Db) (tenant account : Uuid) : bool :=
  bool_decide (Exists (fun a => Accounts.id a = account /\ Accounts.tenant_id a = tenant /\
    Accounts.state a = lit "active") (accounts db)).

(** The constraints of the three tables on a new row. *)
Definition family_ok (db : Db) (r : SessionFamilies.row) : bool :=
  bool_decide (Forall (fun r' => SessionFamilies.id r' <> SessionFamilies.id r) (session_families db))
  && tenant_exists db (SessionFamilies.tenant_id r)
  && tenant_account_exists db (SessionFamilies.tenant_id r) (SessionFamilies.account_id r).

Definition refresh_ok (db : Db) (r : RefreshCredentials.row) : bool :=
  bool_decide (Forall (fun r' => RefreshCredentials.id r' <> RefreshCredentials.id r)
    (refresh_credentials db))
  && bool_decide (Forall (fun r' => RefreshCredentials.token_digest r' <> RefreshCredentials.token_digest r)
       (refresh_credentials db))
  && tenant_exists db (RefreshCredentials.tenant_id r)
  && tenant_account_exists db (RefreshCredentials.tenant_id r) (RefreshCredentials.account_id r)
  && family_exists db (RefreshCredentials.family_id r)
  && (RefreshCredentials.issued_at r <? RefreshCredentials.expires_at r).

Definition access_ok (db : Db) (r : AccessSessions.row) : bool :=
  bool_decide (Forall (fun r' => AccessSessions.id r' <> AccessSessions.id r) (access_sessions db))
  && bool_decide (Forall (fun r' => AccessSessions.token_digest r' <> AccessSessions.token_digest r)
       (access_sessions db))
  && tenant_exists db (AccessSessions.tenant_id r)
  && tenant_account_exists db (AccessSessions.tenant_id r) (AccessSessions.account_id r)
  && family_exists db (AccessSessions.family_id r).

Definition insert_family_if_active (r : SessionFamilies.row) : Tx nat :=
  do db <- get;
  if negb (active_account db (SessionFamilies.tenant_id r) (SessionFamilies.account_id r))
  then ret 0%nat
  else
    do_ require (family_ok db r);
    do_ modify (set_session_families (session_families db ++ [r]));
    ret 1%nat.

Definition insert_refresh (r : RefreshCredentials.row) : Tx unit :=
  do db <- get;
  do_ require (refresh_ok db r);
  modify (set_refresh_credentials (refresh_credentials db ++ [r])).

Definition insert_access (r : AccessSessions.row) : Tx unit :=
  do db <- get;
  do_ require (access_ok db r);
  modify (set_access_sessions (access_sessions db ++ [r])).

Definition unconsumed (credential : Uuid) (r : RefreshCredentials.row) : Prop :=
  RefreshCredentials.id r = credential /\ RefreshCredentials.consumed_at r = None.
#[export] Instance unconsumed_dec c r : Decision (unconsumed c r).
Proof. unfold unconsumed. apply _. Defined.

(** [replaced_by] is a unique column. *)
Definition consume_refresh (credential successor : Uuid) (now : Z) : Tx nat :=
  do db <- get;
  let n := rows_affected (unconsumed credential) (refresh_credentials db) in
  do_ require ((n =? 0)%nat || bool_decide (Forall (fun r =>
    RefreshCredentials.replaced_by r <> Some successor) (refresh_credentials db)));
  do_ modify (set_refresh_credentials (update_where (unconsumed credential)
    (RefreshCredentials.consume now successor) (refresh_credentials db)));
  ret n.

Definition live_access (family : Uuid) (r : AccessSessions.row) : Prop :=
  AccessSessions.family_id r = family /\ AccessSessions.revoked_at r = None.
#[export] Instance live_access_dec f r : Decision (live_access f r).
Proof. unfold live_access. apply _. Defined.

Definition revoke_access (family : Uuid) (now : Z) : Tx unit :=
  do db <- get;
  modify (set_access_sessions (update_where (live_access family)
    (AccessSessions.revoke now) (access_sessions db))).

Definition live_family (family tenant account : Uuid) (r : SessionFamilies.row) : Prop :=
  SessionFamilies.id r = family /\ SessionFamilies.tenant_id r = tenant /\
  SessionFamilies.account_id r = account /\ SessionFamilies.revoked_at r = None.
#[export] Instance live_family_dec f t a r : Decision (live_family f t a r).
Proof. unfold live_family. apply _. Defined.

(** ** Helpers ([helpers.rs]) *)
Definition revoke_session_family (tenant_id : TenantId) (account_id : AccountId) (family_id : Uuid)
    (reason correlation_id : str) (now : OffsetDateTime) (new_audit : Uuid) : Tx bool :=
  let tenant := tenant_as_uuid tenant_id in
  let account := account_as_uuid account_id in
  do db <- get;
  let revoked := rows_affected (live_family family_id tenant account) (session_families db) in
  do_ modify (set_session_families (update_where (live_family family_id tenant account)
    (SessionFamilies.revoke (timestamptz now) reason) (session_families db)));
  if (revoked =? 1)%nat then
    do_ revoke_access family_id (timestamptz now);
    do_ insert_audit {| audit_id := new_audit; audit_tenant_id := tenant_id;
                        audit_actor_id := Some account_id; audit_action := SessionRevoked;
                        audit_correlation_id := correlation_id;
                        audit_metadata := [(lit "family_id", JUuid family_id);
                                           (lit "reason", JText reason)];
                        audit_occurred_at := now |};
    ret true
  else ret false.

Definition refresh_row (id : Uuid) (tenant_id : TenantId) (account_id : AccountId) (family_id : Uuid)
    (d : OpaqueTokenDigest) (now expires : OffsetDateTime) : RefreshCredentials.row :=
  {| RefreshCredentials.id := id; RefreshCredentials.tenant_id := tenant_as_uuid tenant_id;
     RefreshCredentials.account_id := account_as_uuid account_id;
     RefreshCredentials.family_id := family_id;
     RefreshCredentials.token_digest := digest_as_bytes d;
     RefreshCredentials.issued_at := timestamptz now;
     RefreshCredentials.expires_at := timestamptz expires;
     RefreshCredentials.consumed_at := None; RefreshCredentials.replaced_by := None |}.

Definition access_row (id : Uuid) (tenant_id : TenantId) (account_id : AccountId) (family_id : Uuid)
    (d : OpaqueTokenDigest) (now expires : OffsetDateTime) : AccessSessions.row :=
  {| AccessSessions.id := id; AccessSessions.tenant_id := tenant_as_uuid tenant_id;
     AccessSessions.account_id := account_as_uuid account_id; AccessSessions.family_id := family_id;
     AccessSessions.token_digest := digest_as_bytes d; AccessSessions.issued_at := timestamptz now;
     AccessSessions.expires_at := timestamptz expires; AccessSessions.revoked_at := None |}.

Record RefreshRotationWrite : Type := {
  write_credential_id : Uuid;
  write_tenant_id : TenantId;
  write_account_id : AccountId;
  write_family_id : Uuid;
  successor_digest : OpaqueTokenDigest;
  successor_access_digest : OpaqueTokenDigest;
  successor_expires_at : OffsetDateTime;
  successor_access_expires_at : OffsetDateTime;
  write_correlation_id : str;
  write_now : OffsetDateTime;
}.

Definition rotate_locked_refresh_credential (w : RefreshRotationWrite) (ids : SessionIds) :
    Tx RefreshRotation :=
  let now := write_now w in
  do consumed <- consume_refresh (write_credential_id w) (new_credential ids) (timestamptz now);
  if negb (consumed =? 1)%nat then ret Denied else
  do_ insert_refresh (refresh_row (new_credential ids) (write_tenant_id w) (write_account_id w)
        (write_family_id w) (successor_digest w) now (successor_expires_at w));
  do_ revoke_access (write_family_id w) (timestamptz now);
  do_ insert_access (access_row (new_access ids) (write_tenant_id w) (write_account_id w)
        (write_family_id w) (successor_access_digest w) now (successor_access_expires_at w));
  do_ insert_audit {| audit_id := new_session_audit ids; audit_tenant_id := write_tenant_id w;
                      audit_actor_id := Some (write_account_id w); audit_action := SessionIssued;
                      audit_correlation_id := write_correlation_id w;
                      audit_metadata := [(lit "operation", JText (lit "refresh_rotated"));
                                         (lit "family_id", JUuid (write_family_id w));
                                         (lit "credential_id", JUuid (new_credential ids));
                                         (lit "access_session_id", JUuid (new_access ids))];
                      audit_occurred_at := now |};
  ret (Rotated {| rotation_tenant_id := write_tenant_id w; rotation_account_id := write_account_id w;
                  rotation_family_id := write_family_id w;
                  rotation_credential_id := new_credential ids;
                  rotation_expires_at := successor_expires_at w;
                  rotation_access_session_id := new_access ids;
                  rotation_access_expires_at := successor_access_expires_at w |}).

(** ** Operations ([sessions.rs]) *)

(** The access session joined with its family and its account. *)
Definition access_rows (db : Db) (d : OpaqueTokenDigest) (now : OffsetDateTime) :
    list (AccessSessions.row * SessionFamilies.row * Accounts.row) :=
  access ← filter (fun r => AccessSessions.token_digest r = digest_as_bytes d /\
    AccessSessions.revoked_at r = None /\ timestamptz now < AccessSessions.expires_at r) (access_sessions db);
  family ← filter (fun f => SessionFamilies.id f = AccessSessions.family_id access /\
    SessionFamilies.revoked_at f = None) (session_families db);
  account ← filter (fun a => Accounts.id a = AccessSessions.account_id access /\
    Accounts.tenant_id a = AccessSessions.tenant_id access) (accounts db);
  [(access, family, account)].

Definition access_session_authorization_context (d : OpaqueTokenDigest) (now : OffsetDateTime) :
    Tx (option AccessSessionAuthorization) :=
  do db <- get;
  match fetch_optional (access_rows db d now) with
  | None => ret None
  | Some (access, family, account) =>
      let tenant_id := TenantId_from_uuid (AccessSessions.tenant_id access) in
      let account_id := AccountId_from_uuid (AccessSessions.account_id access) in
      do account_state <- lift (parse_account_state (Accounts.state account));
      if negb (permits_session account_state) then ret None else
      do roles <- roles_for_account tenant_id account_id;
      ret (Some {| authorization_context :=
                     AuthorizationContext.new tenant_id account_id account_state roles false;
                   authorization_family_id := AccessSessions.family_id access |})
  end.

Definition create_refresh_session (request : CreateRefreshSession) (now : OffsetDateTime)
    (ids : SessionIds) : Tx RefreshSessionRecord :=
  do_ lift (validate_correlation_id (create_correlation_id request));
  if datetime_leb (refresh_expires_at request) now || datetime_leb (access_expires_at request) now
  then fail InvalidSessionExpiry else
  let tenant_id := create_tenant_id request in
  let account_id := create_account_id request in
  transaction (
    do family <- insert_family_if_active
      {| SessionFamilies.id := new_family ids; SessionFamilies.tenant_id := tenant_as_uuid tenant_id;
         SessionFamilies.account_id := account_as_uuid account_id;
         SessionFamilies.created_at := timestamptz now;
         SessionFamilies.revoked_at := None; SessionFamilies.revoke_reason := None |};
    if negb (family =? 1)%nat then fail TargetNotFoundOrUnchanged else
    do_ insert_refresh (refresh_row (new_credential ids) tenant_id account_id (new_family ids)
          (refresh_digest request) now (refresh_expires_at request));
    do_ insert_access (access_row (new_access ids) tenant_id account_id (new_family ids)
          (access_digest request) now (access_expires_at request));
    do_ insert_audit {| audit_id := new_session_audit ids; audit_tenant_id := tenant_id;
                        audit_actor_id := Some account_id; audit_action := SessionIssued;
                        audit_correlation_id := create_correlation_id request;
                        audit_metadata := [(lit "family_id", JUuid (new_family ids));
                                           (lit "credential_id", JUuid (new_credential ids));
                                           (lit "access_session_id", JUuid (new_access ids))];
                        audit_occurred_at := now |};
    ret {| session_family_id := new_family ids; session_credential_id := new_credential ids;
           session_expires_at := refresh_expires_at request; session_access_id := new_access ids;
           session_access_expires_at := access_expires_at request |}).

(** The credential joined with its family and its account. *)
Definition credential_rows (db : Db) (d : OpaqueTokenDigest) :
    list (RefreshCredentials.row * SessionFamilies.row * Accounts.row) :=
  credential ← filter (fun r => RefreshCredentials.token_digest r = digest_as_bytes d)
    (refresh_credentials db);
  family ← filter (fun f => SessionFamilies.id f = RefreshCredentials.family_id credential)
    (session_families db);
  account ← filter (fun a => Accounts.id a = RefreshCredentials.account_id credential /\
    Accounts.tenant_id a = RefreshCredentials.tenant_id credential) (accounts db);
  [(credential, family, account)].

Record RotationRequest : Type := {
  presented_digest : OpaqueTokenDigest;
  rotation_successor : OpaqueTokenDigest;
  rotation_successor_access : OpaqueTokenDigest;
  rotation_successor_expires : OffsetDateTime;
  rotation_successor_access_expires : OffsetDateTime;
  rotation_correlation_id : str;
}.

Definition rotate_refresh_credential (request : RotationRequest) (now : OffsetDateTime)
    (ids : SessionIds) : Tx RefreshRotation :=
  do_ lift (validate_correlation_id (rotation_correlation_id request));
  if datetime_leb (rotation_successor_expires request) now
     || datetime_leb (rotation_successor_access_expires request) now
  then fail InvalidSessionExpiry else
  transaction (
    do db <- get;
    match fetch_optional (credential_rows db (presented_digest request)) with
    | None => ret Denied
    | Some (credential, family, account) =>
        let tenant_id := TenantId_from_uuid (RefreshCredentials.tenant_id credential) in
        let account_id := AccountId_from_uuid (RefreshCredentials.account_id credential) in
        let family_id := RefreshCredentials.family_id credential in
        do account_state <- lift (parse_account_state (Accounts.state account));
        if bool_decide (is_Some (RefreshCredentials.consumed_at credential)) then
          if bool_decide (SessionFamilies.revoked_at family = None) then
            do_ revoke_session_family tenant_id account_id family_id (lit "refresh_token_reuse")
                  (rotation_correlation_id request) now (new_session_audit ids);
            ret ReuseDetected
          else ret Denied
        else
        if bool_decide (is_Some (SessionFamilies.revoked_at family))
           || datetime_leb (from_timestamptz (RefreshCredentials.expires_at credential)) now
           || negb (permits_session account_state)
        then ret Denied else
        rotate_locked_refresh_credential
          {| write_credential_id := RefreshCredentials.id credential; write_tenant_id := tenant_id;
             write_account_id := account_id; write_family_id := family_id;
             successor_digest := rotation_successor request;
             successor_access_digest := rotation_successor_access request;
             successor_expires_at := rotation_successor_expires request;
             successor_access_expires_at := rotation_successor_access_expires request;
             write_correlation_id := rotation_correlation_id request; write_now := now |} ids
    end).

Definition revoke_refresh_session_family (tenant_id : TenantId) (account_id : AccountId)
    (family_id : Uuid) (correlation_id : str) (now : OffsetDateTime) (new_audit : Uuid) : Tx bool :=
  do_ lift (validate_correlation_id correlation_id);
  transaction (revoke_session_family tenant_id account_id family_id (lit "explicit_revocation")
                 correlation_id now new_audit).

End sessions.
