(* ===== verification/Sessions.v ===== *)
(** * Session rotation and revocation

    What the store's session operations guarantee: the invariant of the three
    session tables, the outcome of every presentation of a refresh credential,
    and that a revoked family stays dead. *)

From Stdlib Require Import ZArith Lia String.
From stdpp Require Import base list option numbers decidable sorting relations.
From S2P Require Import Prelude Bytes Str Domain Totp Clock Auth Db StoreAccounts StoreSessions.

Section sessions.
Context {Document : Type} `{T : TimeLib}.
Abbreviation Db := (Db Document).
Abbreviation Tx := (M Db StoreError).
Implicit Types db : Db.

(** ** The invariant *)

(** The family a credential or an access session points to. *)
Definition owned (db : Db) (family tenant account : Uuid) : Prop :=
  exists f, f ∈ session_families db /\ SessionFamilies.id f = family /\
    SessionFamilies.tenant_id f = tenant /\ SessionFamilies.account_id f = account.

Record sessions_wf (db : Db) : Prop := {
  wf_accounts : NoDup (Accounts.id <$> accounts db);
  wf_family_refs : forall f, f ∈ session_families db ->
    tenant_exists db (SessionFamilies.tenant_id f) = true /\
    tenant_account_exists db (SessionFamilies.tenant_id f) (SessionFamilies.account_id f) = true;
  wf_families : NoDup (SessionFamilies.id <$> session_families db);
  wf_refresh_ids : NoDup (RefreshCredentials.id <$> refresh_credentials db);
  wf_refresh_digests : NoDup (RefreshCredentials.token_digest <$> refresh_credentials db);
  wf_access_digests : NoDup (AccessSessions.token_digest <$> access_sessions db);
  wf_refresh_owned : forall c, c ∈ refresh_credentials db ->
    owned db (RefreshCredentials.family_id c) (RefreshCredentials.tenant_id c) (RefreshCredentials.account_id c);
  wf_access_owned : forall a, a ∈ access_sessions db ->
    owned db (AccessSessions.family_id a) (AccessSessions.tenant_id a) (AccessSessions.account_id a);
  (** A family has at most one unspent refresh credential and at most one live
      access session, and none once it is revoked. *)
  wf_one_refresh : forall c c', c ∈ refresh_credentials db -> c' ∈ refresh_credentials db ->
    RefreshCredentials.family_id c = RefreshCredentials.family_id c' ->
    RefreshCredentials.consumed_at c = None -> RefreshCredentials.consumed_at c' = None -> c = c';
  wf_one_access : forall a a', a ∈ access_sessions db -> a' ∈ access_sessions db ->
    AccessSessions.family_id a = AccessSessions.family_id a' ->
    AccessSessions.revoked_at a = None -> AccessSessions.revoked_at a' = None -> a = a';
  wf_revoked : forall f a, f ∈ session_families db -> a ∈ access_sessions db ->
    AccessSessions.family_id a = SessionFamilies.id f ->
    SessionFamilies.revoked_at f <> None -> AccessSessions.revoked_at a <> None;
}.

(** ** What the operations write *)
Definition with_family (r : SessionFamilies.row) (db : Db) : Db :=
  set_session_families (session_families db ++ [r]) db.
Definition with_refresh (r : RefreshCredentials.row) (db : Db) : Db :=
  set_refresh_credentials (refresh_credentials db ++ [r]) db.
Definition with_access (r : AccessSessions.row) (db : Db) : Db :=
  set_access_sessions (access_sessions db ++ [r]) db.
Definition without_access (family : Uuid) (now : Z) (db : Db) : Db :=
  set_access_sessions (update_where (live_access family) (AccessSessions.revoke now) (access_sessions db)) db.
Definition spent (credential successor : Uuid) (now : Z) (db : Db) : Db :=
  set_refresh_credentials (update_where (unconsumed credential) (RefreshCredentials.consume now successor)
    (refresh_credentials db)) db.
Definition without_family (family tenant account : Uuid) (now : Z) (reason : str) (db : Db) : Db :=
  set_session_families (update_where (live_family family tenant account)
    (SessionFamilies.revoke now reason) (session_families db)) db.

Lemma insert_family_run r db db' n :
  insert_family_if_active r db = (db', Ok n) ->
  n = 0%nat /\ db' = db \/
  n = 1%nat /\ active_account db (SessionFamilies.tenant_id r) (SessionFamilies.account_id r) = true /\
    family_ok db r = true /\ db' = with_family r db.
Proof.
  unfold insert_family_if_active, bind, get, require, ret, modify.
  destruct (active_account db _ _); simpl; [|naive_solver].
  destruct (family_ok db r); simpl; naive_solver.
Qed.

Lemma insert_refresh_run r db db' u :
  insert_refresh r db = (db', Ok u) <-> refresh_ok db r = true /\ db' = with_refresh r db.
Proof. unfold insert_refresh. rewrite checked_ok. destruct u. unfold modify. naive_solver. Qed.

Lemma insert_access_run r db db' u :
  insert_access r db = (db', Ok u) <-> access_ok db r = true /\ db' = with_access r db.
Proof. unfold insert_access. rewrite checked_ok. destruct u. unfold modify. naive_solver. Qed.

Lemma consume_refresh_run c s now db db' n :
  consume_refresh c s now db = (db', Ok n) <->
  n = rows_affected (unconsumed c) (refresh_credentials db) /\
  (n = 0%nat \/ Forall (fun r => RefreshCredentials.replaced_by r <> Some s) (refresh_credentials db)) /\
  db' = spent c s now db.
Proof.
  unfold consume_refresh, bind, get, require, modify, ret.
  set (k := rows_affected (unconsumed c) (refresh_credentials db)).
  match goal with |- context [(k =? 0)%nat || ?b] => destruct ((k =? 0)%nat || b) eqn:E end.
  - rewrite orb_true_iff, Nat.eqb_eq, bool_decide_eq_true in E. naive_solver.
  - rewrite orb_false_iff, Nat.eqb_neq, bool_decide_eq_false in E. naive_solver.
Qed.

(** ** The elementary changes preserve the invariant *)
Lemma owned_with_family r db f t a : owned db f t a -> owned (with_family r db) f t a.
Proof. intros (x & Hx & ?). exists x. split; [|done]. apply elem_of_app. by left. Qed.

Lemma owned_without_family fam ten acc now reason db f t a :
  owned db f t a <-> owned (without_family fam ten acc now reason db) f t a.
Proof.
  unfold owned. cbn [session_families without_family set_session_families]. split.
  - intros (x & Hx & ? & ? & ?). destruct (decide (live_family fam ten acc x)) as [Hl|Hl].
    + exists (SessionFamilies.revoke now reason x). split; [|done]. apply elem_of_update_where. eauto.
    + exists x. split; [|done]. apply elem_of_update_where. eauto.
  - intros (x & (y & Hy & [[_ ->]|[_ ->]])%elem_of_update_where & ?); eauto.
Qed.

Lemma family_ok_fresh db r :
  family_ok db r = true ->
  Forall (fun r' => SessionFamilies.id r' <> SessionFamilies.id r) (session_families db) /\
  tenant_exists db (SessionFamilies.tenant_id r) = true /\
  tenant_account_exists db (SessionFamilies.tenant_id r) (SessionFamilies.account_id r) = true.
Proof. unfold family_ok. rewrite !andb_true_iff, bool_decide_eq_true. tauto. Qed.

Lemma wf_with_family r db :
  sessions_wf db -> family_ok db r = true -> SessionFamilies.revoked_at r = None ->
  sessions_wf (with_family r db).
Proof.
  intros Hwf (Hok & Hrefs)%family_ok_fresh Hlive. destruct Hwf. split; simpl; try done.
  - intros f [Hf| ->%list_elem_of_singleton]%elem_of_app; [by apply wf_family_refs0|done].
  - by apply NoDup_snoc_column.
  - intros c Hc. by apply owned_with_family, wf_refresh_owned0.
  - intros a Ha. by apply owned_with_family, wf_access_owned0.
  - intros f a [Hf| ->%list_elem_of_singleton]%elem_of_app Ha Hfa Hr; [by eapply wf_revoked0|done].
Qed.

Lemma refresh_ok_fresh db r :
  refresh_ok db r = true ->
  Forall (fun r' => RefreshCredentials.id r' <> RefreshCredentials.id r) (refresh_credentials db) /\
  Forall (fun r' => RefreshCredentials.token_digest r' <> RefreshCredentials.token_digest r)
    (refresh_credentials db).
Proof. unfold refresh_ok. rewrite !andb_true_iff, !bool_decide_eq_true. tauto. Qed.

Lemma wf_with_refresh r db :
  sessions_wf db -> refresh_ok db r = true ->
  owned db (RefreshCredentials.family_id r) (RefreshCredentials.tenant_id r) (RefreshCredentials.account_id r) ->
  (forall c, c ∈ refresh_credentials db -> RefreshCredentials.family_id c = RefreshCredentials.family_id r ->
     RefreshCredentials.consumed_at c <> None) ->
  sessions_wf (with_refresh r db).
Proof.
  intros Hwf [Hid Hdg]%refresh_ok_fresh Ho Hone. destruct Hwf. split; simpl; try done.
  - by apply NoDup_snoc_column.
  - by apply NoDup_snoc_column.
  - intros c [Hc| ->%list_elem_of_singleton]%elem_of_app; [by apply wf_refresh_owned0|done].
  - intros c c' [Hc| ->%list_elem_of_singleton]%elem_of_app [Hc'| ->%list_elem_of_singleton]%elem_of_app
      Hf Hn Hn'; [by apply wf_one_refresh0| | |done].
    + by destruct (Hone c Hc Hf).
    + by destruct (Hone c' Hc' (eq_sym Hf)).
Qed.

Lemma access_ok_fresh db r :
  access_ok db r = true ->
  Forall (fun r' => AccessSessions.token_digest r' <> AccessSessions.token_digest r) (access_sessions db).
Proof. unfold access_ok. rewrite !andb_true_iff, !bool_decide_eq_true. tauto. Qed.

Lemma wf_with_access r db :
  sessions_wf db -> access_ok db r = true ->
  owned db (AccessSessions.family_id r) (AccessSessions.tenant_id r) (AccessSessions.account_id r) ->
  (forall f, f ∈ session_families db -> SessionFamilies.id f = AccessSessions.family_id r ->
     SessionFamilies.revoked_at f = None) ->
  (forall a, a ∈ access_sessions db -> AccessSessions.family_id a = AccessSessions.family_id r ->
     AccessSessions.revoked_at a <> None) ->
  sessions_wf (with_access r db).
Proof.
  intros Hwf Hdg%access_ok_fresh Ho Hlive Hone. destruct Hwf. split; simpl; try done.
  - by apply NoDup_snoc_column.
  - intros a [Ha| ->%list_elem_of_singleton]%elem_of_app; [by apply wf_access_owned0|done].
  - intros a a' [Ha| ->%list_elem_of_singleton]%elem_of_app [Ha'| ->%list_elem_of_singleton]%elem_of_app
      Hf Hn Hn'; [by apply wf_one_access0| | |done].
    + by destruct (Hone a Ha Hf).
    + by destruct (Hone a' Ha' (eq_sym Hf)).
  - intros f a Hf [Ha| ->%list_elem_of_singleton]%elem_of_app Hfa Hr; [by eapply wf_revoked0|].
    by destruct Hr; apply Hlive.
Qed.

Lemma wf_spent c s now db : sessions_wf db -> sessions_wf (spent c s now db).
Proof.
  intros Hwf. destruct Hwf. split; simpl; try done.
  - by rewrite update_where_column.
  - by rewrite update_where_column.
  - intros x (y & Hy & [[_ ->]|[_ ->]])%elem_of_update_where; exact (wf_refresh_owned0 y Hy).
  - intros x x' (y & Hy & [[_ ->]|[_ ->]])%elem_of_update_where
      (y' & Hy' & [[_ ->]|[_ ->]])%elem_of_update_where Hf Hn Hn'; try done.
    by apply (wf_one_refresh0 y y').
Qed.

Lemma wf_without_access f now db : sessions_wf db -> sessions_wf (without_access f now db).
Proof.
  intros Hwf. destruct Hwf. split; simpl; try done.
  - by rewrite update_where_column.
  - intros x (y & Hy & [[_ ->]|[_ ->]])%elem_of_update_where; exact (wf_access_owned0 y Hy).
  - intros x x' (y & Hy & [[_ ->]|[_ ->]])%elem_of_update_where
      (y' & Hy' & [[_ ->]|[_ ->]])%elem_of_update_where Hf Hn Hn'; try done.
    by apply (wf_one_access0 y y').
  - intros g x Hg (y & Hy & [[_ ->]|[_ ->]])%elem_of_update_where Hgx Hr; [done|]. by eapply wf_revoked0.
Qed.

Lemma wf_without_family fam ten acc now reason db :
  sessions_wf db ->
  (forall a, a ∈ access_sessions db -> AccessSessions.family_id a = fam -> AccessSessions.revoked_at a <> None) ->
  sessions_wf (without_family fam ten acc now reason db).
Proof.
  intros Hwf Ha. destruct Hwf. split; simpl; try done.
  - intros x (y & Hy & [[_ ->]|[_ ->]])%elem_of_update_where; exact (wf_family_refs0 y Hy).
  - by rewrite update_where_column.
  - intros c Hc. by apply owned_without_family, wf_refresh_owned0.
  - intros a Hin. by apply owned_without_family, wf_access_owned0.
  - intros g x (y & Hy & [[Hl ->]|[_ ->]])%elem_of_update_where Hx Hgx Hr; [|by eapply wf_revoked0].
    apply Ha; [done|]. rewrite Hgx. apply Hl.
Qed.

Lemma wf_audit rows db : sessions_wf db -> sessions_wf (set_audit_events rows db).
Proof. by intros []. Qed.

Lemma without_access_dead f now db a :
  a ∈ access_sessions (without_access f now db) -> AccessSessions.family_id a = f ->
  AccessSessions.revoked_at a <> None.
Proof.
  intros (y & Hy & [[_ ->]|[Hl ->]])%elem_of_update_where Hf; [done|].
  intros Hn. by apply Hl.
Qed.

(** ** The operations *)
Definition new_family_row (request : CreateRefreshSession) (now : OffsetDateTime) (ids : SessionIds) :
    SessionFamilies.row :=
  {| SessionFamilies.id := new_family ids;
     SessionFamilies.tenant_id := tenant_as_uuid (create_tenant_id request);
     SessionFamilies.account_id := account_as_uuid (create_account_id request);
     SessionFamilies.created_at := timestamptz now;
     SessionFamilies.revoked_at := None; SessionFamilies.revoke_reason := None |}.

Definition new_refresh_row (request : CreateRefreshSession) (now : OffsetDateTime) (ids : SessionIds) :
    RefreshCredentials.row :=
  refresh_row (new_credential ids) (create_tenant_id request) (create_account_id request)
    (new_family ids) (refresh_digest request) now (refresh_expires_at request).

Definition new_access_row (request : CreateRefreshSession) (now : OffsetDateTime) (ids : SessionIds) :
    AccessSessions.row :=
  access_row (new_access ids) (create_tenant_id request) (create_account_id request)
    (new_family ids) (access_digest request) now (access_expires_at request).

(** A logged change. *)
Definition logged (event : AuditWrite) db : Db :=
  set_audit_events (audit_events db ++ [audit_row event]) db.

Lemma wf_logged event db : sessions_wf db -> sessions_wf (logged event db).
Proof. apply wf_audit. Qed.

Lemma create_ok request now ids db db' r :
  create_refresh_session request now ids db = (db', Ok r) ->
  let f := new_family_row request now ids in
  let c := new_refresh_row request now ids in
  let a := new_access_row request now ids in
  active_account db (SessionFamilies.tenant_id f) (SessionFamilies.account_id f) = true /\
  family_ok db f = true /\ refresh_ok (with_family f db) c = true /\
  access_ok (with_refresh c (with_family f db)) a = true /\
  exists event, (audit_action event = SessionIssued /\ audit_tenant_id event = create_tenant_id request /\
      auditable (with_access a (with_refresh c (with_family f db))) event) /\
    db' = logged event (with_access a (with_refresh c (with_family f db))).
Proof.
  unfold create_refresh_session. intros (db0 & [] & [= <- _] & H)%bind_ok.
  destruct (datetime_leb _ _ || datetime_leb _ _); [done|]. apply transaction_inv in H.
  apply bind_ok in H as (db1 & n & Hf & H).
  apply insert_family_run in Hf as [(-> & ->)|(-> & Hact & Hfam & ->)]; [done|].
  apply bind_ok in H as (db2 & [] & (Hr & ->)%insert_refresh_run & H).
  apply bind_ok in H as (db3 & [] & (Ha & ->)%insert_access_run & H).
  apply bind_ok in H as (db4 & [] & (Hau & ->)%insert_audit_ok & [= <- _]).
  simpl. split; [done|]. split; [done|]. split; [done|]. split; [done|].
  eexists. split; [split; [|split; [|exact Hau]]|reflexivity]; done.
Qed.

Lemma wf_create request now ids db db' r :
  sessions_wf db -> create_refresh_session request now ids db = (db', Ok r) -> sessions_wf db'.
Proof.
  intros Hwf (_ & Hf & Hr & Ha & event & _ & ->)%create_ok. pose proof (family_ok_fresh _ _ Hf) as [Hfresh _].
  set (f := new_family_row request now ids) in *. rewrite list.Forall_forall in Hfresh.
  assert (Hnew : owned (with_family f db) (new_family ids) (tenant_as_uuid (create_tenant_id request))
    (account_as_uuid (create_account_id request))).
  { exists f. split; [|done]. apply elem_of_app. right. by apply list_elem_of_singleton. }
  assert (Hno : forall fam t a, owned db fam t a -> fam <> new_family ids).
  { intros fam t a (x & Hx & <- & _). by apply (Hfresh x). }
  apply wf_logged, wf_with_access; [|done|exact Hnew| |].
  - apply wf_with_refresh; [by apply wf_with_family|done|exact Hnew|].
    intros c Hc Hfam. by destruct (Hno _ _ _ (wf_refresh_owned _ Hwf c Hc)).
  - intros g [Hg| ->%list_elem_of_singleton]%elem_of_app Hfam; [by destruct (Hfresh g Hg)|done].
  - intros a Hin Hfam. by destruct (Hno _ _ _ (wf_access_owned _ Hwf a Hin)).
Qed.

Lemma revoke_family_ok t a fam reason cid now aid db db' b :
  sessions_wf db ->
  revoke_session_family t a fam reason cid now aid db = (db', Ok b) ->
  b = false /\ db' = db /\
    (forall f, f ∈ session_families db -> ~ live_family fam (tenant_as_uuid t) (account_as_uuid a) f) \/
  b = true /\ (exists f, f ∈ session_families db /\ live_family fam (tenant_as_uuid t) (account_as_uuid a) f) /\
    exists event, (audit_action event = SessionRevoked /\ audit_tenant_id event = t /\
        auditable (without_family fam (tenant_as_uuid t) (account_as_uuid a) (timestamptz now) reason
          (without_access fam (timestamptz now) db)) event) /\
      db' = logged event (without_family fam (tenant_as_uuid t) (account_as_uuid a) (timestamptz now) reason
              (without_access fam (timestamptz now) db)).
Proof.
  intros Hwf. unfold revoke_session_family.
  pose proof (rows_affected_pos (live_family fam (tenant_as_uuid t) (account_as_uuid a))
    (session_families db)) as Hpos.
  assert (Hle : (rows_affected (live_family fam (tenant_as_uuid t) (account_as_uuid a))
    (session_families db) <= 1)%nat).
  { eapply rows_affected_unique; [apply Hwf|]. intros x y [-> _] [-> _]. done. }
  intros (db0 & db1 & [= <- <-] & (db2 & [] & [= <-] & H)%bind_ok)%bind_ok.
  destruct (Nat.eqb_spec (rows_affected (live_family fam (tenant_as_uuid t) (account_as_uuid a))
    (session_families db)) 1) as [H1|H0].
  - right. apply bind_ok in H as (db3 & [] & [= <-] & H).
    apply bind_ok in H as (db4 & [] & (Hau & ->)%insert_audit_ok & [= <- <-]).
    split; [done|]. split; [apply Hpos; lia|].
    eexists. split; [split; [|split; [|exact Hau]]|reflexivity]; done.
  - left. injection H as <- <-. split; [done|].
    assert (Hnone : forall f, f ∈ session_families db ->
      ~ live_family fam (tenant_as_uuid t) (account_as_uuid a) f).
    { intros f Hf HP. assert (Hne := proj2 Hpos (ex_intro _ f (conj Hf HP))). lia. }
    split; [|done]. rewrite update_where_none by done. by destruct db.
Qed.

Lemma wf_revoke_family t a fam reason cid now aid db db' b :
  sessions_wf db -> revoke_session_family t a fam reason cid now aid db = (db', Ok b) -> sessions_wf db'.
Proof.
  intros Hwf H. destruct (revoke_family_ok _ _ _ _ _ _ _ _ _ _ Hwf H) as [(_ & -> & _)|(_ & _ & event & _ & ->)];
    [done|].
  apply wf_logged, wf_without_family; [by apply wf_without_access|]. intros x Hx. by eapply without_access_dead.
Qed.

(** ** Presenting a refresh credential *)
Lemma credential_found db d c f a :
  sessions_wf db ->
  fetch_optional (credential_rows db d) = Some (c, f, a) <->
  c ∈ refresh_credentials db /\ RefreshCredentials.token_digest c = digest_as_bytes d /\
  f ∈ session_families db /\ SessionFamilies.id f = RefreshCredentials.family_id c /\
  a ∈ accounts db /\ Accounts.id a = RefreshCredentials.account_id c /\
  Accounts.tenant_id a = RefreshCredentials.tenant_id c.
Proof.
  intros Hwf.
  assert (Hin : forall c f a, (c, f, a) ∈ credential_rows db d <->
    c ∈ refresh_credentials db /\ RefreshCredentials.token_digest c = digest_as_bytes d /\
    f ∈ session_families db /\ SessionFamilies.id f = RefreshCredentials.family_id c /\
    a ∈ accounts db /\ Accounts.id a = RefreshCredentials.account_id c /\
    Accounts.tenant_id a = RefreshCredentials.tenant_id c).
  { intros c0 f0 a0. unfold credential_rows. rewrite list_elem_of_bind.
    setoid_rewrite list_elem_of_bind. setoid_rewrite list_elem_of_bind.
    setoid_rewrite list_elem_of_filter. setoid_rewrite list_elem_of_singleton. naive_solver. }
  rewrite fetch_unique; [apply Hin|].
  intros [[c1 f1] a1] [[c2 f2] a2] (Hc & Hd & Hf & Hfi & Ha & Hai & _)%Hin
    (Hc' & Hd' & Hf' & Hfi' & Ha' & Hai' & _)%Hin.
  assert (c2 = c1) as -> by (eapply unique_row; [apply (wf_refresh_digests _ Hwf)|done..|congruence]).
  assert (f2 = f1) as -> by (eapply unique_row; [apply (wf_families _ Hwf)|done..|congruence]).
  assert (a2 = a1) as -> by (eapply unique_row; [apply (wf_accounts _ Hwf)|done..|congruence]).
  done.
Qed.

(** The credential may be exchanged. *)
Definition eligible (c : RefreshCredentials.row) (f : SessionFamilies.row) (st : AccountState)
    (now : OffsetDateTime) : Prop :=
  SessionFamilies.revoked_at f = None /\
  datetime_leb (from_timestamptz (RefreshCredentials.expires_at c)) now = false /\ permits_session st = true.

Definition successor_row (request : RotationRequest) (now : OffsetDateTime) (ids : SessionIds)
    (c : RefreshCredentials.row) : RefreshCredentials.row :=
  refresh_row (new_credential ids) (TenantId_from_uuid (RefreshCredentials.tenant_id c))
    (AccountId_from_uuid (RefreshCredentials.account_id c)) (RefreshCredentials.family_id c)
    (rotation_successor request) now (rotation_successor_expires request).

Definition successor_access_row (request : RotationRequest) (now : OffsetDateTime) (ids : SessionIds)
    (c : RefreshCredentials.row) : AccessSessions.row :=
  access_row (new_access ids) (TenantId_from_uuid (RefreshCredentials.tenant_id c))
    (AccountId_from_uuid (RefreshCredentials.account_id c)) (RefreshCredentials.family_id c)
    (rotation_successor_access request) now (rotation_successor_access_expires request).

(** What an exchange writes. *)
Definition rotated (request : RotationRequest) (now : OffsetDateTime) (ids : SessionIds)
    (c : RefreshCredentials.row) db : Db :=
  with_access (successor_access_row request now ids c)
    (without_access (RefreshCredentials.family_id c) (timestamptz now)
      (with_refresh (successor_row request now ids c)
        (spent (RefreshCredentials.id c) (new_credential ids) (timestamptz now) db))).

(** What detected reuse writes. *)
Definition revoked (c : RefreshCredentials.row) (now : OffsetDateTime) (reason : str) db : Db :=
  without_family (RefreshCredentials.family_id c) (RefreshCredentials.tenant_id c)
    (RefreshCredentials.account_id c) (timestamptz now) reason
    (without_access (RefreshCredentials.family_id c) (timestamptz now) db).

Lemma family_of_credential db c f :
  sessions_wf db -> c ∈ refresh_credentials db -> f ∈ session_families db ->
  SessionFamilies.id f = RefreshCredentials.family_id c ->
  SessionFamilies.tenant_id f = RefreshCredentials.tenant_id c /\
  SessionFamilies.account_id f = RefreshCredentials.account_id c.
Proof.
  intros Hwf Hc Hf Hid. destruct (wf_refresh_owned _ Hwf c Hc) as (g & Hg & Hgi & Ht & Ha).
  assert (f = g) as -> by (eapply unique_row; [apply (wf_families _ Hwf)|done..|congruence]). done.
Qed.

Lemma unconsumed_one db c :
  sessions_wf db -> c ∈ refresh_credentials db -> RefreshCredentials.consumed_at c = None ->
  rows_affected (unconsumed (RefreshCredentials.id c)) (refresh_credentials db) = 1%nat.
Proof.
  intros Hwf Hc Hn.
  assert (rows_affected (unconsumed (RefreshCredentials.id c)) (refresh_credentials db) <= 1)%nat.
  { eapply rows_affected_unique; [apply (wf_refresh_ids _ Hwf)|]. intros x y [-> _] [-> _]. done. }
  assert (rows_affected (unconsumed (RefreshCredentials.id c)) (refresh_credentials db) <> 0)%nat.
  { apply rows_affected_pos. by exists c. }
  lia.
Qed.

Definition valid_rotation (request : RotationRequest) (now : OffsetDateTime) : Prop :=
  validate_correlation_id (rotation_correlation_id request) = Ok tt /\
  datetime_leb (rotation_successor_expires request) now = false /\
  datetime_leb (rotation_successor_access_expires request) now = false.

Lemma rotate_ok request now ids db db' r :
  sessions_wf db -> rotate_refresh_credential request now ids db = (db', Ok r) ->
  match fetch_optional (credential_rows db (presented_digest request)) with
  | None => r = Denied /\ db' = db
  | Some (c, f, a) =>
      exists st, parse_account_state (Accounts.state a) = Ok st /\
      match r with
      | ReuseDetected => RefreshCredentials.consumed_at c <> None /\ SessionFamilies.revoked_at f = None /\
          exists event, (audit_action event = SessionRevoked /\
              audit_tenant_id event = TenantId_from_uuid (RefreshCredentials.tenant_id c) /\
              auditable (revoked c now (lit "refresh_token_reuse") db) event) /\
            db' = logged event (revoked c now (lit "refresh_token_reuse") db)
      | Rotated record => RefreshCredentials.consumed_at c = None /\ eligible c f st now /\
          Forall (fun x => RefreshCredentials.replaced_by x <> Some (new_credential ids)) (refresh_credentials db) /\
          refresh_ok (spent (RefreshCredentials.id c) (new_credential ids) (timestamptz now) db)
            (successor_row request now ids c) = true /\
          access_ok (without_access (RefreshCredentials.family_id c) (timestamptz now)
              (with_refresh (successor_row request now ids c)
                (spent (RefreshCredentials.id c) (new_credential ids) (timestamptz now) db)))
            (successor_access_row request now ids c) = true /\
          rotation_family_id record = RefreshCredentials.family_id c /\
          exists event, (audit_action event = SessionIssued /\
              audit_tenant_id event = TenantId_from_uuid (RefreshCredentials.tenant_id c) /\
              auditable (rotated request now ids c db) event) /\ db' = logged event (rotated request now ids c db)
      | Denied => db' = db /\
          (RefreshCredentials.consumed_at c <> None /\ SessionFamilies.revoked_at f <> None \/
           RefreshCredentials.consumed_at c = None /\ ~ eligible c f st now)
      end
  end.
Proof.
  intros Hwf. unfold rotate_refresh_credential. intros (db0 & [] & [= <- _] & H)%bind_ok.
  destruct (datetime_leb _ _ || datetime_leb _ _); [done|]. apply transaction_inv in H.
  apply bind_ok in H as (db1 & db2 & [= <- <-] & H).
  destruct (fetch_optional (credential_rows db (presented_digest request))) as [[[c f] a]|] eqn:Hq;
    [|by injection H as <- <-].
  apply (credential_found db _ c f a Hwf) in Hq as (Hc & _ & Hf & Hfi & _).
  destruct (family_of_credential db c f Hwf Hc Hf Hfi) as [Ht Ha].
  apply bind_ok in H as (db1 & st & [= <- Hst] & H). exists st. split; [done|].
  destruct (RefreshCredentials.consumed_at c) as [at_|] eqn:Hcon.
  - rewrite bool_decide_eq_true_2 in H by eauto. case_bool_decide as Hrev.
    + apply bind_ok in H as (db1 & b & Hb & [= <- <-]).
      destruct (revoke_family_ok _ _ _ _ _ _ _ _ _ _ Hwf Hb) as [(_ & _ & Hno)|(_ & _ & event & Hev & ->)].
      * by destruct (Hno f Hf).
      * split; [done|]. split; [done|]. by exists event.
    + injection H as <- <-. split; [done|]. by left.
  - rewrite bool_decide_eq_false_2 in H by (by intros []).
    destruct (bool_decide (is_Some (SessionFamilies.revoked_at f))
      || datetime_leb (from_timestamptz (RefreshCredentials.expires_at c)) now
      || negb (permits_session st)) eqn:He.
    { injection H as <- <-. split; [done|]. right. split; [done|]. intros (Hr & Hx & Hp).
      rewrite Hr, Hx, Hp, bool_decide_eq_false_2 in He by (by intros []). done. }
    apply orb_false_iff in He as [[Hr Hx]%orb_false_iff Hp%negb_false_iff].
    apply bool_decide_eq_false, eq_None_not_Some in Hr.
    unfold rotate_locked_refresh_credential in H. cbn [write_credential_id write_now] in H.
    apply bind_ok in H as (db1 & n & (-> & Hrep & ->)%consume_refresh_run & H).
    rewrite (unconsumed_one db c Hwf Hc Hcon) in H, Hrep. cbn [Nat.eqb negb] in H.
    apply bind_ok in H as (db1 & [] & (Hro & ->)%insert_refresh_run & H).
    apply bind_ok in H as (db1 & [] & [= <-] & H).
    apply bind_ok in H as (db1 & [] & (Hao & ->)%insert_access_run & H).
    apply bind_ok in H as (db1 & [] & (Hau & ->)%insert_audit_ok & [= <- <-]).
    split; [done|]. split; [done|]. split; [by destruct Hrep|]. split; [done|]. split; [done|].
    split; [done|]. eexists. split; [split; [|split; [|exact Hau]]|reflexivity]; done.
Qed.

Lemma spent_consumed c s now db x :
  sessions_wf db -> c ∈ refresh_credentials db -> RefreshCredentials.consumed_at c = None ->
  x ∈ refresh_credentials (spent (RefreshCredentials.id c) s now db) ->
  RefreshCredentials.family_id x = RefreshCredentials.family_id c -> RefreshCredentials.consumed_at x <> None.
Proof.
  intros Hwf Hc Hn (y & Hy & [[_ ->]|[Hu ->]])%elem_of_update_where Hf; [done|]. intros Hny.
  apply Hu. assert (y = c) as -> by by apply (wf_one_refresh _ Hwf). done.
Qed.

Lemma wf_rotate request now ids db db' r :
  sessions_wf db -> rotate_refresh_credential request now ids db = (db', Ok r) -> sessions_wf db'.
Proof.
  intros Hwf H. pose proof (rotate_ok _ _ _ _ _ _ Hwf H) as Hr.
  destruct (fetch_optional _) as [[[c f] a]|] eqn:Hq; [|by destruct Hr as [_ ->]].
  destruct Hr as (st & _ & Hr). apply (credential_found db _ c f a Hwf) in Hq as (Hc & _ & Hf & Hfi & _).
  destruct r as [record| |]; [| |by destruct Hr as [-> _]].
  - destruct Hr as (Hn & (Hlive & _) & _ & Hro & Hao & _ & event & _ & ->).
    pose proof (wf_refresh_owned _ Hwf c Hc) as Ho. apply wf_logged, wf_with_access; [|done|exact Ho| |].
    + apply wf_without_access, wf_with_refresh; [by apply wf_spent|done|exact Ho|].
      intros x Hx Hfam. by eapply spent_consumed.
    + intros g Hg Hgi. assert (g = f) as -> by
        (eapply unique_row; [apply (wf_families _ Hwf)|done..|by rewrite Hfi]). done.
    + intros x Hx. by eapply without_access_dead.
  - destruct Hr as (_ & _ & event & _ & ->).
    apply wf_logged, wf_without_family; [by apply wf_without_access|]. intros x Hx. by eapply without_access_dead.
Qed.

(** ** Histories *)

(** A change of other tables: accounts keep their identity. *)
Definition elsewhere db db' : Prop :=
  session_families db' = session_families db /\ refresh_credentials db' = refresh_credentials db /\
  access_sessions db' = access_sessions db /\ NoDup (Accounts.id <$> accounts db') /\
  (forall t, tenant_exists db t = true -> tenant_exists db' t = true) /\
  (forall t a, tenant_account_exists db t a = true -> tenant_account_exists db' t a = true).

Inductive session_step : Db -> Db -> Prop :=
| step_create request now ids db db' r :
    create_refresh_session request now ids db = (db', r) -> session_step db db'
| step_rotate request now ids db db' r :
    rotate_refresh_credential request now ids db = (db', r) -> session_step db db'
| step_revoke t a f cid now aid db db' r :
    revoke_refresh_session_family t a f cid now aid db = (db', r) -> session_step db db'
| step_elsewhere db db' : elsewhere db db' -> session_step db db'.

Lemma create_atomic request now ids : atomic (create_refresh_session (Document := Document) request now ids).
Proof. unfold create_refresh_session. auto with fabric. Qed.

Lemma rotate_atomic request now ids : atomic (rotate_refresh_credential (Document := Document) request now ids).
Proof. unfold rotate_refresh_credential. auto with fabric. Qed.

Lemma revoke_atomic t a f cid now aid :
  atomic (revoke_refresh_session_family (Document := Document) t a f cid now aid).
Proof. unfold revoke_refresh_session_family. auto with fabric. Qed.

Lemma revoke_inv t a f cid now aid db db' b :
  revoke_refresh_session_family t a f cid now aid db = (db', Ok b) ->
  revoke_session_family t a f (lit "explicit_revocation") cid now aid db = (db', Ok b).
Proof.
  unfold revoke_refresh_session_family. intros (db0 & [] & [= <- _] & H)%bind_ok. by apply transaction_inv in H.
Qed.

Lemma wf_elsewhere db db' : sessions_wf db -> elsewhere db db' -> sessions_wf db'.
Proof.
  intros Hwf (Hf & Hr & Ha & Hid & Ht & Hta). destruct Hwf.
  split; unfold owned in *; rewrite ?Hf, ?Hr, ?Ha; try done.
  intros f Hin. destruct (wf_family_refs0 f Hin). auto.
Qed.

Lemma step_wf db db' : session_step db db' -> sessions_wf db -> sessions_wf db'.
Proof.
  intros Hs Hwf. destruct Hs as [request now ids db db' [r|e] H|request now ids db db' [r|e] H
    |t a f cid now aid db db' [r|e] H|db db' H].
  - by eapply wf_create.
  - by rewrite (create_atomic _ _ _ _ _ _ H).
  - by eapply wf_rotate.
  - by rewrite (rotate_atomic _ _ _ _ _ _ H).
  - eapply wf_revoke_family; [done|by apply revoke_inv].
  - by rewrite (revoke_atomic _ _ _ _ _ _ _ _ _ H).
  - by eapply wf_elsewhere.
Qed.

Lemma steps_wf db db' : rtc session_step db db' -> sessions_wf db -> sessions_wf db'.
Proof. induction 1 as [|db db1 db2 H _ IH]; [done|]. intros Hwf. apply IH. by eapply step_wf. Qed.

(** Spent credentials, revoked access sessions and revoked families stay in
    their tables unchanged. *)
Record retains (db db' : Db) : Prop := {
  retains_refresh : forall c, c ∈ refresh_credentials db -> RefreshCredentials.consumed_at c <> None ->
    c ∈ refresh_credentials db';
  retains_access : forall a, a ∈ access_sessions db -> AccessSessions.revoked_at a <> None ->
    a ∈ access_sessions db';
  retains_families : forall f, f ∈ session_families db -> SessionFamilies.revoked_at f <> None ->
    f ∈ session_families db';
}.

#[local] Instance retains_preorder : PreOrder retains.
Proof.
  split; [by split|]. intros db1 db2 db3 [] []. split; auto.
Qed.

Lemma retains_with_family r db : retains db (with_family r db).
Proof. split; simpl; auto. intros f Hf _. apply elem_of_app. by left. Qed.

Lemma retains_with_refresh r db : retains db (with_refresh r db).
Proof. split; simpl; auto. intros c Hc _. apply elem_of_app. by left. Qed.

Lemma retains_with_access r db : retains db (with_access r db).
Proof. split; simpl; auto. intros a Ha _. apply elem_of_app. by left. Qed.

Lemma retains_spent c s now db : retains db (spent c s now db).
Proof.
  split; simpl; auto. intros x Hx Hn. apply elem_of_update_where. exists x. split; [done|].
  right. split; [|done]. by intros [_ ?].
Qed.

Lemma retains_without_access f now db : retains db (without_access f now db).
Proof.
  split; simpl; auto. intros x Hx Hn. apply elem_of_update_where. exists x. split; [done|].
  right. split; [|done]. by intros [_ ?].
Qed.

Lemma retains_without_family f t a now reason db : retains db (without_family f t a now reason db).
Proof.
  split; simpl; auto. intros x Hx Hn. apply elem_of_update_where. exists x. split; [done|].
  right. split; [|done]. by intros (_ & _ & _ & ?).
Qed.

Lemma retains_logged event db : retains db (logged event db).
Proof. by split. Qed.

Lemma step_retains db db' : session_step db db' -> sessions_wf db -> retains db db'.
Proof.
  intros Hs Hwf. destruct Hs as [request now ids db db' [r|e] H|request now ids db db' [r|e] H
    |t a f cid now aid db db' [r|e] H|db db' H].
  - apply create_ok in H as (_ & _ & _ & _ & event & _ & ->).
    etrans; [apply retains_with_family|]. etrans; [apply retains_with_refresh|].
    etrans; [apply retains_with_access|apply retains_logged].
  - by rewrite (create_atomic _ _ _ _ _ _ H).
  - pose proof (rotate_ok _ _ _ _ _ _ Hwf H) as Hr.
    destruct (fetch_optional _) as [[[c f] a]|]; [|by destruct Hr as [_ ->]].
    destruct Hr as (st & _ & Hr). destruct r; [| |by destruct Hr as [-> _]].
    + destruct Hr as (_ & _ & _ & _ & _ & _ & event & _ & ->).
      etrans; [apply retains_spent|]. etrans; [apply retains_with_refresh|].
      etrans; [apply retains_without_access|]. etrans; [apply retains_with_access|apply retains_logged].
    + destruct Hr as (_ & _ & event & _ & ->).
      etrans; [apply retains_without_access|]. etrans; [apply retains_without_family|apply retains_logged].
  - by rewrite (rotate_atomic _ _ _ _ _ _ H).
  - apply revoke_inv in H.
    destruct (revoke_family_ok _ _ _ _ _ _ _ _ _ _ Hwf H) as [(_ & -> & _)|(_ & _ & event & _ & ->)]; [done|].
    etrans; [apply retains_without_access|]. etrans; [apply retains_without_family|apply retains_logged].
  - by rewrite (revoke_atomic _ _ _ _ _ _ _ _ _ H).
  - destruct H as (Hf & Hr & Ha & _). by split; rewrite ?Hf, ?Hr, ?Ha.
Qed.

Lemma steps_retain db db' : rtc session_step db db' -> sessions_wf db -> retains db db'.
Proof.
  induction 1 as [|db db1 db2 H _ IH]; intros Hwf; [done|].
  etrans; [by eapply step_retains|apply IH; by eapply step_wf].
Qed.

(** ** What a retired row rules out *)
Lemma authorised_rows d now db db' auth :
  access_session_authorization_context d now db = (db', Ok (Some auth)) ->
  db' = db /\ exists access family account,
    access ∈ access_sessions db /\ AccessSessions.token_digest access = digest_as_bytes d /\
    AccessSessions.revoked_at access = None /\ timestamptz now < AccessSessions.expires_at access /\
    family ∈ session_families db /\ SessionFamilies.id family = AccessSessions.family_id access /\
    SessionFamilies.revoked_at family = None /\
    account ∈ accounts db /\ Accounts.id account = AccessSessions.account_id access /\
    AuthorizationContext.tenant_id (authorization_context auth) = TenantId_from_uuid (AccessSessions.tenant_id access) /\
    AuthorizationContext.account_id (authorization_context auth) = AccountId_from_uuid (AccessSessions.account_id access) /\
    roles_for_account (AuthorizationContext.tenant_id (authorization_context auth))
      (AuthorizationContext.account_id (authorization_context auth)) db =
      (db, Ok (AuthorizationContext.roles (authorization_context auth))) /\
    authorization_family_id auth = AccessSessions.family_id access.
Proof.
  unfold access_session_authorization_context. intros (db0 & db1 & [= <- <-] & H)%bind_ok.
  destruct (fetch_optional (access_rows db d now)) as [[[access family] account]|] eqn:Hq; [|done].
  apply head_Some_elem_of in Hq. unfold access_rows in Hq.
  apply list_elem_of_bind in Hq as (x & Hq & (Hp & Hx)%list_elem_of_filter).
  apply list_elem_of_bind in Hq as (y & Hq & (Hp' & Hy)%list_elem_of_filter).
  apply list_elem_of_bind in Hq as (z & [= -> -> ->]%list_elem_of_singleton & (Hp'' & Hz)%list_elem_of_filter).
  apply bind_ok in H as (db0 & st & [= <- _] & H). destruct (negb (permits_session st)); [done|].
  apply bind_ok in H as (db0 & roles & Hroles & [= <- <-]).
  assert (db0 = db) as -> by (by apply bind_ok in Hroles as (db1 & db2 & [= <- <-] & [= <- _])).
  split; [done|]. exists x, y, z. cbn. naive_solver.
Qed.

Lemma dead_family_authorises_nothing db f d now db' auth :
  sessions_wf db -> f ∈ session_families db -> SessionFamilies.revoked_at f <> None ->
  access_session_authorization_context d now db = (db', Ok (Some auth)) ->
  authorization_family_id auth <> SessionFamilies.id f.
Proof.
  intros Hwf Hf Hr (_ & x & y & z & Hx & _ & _ & _ & Hy & Hyi & Hyr & _ & _ & _ & _ & _ & ->)%authorised_rows Heq.
  assert (y = f) as -> by (eapply unique_row; [apply (wf_families _ Hwf)|done..|congruence]). done.
Qed.

Lemma dead_access_authorises_nothing db a d now db' auth :
  sessions_wf db -> a ∈ access_sessions db -> AccessSessions.revoked_at a <> None ->
  AccessSessions.token_digest a = digest_as_bytes d ->
  access_session_authorization_context d now db <> (db', Ok (Some auth)).
Proof.
  intros Hwf Ha Hr Hd (_ & x & y & z & Hx & Hxd & Hxr & _)%authorised_rows.
  assert (x = a) as -> by (eapply unique_row; [apply (wf_access_digests _ Hwf)|done..|congruence]). done.
Qed.

Lemma credential_known db c d :
  sessions_wf db -> c ∈ refresh_credentials db -> RefreshCredentials.token_digest c = digest_as_bytes d ->
  exists f a, fetch_optional (credential_rows db d) = Some (c, f, a).
Proof.
  intros Hwf Hc Hd. destruct (wf_refresh_owned _ Hwf c Hc) as (f & Hf & Hfi & Ht & Ha).
  destruct (wf_family_refs _ Hwf f Hf) as [_ Hta]. unfold tenant_account_exists in Hta.
  apply bool_decide_eq_true, list.Exists_exists in Hta as (a & Hin & Hat & Hai).
  exists f, a. apply credential_found; [done|]. split_and!; try done; congruence.
Qed.

(** The outcome of presenting a spent credential. *)
Lemma spent_presented request now ids db db' r c :
  sessions_wf db -> c ∈ refresh_credentials db -> RefreshCredentials.consumed_at c <> None ->
  RefreshCredentials.token_digest c = digest_as_bytes (presented_digest request) ->
  rotate_refresh_credential request now ids db = (db', Ok r) ->
  (r = ReuseDetected \/ r = Denied) /\
  exists f, f ∈ session_families db' /\ SessionFamilies.id f = RefreshCredentials.family_id c /\
    SessionFamilies.revoked_at f <> None.
Proof.
  intros Hwf Hc Hn Hd H. pose proof (rotate_ok _ _ _ _ _ _ Hwf H) as Hr.
  destruct (credential_known db c _ Hwf Hc Hd) as (f & a & Hq). rewrite Hq in Hr.
  apply (credential_found db _ c f a Hwf) in Hq as (_ & _ & Hf & Hfi & _).
  destruct (family_of_credential db c f Hwf Hc Hf Hfi) as [Ht Ha].
  destruct Hr as (st & _ & Hr). destruct r as [record| |].
  - by destruct Hr as [? _].
  - destruct Hr as (_ & Hlive & event & _ & ->). split; [by left|].
    exists (SessionFamilies.revoke (timestamptz now) (lit "refresh_token_reuse") f).
    split; [|done]. apply elem_of_update_where. exists f. split; [done|]. left. split; [|done].
    by split_and!.
  - destruct Hr as (-> & [(_ & Hrev)|[? _]]); [|done]. split; [by right|]. by exists f.
Qed.

(** A revoked family is never renewed. *)
Lemma dead_family_renews_nothing request now ids db db' record f :
  sessions_wf db -> f ∈ session_families db -> SessionFamilies.revoked_at f <> None ->
  rotate_refresh_credential request now ids db = (db', Ok (Rotated record)) ->
  rotation_family_id record <> SessionFamilies.id f.
Proof.
  intros Hwf Hf Hr H Heq. pose proof (rotate_ok _ _ _ _ _ _ Hwf H) as Ho.
  destruct (fetch_optional _) as [[[c g] a]|] eqn:Hq; [|by destruct Ho].
  apply (credential_found db _ c g a Hwf) in Hq as (_ & _ & Hg & Hgi & _).
  destruct Ho as (st & _ & _ & (Hlive & _) & _ & _ & _ & Hrf & _).
  assert (g = f) as -> by (eapply unique_row; [apply (wf_families _ Hwf)|done..|congruence]). done.
Qed.

Lemma exchanged_from request now ids db db' record :
  sessions_wf db -> rotate_refresh_credential request now ids db = (db', Ok (Rotated record)) ->
  exists c, c ∈ refresh_credentials db /\
    RefreshCredentials.token_digest c = digest_as_bytes (presented_digest request) /\
    RefreshCredentials.family_id c = rotation_family_id record.
Proof.
  intros Hwf H. pose proof (rotate_ok _ _ _ _ _ _ Hwf H) as Ho.
  destruct (fetch_optional _) as [[[c f] a]|] eqn:Hq; [|by destruct Ho].
  apply (credential_found db _ c f a Hwf) in Hq as (Hc & Hd & _).
  destruct Ho as (st & _ & Hn & _ & _ & _ & _ & Hrf & _). by exists c.
Qed.

(** An exchange leaves the credential spent. *)
Lemma exchanged_spent request now ids db db' record :
  sessions_wf db -> rotate_refresh_credential request now ids db = (db', Ok (Rotated record)) ->
  exists c, c ∈ refresh_credentials db' /\ RefreshCredentials.consumed_at c <> None /\
    RefreshCredentials.token_digest c = digest_as_bytes (presented_digest request) /\
    RefreshCredentials.family_id c = rotation_family_id record.
Proof.
  intros Hwf H. pose proof (rotate_ok _ _ _ _ _ _ Hwf H) as Ho.
  destruct (fetch_optional _) as [[[c f] a]|] eqn:Hq; [|by destruct Ho].
  apply (credential_found db _ c f a Hwf) in Hq as (Hc & Hd & _).
  destruct Ho as (st & _ & Hn & _ & _ & _ & _ & Hrf & event & _ & ->).
  exists (RefreshCredentials.consume (timestamptz now) (new_credential ids) c).
  split; [|done]. apply elem_of_app. left. apply elem_of_update_where. exists c. split; [done|].
  left. done.
Qed.

(** ** The guarantees *)

(** C21: A refresh credential is exchanged at most once.  Whatever happened since
    it was exchanged, presenting it again is refused and leaves its family
    revoked; and no later access authorises under that family, and no later
    rotation renews it. *)
Theorem refresh_credential_once request now ids db db1 record db2 request' now' ids' db3 r db4 :
  sessions_wf db ->
  rotate_refresh_credential request now ids db = (db1, Ok (Rotated record)) ->
  rtc session_step db1 db2 ->
  presented_digest request' = presented_digest request ->
  rotate_refresh_credential request' now' ids' db2 = (db3, Ok r) ->
  rtc session_step db3 db4 ->
  (r = ReuseDetected \/ r = Denied) /\
  (forall d t db' auth, access_session_authorization_context d t db4 = (db', Ok (Some auth)) ->
     authorization_family_id auth <> rotation_family_id record) /\
  (forall request'' t ids'' db' record', rotate_refresh_credential request'' t ids'' db4 = (db', Ok (Rotated record')) ->
     rotation_family_id record' <> rotation_family_id record).
Proof.
  intros Hwf H Hs Hd H' Hs'. assert (Hwf1 := wf_rotate _ _ _ _ _ _ Hwf H).
  assert (Hwf2 := steps_wf _ _ Hs Hwf1). assert (Hwf3 := wf_rotate _ _ _ _ _ _ Hwf2 H').
  assert (Hwf4 := steps_wf _ _ Hs' Hwf3).
  destruct (exchanged_spent _ _ _ _ _ _ Hwf H) as (c & Hc & Hn & Hcd & Hcf).
  rewrite <- Hd in Hcd. apply (retains_refresh _ _ (steps_retain _ _ Hs Hwf1)) in Hc; [|done].
  destruct (spent_presented _ _ _ _ _ _ c Hwf2 Hc Hn Hcd H') as (Hr & f & Hf & Hfi & Hfr).
  apply (retains_families _ _ (steps_retain _ _ Hs' Hwf3)) in Hf; [|done].
  rewrite <- Hcf, <- Hfi. split; [done|]. split; intros.
  - by eapply dead_family_authorises_nothing.
  - by eapply dead_family_renews_nothing.
Qed.

(** Revocation is final.  After a successful call of
    [revoke_refresh_session_family] for a family of the given account, in every
    later state no access session authorises under the family and no refresh
    credential of it is renewed, whether the call found it live or already
    revoked. *)
Theorem revocation_final tenant account family cid now aid db db1 b db2 f :
  sessions_wf db ->
  f ∈ session_families db -> SessionFamilies.id f = family ->
  SessionFamilies.tenant_id f = tenant_as_uuid tenant ->
  SessionFamilies.account_id f = account_as_uuid account ->
  revoke_refresh_session_family tenant account family cid now aid db = (db1, Ok b) ->
  rtc session_step db1 db2 ->
  (b = true <-> SessionFamilies.revoked_at f = None) /\
  (forall d t db' auth, access_session_authorization_context d t db2 = (db', Ok (Some auth)) ->
     authorization_family_id auth <> family) /\
  (forall request t ids db' record, rotate_refresh_credential request t ids db2 = (db', Ok (Rotated record)) ->
     rotation_family_id record <> family).
Proof.
  intros Hwf Hf <- Ht Ha Hrun Hs. apply revoke_inv in Hrun.
  assert (Hwf1 := wf_revoke_family _ _ _ _ _ _ _ _ _ _ Hwf Hrun). assert (Hwf2 := steps_wf _ _ Hs Hwf1).
  assert (exists g, g ∈ session_families db1 /\ SessionFamilies.id g = SessionFamilies.id f /\
    SessionFamilies.revoked_at g <> None /\ (b = true <-> SessionFamilies.revoked_at f = None))
    as (g & Hg & Hgi & Hgr & Hb).
  { destruct (revoke_family_ok _ _ _ _ _ _ _ _ _ _ Hwf Hrun)
      as [(-> & -> & Hno)|(-> & (h & Hh & Hhi & _ & _ & Hhr) & event & _ & ->)].
    - assert (Hr : SessionFamilies.revoked_at f <> None) by (intros Hr; by apply (Hno f Hf)). by exists f.
    - assert (h = f) as -> by (eapply unique_row; [apply (wf_families _ Hwf)|done..]).
      exists (SessionFamilies.revoke (timestamptz now) (lit "explicit_revocation") f).
      split; [|done]. apply elem_of_update_where. exists f. split; [done|]. by left. }
  apply (retains_families _ _ (steps_retain _ _ Hs Hwf1)) in Hg; [|done].
  split; [done|]. rewrite <- Hgi. split; intros.
  - by eapply dead_family_authorises_nothing.
  - by eapply dead_family_renews_nothing.
Qed.

(** Exchanging a refresh credential ends every access session its family had:
    from then on no access token issued to the family before the exchange
    authorises anything. *)
Theorem exchange_retires_access request now ids db db1 record db2 a d t db' auth :
  sessions_wf db ->
  rotate_refresh_credential request now ids db = (db1, Ok (Rotated record)) ->
  a ∈ access_sessions db -> AccessSessions.family_id a = rotation_family_id record ->
  AccessSessions.token_digest a = digest_as_bytes d ->
  rtc session_step db1 db2 ->
  access_session_authorization_context d t db2 <> (db', Ok (Some auth)).
Proof.
  intros Hwf H Hin Hfam Hd Hs. assert (Hwf1 := wf_rotate _ _ _ _ _ _ Hwf H).
  assert (Hwf2 := steps_wf _ _ Hs Hwf1). pose proof (rotate_ok _ _ _ _ _ _ Hwf H) as Ho.
  destruct (fetch_optional _) as [[[c f] acc]|]; [|by destruct Ho].
  destruct Ho as (st & _ & _ & _ & _ & _ & _ & Hrf & event & _ & Hdb1).
  assert (exists x, x ∈ access_sessions db1 /\ AccessSessions.revoked_at x <> None /\
    AccessSessions.token_digest x = digest_as_bytes d) as (x & Hx & Hxr & Hxd).
  { destruct (decide (live_access (RefreshCredentials.family_id c) a)) as [Hl|Hl].
    - exists (AccessSessions.revoke (timestamptz now) a). split; [|done]. rewrite Hdb1.
      apply elem_of_app. left. apply elem_of_update_where. exists a. split; [done|]. by left.
    - exists a. split; [|split; [|done]].
      + rewrite Hdb1. apply elem_of_app. left. apply elem_of_update_where. exists a. split; [done|]. by right.
      + intros Hn. apply Hl. by split; [congruence|done]. }
  apply (retains_access _ _ (steps_retain _ _ Hs Hwf1)) in Hx; [|done].
  by eapply dead_access_authorises_nothing.
Qed.

(** ** The chain of a family *)

(** The credentials of a family, in the order they were issued. *)
Definition tokens db (family : Uuid) : list RefreshCredentials.row :=
  filter (fun c => RefreshCredentials.family_id c = family) (refresh_credentials db).

(** Each credential but the last was exchanged for the next; the last is unspent. *)
Fixpoint chain (l : list RefreshCredentials.row) : Prop :=
  match l with
  | [] => False
  | [c] => RefreshCredentials.consumed_at c = None /\ RefreshCredentials.replaced_by c = None
  | c :: ((c' :: _) as rest) => RefreshCredentials.consumed_at c <> None /\
      RefreshCredentials.replaced_by c = Some (RefreshCredentials.id c') /\ chain rest
  end.

Definition chained db : Prop := forall f, f ∈ session_families db -> chain (tokens db (SessionFamilies.id f)).

Lemma chain_last l :
  chain l -> exists h c, l = h ++ [c] /\ Forall (fun x => RefreshCredentials.consumed_at x <> None) h /\
    RefreshCredentials.consumed_at c = None.
Proof.
  induction l as [|c [|c' l] IH]; [done| |].
  - intros [Hc _]. by exists [], c.
  - intros (Hc & _ & (h & x & Heq & Hh & Hx)%IH). exists (c :: h), x. rewrite Heq. split_and!; [done| |done].
    by constructor.
Qed.

Lemma chain_extend h c s now :
  chain (h ++ [c]) -> RefreshCredentials.consumed_at s = None -> RefreshCredentials.replaced_by s = None ->
  chain (h ++ [RefreshCredentials.consume now (RefreshCredentials.id s) c; s]).
Proof.
  intros Hc Hs Hr. induction h as [|x [|y h] IH]; [done| |].
  - destruct Hc as (? & ? & ?). by split_and!.
  - destruct Hc as (? & ? & ?%IH). by split_and!.
Qed.

(** ** The specification of rotation *)

(** A family as its clients see it: the digests it has retired, the one it
    accepts and whether it is alive. *)
Record Chain : Type := { past : list (array 32); current : array 32; alive : bool }.

Inductive Outcome : Type := Renewed | Reused | Refused.

(** Presenting a credential: the current one is renewed, a retired one kills the
    family. *)
Definition present (ch : Chain) (d : array 32) (renewable : bool) (next : array 32) : Chain * Outcome :=
  if decide (d = current ch) then
    if alive ch && renewable
    then ({| past := past ch ++ [current ch]; current := next; alive := true |}, Renewed)
    else (ch, Refused)
  else if decide (d ∈ past ch) then
    if alive ch then ({| past := past ch; current := current ch; alive := false |}, Reused) else (ch, Refused)
  else (ch, Refused).

Definition represents db (family : Uuid) (ch : Chain) : Prop :=
  exists f h c, f ∈ session_families db /\ SessionFamilies.id f = family /\
    tokens db family = h ++ [c] /\ chain (h ++ [c]) /\
    past ch = RefreshCredentials.token_digest <$> h /\ current ch = RefreshCredentials.token_digest c /\
    alive ch = bool_decide (SessionFamilies.revoked_at f = None).

(** The credential has not expired and its account may hold a session. *)
Definition renewable db (d : OpaqueTokenDigest) (now : OffsetDateTime) : bool :=
  match fetch_optional (credential_rows db d) with
  | Some (c, _, a) => negb (datetime_leb (from_timestamptz (RefreshCredentials.expires_at c)) now)
      && match parse_account_state (Accounts.state a) with Ok st => permits_session st | Err _ => false end
  | None => false
  end.

Definition outcome (r : RefreshRotation) : Outcome :=
  match r with Rotated _ => Renewed | ReuseDetected => Reused | Denied => Refused end.

Lemma represents_alive db family ch c f :
  sessions_wf db -> represents db family ch -> c ∈ refresh_credentials db ->
  RefreshCredentials.family_id c = family -> f ∈ session_families db ->
  SessionFamilies.id f = RefreshCredentials.family_id c ->
  alive ch = bool_decide (SessionFamilies.revoked_at f = None).
Proof.
  intros Hwf (g & h & c0 & Hg & Hgi & _ & _ & _ & _ & ->) Hc Hfam Hf Hfi.
  assert (g = f) as -> by (eapply unique_row; [apply (wf_families _ Hwf)|done..|congruence]). done.
Qed.

Lemma represents_unknown db family ch d :
  represents db family ch ->
  (forall c, c ∈ refresh_credentials db -> RefreshCredentials.token_digest c <> d) ->
  d <> current ch /\ d ∉ past ch.
Proof.
  intros (f & h & c0 & _ & _ & Htok & _ & -> & -> & _) Hno.
  assert (Hin : forall x, x ∈ h ++ [c0] -> RefreshCredentials.token_digest x <> d).
  { intros x Hx. apply Hno. rewrite <- Htok in Hx. unfold tokens in Hx. by apply list_elem_of_filter in Hx as [_ ?]. }
  split.
  - intros ->. apply (Hin c0); [|done]. apply elem_of_app. right. by apply list_elem_of_singleton.
  - intros (x & -> & Hx)%list_elem_of_fmap. apply (Hin x); [|done]. apply elem_of_app. by left.
Qed.

(** Where a known credential stands in the chain of a family. *)
Lemma locate db family ch c :
  sessions_wf db -> represents db family ch -> c ∈ refresh_credentials db ->
  (RefreshCredentials.family_id c = family ->
     RefreshCredentials.consumed_at c = None -> RefreshCredentials.token_digest c = current ch) /\
  (RefreshCredentials.family_id c = family -> RefreshCredentials.consumed_at c <> None ->
     RefreshCredentials.token_digest c <> current ch /\ RefreshCredentials.token_digest c ∈ past ch) /\
  (RefreshCredentials.family_id c <> family ->
     RefreshCredentials.token_digest c <> current ch /\ RefreshCredentials.token_digest c ∉ past ch).
Proof.
  intros Hwf (f & h & c0 & Hf & Hfi & Htok & Hch & -> & -> & _) Hc.
  assert (Hin : forall x, x ∈ h ++ [c0] <-> RefreshCredentials.family_id x = family /\ x ∈ refresh_credentials db).
  { intros x. rewrite <- Htok. unfold tokens. by rewrite list_elem_of_filter. }
  assert (Hinj : forall x, x ∈ h ++ [c0] ->
    RefreshCredentials.token_digest c = RefreshCredentials.token_digest x -> x = c).
  { intros x [_ Hx]%Hin Heq. by eapply unique_row; [apply (wf_refresh_digests _ Hwf)|..]. }
  destruct (chain_last _ Hch) as (h' & c' & Heq & Hh & H0).
  apply app_inj_tail in Heq as [<- <-].
  assert (Hlast : c0 ∈ h ++ [c0]) by (apply elem_of_app; right; by apply list_elem_of_singleton).
  destruct (proj1 (Hin c0) Hlast) as [Hc0f Hc0]. split_and!.
  - intros Hfam Hn. f_equal. apply (wf_one_refresh _ Hwf); [done..|congruence|done|done].
  - intros Hfam Hn. split; [intros Heq; by rewrite <- (Hinj c0 Hlast Heq) in Hn|].
    apply list_elem_of_fmap_2. pose proof (proj2 (Hin c) (conj Hfam Hc)) as Hx.
    apply elem_of_app in Hx as [Hx| ->%list_elem_of_singleton]; [done|by destruct Hn].
  - intros Hfam. split; [intros Heq; by rewrite (Hinj c0 Hlast Heq) in Hc0f|].
    intros (x & Heq & Hx)%list_elem_of_fmap.
    assert (Hx' : x ∈ h ++ [c0]) by (apply elem_of_app; by left).
    apply Hfam. rewrite <- (Hinj x Hx' Heq). by apply Hin.
Qed.

Lemma represents_same db db' family ch :
  tokens db' family = tokens db family ->
  (forall f, f ∈ session_families db -> SessionFamilies.id f = family -> f ∈ session_families db') ->
  represents db family ch -> represents db' family ch.
Proof.
  intros Htok Hf (f & h & c & Hin & Hfi & Ht & ?). exists f, h, c. rewrite Htok. auto.
Qed.

Lemma tokens_rotated request now ids c event db family :
  tokens (logged event (rotated request now ids c db)) family =
  update_where (unconsumed (RefreshCredentials.id c)) (RefreshCredentials.consume (timestamptz now) (new_credential ids))
    (tokens db family) ++
  (if decide (RefreshCredentials.family_id c = family) then [successor_row request now ids c] else []).
Proof.
  unfold tokens, logged, rotated. cbn [refresh_credentials with_access with_refresh without_access spent
    set_audit_events set_access_sessions set_refresh_credentials].
  rewrite filter_app, filter_update_where by done. done.
Qed.

(** Only the credential itself is spent. *)
Lemma unconsumed_self db c x :
  sessions_wf db -> c ∈ refresh_credentials db -> x ∈ refresh_credentials db ->
  unconsumed (RefreshCredentials.id c) x -> x = c.
Proof. intros Hwf Hc Hx [Hid _]. by eapply unique_row; [apply (wf_refresh_ids _ Hwf)|..]. Qed.

Lemma represents_rotated_other request now ids c event db family ch :
  sessions_wf db -> c ∈ refresh_credentials db -> RefreshCredentials.family_id c <> family ->
  represents db family ch -> represents (logged event (rotated request now ids c db)) family ch.
Proof.
  intros Hwf Hc Hfam. apply represents_same; [|done].
  rewrite tokens_rotated, decide_False, app_nil_r by done. apply update_where_none.
  intros x [Hx Hin]%list_elem_of_filter Hu. apply Hfam.
  by rewrite <- (unconsumed_self db c x Hwf Hc Hin Hu).
Qed.

Lemma represents_rotated request now ids c event db ch :
  sessions_wf db -> c ∈ refresh_credentials db -> RefreshCredentials.consumed_at c = None ->
  represents db (RefreshCredentials.family_id c) ch ->
  represents (logged event (rotated request now ids c db)) (RefreshCredentials.family_id c)
    {| past := past ch ++ [current ch]; current := digest_as_bytes (rotation_successor request);
       alive := alive ch |}.
Proof.
  intros Hwf Hc Hn Hrep. pose proof (locate db _ ch c Hwf Hrep Hc) as (Hcur & _).
  specialize (Hcur eq_refl Hn).
  destruct Hrep as (f & h & c0 & Hf & Hfi & Htok & Hch & Hp & Hcu & Hal).
  assert (Hin : forall x, x ∈ h ++ [c0] -> x ∈ refresh_credentials db).
  { intros x. rewrite <- Htok. unfold tokens. by intros [_ ?]%list_elem_of_filter. }
  assert (c0 = c) as ->.
  { eapply unique_row; [apply (wf_refresh_digests _ Hwf)| |done|congruence].
    apply Hin, elem_of_app. right. by apply list_elem_of_singleton. }
  destruct (chain_last _ Hch) as (h' & c' & Heq & Hh & _). apply app_inj_tail in Heq as [<- <-].
  rewrite list.Forall_forall in Hh.
  exists f, (h ++ [RefreshCredentials.consume (timestamptz now) (new_credential ids) c]),
    (successor_row request now ids c).
  split; [done|]. split; [done|]. split.
  { rewrite tokens_rotated, Htok, decide_True by done. unfold update_where at 1. rewrite fmap_app. f_equal. f_equal.
    - apply (update_where_none (unconsumed _)). intros x Hx [_ Hu]. by apply (Hh x).
    - simpl. by rewrite decide_True by by split. }
  rewrite <- app_assoc. split; [by apply (chain_extend h c (successor_row request now ids c))|].
  rewrite fmap_app. simpl. rewrite Hp, Hcu. done.
Qed.

Lemma represents_revoked c now reason event db family ch f :
  sessions_wf db -> c ∈ refresh_credentials db -> f ∈ session_families db ->
  SessionFamilies.id f = RefreshCredentials.family_id c -> SessionFamilies.revoked_at f = None ->
  represents db family ch ->
  represents (logged event (revoked c now reason db)) family
    (if decide (RefreshCredentials.family_id c = family)
     then {| past := past ch; current := current ch; alive := false |} else ch).
Proof.
  intros Hwf Hc Hf Hfi Hlive (g & h & c0 & Hg & Hgi & Htok & Hch & Hp & Hcu & Hal).
  destruct (family_of_credential db c f Hwf Hc Hf Hfi) as [Ht Ha]. case_decide as Hfam.
  - exists (SessionFamilies.revoke (timestamptz now) reason f), h, c0. split; [|split_and!; try done; simpl; congruence].
    apply elem_of_update_where. exists f. split; [done|]. by left.
  - exists g, h, c0. split; [|by split_and!].
    apply elem_of_update_where. exists g. split; [done|]. right. split; [|done]. intros [Hid _]. congruence.
Qed.

Lemma rotate_simulates request now ids db db' r family ch :
  sessions_wf db -> represents db family ch ->
  rotate_refresh_credential request now ids db = (db', Ok r) ->
  let d := digest_as_bytes (presented_digest request) in
  let step := present ch d (renewable db (presented_digest request) now)
                (digest_as_bytes (rotation_successor request)) in
  represents db' family (fst step) /\
  (d ∈ past ch ++ [current ch] -> outcome r = snd step) /\
  ((forall c, c ∈ refresh_credentials db -> RefreshCredentials.token_digest c <> d) -> outcome r = Refused).
Proof.
  intros Hwf Hrep H d. pose proof (rotate_ok _ _ _ _ _ _ Hwf H) as Ho. unfold renewable, present.
  destruct (fetch_optional _) as [[[c f] a]|] eqn:Hq.
  - apply (credential_found db _ c f a Hwf) in Hq as (Hc & Hcd & Hf & Hfi & _).
    destruct Ho as (st & -> & Ho). fold d in Hcd.
    pose proof (locate db family ch c Hwf Hrep Hc) as (Hcur & Hpast & Hother). rewrite Hcd in *.
    assert (Hunk : (forall x, x ∈ refresh_credentials db -> RefreshCredentials.token_digest x <> d) -> outcome r = Refused)
      by (intros Hno; by destruct (Hno c Hc)).
    destruct (decide (RefreshCredentials.family_id c = family)) as [Hfam|Hfam].
    + assert (Hal : alive ch = bool_decide (SessionFamilies.revoked_at f = None)) by by eapply represents_alive.
      destruct r as [record| |].
      * destruct Ho as (Hn & (Hlive & Hx & Hst) & _ & _ & _ & _ & event & _ & ->). subst family.
        rewrite decide_True, Hal, bool_decide_eq_true_2, Hx, Hst by auto. split; [|done].
        pose proof (represents_rotated request now ids c event db ch Hwf Hc Hn Hrep) as Hnew.
        rewrite Hal, bool_decide_eq_true_2 in Hnew by done. done.
      * destruct Ho as (Hn & Hlive & event & _ & ->). destruct (Hpast Hfam Hn) as [Hne Hin].
        rewrite decide_False, decide_True, Hal, bool_decide_eq_true_2 by done. split; [|done].
        pose proof (represents_revoked c now (lit "refresh_token_reuse") event db family ch f Hwf Hc Hf Hfi Hlive Hrep)
          as Hnew. by rewrite decide_True in Hnew.
      * destruct Ho as (-> & [[Hn Hdead]|[Hn Hel]]).
        -- destruct (Hpast Hfam Hn) as [Hne Hin]. rewrite decide_False, decide_True, Hal by done.
           by rewrite bool_decide_eq_false_2.
        -- rewrite decide_True by auto. rewrite Hal. destruct (bool_decide _ && _) eqn:E; [|done].
           destruct Hel. apply andb_true_iff in E as [E1 [E2%negb_true_iff E3]%andb_true_iff].
           apply bool_decide_eq_true in E1. done.
    + destruct (Hother Hfam) as [Hne Hni]. rewrite !decide_False by done. simpl.
      split; [|split; [by intros [?| ?%list_elem_of_singleton]%elem_of_app|done]].
      destruct r as [record| |]; [| |by destruct Ho as [-> _]].
      * destruct Ho as (_ & _ & _ & _ & _ & _ & event & _ & ->). by apply represents_rotated_other.
      * destruct Ho as (_ & Hlive & event & _ & ->).
        pose proof (represents_revoked c now (lit "refresh_token_reuse") event db family ch f Hwf Hc Hf Hfi Hlive Hrep)
          as Hnew. by rewrite decide_False in Hnew.
  - destruct Ho as [-> ->].
    assert (Hno : forall c, c ∈ refresh_credentials db -> RefreshCredentials.token_digest c <> d).
    { intros c Hc Hd. destruct (credential_known db c _ Hwf Hc Hd) as (f & a & Hs). by rewrite Hq in Hs. }
    assert (d <> current ch /\ d ∉ past ch) as [Hne Hni] by by apply (represents_unknown db family).
    by rewrite !decide_False.
Qed.

(** ** Every family keeps a chain *)
Lemma chained_represents db :
  chained db <-> forall f, f ∈ session_families db -> exists ch, represents db (SessionFamilies.id f) ch.
Proof.
  split; intros H f Hf.
  - destruct (chain_last _ (H f Hf)) as (h & c & Heq & _).
    exists {| past := RefreshCredentials.token_digest <$> h; current := RefreshCredentials.token_digest c;
              alive := bool_decide (SessionFamilies.revoked_at f = None) |}.
    exists f, h, c. split_and!; try done. rewrite <- Heq. by apply H.
  - destruct (H f Hf) as (ch & g & h & c & _ & _ & Heq & Hch & _). unfold chained. by rewrite Heq.
Qed.

(** Families are never removed, and an operation other than creation adds none. *)
Lemma rotate_families request now ids db db' r f :
  sessions_wf db -> rotate_refresh_credential request now ids db = (db', Ok r) ->
  f ∈ session_families db' -> exists g, g ∈ session_families db /\ SessionFamilies.id g = SessionFamilies.id f.
Proof.
  intros Hwf H Hf. pose proof (rotate_ok _ _ _ _ _ _ Hwf H) as Hr.
  destruct (fetch_optional _) as [[[c g] a]|]; [|destruct Hr as [_ ->]; eauto].
  destruct Hr as (st & _ & Hr). destruct r; [| |destruct Hr as [-> _]; eauto].
  - destruct Hr as (_ & _ & _ & _ & _ & _ & event & _ & ->). eauto.
  - destruct Hr as (_ & _ & event & _ & ->).
    apply elem_of_update_where in Hf as (x & Hx & [[_ ->]|[_ ->]]); eauto.
Qed.

Lemma chained_create request now ids db db' r :
  sessions_wf db -> chained db -> create_refresh_session request now ids db = (db', Ok r) -> chained db'.
Proof.
  intros Hwf Hch (_ & Hf & _ & _ & event & _ & ->)%create_ok.
  apply family_ok_fresh in Hf as [Hfresh _]. rewrite list.Forall_forall in Hfresh.
  assert (Htok : forall fam, tokens (logged event (with_access (new_access_row request now ids)
      (with_refresh (new_refresh_row request now ids) (with_family (new_family_row request now ids) db)))) fam =
    tokens db fam ++ (if decide (new_family ids = fam) then [new_refresh_row request now ids] else [])).
  { intros fam. unfold tokens. simpl. by rewrite filter_app, filter_cons, filter_nil. }
  intros f [Hin| ->%list_elem_of_singleton]%elem_of_app; rewrite Htok.
  - rewrite decide_False, app_nil_r by (intros Heq; by destruct (Hfresh f Hin)). by apply Hch.
  - rewrite decide_True by done. replace (tokens db _) with (@nil RefreshCredentials.row); [done|].
    symmetry. apply elem_of_nil_inv. intros x [Hx Hin]%list_elem_of_filter.
    destruct (wf_refresh_owned _ Hwf x Hin) as (g & Hg & Hgi & _). apply (Hfresh g Hg). by rewrite Hgi, Hx.
Qed.

Lemma chained_step db db' : session_step db db' -> sessions_wf db -> chained db -> chained db'.
Proof.
  intros Hs Hwf Hch. destruct Hs as [request now ids db db' [r|e] H|request now ids db db' [r|e] H
    |t a f cid now aid db db' [r|e] H|db db' H].
  - by eapply chained_create.
  - by rewrite (create_atomic _ _ _ _ _ _ H).
  - apply chained_represents. intros f Hf.
    destruct (rotate_families _ _ _ _ _ _ f Hwf H Hf) as (g & Hg & <-).
    destruct (proj1 (chained_represents db) Hch g Hg) as (ch & Hrep).
    eexists. by apply (rotate_simulates _ _ _ _ _ _ _ _ Hwf Hrep H).
  - by rewrite (rotate_atomic _ _ _ _ _ _ H).
  - apply revoke_inv in H.
    destruct (revoke_family_ok _ _ _ _ _ _ _ _ _ _ Hwf H) as [(_ & -> & _)|(_ & _ & event & _ & ->)]; [done|].
    intros g (x & Hx & [[_ ->]|[_ ->]])%elem_of_update_where; exact (Hch x Hx).
  - by rewrite (revoke_atomic _ _ _ _ _ _ _ _ _ H).
  - destruct H as (Hf & Hr & _). unfold chained, tokens. by rewrite Hf, Hr.
Qed.

(** Every history of session creations, rotations and revocations,
    interleaved with changes of other tables, keeps the invariant of the session
    tables: unique identifiers and digests, every credential and access session
    owned by its family's account, at most one live access session per family and
    none in a revoked one, and the credentials of each family linked in the order
    of issue, all but the last spent. *)
Theorem session_invariant db db' :
  rtc session_step db db' -> sessions_wf db /\ chained db -> sessions_wf db' /\ chained db'.
Proof.
  induction 1 as [|db db1 db2 H _ IH]; [done|]. intros [Hwf Hch]. apply IH. split.
  - by eapply step_wf.
  - by eapply chained_step.
Qed.

(** C8: Rotation implements the specification [present]: each family, seen as its
    chain of digests, takes exactly the specified step, the families the
    credential does not belong to stay as they are, and the caller gets the
    specified outcome; an unknown credential is refused. *)
Theorem rotation_refines request now ids db db' r family ch :
  sessions_wf db -> represents db family ch ->
  rotate_refresh_credential request now ids db = (db', Ok r) ->
  let d := digest_as_bytes (presented_digest request) in
  let step := present ch d (renewable db (presented_digest request) now)
                (digest_as_bytes (rotation_successor request)) in
  represents db' family (fst step) /\
  (d ∈ past ch ++ [current ch] -> outcome r = snd step) /\
  ((forall c, c ∈ refresh_credentials db -> RefreshCredentials.token_digest c <> d) -> outcome r = Refused).
Proof. apply rotate_simulates. Qed.

(** ** Rotation succeeds *)

(** The identifiers and digests drawn for an exchange are new. *)
Definition fresh_exchange db (request : RotationRequest) (ids : SessionIds) : Prop :=
  (forall c, c ∈ refresh_credentials db -> RefreshCredentials.id c <> new_credential ids /\
     RefreshCredentials.replaced_by c <> Some (new_credential ids) /\
     RefreshCredentials.token_digest c <> digest_as_bytes (rotation_successor request)) /\
  (forall a, a ∈ access_sessions db -> AccessSessions.id a <> new_access ids /\
     AccessSessions.token_digest a <> digest_as_bytes (rotation_successor_access request)) /\
  (forall e, e ∈ audit_events db -> AuditEvents.id e <> new_session_audit ids).

Lemma successor_accepted request now ids db c :
  sessions_wf db -> fresh_exchange db request ids -> c ∈ refresh_credentials db ->
  timestamptz now < timestamptz (rotation_successor_expires request) ->
  refresh_ok (spent (RefreshCredentials.id c) (new_credential ids) (timestamptz now) db)
    (successor_row request now ids c) = true.
Proof.
  intros Hwf (Hfresh & _) Hc Hlt. destruct (wf_refresh_owned _ Hwf c Hc) as (f & Hf & Hfi & Ht & Ha).
  destruct (wf_family_refs _ Hwf f Hf) as [Hten Hta]. rewrite Ht in Hten, Hta. rewrite Ha in Hta.
  unfold refresh_ok. rewrite !andb_true_iff, !bool_decide_eq_true, !list.Forall_forall, Z.ltb_lt.
  split_and!; [| |exact Hten|exact Hta| |exact Hlt].
  - intros x (y & Hy & [[_ ->]|[_ ->]])%elem_of_update_where; apply (Hfresh y Hy).
  - intros x (y & Hy & [[_ ->]|[_ ->]])%elem_of_update_where; apply (Hfresh y Hy).
  - apply bool_decide_eq_true, list.Exists_exists. by exists f.
Qed.

Lemma successor_access_accepted request now ids db c :
  sessions_wf db -> fresh_exchange db request ids -> c ∈ refresh_credentials db ->
  access_ok (without_access (RefreshCredentials.family_id c) (timestamptz now)
      (with_refresh (successor_row request now ids c)
        (spent (RefreshCredentials.id c) (new_credential ids) (timestamptz now) db)))
    (successor_access_row request now ids c) = true.
Proof.
  intros Hwf (_ & Hfresh & _) Hc. destruct (wf_refresh_owned _ Hwf c Hc) as (f & Hf & Hfi & Ht & Ha).
  destruct (wf_family_refs _ Hwf f Hf) as [Hten Hta]. rewrite Ht in Hten, Hta. rewrite Ha in Hta.
  unfold access_ok. rewrite !andb_true_iff, !bool_decide_eq_true, !list.Forall_forall.
  split_and!; [| |exact Hten|exact Hta|].
  - intros x (y & Hy & [[_ ->]|[_ ->]])%elem_of_update_where; apply (Hfresh y Hy).
  - intros x (y & Hy & [[_ ->]|[_ ->]])%elem_of_update_where; apply (Hfresh y Hy).
  - apply bool_decide_eq_true, list.Exists_exists. by exists f.
Qed.

(** The account of a credential exists under its tenant. *)
Lemma credential_account db c :
  sessions_wf db -> c ∈ refresh_credentials db ->
  tenant_exists db (RefreshCredentials.tenant_id c) = true /\
  account_exists db (RefreshCredentials.account_id c) = true.
Proof.
  intros Hwf Hc. destruct (wf_refresh_owned _ Hwf c Hc) as (f & Hf & Hfi & <- & <-).
  destruct (wf_family_refs _ Hwf f Hf) as [Hten Hta]. split; [done|].
  unfold tenant_account_exists, account_exists in *. apply bool_decide_eq_true in Hta.
  apply bool_decide_eq_true. eapply list.Exists_impl; [done|]. by intros x [_ ?].
Qed.

Definition exchange_write (request : RotationRequest) (now : OffsetDateTime) (c : RefreshCredentials.row) :
    RefreshRotationWrite :=
  {| write_credential_id := RefreshCredentials.id c;
     write_tenant_id := TenantId_from_uuid (RefreshCredentials.tenant_id c);
     write_account_id := AccountId_from_uuid (RefreshCredentials.account_id c);
     write_family_id := RefreshCredentials.family_id c;
     successor_digest := rotation_successor request;
     successor_access_digest := rotation_successor_access request;
     successor_expires_at := rotation_successor_expires request;
     successor_access_expires_at := rotation_successor_access_expires request;
     write_correlation_id := rotation_correlation_id request; write_now := now |}.

Lemma rotate_locked_run request now ids db c :
  sessions_wf db -> fresh_exchange db request ids -> c ∈ refresh_credentials db ->
  RefreshCredentials.consumed_at c = None -> 1 <= blen (rotation_correlation_id request) <= 128 ->
  timestamptz now < timestamptz (rotation_successor_expires request) ->
  exists db' record, rotate_locked_refresh_credential (exchange_write request now c) ids db = (db', Ok (Rotated record)) /\
    rotation_family_id record = RefreshCredentials.family_id c /\
    rotation_credential_id record = new_credential ids /\ rotation_access_session_id record = new_access ids.
Proof.
  intros Hwf Hfresh Hc Hn Hcid Hlt. destruct (credential_account db c Hwf Hc) as [Hten Hacc].
  eexists _, _. split; [|shelve]. unfold rotate_locked_refresh_credential.
  cbn [exchange_write write_now write_credential_id write_tenant_id write_account_id write_family_id successor_digest
    successor_access_digest successor_expires_at successor_access_expires_at write_correlation_id].
  erewrite bind_step; [|apply consume_refresh_run; split_and!; [reflexivity| |reflexivity]].
  2: { right. apply list.Forall_forall. intros x Hx. by apply (proj1 Hfresh x Hx). }
  rewrite (unconsumed_one db c Hwf Hc Hn). cbn [Nat.eqb negb].
  erewrite bind_step; [|apply insert_refresh_run; split; [by apply successor_accepted|reflexivity]].
  erewrite bind_step; [|reflexivity].
  erewrite bind_step; [|apply insert_access_run; split; [by apply successor_access_accepted|reflexivity]].
  erewrite bind_step; [reflexivity|].
  apply insert_audit_ok. split; [|reflexivity].
  split; [by apply list.Forall_forall, Hfresh|]. split; [exact Hten|]. split; [exact Hacc|exact Hcid].
  Unshelve. all: first [exact tt | done].
Qed.

(** The unspent credential of a live family is always renewed: when it has
    not expired, its account may hold a session and the identifiers and digests
    drawn are new, rotation succeeds and reports the credential's family and the
    identifiers of the new credential and access session. *)
Theorem current_credential_renewed request now ids db family ch :
  sessions_wf db -> represents db family ch -> alive ch = true ->
  digest_as_bytes (presented_digest request) = current ch ->
  renewable db (presented_digest request) now = true ->
  fresh_exchange db request ids -> valid_rotation request now ->
  timestamptz now < timestamptz (rotation_successor_expires request) ->
  exists db' record, rotate_refresh_credential request now ids db = (db', Ok (Rotated record)) /\
    rotation_family_id record = family /\ rotation_credential_id record = new_credential ids /\
    rotation_access_session_id record = new_access ids.
Proof.
  intros Hwf Hrep Halive Hcur Hren Hfresh (Hv & He1 & He2) Hlt. unfold renewable in Hren.
  destruct (fetch_optional (credential_rows db (presented_digest request))) as [[[c f] a]|] eqn:Hq; [|done].
  apply andb_true_iff in Hren as [Hexp%negb_true_iff Hst].
  destruct (parse_account_state (Accounts.state a)) as [st|] eqn:Est; [|done].
  pose proof Hq as (Hc & Hcd & Hf & Hfi & _)%(credential_found db _ c f a Hwf).
  pose proof (locate db family ch c Hwf Hrep Hc) as (_ & Hpast & Hother).
  assert (Hfam : RefreshCredentials.family_id c = family).
  { destruct (decide (RefreshCredentials.family_id c = family)) as [|Hne]; [done|].
    destruct (Hother Hne) as [[] _]. congruence. }
  assert (Hn : RefreshCredentials.consumed_at c = None).
  { destruct (RefreshCredentials.consumed_at c) eqn:E; [|done]. destruct (Hpast Hfam ltac:(done)) as [[] _]. congruence. }
  rewrite (represents_alive db family ch c f Hwf Hrep Hc Hfam Hf Hfi) in Halive.
  apply bool_decide_eq_true in Halive. unfold rotate_refresh_credential.
  erewrite bind_step by (unfold lift; by rewrite Hv). rewrite He1, He2. cbn [orb].
  destruct (rotate_locked_run request now ids db c Hwf Hfresh Hc Hn (store_correlation_ok _ Hv) Hlt)
    as (db' & record & Hrun & Hrf & Hrest).
  exists db', record. rewrite <- Hfam. split; [apply transaction_ok|done].
  rewrite (bind_step get _ db db db eq_refl), Hq.
  erewrite bind_step by (unfold lift; by rewrite Est).
  rewrite Hn, Halive, Hexp, Hst, !bool_decide_eq_false_2 by (by intros []). exact Hrun.
Qed.
End sessions.

(** ** A concrete authority

    One tenant with one active account that opens a session at second 10 and
    exchanges its refresh credential at second 20. *)
Module SessionExamples.
#[local] Existing Instance SampleClock.clock.

Definition uuid (z : Z) : Uuid := array_fill 16 (byte_of_Z z).
Definition token (z : Z) : OpaqueTokenDigest := OpaqueTokenDigest_of (array_fill 32 (byte_of_Z z)).

Definition authority : Db unit :=
  {| tenants := [{| Tenants.id := uuid 1; Tenants.canonical_domain := lit "parley.io";
                    Tenants.policy_version := 1; Tenants.created_at := 0; Tenants.updated_at := 0 |}];
     accounts := [{| Accounts.id := uuid 2; Accounts.tenant_id := uuid 1;
                     Accounts.normalized_localpart := lit "alice"; Accounts.state := lit "active";
                     Accounts.created_at := 0; Accounts.updated_at := 0 |}];
     account_roles := []; password_credentials := []; mfa_totp_factors := [];
     totp_data_key_envelopes := []; webauthn_credentials := []; webauthn_ceremonies := []; step_up_grants := [];
     recovery_code_sets := []; recovery_code_verifiers := []; login_transactions := [];
     session_families := []; refresh_credentials := []; access_sessions := [];
     federation_peers := []; federation_keys := []; federation_replays := []; audit_events := [] |}.

Lemma authority_wf : sessions_wf authority.
Proof.
  split; simpl; first [apply NoDup_singleton | apply NoDup_nil_2 | by intros ? []%elem_of_nil
    | by intros ? ? []%elem_of_nil].
Qed.

Lemma authority_chained : chained authority.
Proof. by intros f []%elem_of_nil. Qed.

Definition opening : CreateRefreshSession :=
  {| create_tenant_id := TenantId_from_uuid (uuid 1); create_account_id := AccountId_from_uuid (uuid 2);
     refresh_digest := token 1; access_digest := token 2;
     refresh_expires_at := SampleClock.second 1000; access_expires_at := SampleClock.second 100;
     create_correlation_id := lit "c" |}.
Definition ids (z : Z) : SessionIds :=
  {| new_family := uuid z; new_credential := uuid (z + 1); new_access := uuid (z + 2);
     new_session_audit := uuid (z + 3) |}.
Definition exchange (d next : Z) : RotationRequest :=
  {| presented_digest := token d; rotation_successor := token next; rotation_successor_access := token (next + 1);
     rotation_successor_expires := SampleClock.second 2000;
     rotation_successor_access_expires := SampleClock.second 200; rotation_correlation_id := lit "c" |}.

Definition opened : Db unit := fst (create_refresh_session opening (SampleClock.second 10) (ids 10) authority).

Definition renews (p : Db unit * result StoreError RefreshRotation) : bool :=
  match snd p with Ok (Rotated _) => true | _ => false end.

Lemma renews_run p : renews p = true -> exists record, p = (fst p, Ok (Rotated record)).
Proof. destruct p as [db [[record| |]|e]]; [by exists record|done..]. Qed.

Lemma opened_run : exists r, create_refresh_session opening (SampleClock.second 10) (ids 10) authority = (opened, Ok r).
Proof. apply (is_ok_run (create_refresh_session opening (SampleClock.second 10) (ids 10) authority)). vm_compute. reflexivity. Qed.

Lemma opened_wf : sessions_wf opened.
Proof. destruct opened_run as [r H]. exact (wf_create _ _ _ _ _ _ authority_wf H). Qed.

Definition exchanged : Db unit := fst (rotate_refresh_credential (exchange 1 3) (SampleClock.second 20) (ids 20) opened).

Lemma exchanged_run : exists record,
  rotate_refresh_credential (exchange 1 3) (SampleClock.second 20) (ids 20) opened = (exchanged, Ok (Rotated record)).
Proof. apply (renews_run (rotate_refresh_credential (exchange 1 3) (SampleClock.second 20) (ids 20) opened)). vm_compute. reflexivity. Qed.

Lemma session_invariant_witness : sessions_wf exchanged /\ chained exchanged.
Proof.
  apply (session_invariant authority exchanged); [|split; [exact authority_wf|exact authority_chained]].
  destruct opened_run as [r Hr]. destruct exchanged_run as [record Hx].
  eapply rtc_l; [exact (step_create _ _ _ _ _ _ Hr)|]. apply rtc_once. exact (step_rotate _ _ _ _ _ _ Hx).
Defined.

Lemma refresh_credential_once_witness : exists db r,
  rotate_refresh_credential (exchange 1 5) (SampleClock.second 30) (ids 30) exchanged = (db, Ok r) /\
  (r = ReuseDetected \/ r = Denied).
Proof.
  destruct exchanged_run as [record Hx].
  destruct (is_ok_run (rotate_refresh_credential (exchange 1 5) (SampleClock.second 30) (ids 30) exchanged))
    as [r Hr]; [vm_compute; reflexivity|].
  eexists _, r. split; [exact Hr|].
  exact (proj1 (refresh_credential_once _ _ _ _ _ _ _ (exchange 1 5) _ _ _ _ _ opened_wf Hx (rtc_refl _ _) eq_refl Hr (rtc_refl _ _))).
Defined.

Lemma opened_family : exists f, f ∈ session_families opened /\ SessionFamilies.id f = uuid 10 /\
  SessionFamilies.tenant_id f = uuid 1 /\ SessionFamilies.account_id f = uuid 2 /\
  SessionFamilies.revoked_at f = None.
Proof.
  exists (new_family_row opening (SampleClock.second 10) (ids 10)). split; [|done].
  destruct opened_run as [r (_ & _ & _ & _ & event & _ & ->)%create_ok].
  apply elem_of_app. right. by apply list_elem_of_singleton.
Qed.

Lemma revocation_final_witness : exists db b,
  revoke_refresh_session_family (TenantId_from_uuid (uuid 1)) (AccountId_from_uuid (uuid 2)) (uuid 10) (lit "c")
    (SampleClock.second 30) (uuid 40) opened = (db, Ok b) /\ b = true.
Proof.
  destruct (is_ok_run (revoke_refresh_session_family (TenantId_from_uuid (uuid 1)) (AccountId_from_uuid (uuid 2))
    (uuid 10) (lit "c") (SampleClock.second 30) (uuid 40) opened)) as [b Hb]; [vm_compute; reflexivity|].
  destruct opened_family as (f & Hf & Hid & Ht & Ha & Hlive). eexists _, b. split; [exact Hb|].
  exact (proj2 (proj1 (revocation_final (TenantId_from_uuid (uuid 1)) (AccountId_from_uuid (uuid 2)) _ _ _ _ _ _ _ _ f
    opened_wf Hf Hid Ht Ha Hb (rtc_refl _ _))) Hlive).
Defined.

Lemma exchanged_family record :
  rotate_refresh_credential (exchange 1 3) (SampleClock.second 20) (ids 20) opened = (exchanged, Ok (Rotated record)) ->
  rotation_family_id record = uuid 10.
Proof.
  intros H. destruct (exchanged_from _ _ _ _ _ _ opened_wf H) as (c & Hc & _ & <-).
  destruct opened_run as [r (_ & _ & _ & _ & event & _ & Hop)%create_ok]. rewrite Hop in Hc.
  apply elem_of_app in Hc as [[]%elem_of_nil| ->%list_elem_of_singleton]. done.
Qed.

Lemma exchange_retires_access_witness :
  access_session_authorization_context (token 2) (SampleClock.second 30) exchanged <>
  (exchanged, Ok (Some {| authorization_context := AuthorizationContext.new (TenantId_from_uuid (uuid 1))
     (AccountId_from_uuid (uuid 2)) Active [] false; authorization_family_id := uuid 10 |})).
Proof.
  destruct exchanged_run as [record Hx].
  apply (exchange_retires_access _ _ _ _ _ _ exchanged (new_access_row opening (SampleClock.second 10) (ids 10))
    (token 2) _ _ _ opened_wf Hx).
  - destruct opened_run as [r (_ & _ & _ & _ & event & _ & ->)%create_ok].
    apply elem_of_app. right. by apply list_elem_of_singleton.
  - symmetry. exact (exchanged_family record Hx).
  - reflexivity.
  - apply rtc_refl.
Defined.

(** The family's chain when it is opened: one credential, alive. *)
Definition opened_chain : Chain := {| past := []; current := digest_as_bytes (token 1); alive := true |}.

Lemma opened_represents : represents opened (uuid 10) opened_chain.
Proof.
  destruct opened_run as [r (_ & _ & _ & _ & event & _ & ->)%create_ok].
  exists (new_family_row opening (SampleClock.second 10) (ids 10)), [], (new_refresh_row opening (SampleClock.second 10) (ids 10)).
  split; [apply elem_of_app; right; by apply list_elem_of_singleton|]. split; [done|].
  split; [|done]. unfold tokens. simpl. rewrite filter_cons, filter_nil. by rewrite decide_True.
Qed.

Lemma opened_renewable : renewable opened (token 1) (SampleClock.second 20) = true.
Proof. vm_compute. reflexivity. Qed.

Lemma rotation_refines_witness :
  represents exchanged (uuid 10)
    {| past := [digest_as_bytes (token 1)]; current := digest_as_bytes (token 3); alive := true |}.
Proof.
  destruct exchanged_run as [record Hx].
  pose proof (rotation_refines _ _ _ _ _ _ (uuid 10) opened_chain opened_wf opened_represents Hx) as [H _].
  cbn [exchange presented_digest rotation_successor] in H. rewrite opened_renewable in H.
  unfold present in H. rewrite decide_True in H by done. exact H.
Defined.

Lemma current_credential_renewed_witness : exists db record,
  rotate_refresh_credential (exchange 1 3) (SampleClock.second 20) (ids 20) opened = (db, Ok (Rotated record)).
Proof.
  destruct (current_credential_renewed (exchange 1 3) (SampleClock.second 20) (ids 20) opened (uuid 10) opened_chain
    opened_wf opened_represents eq_refl eq_refl opened_renewable) as (db & record & H & _).
  - assert (Haudit : Forall (fun e => AuditEvents.id e <> uuid 23) (audit_events opened))
      by (refine (bool_decide_eq_true_1 _ _); vm_compute; reflexivity).
    split; [|split; [|by apply list.Forall_forall]];
      destruct opened_run as [r (_ & _ & _ & _ & event & Hev & ->)%create_ok].
    + intros c [[]%elem_of_nil| ->%list_elem_of_singleton]%elem_of_app. split_and!; vm_compute; congruence.
    + intros a [[]%elem_of_nil| ->%list_elem_of_singleton]%elem_of_app. split_and!; vm_compute; congruence.
  - split_and!; reflexivity.
  - reflexivity.
  - eauto.
Defined.
End SessionExamples.
