(* ===== verification/StoreLogin.v ===== *)
(** * Login transactions, second factors and recovery codes

    [crates/fcp-fabric-store/src/login_transactions.rs] and [mfa.rs].  The
    identifiers an operation draws and the clock it reads are arguments. *)

From Stdlib Require Import ZArith Lia String.
From stdpp Require Import base list option numbers decidable sorting.
From S2P Require Import Prelude Bytes Str Domain Totp Clock Auth Db StoreAccounts StoreSessions.

(** ** Types ([types.rs]) *)
Inductive LoginTransactionStage : Type := MfaEnrollment | MfaChallenge | SessionIssuance.

#[export] Instance LoginTransactionStage_eq_dec : EqDecision LoginTransactionStage.
Proof. solve_decision. Defined.

Definition database_value (s : LoginTransactionStage) : str :=
  match s with
  | MfaEnrollment => lit "mfa_enrollment"
  | MfaChallenge => lit "mfa_challenge"
  | SessionIssuance => lit "session_issuance"
  end.

Record CreateLoginTransaction `{TimeLib} : Type := {
  request_tenant_id : TenantId;
  request_account_id : AccountId;
  request_token_digest : OpaqueTokenDigest;
  request_stage : LoginTransactionStage;
  request_binding_digest : array 32;
  request_factor_id : option Uuid;
  request_expires_at : OffsetDateTime;
  request_correlation_id : str;
}.

Record LoginTransactionRecord `{TimeLib} : Type := {
  transaction_id : Uuid;
  transaction_tenant_id : TenantId;
  transaction_account_id : AccountId;
  transaction_stage : LoginTransactionStage;
  transaction_expires_at : OffsetDateTime;
  transaction_factor_id : option Uuid;
}.

Record PersistedTotpFactor : Type := {
  persisted_factor_id : Uuid;
  persisted_seed : EncryptedTotpSeed;
  last_accepted_step : option Z;
}.

Definition try_from_row (r : TotpFactors.row) : result StoreError PersistedTotpFactor :=
  let? nonce := ok_or (array_try 12 (TotpFactors.seed_nonce r)) InvalidStoredTotp in
  let? digits := if 0 <=? TotpFactors.digits r then Ok (TotpFactors.digits r) else Err InvalidStoredTotp in
  let period_seconds := TotpFactors.period_seconds r in
  if negb (digits =? 6) || negb (period_seconds =? 30) then Err InvalidStoredTotp else
  let? reference := map_err TotpFailure (TotpKeyReference_new (TotpFactors.key_reference r)) in
  Ok {| persisted_factor_id := TotpFactors.id r;
        persisted_seed := {| ciphertext := TotpFactors.seed_ciphertext r; nonce := nonce;
                             key_reference := reference; digits := digits;
                             period_seconds := period_seconds |};
        last_accepted_step := TotpFactors.last_accepted_time_step r |}.

Record StoredTotpDataKeyEnvelope : Type := {
  envelope_key_reference : TotpKeyReference;
  envelope_provider : str;
  envelope_wrapping_key_reference : str;
  envelope_encrypted_data_key : bytes;
}.

Record CreateTotpDataKeyEnvelope `{TimeLib} : Type := {
  create_key_reference : TotpKeyReference;
  create_provider : str;
  create_wrapping_key_reference : str;
  create_encrypted_data_key : bytes;
  create_created_at : OffsetDateTime;
}.

Record RecoveryCodeSetRecord `{TimeLib} : Type := {
  recovery_set_id : Uuid;
  recovery_code_count : Z;
  recovery_created_at : OffsetDateTime;
}.

Section login.
Context {Document : Type} `{T : TimeLib}.
Abbreviation Db := (Db Document).
Abbreviation Tx := (M Db StoreError).

(** ** Login transactions *)

(** The constraints of the table on a new row. *)
Definition login_ok (db : Db) (r : LoginTransactions.row) : bool :=
  bool_decide (Forall (fun r' => LoginTransactions.id r' <> LoginTransactions.id r) (login_transactions db))
  && bool_decide (Forall (fun r' => LoginTransactions.token_digest r' <> LoginTransactions.token_digest r)
       (login_transactions db))
  && tenant_exists db (LoginTransactions.tenant_id r)
  && tenant_account_exists db (LoginTransactions.tenant_id r) (LoginTransactions.account_id r)
  && ((LoginTransactions.issued_at r <? LoginTransactions.expires_at r)
      && bool_decide (LoginTransactions.stage r ∈ [lit "mfa_enrollment"; lit "mfa_challenge";
           lit "session_issuance"; lit "consumed"; lit "revoked"])).

(** [INSERT ... WHERE EXISTS (SELECT 1 FROM accounts ...)]. *)
Definition insert_login_transaction (r : LoginTransactions.row) : Tx nat :=
  do db <- get;
  if negb (tenant_account_exists db (LoginTransactions.tenant_id r) (LoginTransactions.account_id r))
  then ret 0%nat
  else
    do_ require (login_ok db r);
    do_ modify (set_login_transactions (login_transactions db ++ [r]));
    ret 1%nat.

Definition login_row (request : CreateLoginTransaction) (new_transaction : Uuid) (now : OffsetDateTime) :
    LoginTransactions.row :=
  {| LoginTransactions.id := new_transaction;
     LoginTransactions.tenant_id := tenant_as_uuid (request_tenant_id request);
     LoginTransactions.account_id := account_as_uuid (request_account_id request);
     LoginTransactions.token_digest := digest_as_bytes (request_token_digest request);
     LoginTransactions.stage := database_value (request_stage request);
     LoginTransactions.binding_digest := request_binding_digest request;
     LoginTransactions.factor_id := request_factor_id request;
     LoginTransactions.issued_at := timestamptz now;
     LoginTransactions.expires_at := timestamptz (request_expires_at request);
     LoginTransactions.consumed_at := None |}.

Definition create_login_transaction (request : CreateLoginTransaction) (new_transaction new_audit : Uuid)
    (now : OffsetDateTime) : Tx LoginTransactionRecord :=
  do_ lift (validate_correlation_id (request_correlation_id request));
  if datetime_leb (request_expires_at request) now then fail InvalidLoginTransactionExpiry else
  transaction (
    do created <- insert_login_transaction (login_row request new_transaction now);
    if negb (created =? 1)%nat then fail TargetNotFoundOrUnchanged else
    do_ insert_audit {| audit_id := new_audit; audit_tenant_id := request_tenant_id request;
                        audit_actor_id := Some (request_account_id request);
                        audit_action := LoginTransactionIssued;
                        audit_correlation_id := request_correlation_id request;
                        audit_metadata := [(lit "transaction_id", JUuid new_transaction);
                                           (lit "stage", JText (database_value (request_stage request)))];
                        audit_occurred_at := now |};
    ret {| transaction_id := new_transaction;
           transaction_tenant_id := request_tenant_id request;
           transaction_account_id := request_account_id request;
           transaction_stage := request_stage request;
           transaction_expires_at := request_expires_at request;
           transaction_factor_id := request_factor_id request |}).

(** The [WHERE] of the consuming [UPDATE]. *)
Definition consumable (d : OpaqueTokenDigest) (binding : array 32) (s : LoginTransactionStage) (now : Z)
    (r : LoginTransactions.row) : Prop :=
  LoginTransactions.token_digest r = digest_as_bytes d /\ LoginTransactions.binding_digest r = binding /\
  LoginTransactions.stage r = database_value s /\ LoginTransactions.consumed_at r = None /\
  now < LoginTransactions.expires_at r.
#[export] Instance consumable_dec d b s now r : Decision (consumable d b s now r).
Proof. unfold consumable. apply _. Defined.

(** [UPDATE ... RETURNING]: the rows as they were matched. *)
Definition consume_login_rows (d : OpaqueTokenDigest) (binding : array 32) (s : LoginTransactionStage)
    (now : Z) : Tx (list LoginTransactions.row) :=
  do db <- get;
  do_ modify (set_login_transactions (update_where (consumable d binding s now)
    (LoginTransactions.consume now) (login_transactions db)));
  ret (filter (consumable d binding s now) (login_transactions db)).

Definition consume_login_transaction (d : OpaqueTokenDigest) (expected_stage : LoginTransactionStage)
    (binding_digest : array 32) (correlation_id : str) (new_audit : Uuid) (now : OffsetDateTime) :
    Tx LoginTransactionRecord :=
  do_ lift (validate_correlation_id correlation_id);
  transaction (
    do consumed <- consume_login_rows d binding_digest expected_stage (timestamptz now);
    match fetch_optional consumed with
    | None => fail InvalidOrExpiredLoginTransaction
    | Some r =>
        let tenant_id := TenantId_from_uuid (LoginTransactions.tenant_id r) in
        let account_id := AccountId_from_uuid (LoginTransactions.account_id r) in
        do_ insert_audit {| audit_id := new_audit; audit_tenant_id := tenant_id;
                            audit_actor_id := Some account_id; audit_action := LoginTransactionConsumed;
                            audit_correlation_id := correlation_id;
                            audit_metadata := [(lit "transaction_id", JUuid (LoginTransactions.id r));
                                               (lit "stage", JText (database_value expected_stage))];
                            audit_occurred_at := now |};
        ret {| transaction_id := LoginTransactions.id r; transaction_tenant_id := tenant_id;
               transaction_account_id := account_id; transaction_stage := expected_stage;
               transaction_expires_at := from_timestamptz (LoginTransactions.expires_at r);
               transaction_factor_id := LoginTransactions.factor_id r |}
    end).

(** ** TOTP factors ([mfa.rs]) *)

(** The factor belongs to the account. *)
Definition factor_of (tenant account : Uuid) (r : TotpFactors.row) : Prop :=
  TotpFactors.tenant_id r = tenant /\ TotpFactors.account_id r = account.
#[export] Instance factor_of_dec t a r : Decision (factor_of t a r).
Proof. unfold factor_of. apply _. Defined.

Definition active_factor (tenant account : Uuid) (r : TotpFactors.row) : Prop :=
  factor_of tenant account r /\ TotpFactors.status r = lit "active".
#[export] Instance active_factor_dec t a r : Decision (active_factor t a r).
Proof. unfold active_factor. apply _. Defined.

Definition pending_factor (factor tenant account : Uuid) (r : TotpFactors.row) : Prop :=
  TotpFactors.id r = factor /\ factor_of tenant account r /\ TotpFactors.status r = lit "pending".
#[export] Instance pending_factor_dec f t a r : Decision (pending_factor f t a r).
Proof. unfold pending_factor. apply _. Defined.

Definition has_active_totp_factor (tenant_id : TenantId) (account_id : AccountId) : Tx bool :=
  do db <- get;
  ret (bool_decide (Exists (active_factor (tenant_as_uuid tenant_id) (account_as_uuid account_id))
    (mfa_totp_factors db))).

(** The checks on an envelope's metadata, before it is written and after it is read. *)
Definition envelope_ok (provider wrapping_key_reference : str) (encrypted_data_key : bytes) : bool :=
  negb (negb (bool_decide (provider = lit "aws_kms"))
        || bool_decide (wrapping_key_reference = []) || (2048 <? str_len wrapping_key_reference)
        || existsb is_control wrapping_key_reference
        || bool_decide (encrypted_data_key = []) || (6144 <? blen encrypted_data_key)).

(** [INSERT ... ON CONFLICT (key_reference) DO NOTHING]. *)
Definition insert_envelope (r : TotpDataKeyEnvelopes.row) : Tx nat :=
  do db <- get;
  do_ require ((blen (TotpDataKeyEnvelopes.key_reference r) <=? 256)
    && (blen (TotpDataKeyEnvelopes.provider r) <=? 32)
    && bool_decide (TotpDataKeyEnvelopes.provider r = lit "aws_kms")
    && (blen (TotpDataKeyEnvelopes.wrapping_key_reference r) <=? 2048)
    && (1 <=? blen (TotpDataKeyEnvelopes.encrypted_data_key r))
    && (blen (TotpDataKeyEnvelopes.encrypted_data_key r) <=? 6144));
  if bool_decide (Exists (fun r' => TotpDataKeyEnvelopes.key_reference r' = TotpDataKeyEnvelopes.key_reference r)
       (totp_data_key_envelopes db))
  then ret 0%nat
  else
    do_ modify (set_totp_data_key_envelopes (totp_data_key_envelopes db ++ [r]));
    ret 1%nat.

Definition create_totp_data_key_envelope (request : CreateTotpDataKeyEnvelope) : Tx unit :=
  if negb (envelope_ok (create_provider request) (create_wrapping_key_reference request)
             (create_encrypted_data_key request))
  then fail InvalidTotpDataKeyEnvelope else
  do inserted <- insert_envelope
    {| TotpDataKeyEnvelopes.key_reference := key_reference_as_str (create_key_reference request);
       TotpDataKeyEnvelopes.provider := create_provider request;
       TotpDataKeyEnvelopes.wrapping_key_reference := create_wrapping_key_reference request;
       TotpDataKeyEnvelopes.encrypted_data_key := create_encrypted_data_key request;
       TotpDataKeyEnvelopes.created_at := timestamptz (create_created_at request) |};
  if (inserted =? 1)%nat then ret tt else fail TargetNotFoundOrUnchanged.

Definition totp_data_key_envelope (reference : TotpKeyReference) : Tx (option StoredTotpDataKeyEnvelope) :=
  do db <- get;
  match fetch_optional (filter (fun r => TotpDataKeyEnvelopes.key_reference r = key_reference_as_str reference)
          (totp_data_key_envelopes db)) with
  | None => ret None
  | Some r =>
      if negb (envelope_ok (TotpDataKeyEnvelopes.provider r) (TotpDataKeyEnvelopes.wrapping_key_reference r)
                 (TotpDataKeyEnvelopes.encrypted_data_key r))
      then fail InvalidTotpDataKeyEnvelope
      else ret (Some {| envelope_key_reference := reference;
                        envelope_provider := TotpDataKeyEnvelopes.provider r;
                        envelope_wrapping_key_reference := TotpDataKeyEnvelopes.wrapping_key_reference r;
                        envelope_encrypted_data_key := TotpDataKeyEnvelopes.encrypted_data_key r |})
  end.

(** [i16::try_from]. *)
Definition i16_try (z : Z) : result StoreError Z :=
  if (- 2 ^ 15 <=? z) && (z <? 2 ^ 15) then Ok z else Err InvalidStoredTotp.

(** The constraints of the table on a new pending row. *)
Definition factor_ok (db : Db) (r : TotpFactors.row) : bool :=
  bool_decide (Forall (fun r' => TotpFactors.id r' <> TotpFactors.id r) (mfa_totp_factors db))
  && tenant_exists db (TotpFactors.tenant_id r)
  && tenant_account_exists db (TotpFactors.tenant_id r) (TotpFactors.account_id r)
  && (blen (TotpFactors.seed_nonce r) =? 12)
  && ((TotpFactors.digits r =? 6) || (TotpFactors.digits r =? 8)) && ((TotpFactors.period_seconds r =? 30)
      && bool_decide (TotpFactors.status r ∈ [lit "pending"; lit "active"; lit "disabled"])
      && bool_decide (TotpFactors.algorithm r ∈ [lit "sha256"; lit "sha512"])).

Definition insert_factor (r : TotpFactors.row) : Tx nat :=
  do db <- get;
  if negb (tenant_account_exists db (TotpFactors.tenant_id r) (TotpFactors.account_id r)) then ret 0%nat
  else
    do_ require (factor_ok db r);
    do_ modify (set_mfa_totp_factors (mfa_totp_factors db ++ [r]));
    ret 1%nat.

Definition mfa_audit (tenant_id : TenantId) (account_id : AccountId) (correlation_id : str)
    (metadata : list (str * Json)) (new_audit : Uuid) (now : OffsetDateTime) : AuditWrite :=
  {| audit_id := new_audit; audit_tenant_id := tenant_id; audit_actor_id := Some account_id;
     audit_action := MfaChanged; audit_correlation_id := correlation_id; audit_metadata := metadata;
     audit_occurred_at := now |}.

Definition create_pending_totp_factor (tenant_id : TenantId) (account_id : AccountId) (factor_id : Uuid)
    (encrypted : EncryptedTotpSeed) (correlation_id : str) (new_audit : Uuid) (now : OffsetDateTime) : Tx unit :=
  do_ lift (validate_correlation_id correlation_id);
  transaction (
    do stored_digits <- lift (i16_try (digits encrypted));
    do stored_period <- lift (i16_try (period_seconds encrypted));
    do affected <- insert_factor
      {| TotpFactors.id := factor_id; TotpFactors.tenant_id := tenant_as_uuid tenant_id;
         TotpFactors.account_id := account_as_uuid account_id; TotpFactors.status := lit "pending";
         TotpFactors.seed_ciphertext := ciphertext encrypted; TotpFactors.seed_nonce := abytes (nonce encrypted);
         TotpFactors.key_reference := key_reference_as_str (key_reference encrypted);
         TotpFactors.algorithm := lit "sha256"; TotpFactors.digits := stored_digits;
         TotpFactors.period_seconds := stored_period; TotpFactors.last_accepted_time_step := None;
         TotpFactors.created_at := timestamptz now; TotpFactors.activated_at := None |};
    if negb (affected =? 1)%nat then fail TargetNotFoundOrUnchanged else
    insert_audit (mfa_audit tenant_id account_id correlation_id
      [(lit "factor_id", JUuid factor_id); (lit "operation", JText (lit "pending_created"))] new_audit now)).

Definition load_factor (rows : list TotpFactors.row) : result StoreError (option PersistedTotpFactor) :=
  match fetch_optional rows with
  | None => Ok None
  | Some r => let? f := try_from_row r in Ok (Some f)
  end.

Definition active_totp_factor (tenant_id : TenantId) (account_id : AccountId) : Tx (option PersistedTotpFactor) :=
  do db <- get;
  lift (load_factor (filter (active_factor (tenant_as_uuid tenant_id) (account_as_uuid account_id))
    (mfa_totp_factors db))).

Definition pending_totp_factor (tenant_id : TenantId) (account_id : AccountId) (factor_id : Uuid) :
    Tx (option PersistedTotpFactor) :=
  do db <- get;
  lift (load_factor (filter (pending_factor factor_id (tenant_as_uuid tenant_id) (account_as_uuid account_id))
    (mfa_totp_factors db))).

(** The account waits for its first factor, or is active. *)
Definition account_in (tenant account : Uuid) (st : str) (r : Accounts.row) : Prop :=
  Accounts.id r = account /\ Accounts.tenant_id r = tenant /\ Accounts.state r = st.
#[export] Instance account_in_dec t a st r : Decision (account_in t a st r).
Proof. unfold account_in. apply _. Defined.

Definition activatable (db : Db) (factor tenant account : Uuid) (r : TotpFactors.row) : Prop :=
  pending_factor factor tenant account r /\
  Exists (account_in tenant account (lit "mfa_enrollment_required")) (accounts db).
#[export] Instance activatable_dec db f t a r : Decision (activatable db f t a r).
Proof. unfold activatable. apply _. Defined.

(** The first [UPDATE]; an account has one active factor at most. *)
Definition activate_factor (factor tenant account : Uuid) (now step : Z) : Tx nat :=
  do db <- get;
  let n := rows_affected (activatable db factor tenant account) (mfa_totp_factors db) in
  do_ require ((n =? 0)%nat || bool_decide (Forall (fun r => ~ active_factor tenant account r) (mfa_totp_factors db)));
  do_ modify (set_mfa_totp_factors (update_where (activatable db factor tenant account)
    (TotpFactors.activate now step) (mfa_totp_factors db)));
  ret n.

(** The second [UPDATE]. *)
Definition activate_account (tenant account : Uuid) (now : Z) : Tx nat :=
  do db <- get;
  do_ modify (set_accounts (update_where (account_in tenant account (lit "mfa_enrollment_required"))
    (Accounts.set_state (lit "active") now) (accounts db)));
  ret (rows_affected (account_in tenant account (lit "mfa_enrollment_required")) (accounts db)).

Definition activate_totp_factor (tenant_id : TenantId) (account_id : AccountId) (factor_id : Uuid)
    (accepted_step : Z) (correlation_id : str) (new_audit : Uuid) (now : OffsetDateTime) : Tx unit :=
  do_ lift (validate_correlation_id correlation_id);
  let tenant := tenant_as_uuid tenant_id in
  let account := account_as_uuid account_id in
  transaction (
    do activated <- activate_factor factor_id tenant account (timestamptz now) accepted_step;
    if negb (activated =? 1)%nat then fail TargetNotFoundOrUnchanged else
    do account_activated <- activate_account tenant account (timestamptz now);
    if negb (account_activated =? 1)%nat then fail TargetNotFoundOrUnchanged else
    insert_audit (mfa_audit tenant_id account_id correlation_id
      [(lit "factor_id", JUuid factor_id); (lit "operation", JText (lit "activated"))] new_audit now)).

(** The [WHERE] of [consume_totp_step]. *)
Definition step_usable (db : Db) (factor tenant account : Uuid) (step : Z) (r : TotpFactors.row) : Prop :=
  TotpFactors.id r = factor /\ active_factor tenant account r /\
  match TotpFactors.last_accepted_time_step r with None => True | Some last => last < step end /\
  Exists (account_in tenant account (lit "active")) (accounts db).
#[export] Instance step_usable_dec db f t a s r : Decision (step_usable db f t a s r).
Proof. unfold step_usable. destruct (TotpFactors.last_accepted_time_step r); apply _. Defined.

Definition consume_totp_step (tenant_id : TenantId) (account_id : AccountId) (factor_id : Uuid)
    (accepted_step : Z) : Tx unit :=
  let tenant := tenant_as_uuid tenant_id in
  let account := account_as_uuid account_id in
  do db <- get;
  do_ modify (set_mfa_totp_factors (update_where (step_usable db factor_id tenant account accepted_step)
    (TotpFactors.accept_step accepted_step) (mfa_totp_factors db)));
  if (rows_affected (step_usable db factor_id tenant account accepted_step) (mfa_totp_factors db) =? 1)%nat
  then ret tt else fail TargetNotFoundOrUnchanged.

(** ** Recovery codes *)
Definition live_set (tenant account : Uuid) (r : RecoveryCodeSets.row) : Prop :=
  RecoveryCodeSets.tenant_id r = tenant /\ RecoveryCodeSets.account_id r = account /\
  RecoveryCodeSets.invalidated_at r = None.
#[export] Instance live_set_dec t a r : Decision (live_set t a r).
Proof. unfold live_set. apply _. Defined.

Definition invalidate_sets (tenant account : Uuid) (now : Z) : Tx unit :=
  do db <- get;
  modify (set_recovery_code_sets (update_where (live_set tenant account) (RecoveryCodeSets.invalidate now)
    (recovery_code_sets db))).

(** An account has one live set at most. *)
Definition insert_code_set (r : RecoveryCodeSets.row) : Tx nat :=
  do db <- get;
  if negb (tenant_account_exists db (RecoveryCodeSets.tenant_id r) (RecoveryCodeSets.account_id r)) then ret 0%nat
  else
    do_ require (bool_decide (Forall (fun r' => RecoveryCodeSets.id r' <> RecoveryCodeSets.id r) (recovery_code_sets db))
      && tenant_exists db (RecoveryCodeSets.tenant_id r)
      && bool_decide (Forall (fun r' => ~ live_set (RecoveryCodeSets.tenant_id r) (RecoveryCodeSets.account_id r) r')
           (recovery_code_sets db)));
    do_ modify (set_recovery_code_sets (recovery_code_sets db ++ [r]));
    ret 1%nat.

Definition insert_verifier (r : RecoveryCodeVerifiers.row) : Tx unit :=
  do db <- get;
  do_ require (bool_decide (Forall (fun r' => RecoveryCodeVerifiers.id r' <> RecoveryCodeVerifiers.id r)
      (recovery_code_verifiers db))
    && bool_decide (Exists (fun s => RecoveryCodeSets.id s = RecoveryCodeVerifiers.set_id r) (recovery_code_sets db))
    && bool_decide (Forall (fun r' => ~ (RecoveryCodeVerifiers.set_id r' = RecoveryCodeVerifiers.set_id r /\
         RecoveryCodeVerifiers.verifier r' = RecoveryCodeVerifiers.verifier r)) (recovery_code_verifiers db)));
  modify (set_recovery_code_verifiers (recovery_code_verifiers db ++ [r])).

Definition verifier_row (set_id : Uuid) (id : Uuid) (verifier : str) : RecoveryCodeVerifiers.row :=
  {| RecoveryCodeVerifiers.id := id; RecoveryCodeVerifiers.set_id := set_id;
     RecoveryCodeVerifiers.verifier := verifier; RecoveryCodeVerifiers.consumed_at := None |}.

(** The loop over the verifiers; [drawn i] is the [i]th identifier drawn. *)
Fixpoint insert_verifiers (set_id : Uuid) (drawn : nat -> Uuid) (verifiers : list str) : Tx unit :=
  match verifiers with
  | [] => ret tt
  | v :: rest =>
      do_ insert_verifier (verifier_row set_id (drawn 0%nat) v);
      insert_verifiers set_id (fun i => drawn (S i)) rest
  end.

Definition verifier_bounded (v : str) : bool := negb (bool_decide (v = []) || (128 <? str_len v)).

Definition replace_recovery_code_set (tenant_id : TenantId) (account_id : AccountId) (verifiers : list str)
    (correlation_id : str) (new_set : Uuid) (drawn : nat -> Uuid) (new_audit : Uuid) (now : OffsetDateTime) :
    Tx RecoveryCodeSetRecord :=
  do_ lift (validate_correlation_id correlation_id);
  if negb ((8 <=? blen verifiers) && (blen verifiers <=? 16)) || existsb (fun v => negb (verifier_bounded v)) verifiers
  then fail InvalidRecoveryCodeSet else
  let tenant := tenant_as_uuid tenant_id in
  let account := account_as_uuid account_id in
  transaction (
    do_ invalidate_sets tenant account (timestamptz now);
    do created <- insert_code_set
      {| RecoveryCodeSets.id := new_set; RecoveryCodeSets.tenant_id := tenant;
         RecoveryCodeSets.account_id := account; RecoveryCodeSets.created_at := timestamptz now;
         RecoveryCodeSets.invalidated_at := None |};
    if negb (created =? 1)%nat then fail TargetNotFoundOrUnchanged else
    do_ insert_verifiers new_set drawn verifiers;
    do_ insert_audit (mfa_audit tenant_id account_id correlation_id
      [(lit "operation", JText (lit "recovery_set_replaced")); (lit "count", JNumber (blen verifiers))] new_audit now);
    ret {| recovery_set_id := new_set; recovery_code_count := blen verifiers; recovery_created_at := now |}).

(** The join of the consuming [UPDATE]. *)
Definition code_usable (db : Db) (tenant account : Uuid) (verifier : str) (r : RecoveryCodeVerifiers.row) : Prop :=
  Exists (fun s => RecoveryCodeVerifiers.set_id r = RecoveryCodeSets.id s /\ live_set tenant account s)
    (recovery_code_sets db) /\
  RecoveryCodeVerifiers.verifier r = verifier /\ RecoveryCodeVerifiers.consumed_at r = None.
#[export] Instance code_usable_dec db t a v r : Decision (code_usable db t a v r).
Proof. unfold code_usable. apply _. Defined.

Definition consume_recovery_code (tenant_id : TenantId) (account_id : AccountId) (verifier correlation_id : str)
    (new_audit : Uuid) (now : OffsetDateTime) : Tx bool :=
  do_ lift (validate_correlation_id correlation_id);
  if negb (verifier_bounded verifier) then ret false else
  let tenant := tenant_as_uuid tenant_id in
  let account := account_as_uuid account_id in
  transaction (
    do db <- get;
    do_ modify (set_recovery_code_verifiers (update_where (code_usable db tenant account verifier)
      (RecoveryCodeVerifiers.consume (timestamptz now)) (recovery_code_verifiers db)));
    match fetch_optional (filter (code_usable db tenant account verifier) (recovery_code_verifiers db)) with
    | None => ret false
    | Some _ =>
        do_ insert_audit (mfa_audit tenant_id account_id correlation_id
          [(lit "operation", JText (lit "recovery_code_consumed"))] new_audit now);
        ret true
    end).

End login.
