(* ===== verification/StorePasskeys.v ===== *)
(** * WebAuthn ceremonies and passkeys

    [crates/fcp-fabric-store/src/webauthn.rs].  The states of ceremonies and the
    passkeys are JSON values the store keeps as they are. *)

From Stdlib Require Import ZArith Lia String.
From stdpp Require Import base list option numbers decidable sorting.
From S2P Require Import Prelude Bytes Str Domain Clock Auth Db StoreAccounts StoreSessions.

(** ** Types ([types.rs]) *)
Inductive WebauthnCeremonyKind : Type := Registration | Authentication.

#[export] Instance WebauthnCeremonyKind_eq_dec : EqDecision WebauthnCeremonyKind.
Proof. solve_decision. Defined.

Definition kind_value (k : WebauthnCeremonyKind) : str :=
  match k with Registration => lit "registration" | Authentication => lit "authentication" end.

Definition parse_webauthn_ceremony_kind (value : str) : result StoreError WebauthnCeremonyKind :=
  if decide (value = lit "registration") then Ok Registration else
  if decide (value = lit "authentication") then Ok Authentication else
  Err CorruptWebauthnCeremonyKind.

(** The [CHECK] list of [webauthn_ceremonies.kind]. *)
Definition ceremony_kind_check (value : str) : bool :=
  bool_decide (value ∈ [lit "registration"; lit "authentication"]).

Record CreateWebauthnCeremony (Document : Type) `{TimeLib} : Type := {
  ceremony_tenant_id : TenantId;
  ceremony_account_id : AccountId;
  ceremony_kind : WebauthnCeremonyKind;
  ceremony_state : Document;
  ceremony_token_digest : OpaqueTokenDigest;
  ceremony_binding_digest : OpaqueTokenDigest;
  ceremony_expires_at : OffsetDateTime;
  ceremony_correlation_id : str;
}.
Arguments ceremony_tenant_id {_ _} _.
Arguments ceremony_account_id {_ _} _.
Arguments ceremony_kind {_ _} _.
Arguments ceremony_state {_ _} _.
Arguments ceremony_token_digest {_ _} _.
Arguments ceremony_binding_digest {_ _} _.
Arguments ceremony_expires_at {_ _} _.
Arguments ceremony_correlation_id {_ _} _.

Record WebauthnCeremonyRecord (Document : Type) : Type := {
  record_tenant_id : TenantId;
  record_account_id : AccountId;
  record_kind : WebauthnCeremonyKind;
  record_state : Document;
}.
Arguments record_tenant_id {_} _.
Arguments record_account_id {_} _.
Arguments record_kind {_} _.
Arguments record_state {_} _.

Record StoredWebauthnPasskey (Document : Type) : Type := {
  stored_credential_id : str;
  stored_passkey : Document;
}.
Arguments stored_credential_id {_} _.
Arguments stored_passkey {_} _.

Record RegisterWebauthnPasskey (Document : Type) : Type := {
  register_tenant_id : TenantId;
  register_account_id : AccountId;
  register_credential_id : str;
  register_passkey : Document;
  register_label : option str;
  register_correlation_id : str;
}.
Arguments register_tenant_id {_} _.
Arguments register_account_id {_} _.
Arguments register_credential_id {_} _.
Arguments register_passkey {_} _.
Arguments register_label {_} _.
Arguments register_correlation_id {_} _.

Section passkeys.
Context {Document : Type} `{T : TimeLib}.
Abbreviation Db := (Db Document).
Abbreviation Tx := (M Db StoreError).

(** ** Ceremonies *)

(** The account exists in one of the states. *)
Definition account_in_states (db : Db) (tenant account : Uuid) (states : list str) : bool :=
  bool_decide (Exists (fun a => Accounts.tenant_id a = tenant /\ Accounts.id a = account /\
    Accounts.state a ∈ states) (accounts db)).

(** The constraints of the table on a new row. *)
Definition ceremony_ok (db : Db) (r : WebauthnCeremonies.row Document) : bool :=
  bool_decide (Forall (fun r' => WebauthnCeremonies.id r' <> WebauthnCeremonies.id r) (webauthn_ceremonies db))
  && bool_decide (Forall (fun r' => WebauthnCeremonies.token_digest r' <> WebauthnCeremonies.token_digest r)
       (webauthn_ceremonies db))
  && tenant_exists db (WebauthnCeremonies.tenant_id r)
  && tenant_account_exists db (WebauthnCeremonies.tenant_id r) (WebauthnCeremonies.account_id r)
  && ceremony_kind_check (WebauthnCeremonies.kind r)
  && (WebauthnCeremonies.created_at r <? WebauthnCeremonies.expires_at r).

(** [INSERT ... WHERE EXISTS (SELECT 1 FROM accounts ...)]. *)
Definition insert_ceremony (r : WebauthnCeremonies.row Document) : Tx nat :=
  do db <- get;
  if negb (account_in_states db (WebauthnCeremonies.tenant_id r) (WebauthnCeremonies.account_id r)
             [lit "active"; lit "mfa_enrollment_required"])
  then ret 0%nat
  else
    do_ require (ceremony_ok db r);
    do_ modify (set_webauthn_ceremonies (webauthn_ceremonies db ++ [r]));
    ret 1%nat.

Definition ceremony_row (request : CreateWebauthnCeremony Document) (new_ceremony : Uuid) (now : OffsetDateTime) :
    WebauthnCeremonies.row Document :=
  {| WebauthnCeremonies.id := new_ceremony;
     WebauthnCeremonies.tenant_id := tenant_as_uuid (ceremony_tenant_id request);
     WebauthnCeremonies.account_id := account_as_uuid (ceremony_account_id request);
     WebauthnCeremonies.kind := kind_value (ceremony_kind request);
     WebauthnCeremonies.state := ceremony_state request;
     WebauthnCeremonies.token_digest := digest_as_bytes (ceremony_token_digest request);
     WebauthnCeremonies.binding_digest := digest_as_bytes (ceremony_binding_digest request);
     WebauthnCeremonies.created_at := timestamptz now;
     WebauthnCeremonies.expires_at := timestamptz (ceremony_expires_at request);
     WebauthnCeremonies.consumed_at := None |}.

Definition create_webauthn_ceremony (request : CreateWebauthnCeremony Document) (new_ceremony new_audit : Uuid)
    (now : OffsetDateTime) : Tx unit :=
  do_ lift (validate_correlation_id (ceremony_correlation_id request));
  if datetime_leb (ceremony_expires_at request) now then fail InvalidWebauthnCeremonyExpiry else
  transaction (
    do created <- insert_ceremony (ceremony_row request new_ceremony now);
    if negb (created =? 1)%nat then fail TargetNotFoundOrUnchanged else
    insert_audit {| audit_id := new_audit; audit_tenant_id := ceremony_tenant_id request;
                    audit_actor_id := Some (ceremony_account_id request);
                    audit_action := WebauthnCeremonyIssued;
                    audit_correlation_id := ceremony_correlation_id request;
                    audit_metadata := [(lit "ceremony_id", JUuid new_ceremony);
                                       (lit "kind", JText (kind_value (ceremony_kind request)))];
                    audit_occurred_at := now |}).

(** The [WHERE] of the consuming [UPDATE]. *)
Definition ceremony_consumable (token binding : OpaqueTokenDigest) (now : Z) (r : WebauthnCeremonies.row Document) : Prop :=
  WebauthnCeremonies.token_digest r = digest_as_bytes token /\
  WebauthnCeremonies.binding_digest r = digest_as_bytes binding /\
  WebauthnCeremonies.consumed_at r = None /\ now < WebauthnCeremonies.expires_at r.
#[export] Instance ceremony_consumable_dec t b now r : Decision (ceremony_consumable t b now r).
Proof. unfold ceremony_consumable. apply _. Defined.

(** [UPDATE ... RETURNING]: the rows as they were matched. *)
Definition consume_ceremony_rows (token binding : OpaqueTokenDigest) (now : Z) :
    Tx (list (WebauthnCeremonies.row Document)) :=
  do db <- get;
  do_ modify (set_webauthn_ceremonies (update_where (ceremony_consumable token binding now)
    (WebauthnCeremonies.consume now) (webauthn_ceremonies db)));
  ret (filter (ceremony_consumable token binding now) (webauthn_ceremonies db)).

(** Without a row the transaction is committed as it began. *)
Definition consume_webauthn_ceremony (token binding : OpaqueTokenDigest) (correlation_id : str) (new_audit : Uuid)
    (now : OffsetDateTime) : Tx (WebauthnCeremonyRecord Document) :=
  do_ lift (validate_correlation_id correlation_id);
  transaction (
    do consumed <- consume_ceremony_rows token binding (timestamptz now);
    match fetch_optional consumed with
    | None => fail InvalidOrExpiredWebauthnCeremony
    | Some r =>
        let tenant_id := TenantId_from_uuid (WebauthnCeremonies.tenant_id r) in
        let account_id := AccountId_from_uuid (WebauthnCeremonies.account_id r) in
        do kind <- lift (parse_webauthn_ceremony_kind (WebauthnCeremonies.kind r));
        do_ insert_audit {| audit_id := new_audit; audit_tenant_id := tenant_id;
                            audit_actor_id := Some account_id; audit_action := WebauthnCeremonyConsumed;
                            audit_correlation_id := correlation_id;
                            audit_metadata := [(lit "kind", JText (kind_value kind))];
                            audit_occurred_at := now |};
        ret {| record_tenant_id := tenant_id; record_account_id := account_id; record_kind := kind;
               record_state := WebauthnCeremonies.state r |}
    end).

(** ** Passkeys *)

(** The credential belongs to the account and is not disabled. *)
Definition active_credential (tenant account : Uuid) (r : WebauthnCredentials.row Document) : Prop :=
  WebauthnCredentials.tenant_id r = tenant /\ WebauthnCredentials.account_id r = account /\
  WebauthnCredentials.disabled_at r = None.
#[export] Instance active_credential_dec t a r : Decision (active_credential t a r).
Proof. unfold active_credential. apply _. Defined.

(** [ORDER BY created_at ASC]. *)
Definition created_le (a b : WebauthnCredentials.row Document) : Prop :=
  WebauthnCredentials.created_at a <= WebauthnCredentials.created_at b.
#[local] Instance created_le_dec : RelDecision created_le.
Proof. intros a b. unfold created_le. apply _. Defined.

Definition active_webauthn_passkeys (tenant_id : TenantId) (account_id : AccountId) :
    Tx (list (StoredWebauthnPasskey Document)) :=
  do db <- get;
  ret ((fun r => {| stored_credential_id := WebauthnCredentials.credential_id r;
                    stored_passkey := WebauthnCredentials.passkey r |})
    <$> merge_sort created_le (filter (active_credential (tenant_as_uuid tenant_id) (account_as_uuid account_id))
          (webauthn_credentials db))).

(** The constraints of the table on a new row. *)
Definition credential_ok (db : Db) (r : WebauthnCredentials.row Document) : bool :=
  bool_decide (Forall (fun r' => WebauthnCredentials.id r' <> WebauthnCredentials.id r) (webauthn_credentials db))
  && bool_decide (Forall (fun r' => WebauthnCredentials.credential_id r' <> WebauthnCredentials.credential_id r)
       (webauthn_credentials db))
  && tenant_exists db (WebauthnCredentials.tenant_id r)
  && tenant_account_exists db (WebauthnCredentials.tenant_id r) (WebauthnCredentials.account_id r)
  && (1 <=? blen (WebauthnCredentials.credential_id r)) && (blen (WebauthnCredentials.credential_id r) <=? 2048)
  && match WebauthnCredentials.label r with
     | None => true
     | Some l => (1 <=? blen l) && (blen l <=? 96)
     end.

Definition insert_credential (r : WebauthnCredentials.row Document) : Tx nat :=
  do db <- get;
  if negb (account_in_states db (WebauthnCredentials.tenant_id r) (WebauthnCredentials.account_id r) [lit "active"])
  then ret 0%nat
  else
    do_ require (credential_ok db r);
    do_ modify (set_webauthn_credentials (webauthn_credentials db ++ [r]));
    ret 1%nat.

Definition credential_row (request : RegisterWebauthnPasskey Document) (new_credential : Uuid) (now : OffsetDateTime) :
    WebauthnCredentials.row Document :=
  {| WebauthnCredentials.id := new_credential;
     WebauthnCredentials.tenant_id := tenant_as_uuid (register_tenant_id request);
     WebauthnCredentials.account_id := account_as_uuid (register_account_id request);
     WebauthnCredentials.credential_id := register_credential_id request;
     WebauthnCredentials.passkey := register_passkey request;
     WebauthnCredentials.label := register_label request;
     WebauthnCredentials.created_at := timestamptz now;
     WebauthnCredentials.last_used_at := None;
     WebauthnCredentials.disabled_at := None |}.

Definition register_webauthn_passkey (request : RegisterWebauthnPasskey Document) (new_credential new_audit : Uuid)
    (now : OffsetDateTime) : Tx unit :=
  do_ lift (validate_correlation_id (register_correlation_id request));
  if bool_decide (register_credential_id request = []) || (2048 <? str_len (register_credential_id request))
  then fail InvalidWebauthnCredentialId else
  if match register_label request with
     | None => false
     | Some value => bool_decide (value = []) || (96 <? str_len value) || existsb is_control value
     end
  then fail InvalidWebauthnPasskeyLabel else
  transaction (
    do created <- insert_credential (credential_row request new_credential now);
    if negb (created =? 1)%nat then fail TargetNotFoundOrUnchanged else
    insert_audit {| audit_id := new_audit; audit_tenant_id := register_tenant_id request;
                    audit_actor_id := Some (register_account_id request); audit_action := PasskeyChanged;
                    audit_correlation_id := register_correlation_id request;
                    audit_metadata := [(lit "outcome", JText (lit "registered"))];
                    audit_occurred_at := now |}).

(** The [WHERE] of [update_webauthn_passkey]. *)
Definition credential_usable (db : Db) (tenant account : Uuid) (credential : str) (r : WebauthnCredentials.row Document) : Prop :=
  active_credential tenant account r /\ WebauthnCredentials.credential_id r = credential /\
  account_in_states db tenant account [lit "active"] = true.
#[export] Instance credential_usable_dec db t a c r : Decision (credential_usable db t a c r).
Proof. unfold credential_usable. apply _. Defined.

Definition update_webauthn_passkey (tenant_id : TenantId) (account_id : AccountId) (credential_id : str)
    (passkey : Document) (now : OffsetDateTime) : Tx unit :=
  let tenant := tenant_as_uuid tenant_id in
  let account := account_as_uuid account_id in
  do db <- get;
  do_ modify (set_webauthn_credentials (update_where (credential_usable db tenant account credential_id)
    (WebauthnCredentials.use passkey (timestamptz now)) (webauthn_credentials db)));
  if negb (rows_affected (credential_usable db tenant account credential_id) (webauthn_credentials db) =? 1)%nat
  then fail TargetNotFoundOrUnchanged else ret tt.

End passkeys.
