(* ===== verification/StoreStepUp.v ===== *)
(** * Step-up grants

    [crates/fcp-fabric-store/src/step_up.rs]: grants for one action on one
    target, issued within a session family and consumed at most once. *)

From Stdlib Require Import ZArith Lia String.
From stdpp Require Import base list option numbers decidable.
From S2P Require Import Prelude Bytes Str Domain Clock Auth Db StoreAccounts StoreSessions.

(** Which words the grammar of the database takes for the alias of a table.
    PostgreSQL takes none of its reserved words, of which [GRANT] is one. *)
Class SqlDialect : Type := { table_alias : str -> bool }.

(** ** Types ([types.rs]) *)
Inductive StepUpAction : Type := ChangeAccountRole.

Definition action_value (a : StepUpAction) : str := match a with ChangeAccountRole => lit "change_account_role" end.

Record CreateStepUpGrant `{TimeLib} : Type := {
  grant_tenant_id : TenantId;
  grant_account_id : AccountId;
  grant_family_id : Uuid;
  grant_action : StepUpAction;
  grant_target_digest : array 32;
  grant_token_digest : OpaqueTokenDigest;
  grant_expires_at : OffsetDateTime;
  grant_correlation_id : str;
}.

Record ConsumeStepUpGrant : Type := {
  consumed_tenant_id : TenantId;
  consumed_account_id : AccountId;
  consumed_family_id : Uuid;
  consumed_action : StepUpAction;
  consumed_target_digest : array 32;
  consumed_token_digest : OpaqueTokenDigest;
  consumed_correlation_id : str;
}.

Record StepUpGrantRecord `{TimeLib} : Type := {
  record_grant_id : Uuid;
  record_grant_expires_at : OffsetDateTime;
}.

Section step_up.
Context {Document : Type} `{T : TimeLib} `{D : SqlDialect}.
Abbreviation Db := (Db Document).
Abbreviation Tx := (M Db StoreError).

(** ** Statements *)

(** The family belongs to the account, is not revoked, and the account is active. *)
Definition family_grantable (db : Db) (tenant account family : Uuid) : bool :=
  bool_decide (Exists (fun f => SessionFamilies.id f = family /\ SessionFamilies.tenant_id f = tenant /\
    SessionFamilies.account_id f = account /\ SessionFamilies.revoked_at f = None /\
    Exists (fun a => Accounts.id a = SessionFamilies.account_id f /\ Accounts.tenant_id a = SessionFamilies.tenant_id f /\
      Accounts.state a = lit "active") (accounts db)) (session_families db)).

(** The constraints of the table on a new row. *)
Definition grant_ok (db : Db) (r : StepUpGrants.row) : bool :=
  bool_decide (Forall (fun r' => StepUpGrants.id r' <> StepUpGrants.id r) (step_up_grants db))
  && bool_decide (Forall (fun r' => StepUpGrants.token_digest r' <> StepUpGrants.token_digest r) (step_up_grants db))
  && tenant_exists db (StepUpGrants.tenant_id r)
  && tenant_account_exists db (StepUpGrants.tenant_id r) (StepUpGrants.account_id r)
  && family_exists db (StepUpGrants.family_id r)
  && (1 <=? blen (StepUpGrants.action r)) && (blen (StepUpGrants.action r) <=? 64).

(** [INSERT ... WHERE EXISTS (SELECT 1 FROM session_families ... JOIN accounts ...)]. *)
Definition insert_grant (r : StepUpGrants.row) : Tx nat :=
  do db <- get;
  if negb (family_grantable db (StepUpGrants.tenant_id r) (StepUpGrants.account_id r) (StepUpGrants.family_id r))
  then ret 0%nat
  else
    do_ require (grant_ok db r);
    do_ modify (set_step_up_grants (step_up_grants db ++ [r]));
    ret 1%nat.

Definition grant_row (request : CreateStepUpGrant) (new_grant : Uuid) (now : OffsetDateTime) : StepUpGrants.row :=
  {| StepUpGrants.id := new_grant;
     StepUpGrants.tenant_id := tenant_as_uuid (grant_tenant_id request);
     StepUpGrants.account_id := account_as_uuid (grant_account_id request);
     StepUpGrants.family_id := grant_family_id request;
     StepUpGrants.action := action_value (grant_action request);
     StepUpGrants.target_digest := grant_target_digest request;
     StepUpGrants.token_digest := digest_as_bytes (grant_token_digest request);
     StepUpGrants.issued_at := timestamptz now;
     StepUpGrants.expires_at := timestamptz (grant_expires_at request);
     StepUpGrants.consumed_at := None |}.

Definition create_step_up_grant (request : CreateStepUpGrant) (new_grant new_audit : Uuid) (now : OffsetDateTime) :
    Tx StepUpGrantRecord :=
  do_ lift (validate_correlation_id (grant_correlation_id request));
  if datetime_leb (grant_expires_at request) now then fail InvalidStepUpGrantExpiry else
  transaction (
    do created <- insert_grant (grant_row request new_grant now);
    if negb (created =? 1)%nat then fail TargetNotFoundOrUnchanged else
    do_ insert_audit {| audit_id := new_audit; audit_tenant_id := grant_tenant_id request;
                        audit_actor_id := Some (grant_account_id request); audit_action := StepUpGranted;
                        audit_correlation_id := grant_correlation_id request;
                        audit_metadata := [(lit "grant_id", JUuid new_grant);
                                           (lit "action", JText (action_value (grant_action request)))];
                        audit_occurred_at := now |};
    ret {| record_grant_id := new_grant; record_grant_expires_at := grant_expires_at request |}).

(** The [WHERE] of the consuming [UPDATE]. *)
Definition grant_consumable (db : Db) (request : ConsumeStepUpGrant) (now : Z) (r : StepUpGrants.row) : Prop :=
  StepUpGrants.token_digest r = digest_as_bytes (consumed_token_digest request) /\
  StepUpGrants.tenant_id r = tenant_as_uuid (consumed_tenant_id request) /\
  StepUpGrants.account_id r = account_as_uuid (consumed_account_id request) /\
  StepUpGrants.family_id r = consumed_family_id request /\
  StepUpGrants.action r = action_value (consumed_action request) /\
  StepUpGrants.target_digest r = consumed_target_digest request /\
  StepUpGrants.consumed_at r = None /\ now < StepUpGrants.expires_at r /\
  Exists (fun f => SessionFamilies.id f = consumed_family_id request /\ SessionFamilies.revoked_at f = None)
    (session_families db).
#[export] Instance grant_consumable_dec db q now r : Decision (grant_consumable db q now r).
Proof. unfold grant_consumable. apply _. Defined.

(** [UPDATE step_up_grants AS grant ... RETURNING grant.id]; the database
    refuses a statement it cannot parse. *)
Definition consume_grant_rows (request : ConsumeStepUpGrant) (now : Z) : Tx (list Uuid) :=
  do_ require (table_alias (lit "grant"));
  do db <- get;
  do_ modify (set_step_up_grants (update_where (grant_consumable db request now) (StepUpGrants.consume now)
    (step_up_grants db)));
  ret (StepUpGrants.id <$> filter (grant_consumable db request now) (step_up_grants db)).

(** Without a row the transaction is committed as it began. *)
Definition consume_step_up_grant (request : ConsumeStepUpGrant) (new_audit : Uuid) (now : OffsetDateTime) : Tx bool :=
  do_ lift (validate_correlation_id (consumed_correlation_id request));
  transaction (
    do consumed <- consume_grant_rows request (timestamptz now);
    match fetch_optional consumed with
    | None => ret false
    | Some grant_id =>
        do_ insert_audit {| audit_id := new_audit; audit_tenant_id := consumed_tenant_id request;
                            audit_actor_id := Some (consumed_account_id request); audit_action := StepUpConsumed;
                            audit_correlation_id := consumed_correlation_id request;
                            audit_metadata := [(lit "grant_id", JUuid grant_id);
                                               (lit "action", JText (action_value (consumed_action request)))];
                            audit_occurred_at := now |};
        ret true
    end).

End step_up.

(** A database that takes every word, and one that refuses [grant]. *)
Module Dialects.
Definition lenient : SqlDialect := {| table_alias _ := true |}.
Definition reserving : SqlDialect := {| table_alias word := negb (bool_decide (word = lit "grant")) |}.
End Dialects.
