(* ===== verification/LoginService.v ===== *)
(** * The login and session services

    [crates/fcp-fabric-service/src]: [authentication.rs],
    [login_transaction.rs], [login_flow.rs], [mfa.rs], [recovery.rs] and
    [session.rs].  A service method runs store operations on the database and
    returns its own error type; a panic of time arithmetic is the fault
    [Panicked] and keeps what was committed before it.  Random values, drawn
    identifiers and the clocks that are read are arguments; the key management
    service behind [TotpKeyResolver] and [TotpEnrollmentKeyProvider] is a record
    of functions. *)

From Stdlib Require Import ZArith Lia String.
From stdpp Require Import base list option numbers decidable.
From S2P Require Import Prelude Bytes Str Domain Totp Clock Auth Db StoreAccounts StoreSessions StoreLogin.

(** ** Failures *)
Inductive Fault (E : Type) : Type :=
| Panicked
| Failed (error : E).
Arguments Panicked {E}.
Arguments Failed {E} error.

Section running.
Context {S : Type}.

(** A store operation inside a service; [?] converts its error. *)
Definition calling {E F A} (convert : E -> F) (m : M S E A) : M S (Fault F) A :=
  fun s => let '(s', r) := m s in (s', map_err (fun e => Failed (convert e)) r).

(** An operation whose error is matched on. *)
Definition attempt {E F A} (m : M S E A) : M S F (result E A) := fun s => let '(s', r) := m s in (s', Ok r).

Definition unwrapped {E A} (o : option A) : M S (Fault E) A :=
  match o with Some a => ret a | None => fail Panicked end.

End running.

(** ** Types *)
Record PasswordLoginService : Type := {
  dummy_verifier : PasswordVerifierString;
  maximum_password_bytes : Z;
}.

Inductive PasswordLoginOutcome : Type :=
| PasswordDenied
| PasswordMfaEnrollmentRequired (tenant_id : TenantId) (account_id : AccountId)
| PasswordTotpChallenge (tenant_id : TenantId) (account_id : AccountId)
| PasswordAuthenticated (context : AuthorizationContext.t).

Inductive PasswordLoginError : Type := PasswordLoginStore (source : StoreError).

Inductive LoginTransactionServiceError : Type :=
| LoginInvalidPolicy
| LoginStore (source : StoreError).

Inductive FabricLoginFlowError : Type :=
| FlowPassword (source : PasswordLoginError)
| FlowTransaction (source : LoginTransactionServiceError).

Inductive TotpKeyResolutionError : Type := Unavailable | ProviderFailure.

Inductive TotpLoginError : Type :=
| TotpLoginStore (source : StoreError)
| TotpLoginKeyResolution (source : TotpKeyResolutionError)
| TotpLoginTotp (source : TotpError).

Inductive TotpEnrollmentError : Type :=
| EnrollmentStore (source : StoreError)
| EnrollmentKeyResolution (source : TotpKeyResolutionError)
| EnrollmentTotp (source : TotpError).

Inductive RecoveryCodeError : Type :=
| RecoveryInvalidPolicy
| RecoveryStore (source : StoreError).

Inductive SessionIssueError : Type :=
| SessionInvalidPolicy
| SessionIssueStore (source : StoreError).

Inductive SessionRotationError : Type := SessionRotationStore (source : StoreError).
Inductive AccessSessionAuthenticationError : Type := AccessStore (source : StoreError).
Inductive SessionRevocationError : Type := RevocationStore (source : StoreError).

Inductive TotpLoginOutcome : Type :=
| TotpDenied
| TotpAuthenticated (context : AuthorizationContext.t).

Inductive TotpEnrollmentOutcome : Type :=
| EnrollmentDenied
| EnrollmentAuthenticated (context : AuthorizationContext.t).

Record PendingTotpEnrollment : Type := { pending_factor_id : Uuid; provisioning_uri : str }.

Record ActiveTotpEncryptionKey : Type := { active_reference : TotpKeyReference; active_data_key : array 32 }.

(** [TotpKeyResolver] and [TotpEnrollmentKeyProvider]. *)
Record TotpKeyProvider : Type := {
  resolve_key : TotpKeyReference -> result TotpKeyResolutionError (array 32);
  active_key : result TotpKeyResolutionError ActiveTotpEncryptionKey;
}.

Record IssuedRecoveryCodes : Type := { codes : list str; code_count : Z }.

Record AuthenticatedAccessSession : Type := {
  session_context : AuthorizationContext.t;
  access_family_id : Uuid;
}.

Record RecoveryCodePolicy : Type := { policy_code_count : Z }.

Definition RecoveryCodePolicy_new (code_count : Z) : result RecoveryCodeError RecoveryCodePolicy :=
  if (code_count <? 8) || (16 <? code_count) then Err RecoveryInvalidPolicy
  else Ok {| policy_code_count := code_count |}.

Definition RecoveryCodePolicy_standard : RecoveryCodePolicy := {| policy_code_count := 10 |}.

Section timed_types.
Context `{T : TimeLib}.

Record LoginTransactionPolicy : Type := { lifetime : Duration }.

Definition LoginTransactionPolicy_new (lifetime : Duration) :
    result LoginTransactionServiceError LoginTransactionPolicy :=
  if duration_leb lifetime duration_zero || negb (duration_leb lifetime (duration_minutes 5))
  then Err LoginInvalidPolicy else Ok {| lifetime := lifetime |}.

Definition LoginTransactionPolicy_standard : LoginTransactionPolicy := {| lifetime := duration_minutes 5 |}.

Record IssuedLoginTransaction : Type := {
  issued_token : str;
  issued_record : LoginTransactionRecord;
  issued_context : option AuthorizationContext.t;
}.

Inductive LoginTransactionStart : Type :=
| TransactionDenied
| TransactionPending (issued : IssuedLoginTransaction).

Record FabricLoginChallenge : Type := {
  challenge_transaction : IssuedLoginTransaction;
  binding_token : str;
}.

Inductive FabricLoginStart : Type :=
| LoginDenied
| LoginPending (challenge : FabricLoginChallenge).

Record SessionPolicy : Type := { refresh_lifetime : Duration; access_lifetime : Duration }.

Definition SessionPolicy_new (refresh_lifetime : Duration) : result SessionIssueError SessionPolicy :=
  if duration_leb refresh_lifetime duration_zero || negb (duration_leb refresh_lifetime (duration_days 30))
  then Err SessionInvalidPolicy
  else Ok {| refresh_lifetime := refresh_lifetime; access_lifetime := duration_minutes 15 |}.

Record IssuedRefreshSession : Type := {
  refresh_token : str;
  access_token : str;
  issued_family_id : Uuid;
  issued_credential_id : Uuid;
  issued_expires_at : OffsetDateTime;
  issued_access_expires_at : OffsetDateTime;
}.

Inductive SessionRotationOutcome : Type :=
| SessionRotated (session : IssuedRefreshSession)
| SessionReuseDetected
| SessionDenied.

Record LoginTransactionService : Type := {
  login_digest_key : TokenDigestKey;
  login_policy : LoginTransactionPolicy;
}.

Record FabricLoginFlow : Type := {
  password_service : PasswordLoginService;
  transaction_service : LoginTransactionService;
  binding_digest_key : TokenDigestKey;
}.

Record TotpEnrollmentService : Type := { key_provider : TotpKeyProvider; issuer : str }.
Record RecoveryCodeService : Type := { recovery_digest_key : TokenDigestKey; recovery_policy : RecoveryCodePolicy }.

(** [SessionIssuer] and [SessionRotator] hold a digest key and a policy each. *)
Record SessionIssuer : Type := { issuer_digest_key : TokenDigestKey; issuer_policy : SessionPolicy }.
Record SessionRotator : Type := { rotator_digest_key : TokenDigestKey; rotator_policy : SessionPolicy }.
Record AccessSessionAuthenticator : Type := { access_digest_key : TokenDigestKey }.

(** What creating a login transaction draws and reads. *)
Record TransactionDraw : Type := {
  drawn_token : array 32;
  drawn_transaction : Uuid;
  drawn_transaction_audit : Uuid;
  transaction_now : OffsetDateTime;
}.

(** What issuing or rotating a session draws and reads. *)
Record SessionDraw : Type := {
  drawn_refresh : array 32;
  drawn_access : array 32;
  drawn_ids : SessionIds;
  session_now : OffsetDateTime;
}.

End timed_types.

Section services.
Context `{F : FabricLib} `{T : TimeLib} `{C : TotpCrypto} `{A : Argon2} `{U : Unicode}.
Abbreviation Db := (Db Document).

(** ** Password authentication ([authentication.rs]) *)
Definition authenticate (self : PasswordLoginService) (address : UserAddress) (password : str) :
    M Db (Fault PasswordLoginError) PasswordLoginOutcome :=
  do found <- calling PasswordLoginStore (login_account address);
  match found with
  | None => ret PasswordDenied
  | Some account =>
      let verifier := default (dummy_verifier self) (login_verifier account) in
      if negb (is_ok (verify_password password verifier (maximum_password_bytes self)))
      then ret PasswordDenied else
      if negb (permits_session (login_state account)) then
        ret (if bool_decide (login_state account = MfaEnrollmentRequired)
             then PasswordMfaEnrollmentRequired (login_tenant_id account) (login_account_id account)
             else PasswordDenied)
      else
      do roles <- calling PasswordLoginStore (roles_for_account (login_tenant_id account) (login_account_id account));
      let privileged := existsb (fun role => match role with Owner | Admin => true | _ => false end) roles in
      do has_totp <- calling PasswordLoginStore
        (has_active_totp_factor (login_tenant_id account) (login_account_id account));
      if privileged || has_totp then
        if negb has_totp then ret PasswordDenied
        else ret (PasswordTotpChallenge (login_tenant_id account) (login_account_id account))
      else
        ret (PasswordAuthenticated (AuthorizationContext.new (login_tenant_id account) (login_account_id account)
               (login_state account) roles false))
  end.

(** ** Login transactions ([login_transaction.rs]) *)
Definition stage_for (outcome : PasswordLoginOutcome) :
    option (TenantId * AccountId * LoginTransactionStage * option AuthorizationContext.t) :=
  match outcome with
  | PasswordDenied => None
  | PasswordMfaEnrollmentRequired tenant_id account_id => Some (tenant_id, account_id, MfaEnrollment, None)
  | PasswordTotpChallenge tenant_id account_id => Some (tenant_id, account_id, MfaChallenge, None)
  | PasswordAuthenticated context =>
      Some (AuthorizationContext.tenant_id context, AuthorizationContext.account_id context,
            SessionIssuance, Some context)
  end.

(** The call of [create_login_transaction] that [begin] and
    [begin_totp_enrollment_confirmation] make. *)
Definition issue_transaction (self : LoginTransactionService) (tenant_id : TenantId) (account_id : AccountId)
    (stage : LoginTransactionStage) (binding_digest : array 32) (factor : option Uuid)
    (context : option AuthorizationContext.t) (correlation_id : str) (now : OffsetDateTime)
    (draw : TransactionDraw) : M Db (Fault LoginTransactionServiceError) IssuedLoginTransaction :=
  let issued := issue_opaque_token (login_digest_key self) (drawn_token draw) in
  do expires_at <- unwrapped (datetime_add now (lifetime (login_policy self)));
  do record <- calling LoginStore (create_login_transaction
    {| request_tenant_id := tenant_id; request_account_id := account_id;
       request_token_digest := digest issued; request_stage := stage;
       request_binding_digest := binding_digest; request_factor_id := factor;
       request_expires_at := expires_at; request_correlation_id := correlation_id |}
    (drawn_transaction draw) (drawn_transaction_audit draw) (transaction_now draw));
  ret {| issued_token := raw issued; issued_record := record; issued_context := context |}.

Definition begin_transaction (self : LoginTransactionService) (password_outcome : PasswordLoginOutcome)
    (binding_digest : array 32) (correlation_id : str) (now : OffsetDateTime) (draw : TransactionDraw) :
    M Db (Fault LoginTransactionServiceError) LoginTransactionStart :=
  match stage_for password_outcome with
  | None => ret TransactionDenied
  | Some (tenant_id, account_id, stage, context) =>
      do issued <- issue_transaction self tenant_id account_id stage binding_digest None context
                     correlation_id now draw;
      ret (TransactionPending issued)
  end.

Definition begin_confirmation (self : LoginTransactionService) (tenant_id : TenantId) (account_id : AccountId)
    (factor : Uuid) (binding_digest : array 32) (correlation_id : str) (now : OffsetDateTime)
    (draw : TransactionDraw) : M Db (Fault LoginTransactionServiceError) IssuedLoginTransaction :=
  issue_transaction self tenant_id account_id MfaEnrollment binding_digest (Some factor) None
    correlation_id now draw.

Definition consume_transaction (self : LoginTransactionService) (token : str)
    (expected_stage : LoginTransactionStage) (binding_digest : array 32) (correlation_id : str)
    (new_audit : Uuid) (store_now : OffsetDateTime) :
    M Db (Fault LoginTransactionServiceError) LoginTransactionRecord :=
  calling LoginStore (consume_login_transaction (derive_opaque_token_digest (login_digest_key self) token)
    expected_stage binding_digest correlation_id new_audit store_now).

(** ** The login flow ([login_flow.rs]) *)

(** An inner service's fault inside an outer one. *)
Definition within {E G B} (convert : E -> G) (m : M Db (Fault E) B) : M Db (Fault G) B :=
  fun s => let '(s', r) := m s in
    (s', map_err (fun f => match f with Panicked => Panicked | Failed e => Failed (convert e) end) r).

Definition start_flow (self : FabricLoginFlow) (address : UserAddress) (password : str)
    (correlation_id : str) (now : OffsetDateTime) (drawn_binding : array 32) (draw : TransactionDraw) :
    M Db (Fault FabricLoginFlowError) FabricLoginStart :=
  do outcome <- within FlowPassword (authenticate (password_service self) address password);
  match outcome with
  | PasswordDenied => ret LoginDenied
  | _ =>
      let binding := issue_opaque_token (binding_digest_key self) drawn_binding in
      let binding_digest := derive_opaque_token_digest (binding_digest_key self) (raw binding) in
      do started <- within FlowTransaction (begin_transaction (transaction_service self) outcome
                      (digest_as_bytes binding_digest) correlation_id now draw);
      match started with
      | TransactionDenied => ret LoginDenied
      | TransactionPending issued =>
          ret (LoginPending {| challenge_transaction := issued; binding_token := raw binding |})
      end
  end.

Definition flow_begin_confirmation (self : FabricLoginFlow) (tenant_id : TenantId) (account_id : AccountId)
    (factor : Uuid) (binding_token : str) (correlation_id : str) (now : OffsetDateTime)
    (draw : TransactionDraw) : M Db (Fault FabricLoginFlowError) IssuedLoginTransaction :=
  let binding_digest := derive_opaque_token_digest (binding_digest_key self) binding_token in
  within FlowTransaction (begin_confirmation (transaction_service self) tenant_id account_id factor
    (digest_as_bytes binding_digest) correlation_id now draw).

Definition consume_next_step (self : FabricLoginFlow) (transaction_token binding_token : str)
    (expected_stage : LoginTransactionStage) (correlation_id : str) (new_audit : Uuid)
    (store_now : OffsetDateTime) : M Db (Fault FabricLoginFlowError) LoginTransactionRecord :=
  let binding_digest := derive_opaque_token_digest (binding_digest_key self) binding_token in
  within FlowTransaction (consume_transaction (transaction_service self) transaction_token expected_stage
    (digest_as_bytes binding_digest) correlation_id new_audit store_now).

(** ** TOTP completion and enrollment ([mfa.rs]) *)
Definition complete_totp (keys : TotpKeyProvider) (tenant_id : TenantId) (account_id : AccountId)
    (code : str) (now : OffsetDateTime) : M Db (Fault TotpLoginError) TotpLoginOutcome :=
  do found <- calling TotpLoginStore (active_totp_factor tenant_id account_id);
  match found with
  | None => ret TotpDenied
  | Some factor =>
      do key <- lift (map_err (fun e => Failed (TotpLoginKeyResolution e))
                        (resolve_key keys (key_reference (persisted_seed factor))));
      let binding := {| binding_tenant_id := tenant_id; binding_account_id := account_id;
                        factor_id := persisted_factor_id factor |} in
      match verify_totp key (persisted_seed factor) binding code (unix_timestamp now)
              (last_accepted_step factor) with
      | Err VerificationFailed | Err InvalidCodeFormat => ret TotpDenied
      | Err error => fail (Failed (TotpLoginTotp error))
      | Ok accepted =>
          do consumed <- attempt (consume_totp_step tenant_id account_id (persisted_factor_id factor)
                                    (step accepted));
          match consumed with
          | Err TargetNotFoundOrUnchanged => ret TotpDenied
          | Err error => fail (Failed (TotpLoginStore error))
          | Ok _ =>
              do found <- calling TotpLoginStore (session_authorization_context tenant_id account_id);
              match found with
              | None => ret TotpDenied
              | Some context => ret (TotpAuthenticated context)
              end
          end
      end
  end.

(** [seed] and [seed_nonce] are what [OsRng] filled in. *)
Definition begin_enrollment (self : TotpEnrollmentService) (tenant_id : TenantId) (account_id : AccountId)
    (correlation_id : str) (new_factor : Uuid) (seed : array 32) (seed_nonce : array 12) (new_audit : Uuid)
    (store_now : OffsetDateTime) : M Db (Fault TotpEnrollmentError) PendingTotpEnrollment :=
  do found <- calling EnrollmentStore (user_address_for_account tenant_id account_id);
  match found with
  | None => fail (Failed (EnrollmentStore TargetNotFoundOrUnchanged))
  | Some address =>
      do active <- lift (map_err (fun e => Failed (EnrollmentKeyResolution e)) (active_key (key_provider self)));
      let binding := {| binding_tenant_id := tenant_id; binding_account_id := account_id;
                        factor_id := new_factor |} in
      do enrollment <- lift (map_err (fun e => Failed (EnrollmentTotp e))
        (begin_totp_enrollment (active_data_key active) (active_reference active) binding address (issuer self)
           seed seed_nonce));
      do_ calling EnrollmentStore (create_pending_totp_factor tenant_id account_id new_factor
            (encrypted_seed enrollment) correlation_id new_audit store_now);
      ret {| pending_factor_id := new_factor; provisioning_uri := uri (provisioning enrollment) |}
  end.

Definition confirm_enrollment (self : TotpEnrollmentService) (tenant_id : TenantId) (account_id : AccountId)
    (factor : Uuid) (code : str) (correlation_id : str) (now : OffsetDateTime) (new_audit : Uuid)
    (store_now : OffsetDateTime) : M Db (Fault TotpEnrollmentError) TotpEnrollmentOutcome :=
  do found <- calling EnrollmentStore (pending_totp_factor tenant_id account_id factor);
  match found with
  | None => ret EnrollmentDenied
  | Some pending =>
      do key <- lift (map_err (fun e => Failed (EnrollmentKeyResolution e))
                        (resolve_key (key_provider self) (key_reference (persisted_seed pending))));
      let binding := {| binding_tenant_id := tenant_id; binding_account_id := account_id;
                        factor_id := persisted_factor_id pending |} in
      match verify_totp key (persisted_seed pending) binding code (unix_timestamp now)
              (last_accepted_step pending) with
      | Err VerificationFailed | Err InvalidCodeFormat => ret EnrollmentDenied
      | Err error => fail (Failed (EnrollmentTotp error))
      | Ok accepted =>
          do activated <- attempt (activate_totp_factor tenant_id account_id (persisted_factor_id pending)
                                     (step accepted) correlation_id new_audit store_now);
          match activated with
          | Err TargetNotFoundOrUnchanged => ret EnrollmentDenied
          | Err error => fail (Failed (EnrollmentStore error))
          | Ok _ =>
              do found <- calling EnrollmentStore (session_authorization_context tenant_id account_id);
              match found with
              | None => ret EnrollmentDenied
              | Some context => ret (EnrollmentAuthenticated context)
              end
          end
      end
  end.

(** ** Recovery codes ([recovery.rs]) *)

(** The loop of [replace]: a code and its verifier per draw. *)
Definition draw_codes (self : RecoveryCodeService) (drawn : nat -> array 32) : list (str * str) :=
  (fun i => let issued := issue_opaque_token (recovery_digest_key self) (drawn i) in
            (raw issued, base64url_encode (abytes (digest_as_bytes (digest issued)))))
  <$> seq 0 (Z.to_nat (policy_code_count (recovery_policy self))).

Definition replace_codes (self : RecoveryCodeService) (tenant_id : TenantId) (account_id : AccountId)
    (correlation_id : str) (drawn : nat -> array 32) (new_set : Uuid) (drawn_ids : nat -> Uuid)
    (new_audit : Uuid) (store_now : OffsetDateTime) : M Db (Fault RecoveryCodeError) IssuedRecoveryCodes :=
  let pairs := draw_codes self drawn in
  do set <- calling RecoveryStore (replace_recovery_code_set tenant_id account_id (snd <$> pairs) correlation_id
              new_set drawn_ids new_audit store_now);
  ret {| codes := fst <$> pairs; code_count := recovery_code_count set |}.

Definition consume_code (self : RecoveryCodeService) (tenant_id : TenantId) (account_id : AccountId)
    (raw_code correlation_id : str) (new_audit : Uuid) (store_now : OffsetDateTime) :
    M Db (Fault RecoveryCodeError) bool :=
  let digest := derive_opaque_token_digest (recovery_digest_key self) raw_code in
  let verifier := base64url_encode (abytes (digest_as_bytes digest)) in
  calling RecoveryStore (consume_recovery_code tenant_id account_id verifier correlation_id new_audit store_now).

(** ** Sessions ([session.rs]) *)
Definition issue_session (self : SessionIssuer) (context : AuthorizationContext.t) (correlation_id : str)
    (now : OffsetDateTime) (draw : SessionDraw) : M Db (Fault SessionIssueError) IssuedRefreshSession :=
  let issued := issue_opaque_token (issuer_digest_key self) (drawn_refresh draw) in
  let access := issue_opaque_token (issuer_digest_key self) (drawn_access draw) in
  do expires_at <- unwrapped (datetime_add now (refresh_lifetime (issuer_policy self)));
  do access_expires <- unwrapped (datetime_add now (access_lifetime (issuer_policy self)));
  do record <- calling SessionIssueStore (create_refresh_session
    {| create_tenant_id := AuthorizationContext.tenant_id context;
       create_account_id := AuthorizationContext.account_id context;
       refresh_digest := digest issued; access_digest := digest access;
       refresh_expires_at := expires_at; access_expires_at := access_expires;
       create_correlation_id := correlation_id |} (session_now draw) (drawn_ids draw));
  ret {| refresh_token := raw issued; access_token := raw access;
         issued_family_id := session_family_id record; issued_credential_id := session_credential_id record;
         issued_expires_at := session_expires_at record;
         issued_access_expires_at := session_access_expires_at record |}.

Definition rotate_session (self : SessionRotator) (presented_token correlation_id : str)
    (now : OffsetDateTime) (draw : SessionDraw) : M Db (Fault SessionRotationError) SessionRotationOutcome :=
  let presented := derive_opaque_token_digest (rotator_digest_key self) presented_token in
  let successor := issue_opaque_token (rotator_digest_key self) (drawn_refresh draw) in
  let successor_access := issue_opaque_token (rotator_digest_key self) (drawn_access draw) in
  do expires_at <- unwrapped (datetime_add now (refresh_lifetime (rotator_policy self)));
  do access_expires <- unwrapped (datetime_add now (access_lifetime (rotator_policy self)));
  do rotation <- calling SessionRotationStore (rotate_refresh_credential
    {| presented_digest := presented; rotation_successor := digest successor;
       rotation_successor_access := digest successor_access; rotation_successor_expires := expires_at;
       rotation_successor_access_expires := access_expires; rotation_correlation_id := correlation_id |}
    (session_now draw) (drawn_ids draw));
  ret (match rotation with
       | Rotated record =>
           SessionRotated {| refresh_token := raw successor; access_token := raw successor_access;
                             issued_family_id := rotation_family_id record;
                             issued_credential_id := rotation_credential_id record;
                             issued_expires_at := rotation_expires_at record;
                             issued_access_expires_at := rotation_access_expires_at record |}
       | ReuseDetected => SessionReuseDetected
       | Denied => SessionDenied
       end).

Definition authenticate_session (self : AccessSessionAuthenticator) (raw_access_token : str)
    (store_now : OffsetDateTime) :
    M Db (Fault AccessSessionAuthenticationError) (option AuthenticatedAccessSession) :=
  let digest := derive_opaque_token_digest (access_digest_key self) raw_access_token in
  do authorization <- calling AccessStore (access_session_authorization_context digest store_now);
  ret ((fun a => {| session_context := authorization_context a; access_family_id := authorization_family_id a |})
       <$> authorization).

Definition revoke_session (tenant_id : TenantId) (account_id : AccountId) (family_id : Uuid)
    (correlation_id : str) (store_now : OffsetDateTime) (new_audit : Uuid) :
    M Db (Fault SessionRevocationError) bool :=
  calling RevocationStore (revoke_refresh_session_family tenant_id account_id family_id correlation_id
    store_now new_audit).

End services.
