(* ===== verification/Passkeys.v ===== *)
(** * The passkey service

    [crates/fcp-fabric-service/src/webauthn.rs] and its modules [policy.rs],
    [types.rs], [registration.rs] and [authentication.rs].  The ceremonies
    themselves are those of the [webauthn-rs] crate, which with the JSON forms
    of its values is a parameter, as is the [url] crate. *)

From Stdlib Require Import ZArith Lia String.
From stdpp Require Import base list option numbers decidable.
From S2P Require Import Prelude Bytes Str Domain Totp Clock Auth Db StoreAccounts StoreSessions StorePasskeys LoginService.

(** [Url] of the [url] crate. *)
Class UrlLib : Type := {
  Url : Type;
  url_scheme : Url -> str;
  url_host_str : Url -> option str;
  url_username : Url -> str;
  url_password : Url -> option str;
  url_port : Url -> option Z;
  url_query : Url -> option str;
  url_fragment : Url -> option str;
  url_path : Url -> str;
}.

(** [webauthn-rs]: the values of its ceremonies, its four operations and their
    JSON forms.  What an operation draws is an argument. *)
Class WebauthnLib `{F : FabricLib} : Type := {
  Webauthn : Type;
  WebauthnError : Type;
  CredentialID : Type;
  Passkey : Type;
  PasskeyRegistration : Type;
  PasskeyAuthentication : Type;
  CreationChallengeResponse : Type;
  RequestChallengeResponse : Type;
  RegisterPublicKeyCredential : Type;
  PublicKeyCredential : Type;
  AuthenticationResult : Type;
  Entropy : Type;
  start_passkey_registration : Webauthn -> Uuid -> str -> str -> list CredentialID -> Entropy ->
    result WebauthnError (CreationChallengeResponse * PasskeyRegistration);
  finish_passkey_registration : Webauthn -> RegisterPublicKeyCredential -> PasskeyRegistration ->
    result WebauthnError Passkey;
  start_passkey_authentication : Webauthn -> list Passkey -> Entropy ->
    result WebauthnError (RequestChallengeResponse * PasskeyAuthentication);
  finish_passkey_authentication : Webauthn -> PublicKeyCredential -> PasskeyAuthentication ->
    result WebauthnError AuthenticationResult;
  passkey_cred_id : Passkey -> CredentialID;
  result_cred_id : AuthenticationResult -> CredentialID;
  update_credential : Passkey -> AuthenticationResult -> Passkey;
  (** [serde_json::to_value] and [from_value]. *)
  passkey_to_value : Passkey -> option Document;
  passkey_from_value : Document -> option Passkey;
  authentication_to_value : PasskeyAuthentication -> option Document;
  authentication_from_value : Document -> option PasskeyAuthentication;
  (** At [RegistrationCeremonyState], the state and the label. *)
  registration_to_value : PasskeyRegistration * option str -> option Document;
  registration_from_value : Document -> option (PasskeyRegistration * option str);
  cred_id_to_value : CredentialID -> option Document;
  (** The text of a JSON string. *)
  value_as_string : Document -> option str;
  (** [serde_json::to_vec] of the challenges, in the responses. *)
  creation_json : CreationChallengeResponse -> option str;
  request_json : RequestChallengeResponse -> option str;
}.

(** ** Policy ([policy.rs]) *)
Record WebauthnPolicy `{UrlLib} : Type := { rp_domain : DomainName; origin : Url }.

Section errors.
Context `{F : FabricLib} `{W : !WebauthnLib}.

(** ** Types ([types.rs]) *)
Inductive WebauthnServiceError : Type :=
| WebauthnInvalidPolicy
| WebauthnFailure (source : WebauthnError)
| Serialization
| WebauthnStore (source : StoreError)
| SessionUnavailable
| InvalidCredentialId.

Definition json_string (value : Document) : result WebauthnServiceError str :=
  match value_as_string value with
  | Some value => if negb (bool_decide (value = [])) && (str_len value <=? 2048) then Ok value
                  else Err InvalidCredentialId
  | None => Err InvalidCredentialId
  end.

Definition credential_text (id : CredentialID) : result WebauthnServiceError str :=
  let? value := ok_or (cred_id_to_value id) Serialization in
  json_string value.

Definition canonical_credential_id (passkey : Passkey) : result WebauthnServiceError str :=
  credential_text (passkey_cred_id passkey).

Context `{V : UrlLib}.

Definition WebauthnPolicy_new (rp_domain : DomainName) (origin : Url) : result WebauthnServiceError WebauthnPolicy :=
  if negb (bool_decide (url_scheme origin = lit "https"))
     || negb (bool_decide (url_host_str origin = Some (domain_as_str rp_domain)))
     || negb (bool_decide (url_username origin = []))
     || bool_decide (is_Some (url_password origin))
     || bool_decide (is_Some (url_port origin))
     || bool_decide (is_Some (url_query origin))
     || bool_decide (is_Some (url_fragment origin))
     || negb (bool_decide (url_path origin = lit "/"))
  then Err WebauthnInvalidPolicy else Ok {| rp_domain := rp_domain; origin := origin |}.

End errors.

Record IssuedWebauthnCeremony `{TimeLib} : Type := {
  issued_ceremony_token : str;
  issued_ceremony_binding : str;
  issued_ceremony_expires_at : OffsetDateTime;
}.

(** The [label] of a challenge is always absent and left out. *)
Inductive WebauthnBeginOutcome `{TimeLib} (C : Type) : Type :=
| BeginDenied
| Challenge (ceremony : IssuedWebauthnCeremony) (challenge : C).
Arguments BeginDenied {_ _}.
Arguments Challenge {_ _} ceremony challenge.

Inductive WebauthnFinishOutcome : Type :=
| FinishDenied
| Registered
| FinishAuthenticated (context : AuthorizationContext.t).

Record WebauthnService `{F : FabricLib} `{!WebauthnLib} `{UrlLib} : Type := {
  webauthn : Webauthn;
  webauthn_policy : WebauthnPolicy;
  ceremony_digest_key : TokenDigestKey;
  ceremony_binding_key : TokenDigestKey;
}.

(** What starting a ceremony draws and reads. *)
Record CeremonyDraw `{F : FabricLib} `{!WebauthnLib} `{TimeLib} : Type := {
  ceremony_entropy : Entropy;
  drawn_ceremony_token : array 32;
  drawn_ceremony_binding : array 32;
  drawn_ceremony : Uuid;
  drawn_ceremony_audit : Uuid;
  ceremony_store_now : OffsetDateTime;
}.

Section service.
Context `{F : FabricLib} `{W : !WebauthnLib} `{V : UrlLib} `{T : TimeLib} `{C : TotpCrypto} `{A : Argon2} `{U : Unicode}.
Abbreviation Db := (Db Document).
Abbreviation Service := (M Db (Fault WebauthnServiceError)).

(** [map_err] of a library call's failure. *)
Definition library {B} (r : result WebauthnError B) : Service B := lift (map_err (fun e => Failed (WebauthnFailure e)) r).
Definition serialized {B} (o : option B) : Service B := lift (ok_or o (Failed Serialization)).

(** ** Ceremonies ([webauthn.rs]) *)

(** [CEREMONY_LIFETIME] is five minutes. *)
Definition persist_ceremony (self : WebauthnService) (tenant_id : TenantId) (account_id : AccountId)
    (kind : WebauthnCeremonyKind) (state : Document) (correlation_id : str) (now : OffsetDateTime)
    (draw : CeremonyDraw) : Service IssuedWebauthnCeremony :=
  let token := issue_opaque_token (ceremony_digest_key self) (drawn_ceremony_token draw) in
  let binding := issue_opaque_token (ceremony_binding_key self) (drawn_ceremony_binding draw) in
  do expires_at <- unwrapped (datetime_add now (duration_minutes 5));
  do_ calling WebauthnStore (create_webauthn_ceremony
    {| ceremony_tenant_id := tenant_id; ceremony_account_id := account_id; ceremony_kind := kind;
       ceremony_state := state; ceremony_token_digest := digest token;
       ceremony_binding_digest := digest binding; ceremony_expires_at := expires_at;
       ceremony_correlation_id := correlation_id |}
    (drawn_ceremony draw) (drawn_ceremony_audit draw) (ceremony_store_now draw));
  ret {| issued_ceremony_token := raw token; issued_ceremony_binding := raw binding;
         issued_ceremony_expires_at := expires_at |}.

Definition consume_ceremony (self : WebauthnService) (token binding correlation_id : str) (new_audit : Uuid)
    (store_now : OffsetDateTime) : Service (WebauthnCeremonyRecord Document) :=
  let token_digest := derive_opaque_token_digest (ceremony_digest_key self) token in
  let binding_digest := derive_opaque_token_digest (ceremony_binding_key self) binding in
  calling WebauthnStore (consume_webauthn_ceremony token_digest binding_digest correlation_id new_audit store_now).

(** [map(...).collect()] of the stored passkeys. *)
Fixpoint deserialize_passkeys (records : list (StoredWebauthnPasskey Document)) : option (list Passkey) :=
  match records with
  | [] => Some []
  | record :: rest =>
      passkey ← passkey_from_value (stored_passkey record);
      passkeys ← deserialize_passkeys rest;
      Some (passkey :: passkeys)
  end.

Definition deserialize_active_passkeys (tenant_id : TenantId) (account_id : AccountId) : Service (list Passkey) :=
  do records <- calling WebauthnStore (active_webauthn_passkeys tenant_id account_id);
  serialized (deserialize_passkeys records).

(** ** Registration ([registration.rs]) *)
Definition begin_registration (self : WebauthnService) (tenant_id : TenantId) (account_id : AccountId)
    (label : option str) (correlation_id : str) (now : OffsetDateTime) (draw : CeremonyDraw) :
    Service (WebauthnBeginOutcome CreationChallengeResponse) :=
  do found <- calling WebauthnStore (user_address_for_account tenant_id account_id);
  match found with
  | None => ret BeginDenied
  | Some address =>
      if negb (bool_decide (domain address = rp_domain (webauthn_policy self))) then ret BeginDenied else
      do existing <- deserialize_active_passkeys tenant_id account_id;
      let exclusions := passkey_cred_id <$> existing in
      do (challenge, state) <- library (start_passkey_registration (webauthn self) (account_as_uuid account_id)
        (UserAddress.display address) (UserAddress.display address) exclusions (ceremony_entropy draw));
      do state <- serialized (registration_to_value (state, label));
      do ceremony <- persist_ceremony self tenant_id account_id Registration state correlation_id now draw;
      ret (Challenge ceremony challenge)
  end.

Definition finish_registration (self : WebauthnService) (expected_tenant_id : TenantId)
    (expected_account_id : AccountId) (token binding : str) (response : RegisterPublicKeyCredential)
    (correlation_id : str) (consume_audit : Uuid) (consume_now : OffsetDateTime) (new_credential new_audit : Uuid)
    (store_now : OffsetDateTime) : Service WebauthnFinishOutcome :=
  do ceremony <- consume_ceremony self token binding correlation_id consume_audit consume_now;
  if negb (bool_decide (record_kind ceremony = Registration))
     || negb (bool_decide (record_tenant_id ceremony = expected_tenant_id))
     || negb (bool_decide (record_account_id ceremony = expected_account_id))
  then ret FinishDenied else
  do (state, label) <- serialized (registration_from_value (record_state ceremony));
  do passkey <- library (finish_passkey_registration (webauthn self) response state);
  do credential_id <- lift (map_err Failed (canonical_credential_id passkey));
  do passkey <- serialized (passkey_to_value passkey);
  do_ calling WebauthnStore (register_webauthn_passkey
    {| register_tenant_id := record_tenant_id ceremony; register_account_id := record_account_id ceremony;
       register_credential_id := credential_id; register_passkey := passkey; register_label := label;
       register_correlation_id := correlation_id |} new_credential new_audit store_now);
  ret Registered.

(** ** Authentication ([authentication.rs]) *)
Definition begin_authentication (self : WebauthnService) (address : UserAddress) (correlation_id : str)
    (now : OffsetDateTime) (draw : CeremonyDraw) : Service (WebauthnBeginOutcome RequestChallengeResponse) :=
  if negb (bool_decide (domain address = rp_domain (webauthn_policy self))) then ret BeginDenied else
  do found <- calling WebauthnStore (login_account address);
  match found with
  | None => ret BeginDenied
  | Some account =>
      if negb (permits_session (login_state account)) then ret BeginDenied else
      do passkeys <- deserialize_active_passkeys (login_tenant_id account) (login_account_id account);
      match passkeys with
      | [] => ret BeginDenied
      | _ =>
          do (challenge, state) <- library (start_passkey_authentication (webauthn self) passkeys (ceremony_entropy draw));
          do state <- serialized (authentication_to_value state);
          do ceremony <- persist_ceremony self (login_tenant_id account) (login_account_id account) Authentication
                           state correlation_id now draw;
          ret (Challenge ceremony challenge)
      end
  end.

(** [find(|passkey| canonical_credential_id(passkey).is_ok_and(|id| id == credential_id))]. *)
Definition has_credential_id (credential_id : str) (passkey : Passkey) : bool :=
  match canonical_credential_id passkey with
  | Ok id => bool_decide (id = credential_id)
  | Err _ => false
  end.

Definition finish_authentication (self : WebauthnService) (token binding : str) (response : PublicKeyCredential)
    (correlation_id : str) (consume_audit : Uuid) (consume_now update_now : OffsetDateTime) :
    Service WebauthnFinishOutcome :=
  do ceremony <- consume_ceremony self token binding correlation_id consume_audit consume_now;
  if negb (bool_decide (record_kind ceremony = Authentication)) then ret FinishDenied else
  let tenant_id := record_tenant_id ceremony in
  let account_id := record_account_id ceremony in
  do state <- serialized (authentication_from_value (record_state ceremony));
  do verification <- library (finish_passkey_authentication (webauthn self) response state);
  do credential_id <- lift (map_err Failed (credential_text (result_cred_id verification)));
  do passkeys <- deserialize_active_passkeys tenant_id account_id;
  match List.find (has_credential_id credential_id) passkeys with
  | None => ret FinishDenied
  | Some passkey =>
      do passkey <- serialized (passkey_to_value (update_credential passkey verification));
      do updated <- attempt (update_webauthn_passkey tenant_id account_id credential_id passkey update_now);
      match updated with
      | Err TargetNotFoundOrUnchanged => ret FinishDenied
      | Err error => fail (Failed (WebauthnStore error))
      | Ok _ =>
          do found <- calling WebauthnStore (session_authorization_context tenant_id account_id);
          do context <- lift (ok_or found (Failed SessionUnavailable));
          ret (FinishAuthenticated context)
      end
  end.

End service.
