(* ===== verification/StepUp.v ===== *)
(** * Step-up for role changes

    [crates/fcp-fabric-service/src/step_up.rs]: a fresh TOTP code buys one grant
    for one change of one role of one account. *)

From Stdlib Require Import ZArith Lia String.
From stdpp Require Import base list option numbers decidable.
From S2P Require Import Prelude Bytes Str Domain Totp Clock Auth Db StoreAccounts StoreSessions StoreLogin StoreStepUp LoginService.

(** ** Types *)
Record RoleChangeTarget : Type := {
  target_account : AccountId;
  target_role : Role;
  target_grant : bool;
}.

Inductive StepUpError : Type :=
| StepUpInvalidPolicy
| StepUpTotp (source : TotpLoginError)
| StepUpStore (source : StoreError).

Section types.
Context `{T : TimeLib}.

Record StepUpPolicy : Type := { grant_lifetime : Duration }.

Definition StepUpPolicy_new (grant_lifetime : Duration) : result StepUpError StepUpPolicy :=
  if duration_leb grant_lifetime duration_zero || negb (duration_leb grant_lifetime (duration_minutes 5))
  then Err StepUpInvalidPolicy else Ok {| grant_lifetime := grant_lifetime |}.

Definition StepUpPolicy_standard : StepUpPolicy := {| grant_lifetime := duration_minutes 5 |}.

Record IssuedStepUpGrant : Type := {
  step_up_token : str;
  step_up_expires_at : OffsetDateTime;
}.

Inductive StepUpIssueOutcome : Type :=
| StepUpDenied
| StepUpIssued (grant : IssuedStepUpGrant).

Record StepUpService : Type := {
  step_up_totp_keys : TotpKeyProvider;
  step_up_digest_key : TokenDigestKey;
  step_up_policy : StepUpPolicy;
}.

(** What issuing a grant draws and reads. *)
Record GrantDraw : Type := {
  drawn_grant_token : array 32;
  drawn_grant : Uuid;
  drawn_grant_audit : Uuid;
  grant_store_now : OffsetDateTime;
}.
End types.

(** What [role_change_target_digest] hashes. *)
Definition role_change_target_bytes (target : RoleChangeTarget) : bytes :=
  (str_bytes (lit "fcp-fabric-step-up-target-v1") ++ [x00] ++ str_bytes (lit "change-account-role") ++ [x00])
  ++ abytes (account_as_uuid (target_account target))
  ++ [byte_of_Z (if target_grant target then 1 else 0)]
  ++ str_bytes (match target_role target with
       | Owner => lit "owner"
       | Admin => lit "admin"
       | Operator => lit "operator"
       | Auditor => lit "auditor"
       | Member => lit "member"
       end).

Section service.
Context `{F : FabricLib} `{T : TimeLib} `{C : TotpCrypto} `{A : Argon2} `{U : Unicode} `{D : SqlDialect}.
Abbreviation Db := (Db Document).
Abbreviation Service := (M Db (Fault StepUpError)).

Definition role_change_target_digest (target : RoleChangeTarget) : array 32 := sha256 (role_change_target_bytes target).

Definition issue_role_change (self : StepUpService) (tenant_id : TenantId) (account_id : AccountId) (family_id : Uuid)
    (target : RoleChangeTarget) (code correlation_id : str) (now : OffsetDateTime) (draw : GrantDraw) :
    Service StepUpIssueOutcome :=
  do outcome <- within StepUpTotp (complete_totp (step_up_totp_keys self) tenant_id account_id code now);
  match outcome with
  | TotpDenied => ret StepUpDenied
  | TotpAuthenticated context =>
      if negb (bool_decide (AuthorizationContext.tenant_id context = tenant_id))
         || negb (bool_decide (AuthorizationContext.account_id context = account_id))
      then ret StepUpDenied else
      let issued := issue_opaque_token (step_up_digest_key self) (drawn_grant_token draw) in
      let target_digest := role_change_target_digest target in
      do expires_at <- unwrapped (datetime_add now (grant_lifetime (step_up_policy self)));
      do_ calling StepUpStore (create_step_up_grant
        {| grant_tenant_id := tenant_id; grant_account_id := account_id; grant_family_id := family_id;
           grant_action := ChangeAccountRole; grant_target_digest := target_digest;
           grant_token_digest := digest issued; grant_expires_at := expires_at;
           grant_correlation_id := correlation_id |}
        (drawn_grant draw) (drawn_grant_audit draw) (grant_store_now draw));
      ret (StepUpIssued {| step_up_token := raw issued; step_up_expires_at := expires_at |})
  end.

Definition consume_role_change (self : StepUpService) (tenant_id : TenantId) (account_id : AccountId)
    (family_id : Uuid) (target : RoleChangeTarget) (raw_token correlation_id : str) (new_audit : Uuid)
    (store_now : OffsetDateTime) : Service bool :=
  let token_digest := derive_opaque_token_digest (step_up_digest_key self) raw_token in
  let target_digest := role_change_target_digest target in
  calling StepUpStore (consume_step_up_grant
    {| consumed_tenant_id := tenant_id; consumed_account_id := account_id; consumed_family_id := family_id;
       consumed_action := ChangeAccountRole; consumed_target_digest := target_digest;
       consumed_token_digest := token_digest; consumed_correlation_id := correlation_id |} new_audit store_now).

End service.

(** Targets with the same bytes are the same. *)
Lemma role_change_target_bytes_inj t t' : role_change_target_bytes t = role_change_target_bytes t' -> t = t'.
Proof.
  destruct t as [[a] r g], t' as [[a'] r' g']. unfold role_change_target_bytes. cbn [target_account target_role target_grant account_as_uuid].
  intros H%app_inv_head. apply app_inj_1 in H as [Ha H]; [|pose proof (array_len a); pose proof (array_len a'); unfold blen in *; lia].
  apply array_eq in Ha as ->. injection H as Hg Hr.
  assert (g = g') as -> by (by destruct g, g'). by destruct r, r'.
Qed.
