(* ===== verification/Browser.v ===== *)
(** * Cookies, headers and responses of the HTTP boundary

    [crates/fcp-fabric-service/src/transport/browser.rs] and the pure parts of
    [middleware.rs] and [transport.rs].  Header values are what the [http] crate
    makes of them: turning one into text and back is a parameter. *)

From Stdlib Require Import ZArith Lia String.
From stdpp Require Import base list option numbers decidable.
From S2P Require Import Prelude Bytes Str Domain Clock Auth Ingress.

(** Header values of the [http] crate. *)
Class HttpLib : Type := {
  HeaderValue : Type;
  (** [HeaderValue::from_str] and [to_str]. *)
  header_from_str : str -> option HeaderValue;
  header_to_str : HeaderValue -> option str;
}.

(** Printable ASCII text is a header value and reads back. *)
Definition printable (s : str) : Prop := Forall (fun c => 32 <= c < 127) s.

Class HttpLaws (H : HttpLib) : Prop := {
  header_printable : forall s, printable s ->
    exists v, header_from_str s = Some v /\ header_to_str v = Some s;
}.

(** ** Names ([transport.rs]) *)
Definition LOGIN_COOKIE_MAX_AGE_SECONDS : str := lit "300".
Definition LOGIN_TRANSACTION_COOKIE : str := lit "__Host-fabric-login".
Definition LOGIN_BINDING_COOKIE : str := lit "__Host-fabric-binding".
Definition LOGIN_CSRF_COOKIE : str := lit "__Host-fabric-csrf".
Definition REFRESH_COOKIE : str := lit "__Host-fabric-refresh".
Definition ACCESS_COOKIE : str := lit "__Host-fabric-access".
Definition SESSION_CSRF_COOKIE : str := lit "__Host-fabric-session-csrf".
Definition STEP_UP_COOKIE : str := lit "__Secure-fabric-step-up".
Definition WEBAUTHN_CEREMONY_COOKIE : str := lit "__Host-fabric-webauthn".
Definition WEBAUTHN_BINDING_COOKIE : str := lit "__Host-fabric-webauthn-binding".
Definition WEBAUTHN_CSRF_COOKIE : str := lit "__Host-fabric-webauthn-csrf".
Definition CSRF_HEADER : str := lit "x-fabric-csrf".
Definition COOKIE : str := lit "cookie".
Definition HOST : str := lit "host".

Record FabricTransportConfig : Type := { public_domain : DomainName; enable_hsts : bool }.

(** ** Tokens and request headers ([browser.rs]) *)
Definition is_opaque_browser_token (value : str) : bool :=
  (str_len value =? 43)
  && forallb (fun b => byte_is_alphanumeric b || bool_decide (Z_of_byte b = 45) || bool_decide (Z_of_byte b = 95))
       (str_bytes value).

Section browser.
Context `{H : HttpLib} `{F : FabricLib}.

(** A header map: lower-case names and values, in order. *)
Definition HeaderMap : Type := list (str * HeaderValue).

Definition get_all (headers : HeaderMap) (name : str) : list HeaderValue :=
  snd <$> filter (fun h => fst h = name) headers.

(** The pairs of every [Cookie] header that have the name and an opaque value. *)
Definition cookie_matches (headers : HeaderMap) (name : str) : list str :=
  let texts := omap header_to_str (get_all headers COOKIE) in
  let pairs := omap (fun pair => split_once 61 (trim pair)) (texts ≫= split 59) in
  snd <$> filter (fun p => fst p = name /\ is_opaque_browser_token (snd p) = true) pairs.

Definition browser_cookie (headers : HeaderMap) (name : str) : option str :=
  match cookie_matches headers name with
  | [value] => Some value
  | _ => None
  end.

Definition csrf_proof_is_valid (headers : HeaderMap) (cookie_name : str) : bool :=
  match browser_cookie headers cookie_name with
  | None => false
  | Some cookie =>
      match head (get_all headers CSRF_HEADER) ≫= header_to_str with
      | Some value => is_opaque_browser_token value && bool_decide (value = cookie)
      | None => false
      end
  end.

(** ** Response cookies *)
Definition login_cookie (name value : str) : str :=
  name ++ lit "=" ++ value ++ lit "; Path=/; Max-Age=" ++ LOGIN_COOKIE_MAX_AGE_SECONDS
  ++ lit "; Secure; HttpOnly; SameSite=Strict".

Definition csrf_cookie (value : str) : str :=
  LOGIN_CSRF_COOKIE ++ lit "=" ++ value ++ lit "; Path=/; Max-Age=" ++ LOGIN_COOKIE_MAX_AGE_SECONDS
  ++ lit "; Secure; SameSite=Strict".

Definition webauthn_cookie (name value : str) (http_only : bool) : str :=
  name ++ lit "=" ++ value ++ lit "; Path=/; Max-Age=" ++ LOGIN_COOKIE_MAX_AGE_SECONDS
  ++ lit "; Secure; SameSite=Strict" ++ (if http_only then lit "; HttpOnly" else []).

Definition refresh_cookie (value : str) : str :=
  REFRESH_COOKIE ++ lit "=" ++ value ++ lit "; Path=/; Max-Age=2592000; Secure; HttpOnly; SameSite=Strict".

Definition access_cookie (value : str) : str :=
  ACCESS_COOKIE ++ lit "=" ++ value ++ lit "; Path=/; Max-Age=900; Secure; HttpOnly; SameSite=Strict".

Definition session_csrf_cookie (value : str) : str :=
  SESSION_CSRF_COOKIE ++ lit "=" ++ value ++ lit "; Path=/; Max-Age=2592000; Secure; SameSite=Strict".

(** The loop of [clear_login_cookies], [clear_session_cookies] and
    [clear_webauthn_cookies] over names and their [HttpOnly] flags. *)
Definition cleared_cookies (names : list (str * bool)) : list HeaderValue :=
  omap (fun '(name, http_only) =>
    header_from_str (name ++ lit "=; Path=/; Max-Age=0; Secure; SameSite=Strict"
      ++ (if http_only : bool then lit "; HttpOnly" else []))) names.

Definition clear_login_cookies : list HeaderValue :=
  cleared_cookies [(LOGIN_TRANSACTION_COOKIE, true); (LOGIN_BINDING_COOKIE, true); (LOGIN_CSRF_COOKIE, false)].

Definition clear_session_cookies : list HeaderValue :=
  cleared_cookies [(REFRESH_COOKIE, true); (ACCESS_COOKIE, true); (SESSION_CSRF_COOKIE, false)].

Definition clear_webauthn_cookies : list HeaderValue :=
  cleared_cookies [(WEBAUTHN_CEREMONY_COOKIE, true); (WEBAUTHN_BINDING_COOKIE, true); (WEBAUTHN_CSRF_COOKIE, false)].

Definition step_up_cookie (value : str) : str :=
  STEP_UP_COOKIE ++ lit "=" ++ value ++ lit "; Path=/v1/admin/accounts; Max-Age=300; Secure; HttpOnly; SameSite=Strict".

Definition clear_step_up_cookie : list HeaderValue :=
  option_list (header_from_str (STEP_UP_COOKIE
    ++ lit "=; Path=/v1/admin/accounts; Max-Age=0; Secure; HttpOnly; SameSite=Strict")).

(** [drawn] is what [OsRng] filled in. *)
Definition issue_browser_csrf_token (drawn : array 32) : str := base64url_encode (abytes drawn).

(** ** Responses *)

(** The bodies the handlers serialise. *)
Inductive ResponseBody : Type :=
| NoBody
| StatusBody (status : str)
| ProvisioningBody (status otpauth_uri : str)
| AuthenticatedBody (status session_expires_at : str)
| CreatedAccountBody (account_id : str)
| ReadinessBody (service status : str)
| ChallengeBody (json : str).

Record Response : Type := {
  response_status : StatusCode;
  set_cookies : list HeaderValue;
  body : ResponseBody;
}.

Definition status_response (status : StatusCode) : Response :=
  {| response_status := status; set_cookies := []; body := NoBody |}.

Definition with_cookies (cookies : list HeaderValue) (r : Response) : Response :=
  {| response_status := response_status r; set_cookies := set_cookies r ++ cookies; body := body r |}.

Definition generic_login_denial : Response :=
  {| response_status := UNAUTHORIZED; set_cookies := []; body := StatusBody (lit "denied") |}.
Definition login_flow_denial : Response := with_cookies clear_login_cookies generic_login_denial.
Definition session_refresh_denial : Response := with_cookies clear_session_cookies generic_login_denial.
Definition passkey_denial : Response := with_cookies clear_webauthn_cookies generic_login_denial.
Definition step_up_required : Response := with_cookies clear_step_up_cookie (status_response PRECONDITION_REQUIRED).

End browser.

(** ** The host guard ([middleware.rs]) *)

(** [rsplit_once]. *)
Definition rsplit_once (sep : Z) (s : str) : option (str * str) :=
  match split_once sep (rev s) with
  | Some (a, b) => Some (rev b, rev a)
  | None => None
  end.

Definition strip_suffix (c : Z) (s : str) : str :=
  match rev s with
  | x :: rest => if x =? c then rev rest else s
  | [] => s
  end.

Definition canonical_host (value : str) : option str :=
  let host :=
    match rsplit_once 58 value with
    | Some (host, port) =>
        if negb (bool_decide (port = [])) && forallb byte_is_digit (str_bytes port) then Some host else None
    | None => Some value
    end in
  match host with
  | None => None
  | Some host =>
      let host := strip_suffix 46 host in
      if bool_decide (host = []) || negb (forallb (fun c => c <? 128) host) || contains 58 host then None
      else Some (to_ascii_lowercase host)
  end.

Definition is_safe_request_id (value : str) : bool :=
  negb (bool_decide (value = [])) && (str_len value <=? 128)
  && forallb (fun b => byte_is_alphanumeric b || bool_decide (Z_of_byte b = 45) || bool_decide (Z_of_byte b = 95)
       || bool_decide (Z_of_byte b = 46)) (str_bytes value).

Section guards.
Context `{H : HttpLib}.

(** [host_guard]: the handler runs only for the public domain. *)
Definition host_accepted (config : FabricTransportConfig) (headers : HeaderMap) : bool :=
  match head (get_all headers HOST) ≫= header_to_str with
  | None => false
  | Some value => bool_decide (canonical_host value = Some (domain_as_str (public_domain config)))
  end.

(** [request_correlation]: the identifier the response carries. *)
Definition request_id_for (headers : HeaderMap) (drawn : str) : str :=
  match head (get_all headers (lit "x-request-id")) ≫= header_to_str with
  | Some value => if is_safe_request_id value then value else drawn
  | None => drawn
  end.

(** [response_security_headers]. *)
Definition security_headers (config : FabricTransportConfig) : list (str * str) :=
  [(lit "cache-control", lit "no-store");
   (lit "content-security-policy",
    lit "default-src 'none'; base-uri 'none'; frame-ancestors 'none'; form-action 'self'");
   (lit "cross-origin-opener-policy", lit "same-origin");
   (lit "cross-origin-resource-policy", lit "same-origin");
   (lit "referrer-policy", lit "no-referrer");
   (lit "x-content-type-options", lit "nosniff")]
  ++ (if enable_hsts config then [(lit "strict-transport-security", lit "max-age=31536000; includeSubDomains")]
      else []).

End guards.
