(* ===== verification/Http.v ===== *)
(** * The routes and the router

    [crates/fcp-fabric-service/src/transport/auth.rs], [session.rs],
    [passkeys.rs], [admin.rs] and [router_inner] of [transport.rs].  A handler runs on the database; an early
    return is a failure of its program, a panic becomes the response of
    [CatchPanicLayer].  Log lines are left out.  What a handler draws and the
    clocks it reads are its arguments. *)

From Stdlib Require Import ZArith Lia String.
From stdpp Require Import base list option numbers decidable.
From S2P Require Import Prelude Bytes Types Str Domain Totp Clock Auth Db Ingress StoreAccounts StoreSessions StoreLogin.
From S2P Require Import StorePasskeys StoreStepUp LoginService Passkeys StepUp Browser.

Section types.
Context `{T : TimeLib} `{F : FabricLib} `{W : !WebauthnLib} `{V : UrlLib}.

(** The services the modelled routes use. *)
Record FabricMfaSessionServices : Type := {
  totp_login_keys : TotpKeyProvider;
  totp_enrollment : TotpEnrollmentService;
  session_issuer : SessionIssuer;
  session_rotator : SessionRotator;
  access_authenticator : AccessSessionAuthenticator;
  webauthn_service : WebauthnService;
  step_up : StepUpService;
}.

Record FabricHttpState : Type := {
  transport : FabricTransportConfig;
  login_flow : option FabricLoginFlow;
  mfa_session : option FabricMfaSessionServices;
  (** Whether the ingress service is installed. *)
  federation_ingress : bool;
}.

(** What the password route draws and reads. *)
Record StartDraw : Type := {
  start_correlation : Uuid;
  start_now : OffsetDateTime;
  start_binding : array 32;
  start_transaction : TransactionDraw;
  start_csrf : array 32;
}.

(** The consumption of a login transaction. *)
Record ConsumeDraw : Type := { consume_audit : Uuid; consume_now : OffsetDateTime }.

(** Issuing a browser session: the handler's clock, the store's draws and the
    token of the browser. *)
Record IssueDraw : Type := {
  issue_now : OffsetDateTime;
  issue_session_draw : SessionDraw;
  issue_csrf : array 32;
}.

(** The enrollment route. *)
Record EnrollDraw : Type := {
  enroll_correlation : Uuid;
  enroll_consume : ConsumeDraw;
  enroll_factor : Uuid;
  enroll_seed : array 32;
  enroll_nonce : array 12;
  enroll_audit : Uuid;
  enroll_store_now : OffsetDateTime;
  enroll_now : OffsetDateTime;
  enroll_transaction : TransactionDraw;
  enroll_csrf : array 32;
}.

(** The routes that end in a session. *)
Record FinishDraw : Type := {
  finish_correlation : Uuid;
  finish_consume : ConsumeDraw;
  finish_now : OffsetDateTime;
  finish_audit : Uuid;
  finish_store_now : OffsetDateTime;
  finish_issue : IssueDraw;
}.

(** Beginning a passkey ceremony. *)
Record BeginPasskeyDraw : Type := {
  passkey_correlation : Uuid;
  passkey_now : OffsetDateTime;
  passkey_ceremony : CeremonyDraw;
  passkey_csrf : array 32;
}.

End types.

Section handlers.
Context `{F : FabricLib} `{W : !WebauthnLib} `{V : UrlLib} `{T : TimeLib} `{C : TotpCrypto} `{A : Argon2} `{U : Unicode} `{H : HttpLib} `{D : SqlDialect}.
Abbreviation Db := (Db Document).
Abbreviation Handler := (M Db (Fault Response)).

(** [return response]. *)
Definition respond {B} (r : Response) : Handler B := fail (Failed r).

(** The response of a handler; [CatchPanicLayer] answers a panic. *)
Definition run (h : Handler Response) (db : Db) : Db * Response :=
  match h db with
  | (db', Ok r) | (db', Err (Failed r)) => (db', r)
  | (db', Err Panicked) => (db', status_response INTERNAL_SERVER_ERROR)
  end.

(** [let Some(x) = o else { return r }]. *)
Definition or_respond {B} (o : option B) (r : Response) : Handler B :=
  match o with Some b => ret b | None => respond r end.

(** A service call whose failures are answered by [answer]. *)
Definition answering {E B} (answer : E -> Response) (m : M Db (Fault E) B) : Handler B :=
  fun db => let '(db', r) := m db in
    (db', map_err (fun f => match f with Panicked => Panicked | Failed e => Failed (answer e) end) r).

Definition unavailable {E} (e : E) : Response := status_response SERVICE_UNAVAILABLE.

(** Three cookies, or an internal error when one is not a header value. *)
Definition three_cookies (a b c : str) : Handler (list HeaderValue) :=
  match header_from_str a, header_from_str b, header_from_str c with
  | Some a, Some b, Some c => ret [a; b; c]
  | _, _, _ => respond (status_response INTERNAL_SERVER_ERROR)
  end.

(** ** Sessions ([transport/session.rs]) *)
Definition browser_session_response (session : IssuedRefreshSession) (drawn_csrf : array 32) : Handler Response :=
  do session_expires_at <- or_respond (format_rfc3339 (issued_expires_at session))
                             (status_response INTERNAL_SERVER_ERROR);
  do cookies <- three_cookies (refresh_cookie (refresh_token session)) (access_cookie (access_token session))
                  (session_csrf_cookie (issue_browser_csrf_token drawn_csrf));
  ret {| response_status := OK; set_cookies := cookies;
         body := AuthenticatedBody (lit "authenticated") session_expires_at |}.

Definition issue_browser_session (issuer : SessionIssuer) (context : AuthorizationContext.t)
    (correlation_id : str) (draw : IssueDraw) : Handler Response :=
  do session <- answering unavailable (issue_session issuer context correlation_id (issue_now draw)
                  (issue_session_draw draw));
  fun db => let '(db', r) := run (browser_session_response session (issue_csrf draw)) db in
    (db', Ok (with_cookies clear_login_cookies r)).

Definition refresh_session (state : FabricHttpState) (headers : HeaderMap) (correlation : Uuid)
    (now : OffsetDateTime) (draw : SessionDraw) (drawn_csrf : array 32) : Handler Response :=
  do services <- or_respond (mfa_session state) (status_response NOT_FOUND);
  do refresh <- or_respond (browser_cookie headers REFRESH_COOKIE) session_refresh_denial;
  if negb (csrf_proof_is_valid headers SESSION_CSRF_COOKIE) then respond (status_response FORBIDDEN) else
  let correlation_id := lit "http-refresh-" ++ uuid_text correlation in
  do outcome <- answering unavailable (rotate_session (session_rotator services) refresh correlation_id now draw);
  match outcome with
  | SessionRotated session => browser_session_response session drawn_csrf
  | SessionReuseDetected | SessionDenied => ret session_refresh_denial
  end.

Definition authenticate_access (services : FabricMfaSessionServices) (headers : HeaderMap)
    (store_now : OffsetDateTime) : Handler AuthenticatedAccessSession :=
  if negb (csrf_proof_is_valid headers SESSION_CSRF_COOKIE) then respond (status_response FORBIDDEN) else
  do access <- or_respond (browser_cookie headers ACCESS_COOKIE) session_refresh_denial;
  do found <- answering unavailable (authenticate_session (access_authenticator services) access store_now);
  or_respond found session_refresh_denial.

Definition authenticate_admin (services : FabricMfaSessionServices) (headers : HeaderMap)
    (permission : Permission) (store_now : OffsetDateTime) : Handler AuthenticatedAccessSession :=
  do authenticated <- authenticate_access services headers store_now;
  if negb (is_ok (AuthorizationContext.require (session_context authenticated) permission))
  then respond (status_response FORBIDDEN) else ret authenticated.

Definition administration_actor (authenticated : AuthenticatedAccessSession) (step_up_verified : bool) :
    AdministrationActor.t :=
  {| AdministrationActor.tenant_id := AuthorizationContext.tenant_id (session_context authenticated);
     AdministrationActor.account_id := AuthorizationContext.account_id (session_context authenticated);
     AdministrationActor.roles := AuthorizationContext.roles (session_context authenticated);
     AdministrationActor.step_up_verified := step_up_verified;
     AdministrationActor.account_state := AuthorizationContext.state (session_context authenticated) |}.

(** ** Login ([transport/auth.rs]) *)
Definition start_password_login (state : FabricHttpState) (address password : str) (draw : StartDraw) :
    Handler Response :=
  do flow <- or_respond (login_flow state) (status_response NOT_FOUND);
  do address <- or_respond (match UserAddress.parse address with Ok a => Some a | Err _ => None end)
                  generic_login_denial;
  let correlation_id := lit "http-login-" ++ uuid_text (start_correlation draw) in
  do started <- answering unavailable (start_flow flow address password correlation_id (start_now draw)
                  (start_binding draw) (start_transaction draw));
  match started with
  | LoginDenied => ret generic_login_denial
  | LoginPending challenge =>
      do cookies <- three_cookies
        (login_cookie LOGIN_TRANSACTION_COOKIE (issued_token (challenge_transaction challenge)))
        (login_cookie LOGIN_BINDING_COOKIE (binding_token challenge))
        (csrf_cookie (issue_browser_csrf_token (start_csrf draw)));
      ret {| response_status := ACCEPTED; set_cookies := cookies; body := StatusBody (lit "accepted") |}
  end.

(** The answer to a failed consumption. *)
Definition consumption_answer (e : FabricLoginFlowError) : Response :=
  match e with
  | FlowTransaction (LoginStore InvalidOrExpiredLoginTransaction) => login_flow_denial
  | _ => status_response SERVICE_UNAVAILABLE
  end.

(** The guards and the consumption the four later routes share: the services,
    the binding cookie, the consumed transaction. *)
Definition next_step (state : FabricHttpState) (headers : HeaderMap) (stage : LoginTransactionStage)
    (correlation_id : str) (draw : ConsumeDraw) :
    Handler (FabricLoginFlow * FabricMfaSessionServices * str * LoginTransactionRecord) :=
  match login_flow state, mfa_session state with
  | Some flow, Some services =>
      do transaction_token <- or_respond (browser_cookie headers LOGIN_TRANSACTION_COOKIE) login_flow_denial;
      do binding <- or_respond (browser_cookie headers LOGIN_BINDING_COOKIE) login_flow_denial;
      if negb (csrf_proof_is_valid headers LOGIN_CSRF_COOKIE) then respond (status_response FORBIDDEN) else
      do transaction <- answering consumption_answer (consume_next_step flow transaction_token binding stage
                          correlation_id (consume_audit draw) (consume_now draw));
      ret (flow, services, binding, transaction)
  | _, _ => respond (status_response NOT_FOUND)
  end.

Definition begin_totp_enrollment_route (state : FabricHttpState) (headers : HeaderMap) (draw : EnrollDraw) :
    Handler Response :=
  let correlation_id := lit "http-totp-enroll-begin-" ++ uuid_text (enroll_correlation draw) in
  do (flow, services, binding, transaction) <-
    next_step state headers MfaEnrollment correlation_id (enroll_consume draw);
  do enrollment <- answering unavailable (begin_enrollment (totp_enrollment services)
    (transaction_tenant_id transaction) (transaction_account_id transaction) correlation_id
    (enroll_factor draw) (enroll_seed draw) (enroll_nonce draw) (enroll_audit draw) (enroll_store_now draw));
  do confirmation <- answering unavailable (flow_begin_confirmation flow (transaction_tenant_id transaction)
    (transaction_account_id transaction) (pending_factor_id enrollment) binding correlation_id
    (enroll_now draw) (enroll_transaction draw));
  do cookies <- three_cookies (login_cookie LOGIN_TRANSACTION_COOKIE (issued_token confirmation))
    (login_cookie LOGIN_BINDING_COOKIE binding) (csrf_cookie (issue_browser_csrf_token (enroll_csrf draw)));
  ret {| response_status := CREATED; set_cookies := cookies;
         body := ProvisioningBody (lit "provisioning") (provisioning_uri enrollment) |}.

Definition confirm_totp_enrollment (state : FabricHttpState) (headers : HeaderMap) (code : str)
    (draw : FinishDraw) : Handler Response :=
  let correlation_id := lit "http-totp-enroll-confirm-" ++ uuid_text (finish_correlation draw) in
  do (_, services, _, transaction) <- next_step state headers MfaEnrollment correlation_id (finish_consume draw);
  do factor <- or_respond (transaction_factor_id transaction) login_flow_denial;
  do outcome <- answering unavailable (confirm_enrollment (totp_enrollment services)
    (transaction_tenant_id transaction) (transaction_account_id transaction) factor code correlation_id
    (finish_now draw) (finish_audit draw) (finish_store_now draw));
  match outcome with
  | EnrollmentDenied => respond login_flow_denial
  | EnrollmentAuthenticated context =>
      issue_browser_session (session_issuer services) context correlation_id (finish_issue draw)
  end.

Definition complete_totp_login (state : FabricHttpState) (headers : HeaderMap) (code : str)
    (draw : FinishDraw) : Handler Response :=
  let correlation_id := lit "http-totp-" ++ uuid_text (finish_correlation draw) in
  do (_, services, _, transaction) <- next_step state headers MfaChallenge correlation_id (finish_consume draw);
  do outcome <- answering unavailable (complete_totp (totp_login_keys services)
    (transaction_tenant_id transaction) (transaction_account_id transaction) code (finish_now draw));
  match outcome with
  | TotpDenied => respond login_flow_denial
  | TotpAuthenticated context =>
      issue_browser_session (session_issuer services) context correlation_id (finish_issue draw)
  end.

Definition complete_password_only_login (state : FabricHttpState) (headers : HeaderMap)
    (draw : FinishDraw) : Handler Response :=
  let correlation_id := lit "http-session-" ++ uuid_text (finish_correlation draw) in
  do (_, services, _, transaction) <- next_step state headers SessionIssuance correlation_id (finish_consume draw);
  do found <- answering unavailable (calling id (session_authorization_context
    (transaction_tenant_id transaction) (transaction_account_id transaction)));
  do context <- or_respond found login_flow_denial;
  issue_browser_session (session_issuer services) context correlation_id (finish_issue draw).

(** ** Administration ([transport/admin.rs]) *)
Definition invite_account_route (state : FabricHttpState) (headers : HeaderMap) (localpart : str)
    (initial_role : Role) (correlation new_account new_audit : Uuid) (access_now store_now : OffsetDateTime) :
    Handler Response :=
  do services <- or_respond (mfa_session state) (status_response NOT_FOUND);
  do authenticated <- authenticate_admin services headers ManageAccounts access_now;
  do localpart <- or_respond (match Localpart.parse localpart with Ok l => Some l | Err _ => None end)
                    (status_response UNPROCESSABLE_ENTITY);
  let command := {| InviteAccount.tenant_id := AuthorizationContext.tenant_id (session_context authenticated);
                    InviteAccount.localpart := localpart; InviteAccount.initial_role := initial_role;
                    InviteAccount.actor := administration_actor authenticated false;
                    InviteAccount.correlation_id := lit "http-admin-invite-" ++ uuid_text correlation |} in
  do account <- answering (fun e => match e with
      | Administration _ => status_response FORBIDDEN
      | _ => status_response SERVICE_UNAVAILABLE
      end) (calling id (invite_account command new_account new_audit store_now));
  ret {| response_status := CREATED; set_cookies := [];
         body := CreatedAccountBody (uuid_text (account_as_uuid account)) |}.

Definition begin_role_change_step_up (state : FabricHttpState) (headers : HeaderMap) (account_id code : str)
    (role : Role) (grant : bool) (access_now : OffsetDateTime) (correlation : Uuid) (now : OffsetDateTime)
    (draw : GrantDraw) : Handler Response :=
  do services <- or_respond (mfa_session state) (status_response NOT_FOUND);
  do authenticated <- authenticate_admin services headers ManageRoles access_now;
  do target_account_id <- or_respond (uuid_parse account_id) (status_response NOT_FOUND);
  let correlation_id := lit "http-admin-role-step-up-" ++ uuid_text correlation in
  do outcome <- answering unavailable (issue_role_change (step_up services)
    (AuthorizationContext.tenant_id (session_context authenticated))
    (AuthorizationContext.account_id (session_context authenticated)) (access_family_id authenticated)
    {| target_account := AccountId_from_uuid target_account_id; target_role := role; target_grant := grant |}
    code correlation_id now draw);
  match outcome with
  | StepUpIssued grant =>
      do cookie <- or_respond (header_from_str (step_up_cookie (step_up_token grant)))
                     (status_response INTERNAL_SERVER_ERROR);
      ret (with_cookies [cookie] (status_response NO_CONTENT))
  | StepUpDenied => ret generic_login_denial
  end.

(** The answer to a change of a role. *)
Definition role_change_answer (r : result StoreError unit) : Response :=
  match r with
  | Ok _ => status_response NO_CONTENT
  | Err (Administration _) => status_response FORBIDDEN
  | Err _ => status_response SERVICE_UNAVAILABLE
  end.

Definition change_account_role (state : FabricHttpState) (headers : HeaderMap) (account_id : str) (role : Role)
    (grant : bool) (access_now : OffsetDateTime) (correlation : Uuid) (consume : ConsumeDraw) (new_audit : Uuid)
    (store_now : OffsetDateTime) : Handler Response :=
  do services <- or_respond (mfa_session state) (status_response NOT_FOUND);
  do authenticated <- authenticate_admin services headers ManageRoles access_now;
  do account_id <- or_respond (uuid_parse account_id) (status_response NOT_FOUND);
  let target_account_id := AccountId_from_uuid account_id in
  let correlation_id := lit "http-admin-role-" ++ uuid_text correlation in
  let command := {| ChangeRole.tenant_id := AuthorizationContext.tenant_id (session_context authenticated);
                    ChangeRole.target_account_id := target_account_id; ChangeRole.role := role;
                    ChangeRole.grant := grant; ChangeRole.actor := administration_actor authenticated true;
                    ChangeRole.correlation_id := correlation_id |} in
  if negb (is_ok (ChangeRole.validate command)) then respond (status_response FORBIDDEN) else
  do step_up_token <- or_respond (browser_cookie headers STEP_UP_COOKIE) step_up_required;
  do accepted <- answering unavailable (consume_role_change (step_up services)
    (AuthorizationContext.tenant_id (session_context authenticated))
    (AuthorizationContext.account_id (session_context authenticated)) (access_family_id authenticated)
    {| target_account := target_account_id; target_role := ChangeRole.role command;
       target_grant := ChangeRole.grant command |} step_up_token correlation_id
    (consume_audit consume) (consume_now consume));
  if negb accepted then respond step_up_required else
  do changed <- attempt (change_role command new_audit store_now);
  ret (with_cookies clear_step_up_cookie (role_change_answer changed)).

(** ** Passkeys ([transport/passkeys.rs]) *)

(** [Json] answers a failed serialization with an internal error. *)
Definition passkey_challenge_response (ceremony : IssuedWebauthnCeremony) (challenge : option str)
    (drawn_csrf : array 32) : Handler Response :=
  do cookies <- three_cookies
    (webauthn_cookie WEBAUTHN_CEREMONY_COOKIE (issued_ceremony_token ceremony) true)
    (webauthn_cookie WEBAUTHN_BINDING_COOKIE (issued_ceremony_binding ceremony) true)
    (webauthn_cookie WEBAUTHN_CSRF_COOKIE (issue_browser_csrf_token drawn_csrf) false);
  ret (with_cookies cookies (match challenge with
    | Some json => {| response_status := OK; set_cookies := []; body := ChallengeBody json |}
    | None => status_response INTERNAL_SERVER_ERROR
    end)).

Definition begin_passkey_login (state : FabricHttpState) (address : str) (draw : BeginPasskeyDraw) : Handler Response :=
  do services <- or_respond (mfa_session state) (status_response NOT_FOUND);
  do address <- or_respond (match UserAddress.parse address with Ok a => Some a | Err _ => None end) passkey_denial;
  let correlation_id := lit "http-passkey-login-begin-" ++ uuid_text (passkey_correlation draw) in
  do outcome <- answering unavailable (begin_authentication (webauthn_service services) address correlation_id
    (passkey_now draw) (passkey_ceremony draw));
  match outcome with
  | BeginDenied => ret passkey_denial
  | Challenge ceremony challenge => passkey_challenge_response ceremony (request_json challenge) (passkey_csrf draw)
  end.

(** The answer to a failed completion. *)
Definition completion_answer (e : WebauthnServiceError) : Response :=
  match e with
  | WebauthnFailure _ | WebauthnStore InvalidOrExpiredWebauthnCeremony => passkey_denial
  | _ => status_response SERVICE_UNAVAILABLE
  end.

(** The cookies of a ceremony. *)
Definition ceremony_cookies (headers : HeaderMap) : Handler (str * str) :=
  match browser_cookie headers WEBAUTHN_CEREMONY_COOKIE, browser_cookie headers WEBAUTHN_BINDING_COOKIE with
  | Some token, Some binding => ret (token, binding)
  | _, _ => respond passkey_denial
  end.

(** A handler's response as a value. *)
Definition captured (h : Handler Response) : Handler Response :=
  fun db => match h db with
            | (db', Err (Failed r)) => (db', Ok r)
            | other => other
            end.

Definition finish_passkey_login (state : FabricHttpState) (headers : HeaderMap) (credential : PublicKeyCredential)
    (correlation : Uuid) (consume : ConsumeDraw) (update_now : OffsetDateTime) (draw : IssueDraw) : Handler Response :=
  do services <- or_respond (mfa_session state) (status_response NOT_FOUND);
  if negb (csrf_proof_is_valid headers WEBAUTHN_CSRF_COOKIE) then respond (status_response FORBIDDEN) else
  do (token, binding) <- ceremony_cookies headers;
  let correlation_id := lit "http-passkey-login-finish-" ++ uuid_text correlation in
  do outcome <- answering completion_answer (finish_authentication (webauthn_service services) token binding
    credential correlation_id (consume_audit consume) (consume_now consume) update_now);
  match outcome with
  | FinishAuthenticated context =>
      do response <- captured (issue_browser_session (session_issuer services) context correlation_id draw);
      ret (with_cookies clear_webauthn_cookies response)
  | FinishDenied | Registered => ret passkey_denial
  end.

Definition begin_passkey_registration (state : FabricHttpState) (headers : HeaderMap) (label : option str)
    (access_now : OffsetDateTime) (draw : BeginPasskeyDraw) : Handler Response :=
  do services <- or_respond (mfa_session state) (status_response NOT_FOUND);
  do authenticated <- authenticate_access services headers access_now;
  let correlation_id := lit "http-passkey-registration-begin-" ++ uuid_text (passkey_correlation draw) in
  do outcome <- answering unavailable (begin_registration (webauthn_service services)
    (AuthorizationContext.tenant_id (session_context authenticated))
    (AuthorizationContext.account_id (session_context authenticated)) label correlation_id
    (passkey_now draw) (passkey_ceremony draw));
  match outcome with
  | BeginDenied => ret (status_response FORBIDDEN)
  | Challenge ceremony challenge => passkey_challenge_response ceremony (creation_json challenge) (passkey_csrf draw)
  end.

Definition finish_passkey_registration_route (state : FabricHttpState) (headers : HeaderMap)
    (credential : RegisterPublicKeyCredential) (access_now : OffsetDateTime) (correlation : Uuid)
    (consume : ConsumeDraw) (new_credential new_audit : Uuid) (store_now : OffsetDateTime) : Handler Response :=
  do services <- or_respond (mfa_session state) (status_response NOT_FOUND);
  do authenticated <- authenticate_access services headers access_now;
  if negb (csrf_proof_is_valid headers WEBAUTHN_CSRF_COOKIE) then respond (status_response FORBIDDEN) else
  do (token, binding) <- ceremony_cookies headers;
  let correlation_id := lit "http-passkey-registration-finish-" ++ uuid_text correlation in
  do outcome <- answering completion_answer (finish_registration (webauthn_service services)
    (AuthorizationContext.tenant_id (session_context authenticated))
    (AuthorizationContext.account_id (session_context authenticated)) token binding credential correlation_id
    (consume_audit consume) (consume_now consume) new_credential new_audit store_now);
  match outcome with
  | Registered => ret (with_cookies clear_webauthn_cookies (status_response NO_CONTENT))
  | FinishDenied | FinishAuthenticated _ => ret passkey_denial
  end.

End handlers.

(** ** The router ([transport.rs]) *)
Section router.
Context `{F : FabricLib} `{W : !WebauthnLib} `{V : UrlLib} `{T : TimeLib} `{K : Crypto} `{C : TotpCrypto} `{A : Argon2} `{U : Unicode} `{H : HttpLib} `{D : SqlDialect}.
Abbreviation Db := (Db Document).

(** The routes below, with the body a route extracts and what it draws. *)
Inductive Route : Type :=
| Liveness
| Readiness
| StartPasswordLogin (address password : str) (draw : StartDraw)
| CompleteTotpLogin (code : str) (draw : FinishDraw)
| CompletePasswordOnlyLogin (draw : FinishDraw)
| BeginTotpEnrollment (draw : EnrollDraw)
| ConfirmTotpEnrollment (code : str) (draw : FinishDraw)
| RefreshSession (correlation : Uuid) (now : OffsetDateTime) (draw : SessionDraw) (drawn_csrf : array 32)
| InviteAccountRoute (localpart : str) (initial_role : Role) (correlation new_account new_audit : Uuid)
    (access_now store_now : OffsetDateTime)
| BeginPasskeyLogin (address : str) (draw : BeginPasskeyDraw)
| FinishPasskeyLogin (credential : PublicKeyCredential) (correlation : Uuid) (consume : ConsumeDraw)
    (update_now : OffsetDateTime) (draw : IssueDraw)
| BeginPasskeyRegistration (label : option str) (access_now : OffsetDateTime) (draw : BeginPasskeyDraw)
| FinishPasskeyRegistration (credential : RegisterPublicKeyCredential) (access_now : OffsetDateTime)
    (correlation : Uuid) (consume : ConsumeDraw) (new_credential new_audit : Uuid) (store_now : OffsetDateTime)
| BeginRoleChangeStepUp (account_id code : str) (role : Role) (grant : bool) (access_now : OffsetDateTime)
    (correlation : Uuid) (now : OffsetDateTime) (draw : GrantDraw)
| ChangeAccountRoleRoute (account_id : str) (role : Role) (grant : bool) (access_now : OffsetDateTime)
    (correlation : Uuid) (consume : ConsumeDraw) (new_audit : Uuid) (store_now : OffsetDateTime)
| DeliverFederation (path_request_id : str) (request : FederationDeliveryRequest) (m : Moment).

Record HttpRequest : Type := {
  request_headers : HeaderMap;
  route : Route;
  (** The identifier [request_correlation] draws. *)
  drawn_request_id : str;
}.

Record HttpResponse : Type := {
  response : Response;
  response_headers : list (str * str);
}.

Definition deliver_route (state : FabricHttpState) (path_request_id : str) (request : FederationDeliveryRequest)
    (m : Moment) : M Db (Fault Response) Response :=
  fun db =>
    match deliver_federation (federation_ingress state) path_request_id request m db with
    | Some (db', status) => (db', Ok (status_response status))
    | None => (db, Err Panicked)
    end.

Definition handle (state : FabricHttpState) (headers : HeaderMap) (r : Route) : M Db (Fault Response) Response :=
  match r with
  | Liveness => ret (status_response NO_CONTENT)
  | Readiness => ret {| response_status := OK; set_cookies := []; body := ReadinessBody (lit "fcp-fabric") (lit "transport-ready") |}
  | StartPasswordLogin address password draw => start_password_login state address password draw
  | CompleteTotpLogin code draw => complete_totp_login state headers code draw
  | CompletePasswordOnlyLogin draw => complete_password_only_login state headers draw
  | BeginTotpEnrollment draw => begin_totp_enrollment_route state headers draw
  | ConfirmTotpEnrollment code draw => confirm_totp_enrollment state headers code draw
  | RefreshSession correlation now draw csrf => refresh_session state headers correlation now draw csrf
  | InviteAccountRoute localpart initial_role correlation new_account new_audit access_now store_now =>
      invite_account_route state headers localpart initial_role correlation new_account new_audit
        access_now store_now
  | BeginPasskeyLogin address draw => begin_passkey_login state address draw
  | FinishPasskeyLogin credential correlation consume update_now draw =>
      finish_passkey_login state headers credential correlation consume update_now draw
  | BeginPasskeyRegistration label access_now draw => begin_passkey_registration state headers label access_now draw
  | FinishPasskeyRegistration credential access_now correlation consume new_credential new_audit store_now =>
      finish_passkey_registration_route state headers credential access_now correlation consume new_credential
        new_audit store_now
  | BeginRoleChangeStepUp account_id code role grant access_now correlation now draw =>
      begin_role_change_step_up state headers account_id code role grant access_now correlation now draw
  | ChangeAccountRoleRoute account_id role grant access_now correlation consume new_audit store_now =>
      change_account_role state headers account_id role grant access_now correlation consume new_audit store_now
  | DeliverFederation path request m => deliver_route state path request m
  end.

(** The layers: the host guard around the correlation identifier, the security
    headers, the panic handler and the route. *)
Definition serve (state : FabricHttpState) (request : HttpRequest) (db : Db) : Db * HttpResponse :=
  if host_accepted (transport state) (request_headers request) then
    let '(db', r) := run (handle state (request_headers request) (route request)) db in
    (db', {| response := r;
             response_headers := security_headers (transport state)
               ++ (let id := request_id_for (request_headers request) (drawn_request_id request) in
                   match header_from_str id with Some _ => [(lit "x-request-id", id)] | None => [] end) |})
  else (db, {| response := status_response MISDIRECTED_REQUEST; response_headers := [] |}).

End router.
