(* ===== verification/StoreEffects.v ===== *)
(** * What the store's operations write

    For every operation of [StoreAccounts], [StoreLogin] and [StorePasskeys], the guards under
    which it succeeds and the exact database it leaves behind. *)

From Stdlib Require Import ZArith Lia String.
From stdpp Require Import base list option numbers decidable sorting.
From S2P Require Import Prelude Bytes Str Domain Totp Clock Auth Db StoreAccounts StoreSessions Sessions StoreLogin StorePasskeys StoreStepUp.

Section effects.
Context {Document : Type} `{T : TimeLib} `{A : Argon2} `{U : Unicode}.
Abbreviation Db := (Db Document).
Abbreviation Tx := (M Db StoreError).
Implicit Types db : Db.

(** ** Rows that are added *)
Definition with_tenant (r : Tenants.row) db : Db := set_tenants (tenants db ++ [r]) db.
Definition with_account (r : Accounts.row) db : Db := set_accounts (accounts db ++ [r]) db.
Definition with_role (r : AccountRoles.row) db : Db := set_account_roles (account_roles db ++ [r]) db.
Definition with_login (r : LoginTransactions.row) db : Db := set_login_transactions (login_transactions db ++ [r]) db.
Definition with_factor (r : TotpFactors.row) db : Db := set_mfa_totp_factors (mfa_totp_factors db ++ [r]) db.
Definition with_set (r : RecoveryCodeSets.row) db : Db := set_recovery_code_sets (recovery_code_sets db ++ [r]) db.
Definition with_verifier (r : RecoveryCodeVerifiers.row) db : Db :=
  set_recovery_code_verifiers (recovery_code_verifiers db ++ [r]) db.

(** ** Accounts *)
Definition tenant_ok db (r : Tenants.row) : Prop :=
  Forall (fun r' => Tenants.id r' <> Tenants.id r) (tenants db) /\
  Forall (fun r' => Tenants.canonical_domain r' <> Tenants.canonical_domain r) (tenants db).

Definition account_ok db (r : Accounts.row) : Prop :=
  Forall (fun r' => Accounts.id r' <> Accounts.id r) (accounts db) /\
  Forall (fun r' => ~ (Accounts.tenant_id r' = Accounts.tenant_id r /\
    Accounts.normalized_localpart r' = Accounts.normalized_localpart r)) (accounts db) /\
  account_state_check (Accounts.state r) = true /\ tenant_exists db (Accounts.tenant_id r) = true.

Definition role_ok db (r : AccountRoles.row) : Prop :=
  Forall (fun r' => ~ same_role r r') (account_roles db) /\ role_refs db r = true.

Lemma insert_tenant_run r db db' u :
  insert_tenant r db = (db', Ok u) -> tenant_ok db r /\ db' = with_tenant r db.
Proof.
  unfold insert_tenant. rewrite checked_ok, !andb_true_iff, !bool_decide_eq_true.
  intros ((((?&?)&_)&_) & [= <- _]). done.
Qed.

Lemma insert_account_run r db db' u :
  insert_account r db = (db', Ok u) -> account_ok db r /\ db' = with_account r db.
Proof.
  unfold insert_account. rewrite checked_ok, !andb_true_iff, !bool_decide_eq_true.
  intros ((((?&?)&?)&?) & [= <- _]). done.
Qed.

Lemma insert_role_run r db db' u :
  insert_role r db = (db', Ok u) -> role_ok db r /\ db' = with_role r db.
Proof.
  unfold insert_role. rewrite checked_ok, !andb_true_iff, !bool_decide_eq_true.
  intros ((?&?) & [= <- _]). done.
Qed.

Definition tenant_row (command : BootstrapTenant.t) (new_tenant : Uuid) (now : OffsetDateTime) : Tenants.row :=
  {| Tenants.id := new_tenant; Tenants.canonical_domain := domain_as_str (BootstrapTenant.domain command);
     Tenants.policy_version := 1; Tenants.created_at := timestamptz now; Tenants.updated_at := timestamptz now |}.

(** A new account waits for its first factor. *)
Definition new_account_row (tenant account : Uuid) (l : Localpart) (now : OffsetDateTime) : Accounts.row :=
  {| Accounts.id := account; Accounts.tenant_id := tenant; Accounts.normalized_localpart := localpart_as_str l;
     Accounts.state := lit "mfa_enrollment_required";
     Accounts.created_at := timestamptz now; Accounts.updated_at := timestamptz now |}.

Definition role_row (tenant account : Uuid) (role : Role) (granted_by : option Uuid) (now : OffsetDateTime) :
    AccountRoles.row :=
  {| AccountRoles.tenant_id := tenant; AccountRoles.account_id := account; AccountRoles.role := role_text role;
     AccountRoles.granted_by_account_id := granted_by; AccountRoles.granted_at := timestamptz now |}.

Lemma bootstrap_ok command new_tenant new_owner new_audit now db db' r :
  bootstrap_tenant command new_tenant new_owner new_audit now db = (db', Ok r) ->
  let t := tenant_row command new_tenant now in
  let a := new_account_row new_tenant new_owner (BootstrapTenant.owner_localpart command) now in
  let o := role_row new_tenant new_owner Owner None now in
  BootstrapTenant.validate command = Ok tt /\
  tenant_ok db t /\ account_ok (with_tenant t db) a /\ role_ok (with_account a (with_tenant t db)) o /\
  exists event, audit_action event = TenantBootstrapped /\
    audit_tenant_id event = TenantId_from_uuid new_tenant /\ auditable (with_role o (with_account a (with_tenant t db))) event /\
    db' = logged event (with_role o (with_account a (with_tenant t db))).
Proof.
  unfold bootstrap_tenant. intros (db0 & [] & [= <- Hv%map_err_ok] & H)%bind_ok. apply transaction_inv in H.
  apply bind_ok in H as (db0 & v & [= <- <-] & H).
  apply bind_ok in H as (db1 & [] & (Ht & ->)%insert_tenant_run & H).
  apply bind_ok in H as (db2 & [] & (Ha & ->)%insert_account_run & H).
  apply bind_ok in H as (db3 & [] & (Ho & ->)%insert_role_run & H).
  apply bind_ok in H as (db4 & [] & (Hau & ->)%insert_audit_ok & [= <- _]).
  simpl. split; [done|]. split; [exact Ht|]. split; [exact Ha|]. split; [exact Ho|].
  eexists. split; [|split; [|split; [exact Hau|reflexivity]]]; done.
Qed.

Lemma invite_ok command new_account new_audit now db db' r :
  invite_account command new_account new_audit now db = (db', Ok r) ->
  let tenant := tenant_as_uuid (InviteAccount.tenant_id command) in
  let a := new_account_row tenant new_account (InviteAccount.localpart command) now in
  let o := role_row tenant new_account (InviteAccount.initial_role command)
             (Some (account_as_uuid (AdministrationActor.account_id (InviteAccount.actor command)))) now in
  InviteAccount.validate command = Ok tt /\ account_ok db a /\ role_ok (with_account a db) o /\
  r = AccountId_from_uuid new_account /\
  exists event, audit_action event = AccountCreated /\ audit_tenant_id event = InviteAccount.tenant_id command /\
    auditable (with_role o (with_account a db)) event /\ db' = logged event (with_role o (with_account a db)).
Proof.
  unfold invite_account. intros (db0 & [] & [= <- Hv%map_err_ok] & H)%bind_ok. apply transaction_inv in H.
  apply bind_ok in H as (db2 & [] & (Ha & ->)%insert_account_run & H).
  apply bind_ok in H as (db3 & [] & (Ho & ->)%insert_role_run & H).
  apply bind_ok in H as (db4 & [] & (Hau & ->)%insert_audit_ok & [= <- <-]).
  simpl. split; [done|]. split; [exact Ha|]. split; [exact Ho|]. split; [done|].
  eexists. split; [|split; [|split; [exact Hau|reflexivity]]]; done.
Qed.

Definition without_role (tenant account : Uuid) (role : str) db : Db :=
  set_account_roles (filter (fun r => ~ role_is tenant account role r) (account_roles db)) db.

Definition granted_row (command : ChangeRole.t) (now : OffsetDateTime) : AccountRoles.row :=
  role_row (tenant_as_uuid (ChangeRole.tenant_id command)) (account_as_uuid (ChangeRole.target_account_id command))
    (ChangeRole.role command)
    (Some (account_as_uuid (AdministrationActor.account_id (ChangeRole.actor command)))) now.

Definition role_changed (command : ChangeRole.t) (now : OffsetDateTime) db : Db :=
  if ChangeRole.grant command then with_role (granted_row command now) db
  else without_role (tenant_as_uuid (ChangeRole.tenant_id command))
         (account_as_uuid (ChangeRole.target_account_id command)) (role_text (ChangeRole.role command)) db.

Lemma insert_role_if_absent_run r db db' n :
  insert_role_if_absent r db = (db', Ok n) ->
  n = 0%nat /\ db' = db \/
  n = 1%nat /\ tenant_account_exists db (AccountRoles.tenant_id r) (AccountRoles.account_id r) = true /\
    role_ok db r /\ db' = with_role r db.
Proof.
  unfold insert_role_if_absent, bind, get, require, ret, modify.
  destruct (negb _ || _) eqn:E; [naive_solver|].
  apply orb_false_iff in E as [E1%negb_false_iff E2%bool_decide_eq_false].
  destruct (role_refs db r) eqn:Er; simpl; [|done]. intros [= <- <-]. right. split; [done|]. split; [done|].
  split; [|done]. split; [|done]. apply list.Forall_forall. intros x Hx Hs. apply E2, list.Exists_exists. eauto.
Qed.

Lemma change_role_ok command new_audit now db db' u :
  change_role command new_audit now db = (db', Ok u) ->
  ChangeRole.validate command = Ok tt /\
  (if ChangeRole.grant command
   then tenant_account_exists db (tenant_as_uuid (ChangeRole.tenant_id command))
          (account_as_uuid (ChangeRole.target_account_id command)) = true /\ role_ok db (granted_row command now)
   else exists r, r ∈ account_roles db /\ role_is (tenant_as_uuid (ChangeRole.tenant_id command))
          (account_as_uuid (ChangeRole.target_account_id command)) (role_text (ChangeRole.role command)) r) /\
  exists event, audit_action event = RoleChanged /\ audit_tenant_id event = ChangeRole.tenant_id command /\
    auditable (role_changed command now db) event /\ db' = logged event (role_changed command now db).
Proof.
  unfold change_role, role_changed. intros (db0 & [] & [= <- Hv%map_err_ok] & H)%bind_ok. apply transaction_inv in H.
  apply bind_ok in H as (db1 & n & Hn & H). split; [done|].
  destruct (n =? 1)%nat eqn:En; [|done]. apply Nat.eqb_eq in En as ->. cbn [negb] in H.
  apply insert_audit_ok in H as [Hau ->]. destruct (ChangeRole.grant command).
  - apply insert_role_if_absent_run in Hn as [[? _]|(_ & Hta & Hok & ->)]; [done|]. split; [done|].
    eexists. split; [|split; [|split; [exact Hau|reflexivity]]]; done.
  - unfold delete_role in Hn. apply bind_ok in Hn as (db2 & db3 & [= <- <-] & Hn).
    apply bind_ok in Hn as (db2 & [] & [= <-] & [= <- Hrows]). split.
    + refine (proj1 (rows_affected_pos _ _) _). by rewrite Hrows.
    + eexists. split; [|split; [|split; [exact Hau|reflexivity]]]; done.
Qed.

(** ** Passwords *)
Definition with_password (account tenant : Uuid) (verifier : str) (pepper : option str) (now : Z) db : Db :=
  if decide (Exists (fun r => PasswordCredentials.account_id r = account) (password_credentials db))
  then set_password_credentials (update_where (fun r => PasswordCredentials.account_id r = account)
         (fun r => password_row account (PasswordCredentials.tenant_id r) verifier pepper now)
         (password_credentials db)) db
  else set_password_credentials (password_credentials db ++ [password_row account tenant verifier pepper now]) db.

Lemma store_password_ok tenant account verifier pepper cid new_audit now db db' u :
  store_password_verifier tenant account verifier pepper cid new_audit now db = (db', Ok u) ->
  tenant_account_exists db (tenant_as_uuid tenant) (account_as_uuid account) = true /\
  let db1 := with_password (account_as_uuid account) (tenant_as_uuid tenant) (verifier_as_str verifier) pepper
               (timestamptz now) db in
  exists event, audit_action event = PasswordChanged /\ audit_tenant_id event = tenant /\
    auditable db1 event /\ db' = logged event db1.
Proof.
  unfold store_password_verifier. intros (db0 & [] & [= <- Hv] & H)%bind_ok. apply transaction_inv in H.
  apply bind_ok in H as (db1 & n & Hn & H). unfold upsert_password in Hn.
  apply bind_ok in Hn as (db2 & db3 & [= <- <-] & Hn).
  destruct (tenant_account_exists db _ _) eqn:Hta; [|by injection Hn as <- <-]. cbn [negb] in Hn.
  destruct (n =? 1)%nat; [|done]. cbn [negb] in H. apply insert_audit_ok in H as [Hau ->]. split; [done|].
  assert (db1 = with_password (account_as_uuid account) (tenant_as_uuid tenant) (verifier_as_str verifier) pepper
               (timestamptz now) db) as ->.
  { unfold with_password. case_bool_decide as Hex.
    - rewrite decide_True by done. by injection Hn as <- _.
    - rewrite decide_False by done. apply bind_ok in Hn as (db2 & [] & Hr & Hn).
      rewrite require_run in Hr. destruct (tenant_exists _ _); [|done]. injection Hr as <-. by injection Hn as <- _. }
  eexists. split; [|split; [|split; [exact Hau|reflexivity]]]; done.
Qed.

(** ** Login transactions *)
Lemma create_login_ok request new_transaction new_audit now db db' r :
  create_login_transaction request new_transaction new_audit now db = (db', Ok r) ->
  let row := login_row request new_transaction now in
  login_ok db row = true /\ datetime_leb (request_expires_at request) now = false /\
  r = {| transaction_id := new_transaction; transaction_tenant_id := request_tenant_id request;
         transaction_account_id := request_account_id request; transaction_stage := request_stage request;
         transaction_expires_at := request_expires_at request; transaction_factor_id := request_factor_id request |} /\
  exists event, audit_action event = LoginTransactionIssued /\ audit_tenant_id event = request_tenant_id request /\
    auditable (with_login row db) event /\ db' = logged event (with_login row db).
Proof.
  unfold create_login_transaction. intros (db0 & [] & [= <- Hv] & H)%bind_ok.
  destruct (datetime_leb _ _); [done|]. apply transaction_inv in H.
  apply bind_ok in H as (db1 & n & Hn & H). unfold insert_login_transaction in Hn.
  apply bind_ok in Hn as (db2 & db3 & [= <- <-] & Hn).
  destruct (negb (tenant_account_exists _ _ _)); [by injection Hn as <- <-|].
  apply bind_ok in Hn as (db2 & [] & Hr & Hn). rewrite require_run in Hr.
  destruct (login_ok db _) eqn:Hok; [|done]. injection Hr as <-. injection Hn as <- <-. cbn [Nat.eqb negb] in H.
  apply bind_ok in H as (db3 & [] & (Hau & ->)%insert_audit_ok & [= <- <-]).
  simpl. split; [done|]. split; [done|]. split; [done|].
  eexists. split; [|split; [|split; [exact Hau|reflexivity]]]; done.
Qed.

Definition consumed_login (d : OpaqueTokenDigest) (binding : array 32) (s : LoginTransactionStage) (now : Z) db : Db :=
  set_login_transactions (update_where (consumable d binding s now) (LoginTransactions.consume now)
    (login_transactions db)) db.

Lemma consume_login_ok d s binding cid new_audit now db db' record :
  consume_login_transaction d s binding cid new_audit now db = (db', Ok record) ->
  exists r, r ∈ login_transactions db /\ consumable d binding s (timestamptz now) r /\
    transaction_tenant_id record = TenantId_from_uuid (LoginTransactions.tenant_id r) /\
    transaction_account_id record = AccountId_from_uuid (LoginTransactions.account_id r) /\
    transaction_stage record = s /\ transaction_factor_id record = LoginTransactions.factor_id r /\
    exists event, audit_action event = LoginTransactionConsumed /\
      audit_tenant_id event = TenantId_from_uuid (LoginTransactions.tenant_id r) /\
      auditable (consumed_login d binding s (timestamptz now) db) event /\
      db' = logged event (consumed_login d binding s (timestamptz now) db).
Proof.
  unfold consume_login_transaction. intros (db0 & [] & [= <- Hv] & H)%bind_ok. apply transaction_inv in H.
  apply bind_ok in H as (db1 & rows & Hrows & H). unfold consume_login_rows in Hrows.
  apply bind_ok in Hrows as (db2 & db3 & [= <- <-] & Hrows).
  apply bind_ok in Hrows as (db2 & [] & [= <-] & [= <- <-]).
  destruct (fetch_optional _) as [r|] eqn:Hr; [|done].
  apply head_Some_elem_of, list_elem_of_filter in Hr as [Hc Hin].
  apply bind_ok in H as (db3 & [] & (Hau & ->)%insert_audit_ok & [= <- <-]).
  exists r. split; [done|]. split; [done|]. split_and!; try done.
  eexists. split; [|split; [|split; [exact Hau|reflexivity]]]; done.
Qed.

(** ** TOTP factors *)
Definition pending_row (tenant : TenantId) (account : AccountId) (factor : Uuid) (encrypted : EncryptedTotpSeed)
    (now : OffsetDateTime) : TotpFactors.row :=
  {| TotpFactors.id := factor; TotpFactors.tenant_id := tenant_as_uuid tenant;
     TotpFactors.account_id := account_as_uuid account; TotpFactors.status := lit "pending";
     TotpFactors.seed_ciphertext := ciphertext encrypted; TotpFactors.seed_nonce := abytes (nonce encrypted);
     TotpFactors.key_reference := key_reference_as_str (key_reference encrypted);
     TotpFactors.algorithm := lit "sha256"; TotpFactors.digits := digits encrypted;
     TotpFactors.period_seconds := period_seconds encrypted; TotpFactors.last_accepted_time_step := None;
     TotpFactors.created_at := timestamptz now; TotpFactors.activated_at := None |}.

Lemma create_pending_ok tenant account factor encrypted cid new_audit now db db' u :
  create_pending_totp_factor tenant account factor encrypted cid new_audit now db = (db', Ok u) ->
  let r := pending_row tenant account factor encrypted now in
  factor_ok db r = true /\
  exists event, audit_action event = MfaChanged /\ audit_tenant_id event = tenant /\
    auditable (with_factor r db) event /\ db' = logged event (with_factor r db).
Proof.
  unfold create_pending_totp_factor. intros (db0 & [] & [= <- Hv] & H)%bind_ok. apply transaction_inv in H.
  apply bind_ok in H as (db1 & d & [= <- Hd] & H). apply bind_ok in H as (db1 & p & [= <- Hp] & H).
  unfold i16_try in Hd, Hp.
  destruct (_ && _) in Hd; [|done]. injection Hd as <-. destruct (_ && _) in Hp; [|done]. injection Hp as <-.
  apply bind_ok in H as (db1 & n & Hn & H). unfold insert_factor in Hn.
  apply bind_ok in Hn as (db2 & db3 & [= <- <-] & Hn).
  destruct (negb (tenant_account_exists _ _ _)); [by injection Hn as <- <-|].
  apply bind_ok in Hn as (db2 & [] & Hr & Hn). rewrite require_run in Hr.
  destruct (factor_ok db _) eqn:Hok; [|done]. injection Hr as <-. injection Hn as <- <-. cbn [Nat.eqb negb] in H.
  apply insert_audit_ok in H as [Hau ->]. simpl. split; [done|].
  eexists. split; [|split; [|split; [exact Hau|reflexivity]]]; done.
Qed.

Definition activated (factor tenant account : Uuid) (now step : Z) db : Db :=
  set_accounts (update_where (account_in tenant account (lit "mfa_enrollment_required"))
      (Accounts.set_state (lit "active") now) (accounts db))
    (set_mfa_totp_factors (update_where (activatable db factor tenant account) (TotpFactors.activate now step)
      (mfa_totp_factors db)) db).

Lemma activate_ok tenant account factor step cid new_audit now db db' u :
  activate_totp_factor tenant account factor step cid new_audit now db = (db', Ok u) ->
  let t := tenant_as_uuid tenant in
  let a := account_as_uuid account in
  (exists r, r ∈ mfa_totp_factors db /\ activatable db factor t a r) /\
  Forall (fun r => ~ active_factor t a r) (mfa_totp_factors db) /\
  exists event, audit_action event = MfaChanged /\ audit_tenant_id event = tenant /\
    auditable (activated factor t a (timestamptz now) step db) event /\
    db' = logged event (activated factor t a (timestamptz now) step db).
Proof.
  unfold activate_totp_factor. intros (db0 & [] & [= <- Hv] & H)%bind_ok. apply transaction_inv in H.
  apply bind_ok in H as (db1 & n & Hn & H). unfold activate_factor in Hn.
  apply bind_ok in Hn as (db2 & db3 & [= <- <-] & Hn). apply bind_ok in Hn as (db2 & [] & Hr & Hn).
  rewrite require_run in Hr.
  destruct ((_ =? 0)%nat || _) eqn:Hreq in Hr; [|done]. injection Hr as <-. injection Hn as <- <-.
  destruct (rows_affected _ _ =? 1)%nat eqn:E1 in H; [|done]. apply Nat.eqb_eq in E1. cbn [negb] in H.
  rewrite E1 in Hreq. cbn [Nat.eqb orb] in Hreq. apply bool_decide_eq_true in Hreq.
  apply bind_ok in H as (db2 & m & Hm & H). unfold activate_account in Hm. injection Hm as <- <-.
  destruct (rows_affected _ _ =? 1)%nat in H; [|done]. cbn [negb] in H.
  apply insert_audit_ok in H as [Hau ->]. simpl. split; [|split; [done|]].
  - refine (proj1 (rows_affected_pos _ _) _). by rewrite E1.
  - eexists. split; [|split; [|split; [exact Hau|reflexivity]]]; done.
Qed.

Definition stepped (factor tenant account : Uuid) (step : Z) db : Db :=
  set_mfa_totp_factors (update_where (step_usable db factor tenant account step) (TotpFactors.accept_step step)
    (mfa_totp_factors db)) db.

Lemma consume_step_ok tenant account factor step db db' u :
  consume_totp_step tenant account factor step db = (db', Ok u) ->
  (exists r, r ∈ mfa_totp_factors db /\
     step_usable db factor (tenant_as_uuid tenant) (account_as_uuid account) step r) /\
  db' = stepped factor (tenant_as_uuid tenant) (account_as_uuid account) step db.
Proof.
  unfold consume_totp_step. intros (db1 & db2 & [= <- <-] & H)%bind_ok.
  apply bind_ok in H as (db1 & [] & [= <-] & H).
  destruct (rows_affected _ _ =? 1)%nat eqn:E1; [|done]. apply Nat.eqb_eq in E1. injection H as <- _.
  split; [|done]. refine (proj1 (rows_affected_pos _ _) _). by rewrite E1.
Qed.

(** ** Recovery codes *)
Definition invalidated (tenant account : Uuid) (now : Z) db : Db :=
  set_recovery_code_sets (update_where (live_set tenant account) (RecoveryCodeSets.invalidate now)
    (recovery_code_sets db)) db.

Definition verifier_ok db (r : RecoveryCodeVerifiers.row) : Prop :=
  Forall (fun r' => RecoveryCodeVerifiers.id r' <> RecoveryCodeVerifiers.id r) (recovery_code_verifiers db) /\
  Exists (fun s => RecoveryCodeSets.id s = RecoveryCodeVerifiers.set_id r) (recovery_code_sets db) /\
  Forall (fun r' => ~ (RecoveryCodeVerifiers.set_id r' = RecoveryCodeVerifiers.set_id r /\
    RecoveryCodeVerifiers.verifier r' = RecoveryCodeVerifiers.verifier r)) (recovery_code_verifiers db).

Lemma insert_verifier_run r db db' u :
  insert_verifier r db = (db', Ok u) -> verifier_ok db r /\ db' = with_verifier r db.
Proof.
  unfold insert_verifier. rewrite checked_ok, !andb_true_iff, !bool_decide_eq_true.
  intros (((?&?)&?) & [= <- _]). done.
Qed.

Fixpoint verifier_rows (set_id : Uuid) (drawn : nat -> Uuid) (vs : list str) : list RecoveryCodeVerifiers.row :=
  match vs with
  | [] => []
  | v :: rest => verifier_row set_id (drawn 0%nat) v :: verifier_rows set_id (fun i => drawn (S i)) rest
  end.

Definition with_verifiers (rows : list RecoveryCodeVerifiers.row) db : Db :=
  set_recovery_code_verifiers (recovery_code_verifiers db ++ rows) db.

Lemma insert_verifiers_run set_id vs drawn db db' u :
  insert_verifiers set_id drawn vs db = (db', Ok u) ->
  db' = with_verifiers (verifier_rows set_id drawn vs) db /\
  (forall i r, verifier_rows set_id drawn vs !! i = Some r ->
     verifier_ok (with_verifiers (take i (verifier_rows set_id drawn vs)) db) r).
Proof.
  revert drawn db. induction vs as [|v vs IH]; intros drawn db; simpl.
  - intros [= <- _]. split; [|by intros [|i] r]. unfold with_verifiers. rewrite app_nil_r. by destruct db.
  - intros (db1 & [] & (Hok & ->)%insert_verifier_run & H)%bind_ok. apply IH in H as [-> Hall].
    split.
    { unfold with_verifiers, with_verifier. simpl. by rewrite <- app_assoc. }
    intros [|i] r; simpl.
    + intros [= <-]. unfold with_verifiers. rewrite app_nil_r. by destruct db.
    + intros Hr. specialize (Hall i r Hr). unfold with_verifiers, with_verifier in *. simpl in *.
      by rewrite <- app_assoc in Hall.
Qed.

Definition new_set_row (tenant account : Uuid) (set_id : Uuid) (now : OffsetDateTime) : RecoveryCodeSets.row :=
  {| RecoveryCodeSets.id := set_id; RecoveryCodeSets.tenant_id := tenant;
     RecoveryCodeSets.account_id := account; RecoveryCodeSets.created_at := timestamptz now;
     RecoveryCodeSets.invalidated_at := None |}.

(** The database after the old sets were invalidated and the new one added. *)
Definition with_new_set (tenant account set_id : Uuid) (now : OffsetDateTime) db : Db :=
  with_set (new_set_row tenant account set_id now) (invalidated tenant account (timestamptz now) db).

Lemma replace_codes_ok tenant account vs cid set_id drawn new_audit now db db' r :
  replace_recovery_code_set tenant account vs cid set_id drawn new_audit now db = (db', Ok r) ->
  let t := tenant_as_uuid tenant in
  let a := account_as_uuid account in
  8 <= blen vs <= 16 /\ tenant_account_exists db t a = true /\
  Forall (fun s => RecoveryCodeSets.id s <> set_id) (recovery_code_sets db) /\
  r = {| recovery_set_id := set_id; recovery_code_count := blen vs; recovery_created_at := now |} /\
  (forall i x, verifier_rows set_id drawn vs !! i = Some x ->
     verifier_ok (with_verifiers (take i (verifier_rows set_id drawn vs)) (with_new_set t a set_id now db)) x) /\
  let db1 := with_verifiers (verifier_rows set_id drawn vs) (with_new_set t a set_id now db) in
  exists event, audit_action event = MfaChanged /\ audit_tenant_id event = tenant /\
    auditable db1 event /\ db' = logged event db1.
Proof.
  unfold replace_recovery_code_set. intros (db0 & [] & [= <- Hv] & H)%bind_ok.
  destruct (negb _ || _) eqn:Hb; [done|]. apply orb_false_iff in Hb as [Hb%negb_false_iff _].
  apply andb_true_iff in Hb as [Hb1%Z.leb_le Hb2%Z.leb_le]. apply transaction_inv in H.
  apply bind_ok in H as (db1 & [] & Hinv & H). injection Hinv as <-.
  apply bind_ok in H as (db1 & n & Hn & H). unfold insert_code_set in Hn.
  apply bind_ok in Hn as (db2 & db3 & [= <- <-] & Hn).
  destruct (tenant_account_exists _ _ _) eqn:Hta; [|by injection Hn as <- <-]. cbn [negb] in Hn.
  apply bind_ok in Hn as (db2 & [] & Hr & Hn). rewrite require_run in Hr.
  destruct (_ && _) eqn:Hok in Hr; [|done]. injection Hr as <-. injection Hn as <- <-. cbn [Nat.eqb negb] in H.
  apply andb_true_iff in Hok as [[Hfresh%bool_decide_eq_true _]%andb_true_iff _].
  apply bind_ok in H as (db2 & [] & [-> Hall]%insert_verifiers_run & H).
  apply bind_ok in H as (db3 & [] & (Hau & ->)%insert_audit_ok & [= <- <-]).
  simpl. split; [done|]. split; [done|]. split.
  { apply list.Forall_forall. intros s Hs. rewrite list.Forall_forall in Hfresh.
    destruct (decide (live_set (tenant_as_uuid tenant) (account_as_uuid account) s)) as [Hl|Hl].
    - apply (Hfresh (RecoveryCodeSets.invalidate (timestamptz now) s)). apply elem_of_update_where. eauto.
    - apply (Hfresh s). apply elem_of_update_where. eauto. }
  split; [done|]. split; [exact Hall|]. eexists. split; [|split; [|split; [exact Hau|reflexivity]]]; done.
Qed.

Definition consumed_code (tenant account : Uuid) (v : str) (now : Z) db : Db :=
  set_recovery_code_verifiers (update_where (code_usable db tenant account v)
    (RecoveryCodeVerifiers.consume now) (recovery_code_verifiers db)) db.

Lemma consume_code_ok tenant account v cid new_audit now db db' b :
  consume_recovery_code tenant account v cid new_audit now db = (db', Ok b) ->
  let t := tenant_as_uuid tenant in
  let a := account_as_uuid account in
  b = false /\ db' = db /\
    (verifier_bounded v = true -> forall r, r ∈ recovery_code_verifiers db -> ~ code_usable db t a v r) \/
  b = true /\ (exists r, r ∈ recovery_code_verifiers db /\ code_usable db t a v r) /\
    exists event, audit_action event = MfaChanged /\ audit_tenant_id event = tenant /\
      auditable (consumed_code t a v (timestamptz now) db) event /\
      db' = logged event (consumed_code t a v (timestamptz now) db).
Proof.
  unfold consume_recovery_code. intros (db0 & [] & [= <- Hv] & H)%bind_ok.
  destruct (verifier_bounded v) eqn:Hb; cbn [negb] in H; [|injection H as <- <-; by left].
  apply transaction_inv in H. apply bind_ok in H as (db1 & db2 & [= <- <-] & H).
  apply bind_ok in H as (db1 & [] & [= <-] & H).
  destruct (fetch_optional _) as [r|] eqn:Hr.
  - right. apply head_Some_elem_of, list_elem_of_filter in Hr as [Hu Hin].
    apply bind_ok in H as (db1 & [] & (Hau & ->)%insert_audit_ok & [= <- <-]).
    split; [done|]. split; [by exists r|]. eexists. split; [|split; [|split; [exact Hau|reflexivity]]]; done.
  - left. injection H as <- <-. split; [done|].
    assert (Hno : forall x, x ∈ recovery_code_verifiers db ->
      ~ code_usable db (tenant_as_uuid tenant) (account_as_uuid account) v x).
    { intros x Hx Hu. apply (proj1 (fetch_none _) Hr x). by apply list_elem_of_filter. }
    split; [|done]. rewrite update_where_none by done. by destruct db.
Qed.

(** ** Ceremonies and passkeys *)
Definition with_ceremony (r : WebauthnCeremonies.row Document) db : Db :=
  set_webauthn_ceremonies (webauthn_ceremonies db ++ [r]) db.
Definition with_credential (r : WebauthnCredentials.row Document) db : Db :=
  set_webauthn_credentials (webauthn_credentials db ++ [r]) db.
Definition consumed_ceremony (token binding : OpaqueTokenDigest) (now : Z) db : Db :=
  set_webauthn_ceremonies (update_where (ceremony_consumable token binding now) (WebauthnCeremonies.consume now)
    (webauthn_ceremonies db)) db.
Definition used_credential (tenant account : Uuid) (credential : str) (value : Document) (now : Z) db : Db :=
  set_webauthn_credentials (update_where (credential_usable db tenant account credential)
    (WebauthnCredentials.use value now) (webauthn_credentials db)) db.

Lemma create_ceremony_ok request new_ceremony new_audit now db db' u :
  create_webauthn_ceremony request new_ceremony new_audit now db = (db', Ok u) ->
  let r := ceremony_row request new_ceremony now in
  ceremony_ok db r = true /\
  exists event, audit_action event = WebauthnCeremonyIssued /\ audit_tenant_id event = ceremony_tenant_id request /\
    auditable (with_ceremony r db) event /\ db' = logged event (with_ceremony r db).
Proof.
  unfold create_webauthn_ceremony. intros (db0 & [] & [= <- Hv] & H)%bind_ok.
  destruct (datetime_leb _ _); [done|]. apply transaction_inv in H.
  apply bind_ok in H as (db1 & n & Hn & H). unfold insert_ceremony in Hn.
  apply bind_ok in Hn as (db2 & db3 & [= <- <-] & Hn).
  destruct (negb (account_in_states _ _ _ _)); [by injection Hn as <- <-|].
  apply bind_ok in Hn as (db2 & [] & Hr & Hn). rewrite require_run in Hr.
  destruct (ceremony_ok db _) eqn:Hok; [|done]. injection Hr as <-. injection Hn as <- <-. cbn [Nat.eqb negb] in H.
  apply insert_audit_ok in H as [Hau ->]. simpl. split; [done|].
  eexists. split; [|split; [|split; [exact Hau|reflexivity]]]; done.
Qed.

Lemma consume_ceremony_ok token binding cid new_audit now db db' record :
  consume_webauthn_ceremony token binding cid new_audit now db = (db', Ok record) ->
  exists r, r ∈ webauthn_ceremonies db /\ ceremony_consumable token binding (timestamptz now) r /\
    record_tenant_id record = TenantId_from_uuid (WebauthnCeremonies.tenant_id r) /\
    record_account_id record = AccountId_from_uuid (WebauthnCeremonies.account_id r) /\
    parse_webauthn_ceremony_kind (WebauthnCeremonies.kind r) = Ok (record_kind record) /\
    record_state record = WebauthnCeremonies.state r /\
    exists event, audit_action event = WebauthnCeremonyConsumed /\
      audit_tenant_id event = TenantId_from_uuid (WebauthnCeremonies.tenant_id r) /\
      auditable (consumed_ceremony token binding (timestamptz now) db) event /\
      db' = logged event (consumed_ceremony token binding (timestamptz now) db).
Proof.
  unfold consume_webauthn_ceremony. intros (db0 & [] & [= <- Hv] & H)%bind_ok. apply transaction_inv in H.
  apply bind_ok in H as (db1 & rows & Hrows & H). unfold consume_ceremony_rows in Hrows.
  apply bind_ok in Hrows as (db2 & db3 & [= <- <-] & Hrows).
  apply bind_ok in Hrows as (db2 & [] & [= <-] & [= <- <-]).
  destruct (fetch_optional _) as [r|] eqn:Hr; [|done].
  apply head_Some_elem_of, list_elem_of_filter in Hr as [Hc Hin].
  apply bind_ok in H as (db3 & k & [= <- Hk] & H).
  apply bind_ok in H as (db3 & [] & (Hau & ->)%insert_audit_ok & [= <- <-]).
  exists r. split; [done|]. split; [done|]. split_and!; try done.
  eexists. split; [|split; [|split; [exact Hau|reflexivity]]]; done.
Qed.

Lemma register_passkey_ok request new_credential new_audit now db db' u :
  register_webauthn_passkey request new_credential new_audit now db = (db', Ok u) ->
  let r := credential_row request new_credential now in
  credential_ok db r = true /\
  exists event, audit_action event = PasskeyChanged /\ audit_tenant_id event = register_tenant_id request /\
    auditable (with_credential r db) event /\ db' = logged event (with_credential r db).
Proof.
  unfold register_webauthn_passkey. intros (db0 & [] & [= <- Hv] & H)%bind_ok.
  destruct (_ || _); [done|]. destruct (match register_label request with Some _ => _ | None => _ end); [done|].
  apply transaction_inv in H. apply bind_ok in H as (db1 & n & Hn & H). unfold insert_credential in Hn.
  apply bind_ok in Hn as (db2 & db3 & [= <- <-] & Hn).
  destruct (negb (account_in_states _ _ _ _)); [by injection Hn as <- <-|].
  apply bind_ok in Hn as (db2 & [] & Hr & Hn). rewrite require_run in Hr.
  destruct (credential_ok db _) eqn:Hok; [|done]. injection Hr as <-. injection Hn as <- <-. cbn [Nat.eqb negb] in H.
  apply insert_audit_ok in H as [Hau ->]. simpl. split; [done|].
  eexists. split; [|split; [|split; [exact Hau|reflexivity]]]; done.
Qed.

Lemma update_passkey_ok tenant account credential value now db db' u :
  update_webauthn_passkey tenant account credential value now db = (db', Ok u) ->
  (exists r, r ∈ webauthn_credentials db /\
     credential_usable db (tenant_as_uuid tenant) (account_as_uuid account) credential r) /\
  db' = used_credential (tenant_as_uuid tenant) (account_as_uuid account) credential value (timestamptz now) db.
Proof.
  unfold update_webauthn_passkey. intros (db1 & db2 & [= <- <-] & H)%bind_ok.
  apply bind_ok in H as (db1 & [] & [= <-] & H).
  destruct (rows_affected _ _ =? 1)%nat eqn:E1; [|done]. apply Nat.eqb_eq in E1. injection H as <- _.
  split; [|done]. refine (proj1 (rows_affected_pos _ _) _). by rewrite E1.
Qed.

(** ** Step-up grants *)
Definition with_grant (r : StepUpGrants.row) db : Db := set_step_up_grants (step_up_grants db ++ [r]) db.
Definition consumed_grant (request : ConsumeStepUpGrant) (now : Z) db : Db :=
  set_step_up_grants (update_where (grant_consumable db request now) (StepUpGrants.consume now) (step_up_grants db)) db.

Lemma create_grant_ok request new_grant new_audit now db db' record :
  create_step_up_grant request new_grant new_audit now db = (db', Ok record) ->
  let r := grant_row request new_grant now in
  family_grantable db (StepUpGrants.tenant_id r) (StepUpGrants.account_id r) (StepUpGrants.family_id r) = true /\
  grant_ok db r = true /\
  exists event, audit_action event = StepUpGranted /\ audit_tenant_id event = grant_tenant_id request /\
    auditable (with_grant r db) event /\ db' = logged event (with_grant r db).
Proof.
  unfold create_step_up_grant. intros (db0 & [] & [= <- Hv] & H)%bind_ok.
  destruct (datetime_leb _ _); [done|]. apply transaction_inv in H.
  apply bind_ok in H as (db1 & n & Hn & H). unfold insert_grant in Hn.
  apply bind_ok in Hn as (db2 & db3 & [= <- <-] & Hn).
  destruct (family_grantable _ _ _ _) eqn:Hg; cbn [negb] in Hn; [|by injection Hn as <- <-].
  apply bind_ok in Hn as (db2 & [] & Hr & Hn). rewrite require_run in Hr.
  destruct (grant_ok db _) eqn:Hok; [|done]. injection Hr as <-. injection Hn as <- <-. cbn [Nat.eqb negb] in H.
  apply bind_ok in H as (db2 & [] & (Hau & ->)%insert_audit_ok & [= <- <-]).
  simpl. split; [done|]. split; [done|]. eexists. split; [|split; [|split; [exact Hau|reflexivity]]]; done.
Qed.

Lemma consume_grant_ok `{D : SqlDialect} request new_audit now db db' b :
  consume_step_up_grant request new_audit now db = (db', Ok b) ->
  table_alias (lit "grant") = true /\
  ((b = false /\ db' = db /\ forall r, r ∈ step_up_grants db -> ~ grant_consumable db request (timestamptz now) r) \/
   (b = true /\ (exists r, r ∈ step_up_grants db /\ grant_consumable db request (timestamptz now) r) /\
    exists event, audit_action event = StepUpConsumed /\ audit_tenant_id event = consumed_tenant_id request /\
      auditable (consumed_grant request (timestamptz now) db) event /\
      db' = logged event (consumed_grant request (timestamptz now) db))).
Proof.
  unfold consume_step_up_grant. intros (db0 & [] & [= <- Hv] & H)%bind_ok. apply transaction_inv in H.
  apply bind_ok in H as (db1 & rows & Hrows & H). unfold consume_grant_rows in Hrows.
  apply bind_ok in Hrows as (db2 & [] & Hr & Hrows). rewrite require_run in Hr.
  destruct (table_alias _) eqn:Ha; [|done]. injection Hr as <-. split; [done|].
  apply bind_ok in Hrows as (db2 & db3 & [= <- <-] & Hrows).
  apply bind_ok in Hrows as (db2 & [] & [= <-] & [= <- <-]).
  destruct (fetch_optional _) as [id|] eqn:Hf.
  - right. apply head_Some_elem_of, list_elem_of_fmap in Hf as (r & -> & [Hc Hin]%list_elem_of_filter).
    apply bind_ok in H as (db3 & [] & (Hau & ->)%insert_audit_ok & [= <- <-]).
    split; [done|]. split; [by exists r|]. eexists. split; [|split; [|split; [exact Hau|reflexivity]]]; done.
  - left. injection H as <- <-. split; [done|].
    assert (Hnil : filter (grant_consumable db request (timestamptz now)) (step_up_grants db) = []).
    { destruct (filter _ _) as [|x l]; [done|]. by discriminate Hf. }
    assert (Hno : forall r, r ∈ step_up_grants db -> ~ grant_consumable db request (timestamptz now) r).
    { intros r Hr Hc. apply (not_elem_of_nil r). rewrite <- Hnil. by apply list_elem_of_filter. }
    split; [|done]. rewrite update_where_none by done. by destruct db.
Qed.
End effects.
