(* ===== verification/Store.v ===== *)
(** * Histories of the authority store

    Every mutation of the store as one operation type, the invariant all of its
    tables satisfy together, and what holds over every sequence of operations:
    the invariant, atomic failures and the audit log. *)

From Stdlib Require Import ZArith Lia String.
From stdpp Require Import base list option numbers decidable sorting relations.
From S2P Require Import Prelude Bytes Str Domain Totp Clock Auth Db Ingress StoreAccounts StoreSessions Sessions StoreLogin.
From S2P Require Import StorePasskeys StoreStepUp StoreEffects.

(** A column of a longer table. *)
Lemma NoDup_snoc_key {R K} (k : R -> K) (t : list R) r :
  NoDup (k <$> t) -> (forall r', r' ∈ t -> k r' <> k r) -> NoDup (k <$> (t ++ [r])).
Proof. intros Ht Hr. apply NoDup_snoc_column; [done|]. by apply list.Forall_forall. Qed.

Section store.
Context {Document : Type} `{T : TimeLib} `{A : Argon2} `{U : Unicode}.
Abbreviation Db := (Db Document).
Abbreviation Tx := (M Db StoreError).
Implicit Types db : Db.

(** ** References only grow *)
Definition extends db db' : Prop :=
  (forall t, tenant_exists db t = true -> tenant_exists db' t = true) /\
  (forall t a, tenant_account_exists db t a = true -> tenant_account_exists db' t a = true).

#[local] Instance extends_preorder : PreOrder extends.
Proof. split; [by split|]. intros db1 db2 db3 [] []. split; auto. Qed.

Lemma extends_same db db' : tenants db' = tenants db -> accounts db' = accounts db -> extends db db'.
Proof. intros Ht Ha. unfold extends, tenant_exists, tenant_account_exists. by rewrite Ht, Ha. Qed.

Lemma extends_tenant r db : extends db (with_tenant r db).
Proof.
  split; [|done]. intros t. unfold tenant_exists. rewrite !bool_decide_eq_true. simpl. rewrite list.Exists_app. auto.
Qed.

Lemma extends_account r db : extends db (with_account r db).
Proof.
  split; [done|]. intros t a. unfold tenant_account_exists. rewrite !bool_decide_eq_true. simpl.
  rewrite list.Exists_app. auto.
Qed.

(** ** The invariants of the tables *)
Record accounts_wf db : Prop := {
  tenant_ids : NoDup (Tenants.id <$> tenants db);
  tenant_domains : NoDup (Tenants.canonical_domain <$> tenants db);
  account_ids : NoDup (Accounts.id <$> accounts db);
  account_localparts : NoDup ((fun a => (Accounts.tenant_id a, Accounts.normalized_localpart a)) <$> accounts db);
  (** The stored texts are those the schema lists. *)
  account_states : forall a, a ∈ accounts db ->
    account_state_check (Accounts.state a) = true /\ tenant_exists db (Accounts.tenant_id a) = true;
  role_keys : NoDup ((fun r => (AccountRoles.tenant_id r, AccountRoles.account_id r, AccountRoles.role r))
    <$> account_roles db);
  role_values : forall r, r ∈ account_roles db -> role_check (AccountRoles.role r) = true /\
    tenant_account_exists db (AccountRoles.tenant_id r) (AccountRoles.account_id r) = true;
  password_keys : NoDup (PasswordCredentials.account_id <$> password_credentials db);
  password_owned : forall p, p ∈ password_credentials db ->
    tenant_account_exists db (PasswordCredentials.tenant_id p) (PasswordCredentials.account_id p) = true;
}.

Record factors_wf db : Prop := {
  factor_ids : NoDup (TotpFactors.id <$> mfa_totp_factors db);
  factor_owned : forall r, r ∈ mfa_totp_factors db ->
    tenant_account_exists db (TotpFactors.tenant_id r) (TotpFactors.account_id r) = true;
  one_active_factor : forall t a r r', r ∈ mfa_totp_factors db -> r' ∈ mfa_totp_factors db ->
    active_factor t a r -> active_factor t a r' -> r = r';
  (** A pending factor has accepted no code. *)
  pending_unstepped : forall r, r ∈ mfa_totp_factors db -> TotpFactors.status r = lit "pending" ->
    TotpFactors.last_accepted_time_step r = None;
}.

Record login_wf db : Prop := {
  login_ids : NoDup (LoginTransactions.id <$> login_transactions db);
  login_digests : NoDup (LoginTransactions.token_digest <$> login_transactions db);
  login_owned : forall r, r ∈ login_transactions db ->
    tenant_account_exists db (LoginTransactions.tenant_id r) (LoginTransactions.account_id r) = true;
  login_spent : forall r, r ∈ login_transactions db ->
    LoginTransactions.consumed_at r <> None <-> LoginTransactions.stage r = lit "consumed";
}.

Record codes_wf db : Prop := {
  set_ids : NoDup (RecoveryCodeSets.id <$> recovery_code_sets db);
  set_owned : forall s, s ∈ recovery_code_sets db ->
    tenant_account_exists db (RecoveryCodeSets.tenant_id s) (RecoveryCodeSets.account_id s) = true;
  one_live_set : forall t a s s', s ∈ recovery_code_sets db -> s' ∈ recovery_code_sets db ->
    live_set t a s -> live_set t a s' -> s = s';
  verifier_ids : NoDup (RecoveryCodeVerifiers.id <$> recovery_code_verifiers db);
  verifier_sets : forall v, v ∈ recovery_code_verifiers db ->
    RecoveryCodeVerifiers.set_id v ∈ RecoveryCodeSets.id <$> recovery_code_sets db;
  verifier_keys : NoDup ((fun v => (RecoveryCodeVerifiers.set_id v, RecoveryCodeVerifiers.verifier v))
    <$> recovery_code_verifiers db);
}.

Record passkeys_wf db : Prop := {
  ceremony_ids : NoDup (WebauthnCeremonies.id <$> webauthn_ceremonies db);
  ceremony_digests : NoDup (WebauthnCeremonies.token_digest <$> webauthn_ceremonies db);
  ceremony_kinds : forall r, r ∈ webauthn_ceremonies db ->
    ceremony_kind_check (WebauthnCeremonies.kind r) = true /\
    tenant_account_exists db (WebauthnCeremonies.tenant_id r) (WebauthnCeremonies.account_id r) = true;
  credential_row_ids : NoDup (WebauthnCredentials.id <$> webauthn_credentials db);
  credential_ids : NoDup (WebauthnCredentials.credential_id <$> webauthn_credentials db);
  credential_owned : forall r, r ∈ webauthn_credentials db ->
    tenant_account_exists db (WebauthnCredentials.tenant_id r) (WebauthnCredentials.account_id r) = true;
}.

(** A grant belongs to a session family of its account. *)
Record grants_wf db : Prop := {
  grant_ids : NoDup (StepUpGrants.id <$> step_up_grants db);
  grant_digests : NoDup (StepUpGrants.token_digest <$> step_up_grants db);
  grant_owned : forall r, r ∈ step_up_grants db ->
    owned db (StepUpGrants.family_id r) (StepUpGrants.tenant_id r) (StepUpGrants.account_id r);
}.

Record store_wf db : Prop := {
  st_accounts : accounts_wf db;
  st_factors : factors_wf db;
  st_login : login_wf db;
  st_codes : codes_wf db;
  st_passkeys : passkeys_wf db;
  st_grants : grants_wf db;
  st_sessions : sessions_wf db;
  st_chained : chained db;
  st_audit : NoDup (AuditEvents.id <$> audit_events db);
}.

(** ** Frames: an invariant survives changes elsewhere *)
Lemma accounts_frame db db' :
  tenants db' = tenants db -> accounts db' = accounts db -> account_roles db' = account_roles db ->
  password_credentials db' = password_credentials db -> accounts_wf db -> accounts_wf db'.
Proof.
  intros Ht Ha Hr Hp []. split; unfold tenant_exists, tenant_account_exists in *; by rewrite ?Ht, ?Ha, ?Hr, ?Hp.
Qed.

Lemma factors_frame db db' :
  mfa_totp_factors db' = mfa_totp_factors db -> extends db db' -> factors_wf db -> factors_wf db'.
Proof. intros Hf [_ He] []. split; rewrite Hf; auto. Qed.

Lemma login_frame db db' :
  login_transactions db' = login_transactions db -> extends db db' -> login_wf db -> login_wf db'.
Proof. intros Hf [_ He] []. split; rewrite Hf; auto. Qed.

Lemma codes_frame db db' :
  recovery_code_sets db' = recovery_code_sets db -> recovery_code_verifiers db' = recovery_code_verifiers db ->
  extends db db' -> codes_wf db -> codes_wf db'.
Proof. intros Hs Hv [_ He] []. split; rewrite ?Hs, ?Hv; auto. Qed.

Lemma passkeys_frame db db' :
  webauthn_ceremonies db' = webauthn_ceremonies db -> webauthn_credentials db' = webauthn_credentials db ->
  extends db db' -> passkeys_wf db -> passkeys_wf db'.
Proof.
  intros Hc Hp [_ He] []. split; rewrite ?Hc, ?Hp; try done; intros r Hr; [|auto].
  destruct (ceremony_kinds0 r Hr). auto.
Qed.

Lemma grants_frame db db' :
  step_up_grants db' = step_up_grants db -> (forall f t a, owned db f t a -> owned db' f t a) -> grants_wf db -> grants_wf db'.
Proof. intros Hg Ho []. split; rewrite Hg; auto. Qed.

Lemma owned_same db db' f t a : session_families db' = session_families db -> owned db f t a -> owned db' f t a.
Proof. intros Hf. unfold owned. by rewrite Hf. Qed.

Lemma sessions_frame db db' :
  session_families db' = session_families db -> refresh_credentials db' = refresh_credentials db ->
  access_sessions db' = access_sessions db -> NoDup (Accounts.id <$> accounts db') -> extends db db' ->
  sessions_wf db /\ chained db -> sessions_wf db' /\ chained db'.
Proof.
  intros Hf Hr Ha Hid [Ht Hta] [Hwf Hch].
  assert (He : elsewhere db db') by by split_and!.
  split; [by eapply wf_elsewhere|]. eapply chained_step; [by apply step_elsewhere|done..].
Qed.

(** A logged change: the event's identifier is new. *)
Lemma store_wf_logged event db :
  auditable db event -> store_wf db -> store_wf (logged event db).
Proof.
  intros (Hid & _) []. destruct (sessions_frame db (logged event db)) as [Hs Hc];
    [done|done|done|by destruct st_accounts0|by apply extends_same|done|].
  split; [by apply (accounts_frame db)| | | | |by apply (grants_frame db)|done|done|].
  - apply (factors_frame db); [done|by apply extends_same|done].
  - apply (login_frame db); [done|by apply extends_same|done].
  - apply (codes_frame db); [done|done|by apply extends_same|done].
  - apply (passkeys_frame db); [done|done|by apply extends_same|done].
  - apply NoDup_snoc_key; [done|]. rewrite list.Forall_forall in Hid. exact Hid.
Qed.

(** A change outside the session tables and the audit log. *)
Definition quiet db db' : Prop :=
  session_families db' = session_families db /\ refresh_credentials db' = refresh_credentials db /\
  access_sessions db' = access_sessions db /\ audit_events db' = audit_events db.

Lemma store_wf_quiet db db' :
  store_wf db -> quiet db db' -> extends db db' ->
  accounts_wf db' -> factors_wf db' -> login_wf db' -> codes_wf db' -> passkeys_wf db' ->
  grants_wf db' -> store_wf db'.
Proof.
  intros [] (Hf & Hr & Ha & Hau) He Hacc Hfac Hlog Hcod Hpas Hgra.
  destruct (sessions_frame db db') as [Hs Hc]; try done; [by destruct Hacc|].
  split; try done. by rewrite Hau.
Qed.

(** The frames of the groups a change leaves alone. *)
Ltac frame_groups db :=
  first [ assumption
        | by apply (accounts_frame db); [..|apply st_accounts]
        | apply (factors_frame db); [done|assumption|by apply st_factors]
        | apply (login_frame db); [done|assumption|by apply st_login]
        | apply (codes_frame db); [done|done|assumption|by apply st_codes]
        | apply (passkeys_frame db); [done|done|assumption|by apply st_passkeys]
        | apply (grants_frame db); [done|by intros ??? ?|by apply st_grants] ].

Lemma wf_with_tenant r db : tenant_ok db r -> store_wf db -> store_wf (with_tenant r db).
Proof.
  intros [Hid Hdom] Hwf. pose proof (extends_tenant r db) as He.
  apply (store_wf_quiet db); try done; [|frame_groups db..].
  destruct (st_accounts _ Hwf). split; simpl; try done.
  - by apply NoDup_snoc_column.
  - by apply NoDup_snoc_column.
  - intros a Ha. destruct (account_states0 a Ha). split; [done|]. by apply He.
Qed.

Lemma wf_with_account r db : account_ok db r -> store_wf db -> store_wf (with_account r db).
Proof.
  intros (Hid & Hloc & Hst & Hten) Hwf. pose proof (extends_account r db) as He.
  apply (store_wf_quiet db); try done; [|frame_groups db..].
  destruct (st_accounts _ Hwf). split; simpl; try done.
  - by apply NoDup_snoc_column.
  - apply NoDup_snoc_key; [done|]. rewrite list.Forall_forall in Hloc. intros a Ha [= Ht Hl]. by apply (Hloc a Ha).
  - intros a [Ha| ->%list_elem_of_singleton]%elem_of_app; [by apply account_states0|done].
  - intros x Hx. destruct (role_values0 x Hx). split; [done|]. by apply He.
  - intros p Hp. apply He. by apply password_owned0.
Qed.

Lemma wf_with_role r db : role_ok db r -> store_wf db -> store_wf (with_role r db).
Proof.
  intros [Hkey Href] Hwf. assert (He : extends db (with_role r db)) by by apply extends_same.
  apply (store_wf_quiet db); try done; [|frame_groups db..].
  unfold role_refs in Href. rewrite !andb_true_iff in Href. destruct Href as [[[Hrole _] Hta] _].
  destruct (st_accounts _ Hwf). split; simpl; try done.
  - apply NoDup_snoc_key; [done|]. rewrite list.Forall_forall in Hkey. intros x Hx [= Ht Ha Hr].
    by apply (Hkey x Hx).
  - intros x [Hx| ->%list_elem_of_singleton]%elem_of_app; [by apply role_values0|done].
Qed.

Lemma wf_without_role t a role db : store_wf db -> store_wf (without_role t a role db).
Proof.
  intros Hwf. assert (He : extends db (without_role t a role db)) by by apply extends_same.
  apply (store_wf_quiet db); try done; [|frame_groups db..].
  destruct (st_accounts _ Hwf). split; simpl; try done.
  - eapply sublist_NoDup; [exact role_keys0|]. apply fmap_sublist, sublist_filter.
  - intros x [_ Hx]%list_elem_of_filter. by apply role_values0.
Qed.

Lemma wf_with_password acc ten v pep now db :
  tenant_account_exists db ten acc = true -> store_wf db -> store_wf (with_password acc ten v pep now db).
Proof.
  intros Hta Hwf. assert (He : extends db (with_password acc ten v pep now db))
    by (unfold with_password; destruct (decide _); by apply extends_same).
  apply (store_wf_quiet db); try done; unfold with_password in *; destruct (decide _) as [Hex|Hex]; try done;
    try frame_groups db; destruct (st_accounts _ Hwf); split; simpl; try done.
  - by rewrite update_where_column_on.
  - intros p (y & Hy & [[Hy' ->]|[_ ->]])%elem_of_update_where; [|by apply password_owned0].
    simpl. rewrite <- Hy'. by apply password_owned0.
  - apply NoDup_snoc_key; [done|]. intros x Hx Heq. apply Hex, list.Exists_exists. eauto.
  - intros p [Hp| ->%list_elem_of_singleton]%elem_of_app; [by apply password_owned0|done].
Qed.

(** ** Login transactions *)
Lemma database_value_fresh st : database_value st <> lit "consumed".
Proof. by destruct st. Qed.

Lemma wf_with_login request new_id now db :
  login_ok db (login_row request new_id now) = true -> store_wf db ->
  store_wf (with_login (login_row request new_id now) db).
Proof.
  unfold login_ok. rewrite !andb_true_iff, !bool_decide_eq_true. intros [[[[Hid Hdg] _] Hta] _] Hwf.
  assert (He : extends db (with_login (login_row request new_id now) db)) by by apply extends_same.
  apply (store_wf_quiet db); try done; try frame_groups db.
  destruct (st_login _ Hwf). split; simpl.
  - by apply NoDup_snoc_column.
  - by apply NoDup_snoc_column.
  - intros x [Hx| ->%list_elem_of_singleton]%elem_of_app; [by apply login_owned0|done].
  - intros x [Hx| ->%list_elem_of_singleton]%elem_of_app; [by apply login_spent0|]. simpl.
    split; [done|]. by intros ?%database_value_fresh.
Qed.

Lemma wf_consumed_login d b st now db : store_wf db -> store_wf (consumed_login d b st now db).
Proof.
  intros Hwf. assert (He : extends db (consumed_login d b st now db)) by by apply extends_same.
  apply (store_wf_quiet db); try done; try frame_groups db.
  destruct (st_login _ Hwf). split; simpl.
  - by rewrite update_where_column.
  - by rewrite update_where_column.
  - intros x (y & Hy & [[_ ->]|[_ ->]])%elem_of_update_where; exact (login_owned0 y Hy).
  - intros x (y & Hy & [[_ ->]|[_ ->]])%elem_of_update_where; [done|exact (login_spent0 y Hy)].
Qed.

(** ** TOTP factors *)
Lemma wf_with_pending t a f enc now db :
  factor_ok db (pending_row t a f enc now) = true -> store_wf db ->
  store_wf (with_factor (pending_row t a f enc now) db).
Proof.
  unfold factor_ok. rewrite !andb_true_iff, bool_decide_eq_true. intros [[[[[Hid _] Hta] _] _] _] Hwf.
  assert (He : extends db (with_factor (pending_row t a f enc now) db)) by by apply extends_same.
  apply (store_wf_quiet db); try done; [frame_groups db| |frame_groups db..].
  destruct (st_factors _ Hwf). split; simpl.
  - by apply NoDup_snoc_column.
  - intros x [Hx| ->%list_elem_of_singleton]%elem_of_app; [by apply factor_owned0|done].
  - intros t' a' x x' [Hx| ->%list_elem_of_singleton]%elem_of_app [Hx'| ->%list_elem_of_singleton]%elem_of_app
      Hp Hp'; [by eapply one_active_factor0| | |done]; by destruct Hp as [_ ?], Hp' as [_ ?].
  - intros x [Hx| ->%list_elem_of_singleton]%elem_of_app; [by apply pending_unstepped0|done].
Qed.

Lemma wf_stepped f t a step db : store_wf db -> store_wf (stepped f t a step db).
Proof.
  intros Hwf. assert (He : extends db (stepped f t a step db)) by by apply extends_same.
  apply (store_wf_quiet db); try done; [frame_groups db| |frame_groups db..].
  destruct (st_factors _ Hwf). split; simpl.
  - by rewrite update_where_column.
  - intros x (y & Hy & [[_ ->]|[_ ->]])%elem_of_update_where; exact (factor_owned0 y Hy).
  - intros t' a' x x' (y & Hy & Hxy)%elem_of_update_where (y' & Hy' & Hxy')%elem_of_update_where Hp Hp'.
    assert (y = y') as <-.
    { apply (one_active_factor0 t' a'); [done|done|by destruct Hxy as [[_ ->]|[_ ->]]|
        by destruct Hxy' as [[_ ->]|[_ ->]]]. }
    destruct Hxy as [[? ->]|[? ->]], Hxy' as [[? ->]|[? ->]]; done.
  - intros x (y & Hy & [[(_ & [_ Hact] & _) ->]|[_ ->]])%elem_of_update_where; [|by apply pending_unstepped0].
    simpl. by rewrite Hact.
Qed.

Lemma extends_activated f t a now step db : extends db (activated f t a now step db).
Proof.
  split; [done|]. intros t' a'. unfold tenant_account_exists. rewrite !bool_decide_eq_true, !list.Exists_exists.
  intros (x & Hx & Hxt & Hxa). simpl.
  destruct (decide (account_in t a (lit "mfa_enrollment_required") x)) as [Hp|Hp].
  - exists (Accounts.set_state (lit "active") now x). split; [|done]. apply elem_of_update_where. eauto.
  - exists x. split; [|done]. apply elem_of_update_where. eauto.
Qed.

Lemma accounts_activated f t a now step db : accounts_wf db -> accounts_wf (activated f t a now step db).
Proof.
  intros []. pose proof (extends_activated f t a now step db) as [_ He]. split; try done.
  - simpl. by rewrite update_where_column.
  - simpl. by rewrite update_where_column.
  - intros x (y & Hy & [[_ ->]|[_ ->]])%elem_of_update_where; destruct (account_states0 y Hy); done.
  - intros r Hr. destruct (role_values0 r Hr). auto.
  - intros p Hp. by apply He, password_owned0.
Qed.

Lemma wf_activated f t a now step db :
  Forall (fun r => ~ active_factor t a r) (mfa_totp_factors db) -> store_wf db ->
  store_wf (activated f t a now step db).
Proof.
  intros Hnone Hwf. pose proof (extends_activated f t a now step db) as He. rewrite list.Forall_forall in Hnone.
  apply (store_wf_quiet db); try done; [by apply accounts_activated, st_accounts| |frame_groups db..].
  destruct (st_factors _ Hwf). split; simpl.
  - by rewrite update_where_column.
  - intros x (y & Hy & [[_ ->]|[_ ->]])%elem_of_update_where; apply He; exact (factor_owned0 y Hy).
  - intros t' a' x x' (y & Hy & [[Hp ->]|[Hp ->]])%elem_of_update_where
      (y' & Hy' & [[Hp' ->]|[Hp' ->]])%elem_of_update_where Hx Hx'; [| | |by eapply one_active_factor0].
    + f_equal. destruct Hp as [[Hi _] _], Hp' as [[Hi' _] _].
      by eapply unique_row; [exact factor_ids0|done|done|congruence].
    + destruct Hx as [[<- <-] _], Hp as [(_ & [Ht Ha] & _) _]. simpl in Hx'. rewrite Ht, Ha in Hx'.
      by destruct (Hnone y' Hy').
    + destruct Hx' as [[<- <-] _], Hp' as [(_ & [Ht Ha] & _) _]. simpl in Hx. rewrite Ht, Ha in Hx.
      by destruct (Hnone y Hy).
  - intros x (y & Hy & [[_ ->]|[_ ->]])%elem_of_update_where; [done|by apply pending_unstepped0].
Qed.

(** ** Recovery codes *)
Lemma wf_with_new_set t a set_id now db :
  tenant_account_exists db t a = true -> Forall (fun s => RecoveryCodeSets.id s <> set_id) (recovery_code_sets db) ->
  store_wf db -> store_wf (with_new_set t a set_id now db).
Proof.
  intros Hta Hfresh Hwf. assert (He : extends db (with_new_set t a set_id now db)) by by apply extends_same.
  rewrite list.Forall_forall in Hfresh.
  apply (store_wf_quiet db); try done; try frame_groups db.
  assert (Hold : forall s, s ∈ update_where (live_set t a) (RecoveryCodeSets.invalidate (timestamptz now))
      (recovery_code_sets db) -> exists y, y ∈ recovery_code_sets db /\
        RecoveryCodeSets.id s = RecoveryCodeSets.id y /\ ~ live_set t a s /\
        (RecoveryCodeSets.invalidated_at s = None -> s = y) /\
        RecoveryCodeSets.tenant_id s = RecoveryCodeSets.tenant_id y /\
        RecoveryCodeSets.account_id s = RecoveryCodeSets.account_id y).
  { intros s (y & Hy & [[_ ->]|[Hn ->]])%elem_of_update_where; exists y; [|done].
    split_and!; try done. by intros (_ & _ & ?). }
  destruct (st_codes _ Hwf). split; simpl; try done.
  - apply NoDup_snoc_key; [by rewrite update_where_column|].
    intros s (y & Hy & -> & _)%Hold. by apply Hfresh.
  - intros s [(y & Hy & _ & _ & _ & -> & ->)%Hold| ->%list_elem_of_singleton]%elem_of_app; [by apply set_owned0|done].
  - intros t' a' s s' [Hs| ->%list_elem_of_singleton]%elem_of_app [Hs'| ->%list_elem_of_singleton]%elem_of_app
      Hl Hl'; [| | |done].
    + destruct (Hold s Hs) as (y & Hy & _ & _ & Hs1 & _), (Hold s' Hs') as (y' & Hy' & _ & _ & Hs2 & _).
      rewrite <- (Hs1 (proj2 (proj2 Hl))) in Hy. rewrite <- (Hs2 (proj2 (proj2 Hl'))) in Hy'.
      exact (one_live_set0 t' a' s s' Hy Hy' Hl Hl').
    + destruct (Hold s Hs) as (y & _ & _ & [] & _). by destruct Hl' as (<- & <- & _).
    + destruct (Hold s' Hs') as (y & _ & _ & [] & _). by destruct Hl as (<- & <- & _).
  - intros v Hv. rewrite fmap_app, update_where_column by done. apply elem_of_app. left. by apply verifier_sets0.
Qed.

Lemma wf_with_verifier r db : verifier_ok db r -> store_wf db -> store_wf (with_verifier r db).
Proof.
  intros (Hid & Hset & Hkey) Hwf. assert (He : extends db (with_verifier r db)) by by apply extends_same.
  apply (store_wf_quiet db); try done; try frame_groups db.
  destruct (st_codes _ Hwf). split; simpl; try done.
  - by apply NoDup_snoc_column.
  - intros v [Hv| ->%list_elem_of_singleton]%elem_of_app; [by apply verifier_sets0|].
    apply list.Exists_exists in Hset as (x & Hx & <-). by apply list_elem_of_fmap_2.
  - apply NoDup_snoc_key; [done|]. rewrite list.Forall_forall in Hkey. intros v Hv [= Hs Hver]. by apply (Hkey v Hv).
Qed.

Lemma wf_with_verifiers rows db :
  (forall i r, rows !! i = Some r -> verifier_ok (with_verifiers (take i rows) db) r) ->
  store_wf db -> store_wf (with_verifiers rows db).
Proof.
  intros Hok Hwf. induction rows as [|r rows IH] using rev_ind.
  - unfold with_verifiers. rewrite app_nil_r. by destruct db.
  - replace (with_verifiers (rows ++ [r]) db) with (with_verifier r (with_verifiers rows db)).
    2: { unfold with_verifier, with_verifiers. simpl. by rewrite app_assoc. }
    apply wf_with_verifier.
    + specialize (Hok (length rows) r). rewrite list_lookup_middle in Hok by done.
      rewrite take_app_length in Hok. by apply Hok.
    + apply IH. intros i x Hx. specialize (Hok i x). rewrite lookup_app_l in Hok by by eapply lookup_lt_Some.
      rewrite take_app_le in Hok by (apply lookup_lt_Some in Hx; lia). by apply Hok.
Qed.

Lemma wf_consumed_code t a v now db : store_wf db -> store_wf (consumed_code t a v now db).
Proof.
  intros Hwf. assert (He : extends db (consumed_code t a v now db)) by by apply extends_same.
  apply (store_wf_quiet db); try done; try frame_groups db.
  destruct (st_codes _ Hwf). split; simpl; try done.
  - by rewrite update_where_column.
  - intros x (y & Hy & [[_ ->]|[_ ->]])%elem_of_update_where; exact (verifier_sets0 y Hy).
  - by rewrite update_where_column.
Qed.

Lemma wf_with_envelope rows db : store_wf db -> store_wf (set_totp_data_key_envelopes rows db).
Proof.
  intros Hwf. assert (He : extends db (set_totp_data_key_envelopes rows db)) by by apply extends_same.
  apply (store_wf_quiet db); try done; frame_groups db.
Qed.

Lemma wf_with_ceremony r db : ceremony_ok db r = true -> store_wf db -> store_wf (with_ceremony r db).
Proof.
  unfold ceremony_ok. rewrite !andb_true_iff, !bool_decide_eq_true. intros (((((Hid & Hd) & _) & Hta) & Hk) & _) Hwf.
  assert (He : extends db (with_ceremony r db)) by by apply extends_same.
  apply (store_wf_quiet db); try done; try frame_groups db.
  destruct (st_passkeys _ Hwf). split; simpl; try done; [by apply NoDup_snoc_column..|].
  intros x [Hx| ->%list_elem_of_singleton]%elem_of_app; [by apply ceremony_kinds0|done].
Qed.

Lemma wf_consumed_ceremony token binding now db : store_wf db -> store_wf (consumed_ceremony token binding now db).
Proof.
  intros Hwf. assert (He : extends db (consumed_ceremony token binding now db)) by by apply extends_same.
  apply (store_wf_quiet db); try done; try frame_groups db.
  destruct (st_passkeys _ Hwf). split; simpl; try done; [by rewrite update_where_column..|].
  intros x (r & Hr & [[_ ->]|[_ ->]])%elem_of_update_where; exact (ceremony_kinds0 r Hr).
Qed.

Lemma wf_with_credential r db : credential_ok db r = true -> store_wf db -> store_wf (with_credential r db).
Proof.
  unfold credential_ok. rewrite !andb_true_iff, !bool_decide_eq_true. intros ((((((Hid & Hc) & _) & Hta) & _) & _) & _) Hwf.
  assert (He : extends db (with_credential r db)) by by apply extends_same.
  apply (store_wf_quiet db); try done; try frame_groups db.
  destruct (st_passkeys _ Hwf). split; simpl; try done; [by apply NoDup_snoc_column..|].
  intros x [Hx| ->%list_elem_of_singleton]%elem_of_app; [by apply credential_owned0|done].
Qed.

Lemma wf_used_credential t a c v now db : store_wf db -> store_wf (used_credential t a c v now db).
Proof.
  intros Hwf. assert (He : extends db (used_credential t a c v now db)) by by apply extends_same.
  apply (store_wf_quiet db); try done; try frame_groups db.
  destruct (st_passkeys _ Hwf). split; simpl; try done; [by rewrite update_where_column..|].
  intros x (r & Hr & [[_ ->]|[_ ->]])%elem_of_update_where; exact (credential_owned0 r Hr).
Qed.

Lemma wf_with_grant r db :
  family_grantable db (StepUpGrants.tenant_id r) (StepUpGrants.account_id r) (StepUpGrants.family_id r) = true ->
  grant_ok db r = true -> store_wf db -> store_wf (with_grant r db).
Proof.
  unfold family_grantable, grant_ok. rewrite !andb_true_iff, !bool_decide_eq_true.
  intros (f & Hf & Hid & Ht & Ha & _)%list.Exists_exists ((((((Hr & Hd) & _) & _) & _) & _) & _) Hwf.
  assert (He : extends db (with_grant r db)) by by apply extends_same.
  apply (store_wf_quiet db); try done; try frame_groups db.
  destruct (st_grants _ Hwf). split; simpl; [by apply NoDup_snoc_column..|].
  intros x [Hx| ->%list_elem_of_singleton]%elem_of_app; [by apply grant_owned0|by exists f].
Qed.

Lemma wf_consumed_grant request now db : store_wf db -> store_wf (consumed_grant request now db).
Proof.
  intros Hwf. assert (He : extends db (consumed_grant request now db)) by by apply extends_same.
  apply (store_wf_quiet db); try done; try frame_groups db.
  destruct (st_grants _ Hwf). split; simpl; [by rewrite update_where_column..|].
  intros x (r & Hr & [[_ ->]|[_ ->]])%elem_of_update_where; exact (grant_owned0 r Hr).
Qed.
End store.

(** ** The operations *)
Section operations.
Context `{F : FabricLib} `{T : TimeLib} `{D : SqlDialect}.
Abbreviation Db := (Db Document).
Abbreviation Tx := (M Db StoreError).
Implicit Types db : Db.

Inductive StoreOp : Type :=
| OpBootstrap (command : BootstrapTenant.t) (new_tenant new_owner new_audit : Uuid) (now : OffsetDateTime)
| OpInvite (command : InviteAccount.t) (new_account new_audit : Uuid) (now : OffsetDateTime)
| OpChangeRole (command : ChangeRole.t) (new_audit : Uuid) (now : OffsetDateTime)
| OpStorePassword (t : TenantId) (a : AccountId) (v : PasswordVerifierString) (pepper : option str) (cid : str)
    (new_audit : Uuid) (now : OffsetDateTime)
| OpCreateLogin (request : CreateLoginTransaction) (new_transaction new_audit : Uuid) (now : OffsetDateTime)
| OpConsumeLogin (d : OpaqueTokenDigest) (s : LoginTransactionStage) (binding : array 32) (cid : str)
    (new_audit : Uuid) (now : OffsetDateTime)
| OpPendingFactor (t : TenantId) (a : AccountId) (factor : Uuid) (e : EncryptedTotpSeed) (cid : str)
    (new_audit : Uuid) (now : OffsetDateTime)
| OpActivateFactor (t : TenantId) (a : AccountId) (factor : Uuid) (step : Z) (cid : str) (new_audit : Uuid)
    (now : OffsetDateTime)
| OpConsumeStep (t : TenantId) (a : AccountId) (factor : Uuid) (step : Z)
| OpCreateEnvelope (request : CreateTotpDataKeyEnvelope)
| OpReplaceCodes (t : TenantId) (a : AccountId) (vs : list str) (cid : str) (new_set : Uuid)
    (drawn : nat -> Uuid) (new_audit : Uuid) (now : OffsetDateTime)
| OpConsumeCode (t : TenantId) (a : AccountId) (v cid : str) (new_audit : Uuid) (now : OffsetDateTime)
| OpCreateCeremony (request : CreateWebauthnCeremony Document) (new_ceremony new_audit : Uuid) (now : OffsetDateTime)
| OpConsumeCeremony (token binding : OpaqueTokenDigest) (cid : str) (new_audit : Uuid) (now : OffsetDateTime)
| OpRegisterPasskey (request : RegisterWebauthnPasskey Document) (new_credential new_audit : Uuid) (now : OffsetDateTime)
| OpUpdatePasskey (t : TenantId) (a : AccountId) (credential : str) (passkey : Document) (now : OffsetDateTime)
| OpCreateGrant (request : CreateStepUpGrant) (new_grant new_audit : Uuid) (now : OffsetDateTime)
| OpConsumeGrant (request : ConsumeStepUpGrant) (new_audit : Uuid) (now : OffsetDateTime)
| OpCreateSession (request : CreateRefreshSession) (now : OffsetDateTime) (ids : SessionIds)
| OpRotate (request : RotationRequest) (now : OffsetDateTime) (ids : SessionIds)
| OpRevoke (t : TenantId) (a : AccountId) (family : Uuid) (cid : str) (now : OffsetDateTime) (new_audit : Uuid)
| OpRecordReplay (request : RecordFederationReplay) (now : OffsetDateTime) (new_audit : Uuid).

Definition forget {B} (m : Tx B) : Tx unit := do_ m; ret tt.

Definition exec (op : StoreOp) : Tx unit :=
  match op with
  | OpBootstrap command t o aid now => forget (bootstrap_tenant command t o aid now)
  | OpInvite command a aid now => forget (invite_account command a aid now)
  | OpChangeRole command aid now => change_role command aid now
  | OpStorePassword t a v pepper cid aid now => store_password_verifier t a v pepper cid aid now
  | OpCreateLogin request id aid now => forget (create_login_transaction request id aid now)
  | OpConsumeLogin d s b cid aid now => forget (consume_login_transaction d s b cid aid now)
  | OpPendingFactor t a f e cid aid now => create_pending_totp_factor t a f e cid aid now
  | OpActivateFactor t a f step cid aid now => activate_totp_factor t a f step cid aid now
  | OpConsumeStep t a f step => consume_totp_step t a f step
  | OpCreateEnvelope request => create_totp_data_key_envelope request
  | OpReplaceCodes t a vs cid set_id drawn aid now =>
      forget (replace_recovery_code_set t a vs cid set_id drawn aid now)
  | OpConsumeCode t a v cid aid now => forget (consume_recovery_code t a v cid aid now)
  | OpCreateCeremony request id aid now => create_webauthn_ceremony request id aid now
  | OpConsumeCeremony token binding cid aid now => forget (consume_webauthn_ceremony token binding cid aid now)
  | OpRegisterPasskey request id aid now => register_webauthn_passkey request id aid now
  | OpUpdatePasskey t a c v now => update_webauthn_passkey t a c v now
  | OpCreateGrant request id aid now => forget (create_step_up_grant request id aid now)
  | OpConsumeGrant request aid now => forget (consume_step_up_grant request aid now)
  | OpCreateSession request now ids => forget (create_refresh_session request now ids)
  | OpRotate request now ids => forget (rotate_refresh_credential request now ids)
  | OpRevoke t a f cid now aid => forget (revoke_refresh_session_family t a f cid now aid)
  | OpRecordReplay request now aid => forget (record_federation_replay request now aid)
  end.

(** The actions an operation may log. *)
Definition actions (op : StoreOp) : list AuditAction :=
  match op with
  | OpBootstrap _ _ _ _ _ => [TenantBootstrapped]
  | OpInvite _ _ _ _ => [AccountCreated]
  | OpChangeRole _ _ _ => [RoleChanged]
  | OpStorePassword _ _ _ _ _ _ _ => [PasswordChanged]
  | OpCreateLogin _ _ _ _ => [LoginTransactionIssued]
  | OpConsumeLogin _ _ _ _ _ _ => [LoginTransactionConsumed]
  | OpPendingFactor _ _ _ _ _ _ _ | OpActivateFactor _ _ _ _ _ _ _ => [MfaChanged]
  | OpReplaceCodes _ _ _ _ _ _ _ _ | OpConsumeCode _ _ _ _ _ _ => [MfaChanged]
  | OpConsumeStep _ _ _ _ | OpCreateEnvelope _ | OpUpdatePasskey _ _ _ _ _ => []
  | OpCreateCeremony _ _ _ _ => [WebauthnCeremonyIssued]
  | OpConsumeCeremony _ _ _ _ _ => [WebauthnCeremonyConsumed]
  | OpRegisterPasskey _ _ _ _ => [PasskeyChanged]
  | OpCreateGrant _ _ _ _ => [StepUpGranted]
  | OpConsumeGrant _ _ _ => [StepUpConsumed]
  | OpCreateSession _ _ _ => [SessionIssued]
  | OpRotate _ _ _ => [SessionIssued; SessionRevoked]
  | OpRevoke _ _ _ _ _ _ => [SessionRevoked]
  | OpRecordReplay _ _ _ => [FederationRequestEvaluated]
  end.

Lemma forget_ok {B} (m : Tx B) db db' u : forget m db = (db', Ok u) -> exists b, m db = (db', Ok b).
Proof. intros (db1 & b & H & [= <- _])%bind_ok. eauto. Qed.

Lemma atomic_forget {B} (m : Tx B) : atomic m -> atomic (forget m).
Proof. intros Hm db db' e [H|(db1 & b & _ & H)]%bind_err; [by eapply Hm|done]. Qed.

Lemma record_replay_atomic request now aid : atomic (record_federation_replay request now aid).
Proof. unfold record_federation_replay. auto with fabric. Qed.

(** A step that finds no row, and a duplicate envelope, change nothing. *)
Lemma consume_step_err t a f step db db' e :
  store_wf db -> consume_totp_step t a f step db = (db', Err e) -> db' = db.
Proof.
  intros Hwf. unfold consume_totp_step. intros [?|(db1 & db2 & [= <- <-] & H)]%bind_err; [done|].
  apply bind_err in H as [?|(db1 & [] & [= <-] & H)]; [done|].
  pose proof (rows_affected_pos (step_usable db f (tenant_as_uuid t) (account_as_uuid a) step) (mfa_totp_factors db)) as Hp.
  assert (rows_affected (step_usable db f (tenant_as_uuid t) (account_as_uuid a) step) (mfa_totp_factors db) <= 1)%nat.
  { eapply rows_affected_unique; [apply (factor_ids _ (st_factors _ Hwf))|]. intros x y [-> _] [-> _]. done. }
  destruct (Nat.eqb_spec (rows_affected (step_usable db f (tenant_as_uuid t) (account_as_uuid a) step)
    (mfa_totp_factors db)) 1) as [|Hn]; [done|]. injection H as <- _.
  rewrite update_where_none; [by destruct db|]. intros r Hr HP.
  assert (Hne := proj2 Hp (ex_intro _ r (conj Hr HP))). lia.
Qed.

Lemma envelope_err request db db' e : create_totp_data_key_envelope request db = (db', Err e) -> db' = db.
Proof.
  unfold create_totp_data_key_envelope. destruct (negb _); [by intros [= <- _]|].
  intros [H|(db1 & n & H & H')]%bind_err; unfold insert_envelope in H.
  - apply bind_err in H as [?|(db1 & db2 & [= <- <-] & H)]; [done|].
    apply bind_err in H as [H|(db1 & [] & Hr & H)]; rewrite require_run in *; [by destruct (_ && _); injection H as <-|].
    destruct (_ && _); [|done]. injection Hr as <-. by destruct (bool_decide _).
  - apply bind_ok in H as (db2 & db3 & [= <- <-] & H). apply bind_ok in H as (db2 & [] & Hr & H).
    rewrite require_run in Hr. destruct (_ && _); [|done]. injection Hr as <-.
    destruct (bool_decide _); injection H as <- <-; [by injection H' as <- _|done].
Qed.

Lemma update_passkey_err t a c v now db db' e :
  store_wf db -> update_webauthn_passkey t a c v now db = (db', Err e) -> db' = db.
Proof.
  intros Hwf. unfold update_webauthn_passkey. intros [?|(db1 & db2 & [= <- <-] & H)]%bind_err; [done|].
  apply bind_err in H as [?|(db1 & [] & [= <-] & H)]; [done|].
  pose proof (rows_affected_pos (credential_usable db (tenant_as_uuid t) (account_as_uuid a) c) (webauthn_credentials db)) as Hp.
  assert (rows_affected (credential_usable db (tenant_as_uuid t) (account_as_uuid a) c) (webauthn_credentials db) <= 1)%nat.
  { eapply rows_affected_unique; [apply (credential_ids _ (st_passkeys _ Hwf))|]. intros x y (_ & -> & _) (_ & -> & _). done. }
  destruct (Nat.eqb_spec (rows_affected (credential_usable db (tenant_as_uuid t) (account_as_uuid a) c)
    (webauthn_credentials db)) 1) as [|Hn]; [done|]. injection H as <- _.
  rewrite update_where_none; [by destruct db|]. intros r Hr HP.
  assert (Hne := proj2 Hp (ex_intro _ r (conj Hr HP))). lia.
Qed.

Lemma exec_err op db db' e : store_wf db -> exec op db = (db', Err e) -> db' = db.
Proof.
  intros Hwf. destruct op; cbn [exec];
    [apply atomic_forget|apply atomic_forget| | |apply atomic_forget|apply atomic_forget| | |
     by apply consume_step_err|apply envelope_err|apply atomic_forget|apply atomic_forget| |apply atomic_forget| |
     by apply update_passkey_err|apply atomic_forget..].
  - unfold bootstrap_tenant. auto with fabric.
  - unfold invite_account. auto with fabric.
  - apply (atomic_after_lift (Document := Document)). auto with fabric.
  - apply (atomic_after_lift (Document := Document)). auto with fabric.
  - unfold create_login_transaction. auto with fabric.
  - unfold consume_login_transaction. auto with fabric.
  - apply (atomic_after_lift (Document := Document)). auto with fabric.
  - apply (atomic_after_lift (Document := Document)). auto with fabric.
  - unfold replace_recovery_code_set. auto with fabric.
  - unfold consume_recovery_code. auto with fabric.
  - apply (atomic_after_lift (Document := Document)). auto with fabric.
  - unfold consume_webauthn_ceremony. auto with fabric.
  - apply (atomic_after_lift (Document := Document)). auto with fabric.
  - unfold create_step_up_grant. auto with fabric.
  - unfold consume_step_up_grant. auto with fabric.
  - apply create_atomic.
  - apply rotate_atomic.
  - apply revoke_atomic.
  - apply record_replay_atomic.
Qed.

(** ** What an operation leaves behind *)

(** The change is logged as one of the operation's actions, or there is none. *)
Definition audited (op : StoreOp) db db' : Prop :=
  db' = db \/
  exists event, audit_action event ∈ actions op /\ audit_events db' = audit_events db ++ [audit_row event].

Lemma store_wf_sessions db db' :
  store_wf db -> sessions_wf db' -> chained db' ->
  tenants db' = tenants db -> accounts db' = accounts db -> account_roles db' = account_roles db ->
  password_credentials db' = password_credentials db -> mfa_totp_factors db' = mfa_totp_factors db ->
  login_transactions db' = login_transactions db -> recovery_code_sets db' = recovery_code_sets db ->
  recovery_code_verifiers db' = recovery_code_verifiers db ->
  webauthn_ceremonies db' = webauthn_ceremonies db -> webauthn_credentials db' = webauthn_credentials db ->
  step_up_grants db' = step_up_grants db -> (forall f t a, owned db f t a -> owned db' f t a) ->
  NoDup (AuditEvents.id <$> audit_events db') -> store_wf db'.
Proof.
  intros [] Hs Hc Ht Ha Hr Hp Hf Hl Hcs Hv Hce Hcr Hgr Hown Hau. assert (He : extends db db') by by apply extends_same.
  split; try done.
  - by apply (accounts_frame db).
  - by apply (factors_frame db).
  - by apply (login_frame db).
  - by apply (codes_frame db).
  - by apply (passkeys_frame db).
  - by apply (grants_frame db).
Qed.

Lemma audit_fresh event db db0 :
  store_wf db -> audit_events db0 = audit_events db -> auditable db0 event ->
  NoDup (AuditEvents.id <$> audit_events (logged event db0)).
Proof.
  intros Hwf Heq (Hid & _). simpl. rewrite Heq in *. apply NoDup_snoc_key; [apply st_audit; done|].
  rewrite list.Forall_forall in Hid. exact Hid.
Qed.

(** The session operations. *)
Lemma create_session_store request now ids db db' r :
  store_wf db -> create_refresh_session request now ids db = (db', Ok r) ->
  store_wf db' /\ audited (OpCreateSession request now ids) db db'.
Proof.
  intros Hwf H. pose proof (wf_create _ _ _ _ _ _ (st_sessions _ Hwf) H) as Hs.
  pose proof (chained_create _ _ _ _ _ _ (st_sessions _ Hwf) (st_chained _ Hwf) H) as Hc.
  apply create_ok in H as (_ & _ & _ & _ & event & (Hact & _ & Hau) & ->). split.
  - apply (store_wf_sessions db); try done; [by intros; apply owned_with_family|by eapply audit_fresh].
  - right. exists event. split; [rewrite Hact; by left|done].
Qed.

Lemma rotate_session_store request now ids db db' r :
  store_wf db -> rotate_refresh_credential request now ids db = (db', Ok r) ->
  store_wf db' /\ audited (OpRotate request now ids) db db'.
Proof.
  intros Hwf H. pose proof (wf_rotate _ _ _ _ _ _ (st_sessions _ Hwf) H) as Hs.
  pose proof (chained_step _ _ (step_rotate _ _ _ _ _ _ H) (st_sessions _ Hwf) (st_chained _ Hwf)) as Hc.
  pose proof (rotate_ok _ _ _ _ _ _ (st_sessions _ Hwf) H) as Ho.
  destruct (fetch_optional _) as [[[c f] a]|]; [|destruct Ho as [_ ->]; split; [done|by left]].
  destruct Ho as (st & _ & Ho). destruct r as [record| |]; [| |destruct Ho as [-> _]; split; [done|by left]].
  - destruct Ho as (_ & _ & _ & _ & _ & _ & event & (Hact & _ & Hau) & ->). split.
    + apply (store_wf_sessions db); try done. by eapply audit_fresh.
    + right. exists event. split; [|done]. rewrite Hact. by left.
  - destruct Ho as (_ & _ & event & (Hact & _ & Hau) & ->). split.
    + apply (store_wf_sessions db); try done; [by intros; apply owned_without_family|by eapply audit_fresh].
    + right. exists event. split; [|done]. rewrite Hact. right. by left.
Qed.

Lemma revoke_session_store t a f cid now aid db db' b :
  store_wf db -> revoke_refresh_session_family t a f cid now aid db = (db', Ok b) ->
  store_wf db' /\ audited (OpRevoke t a f cid now aid) db db'.
Proof.
  intros Hwf H. pose proof (chained_step _ _ (step_revoke _ _ _ _ _ _ _ _ _ H) (st_sessions _ Hwf) (st_chained _ Hwf)) as Hc.
  apply revoke_inv in H. pose proof (wf_revoke_family _ _ _ _ _ _ _ _ _ _ (st_sessions _ Hwf) H) as Hs.
  destruct (revoke_family_ok _ _ _ _ _ _ _ _ _ _ (st_sessions _ Hwf) H)
    as [(_ & -> & _)|(_ & _ & event & (Hact & _ & Hau) & ->)]; [split; [done|by left]|]. split.
  - apply (store_wf_sessions db); try done; [by intros; apply owned_without_family|by eapply audit_fresh].
  - right. exists event. split; [rewrite Hact; by left|done].
Qed.

Lemma record_replay_store request now aid db db' b :
  store_wf db -> record_federation_replay request now aid db = (db', Ok b) ->
  store_wf db' /\ audited (OpRecordReplay request now aid) db db'.
Proof.
  intros Hwf H. pose proof (record_replay_run request now aid db) as Hr. rewrite H in Hr. destruct b.
  - destruct Hr as (_ & (_ & _ & Hid) & _ & ->). split.
    + destruct Hwf. apply (store_wf_sessions db); try done.
      * by apply (wf_elsewhere db); [|split_and!; try done; destruct st_accounts0].
      * simpl. apply NoDup_snoc_key; [done|]. rewrite list.Forall_forall in Hid. exact Hid.
    + right. exists (replay_audit request now aid). split; [by left|done].
  - destruct Hr as (_ & _ & ->). split; [done|by left].
Qed.

(** A quiet change and its event. *)
Lemma logged_store op event db db1 :
  store_wf db1 -> auditable db1 event -> audit_events db1 = audit_events db -> audit_action event ∈ actions op ->
  store_wf (logged event db1) /\
  (audited op db (logged event db1) \/ actions op = [] /\ audit_events (logged event db1) = audit_events db).
Proof.
  intros Hwf Hau Heq Hact. split; [by apply store_wf_logged|]. left. right. exists event. split; [done|].
  simpl. by rewrite Heq.
Qed.

Lemma role_changed_wf command now db :
  (ChangeRole.grant command = true -> role_ok db (granted_row command now)) ->
  store_wf db -> store_wf (role_changed command now db).
Proof.
  intros Hok Hwf. unfold role_changed. destruct (ChangeRole.grant command); [apply wf_with_role; auto|by apply wf_without_role].
Qed.

Lemma role_changed_audit command now db : audit_events (role_changed command now db) = audit_events db.
Proof. unfold role_changed. by destruct (ChangeRole.grant command). Qed.

Lemma with_password_audit acc ten v pep now db :
  audit_events (with_password acc ten v pep now db) = audit_events db.
Proof. unfold with_password. by destruct (decide _). Qed.

Lemma envelope_ok_run request db db' u :
  create_totp_data_key_envelope request db = (db', Ok u) ->
  exists r, db' = set_totp_data_key_envelopes (totp_data_key_envelopes db ++ [r]) db.
Proof.
  unfold create_totp_data_key_envelope. destruct (negb _); [done|].
  intros (db1 & n & H & H')%bind_ok. unfold insert_envelope in H.
  apply bind_ok in H as (db2 & db3 & [= <- <-] & H). apply bind_ok in H as (db2 & [] & Hr & H).
  rewrite require_run in Hr. destruct (_ && _); [|done]. injection Hr as <-.
  destruct (bool_decide _); injection H as <- <-; [done|]. injection H' as <- _. eauto.
Qed.

(** An operation of the accounts, login transactions, factors and codes that succeeds. *)
Lemma exec_ok op db db' :
  store_wf db -> exec op db = (db', Ok tt) ->
  store_wf db' /\ (audited op db db' \/ actions op = [] /\ audit_events db' = audit_events db).
Proof.
  intros Hwf. destruct op; cbn [exec].
  - intros [b (_ & Ht & Ha & Ho & event & Hact & _ & Hau & ->)%bootstrap_ok]%forget_ok.
    apply (logged_store (OpBootstrap command new_tenant new_owner new_audit now) event db);
      [|exact Hau|done|rewrite Hact; by left].
    by apply wf_with_role, wf_with_account, wf_with_tenant.
  - intros [b (_ & Ha & Ho & _ & event & Hact & _ & Hau & ->)%invite_ok]%forget_ok.
    apply (logged_store (OpInvite command new_account new_audit now) event db);
      [|exact Hau|done|rewrite Hact; by left]. by apply wf_with_role, wf_with_account.
  - intros (_ & Hg & event & Hact & _ & Hau & ->)%change_role_ok.
    apply (logged_store (OpChangeRole command new_audit now) event db);
      [|exact Hau|apply role_changed_audit|rewrite Hact; by left].
    apply role_changed_wf; [|done]. intros Hgr. rewrite Hgr in Hg. by destruct Hg.
  - intros (Hta & event & Hact & _ & Hau & ->)%store_password_ok.
    apply (logged_store (OpStorePassword t a v pepper cid new_audit now) event db);
      [by apply wf_with_password|exact Hau|apply with_password_audit|rewrite Hact; by left].
  - intros [b (Hok & _ & _ & event & Hact & _ & Hau & ->)%create_login_ok]%forget_ok.
    apply (logged_store (OpCreateLogin request new_transaction new_audit now) event db);
      [by apply wf_with_login|exact Hau|done|rewrite Hact; by left].
  - intros [b (r & _ & _ & _ & _ & _ & _ & event & Hact & _ & Hau & ->)%consume_login_ok]%forget_ok.
    apply (logged_store (OpConsumeLogin d s binding cid new_audit now) event db);
      [by apply wf_consumed_login|exact Hau|done|rewrite Hact; by left].
  - intros (Hok & event & Hact & _ & Hau & ->)%create_pending_ok.
    apply (logged_store (OpPendingFactor t a factor e cid new_audit now) event db);
      [by apply wf_with_pending|exact Hau|done|rewrite Hact; by left].
  - intros (_ & Hno & event & Hact & _ & Hau & ->)%activate_ok.
    apply (logged_store (OpActivateFactor t a factor step cid new_audit now) event db);
      [by apply wf_activated|exact Hau|done|rewrite Hact; by left].
  - intros (_ & ->)%consume_step_ok. split; [by apply wf_stepped|]. by right.
  - intros [r ->]%envelope_ok_run. split; [by apply wf_with_envelope|]. by right.
  - intros [b (_ & Hta & Hid & _ & Hv & event & Hact & _ & Hau & ->)%replace_codes_ok]%forget_ok.
    apply (logged_store (OpReplaceCodes t a vs cid new_set drawn new_audit now) event db);
      [|exact Hau|done|rewrite Hact; by left].
    by apply wf_with_verifiers, wf_with_new_set.
  - intros [b [(_ & -> & _)|(_ & _ & event & Hact & _ & Hau & ->)]%consume_code_ok]%forget_ok;
      [split; [done|by left; left]|].
    apply (logged_store (OpConsumeCode t a v cid new_audit now) event db);
      [by apply wf_consumed_code|exact Hau|done|rewrite Hact; by left].
  - intros (Hok & event & Hact & _ & Hau & ->)%create_ceremony_ok.
    apply (logged_store (OpCreateCeremony request new_ceremony new_audit now) event db);
      [by apply wf_with_ceremony|exact Hau|done|rewrite Hact; by left].
  - intros [b (r & _ & _ & _ & _ & _ & _ & event & Hact & _ & Hau & ->)%consume_ceremony_ok]%forget_ok.
    apply (logged_store (OpConsumeCeremony token binding cid new_audit now) event db);
      [by apply wf_consumed_ceremony|exact Hau|done|rewrite Hact; by left].
  - intros (Hok & event & Hact & _ & Hau & ->)%register_passkey_ok.
    apply (logged_store (OpRegisterPasskey request new_credential new_audit now) event db);
      [by apply wf_with_credential|exact Hau|done|rewrite Hact; by left].
  - intros (_ & ->)%update_passkey_ok. split; [by apply wf_used_credential|]. by right.
  - intros [b (Hg & Hok & event & Hact & _ & Hau & ->)%create_grant_ok]%forget_ok.
    apply (logged_store (OpCreateGrant request new_grant new_audit now) event db);
      [by apply wf_with_grant|exact Hau|done|rewrite Hact; by left].
  - intros [b (_ & [(_ & -> & _)|(_ & _ & event & Hact & _ & Hau & ->)])%consume_grant_ok]%forget_ok;
      [split; [done|by left; left]|].
    apply (logged_store (OpConsumeGrant request new_audit now) event db);
      [by apply wf_consumed_grant|exact Hau|done|rewrite Hact; by left].
  - intros [b H]%forget_ok. apply create_session_store in H as []; auto.
  - intros [b H]%forget_ok. apply rotate_session_store in H as []; auto.
  - intros [b H]%forget_ok. apply revoke_session_store in H as []; auto.
  - intros [b H]%forget_ok. apply record_replay_store in H as []; auto.
Qed.

Inductive store_step : Db -> Db -> Prop :=
| store_step_exec op db db' r : exec op db = (db', r) -> store_step db db'.

Lemma store_step_wf db db' : store_step db db' -> store_wf db -> store_wf db'.
Proof.
  intros [op db0 db0' [[]|e] H] Hwf; [by apply exec_ok in H as []|]. by apply exec_err in H as ->.
Qed.

Lemma steps_store_wf db db' : rtc store_step db db' -> store_wf db -> store_wf db'.
Proof. induction 1 as [|db db1 db2 H _ IH]; [done|]. intros Hwf. apply IH. by eapply store_step_wf. Qed.

(** C13: The store keeps its invariant over every history of its operations.  Each
    operation that fails changes nothing; each one that succeeds keeps every
    table's keys, references and enumerations and the chains of the session
    families, and a change is logged as exactly one event of the operation's
    kind.  The three operations that have no event, time-step consumption, key
    envelopes and passkey updates, leave the log as it is. *)
Theorem store_operations op db db' r :
  store_wf db -> exec op db = (db', r) ->
  store_wf db' /\
  match r with
  | Err _ => db' = db
  | Ok _ =>
      match op with
      | OpConsumeStep _ _ _ _ | OpCreateEnvelope _ | OpUpdatePasskey _ _ _ _ _ => audit_events db' = audit_events db
      | _ => audited op db db'
      end
  end.
Proof.
  intros Hwf H. destruct r as [[]|e]; [|by apply exec_err in H as ->].
  apply exec_ok in H as [Hwf' H]; [|done]. split; [done|].
  destruct H as [[->|(event & Hin & Hl)]|[Hno Hl]]; destruct op; cbn [actions] in *; try done;
    try (by apply elem_of_nil in Hin); try (by left); right; by exists event.
Qed.

(** Over every history of store operations the invariant holds and the audit
    log only grows. *)
Theorem store_history db db' :
  rtc store_step db db' -> store_wf db -> store_wf db' /\ exists l, audit_events db' = audit_events db ++ l.
Proof.
  induction 1 as [db|db db1 db2 [op db0 db0' r H] _ IH]; intros Hwf.
  - split; [done|]. exists []. by rewrite app_nil_r.
  - assert (Hs : store_wf db0' /\ exists l, audit_events db0' = audit_events db0 ++ l).
    { destruct r as [[]|e]; [|apply exec_err in H as ->; [|done]; split; [done|]; exists []; by rewrite app_nil_r].
      apply exec_ok in H as [Hwf' [[->|(event & _ & Hl)]|[_ Hl]]]; [| | |done]; (split; [done|]).
      - exists []. by rewrite app_nil_r.
      - eauto.
      - exists []. by rewrite app_nil_r. }
    destruct Hs as [Hwf1 [l1 Hl1]]. destruct (IH Hwf1) as [Hwf2 [l2 Hl2]]. split; [done|].
    exists (l1 ++ l2). by rewrite Hl2, Hl1, app_assoc.
Qed.

(** ** Stored values are typed *)
Definition empty_db : Db :=
  {| tenants := []; accounts := []; account_roles := []; password_credentials := []; mfa_totp_factors := [];
     totp_data_key_envelopes := []; recovery_code_sets := []; recovery_code_verifiers := [];
     login_transactions := []; webauthn_credentials := []; webauthn_ceremonies := []; step_up_grants := []; session_families := [];
     refresh_credentials := []; access_sessions := []; federation_peers := []; federation_keys := [];
     federation_replays := []; audit_events := [] |}.

Lemma empty_wf : store_wf empty_db.
Proof.
  split; try split; simpl; try apply NoDup_nil_2; intros; try (by match goal with H : _ ∈ [] |- _ => apply elem_of_nil in H end).
  intros f []%elem_of_nil.
Qed.

(** The state a list of operations leads to. *)
Fixpoint play (ops : list StoreOp) db : Db :=
  match ops with [] => db | op :: rest => play rest (fst (exec op db)) end.

Lemma play_steps ops db : rtc store_step db (play ops db).
Proof.
  revert db. induction ops as [|op ops IH]; intros db; [done|]. eapply rtc_l; [|apply IH].
  by apply (store_step_exec op db _ (snd (exec op db))), surjective_pairing.
Qed.

Lemma is_ok_some {E B} (r : result E B) : is_ok r = true -> exists b, r = Ok b.
Proof. destruct r; [eauto|done]. Qed.

(** A parser that takes each text of a list takes every text of it. *)
Lemma listed_parses {E B} (parse : str -> result E B) (texts : list str) value :
  forallb (fun text => is_ok (parse text)) texts = true -> bool_decide (value ∈ texts) = true ->
  exists b, parse value = Ok b.
Proof.
  rewrite forallb_forall, bool_decide_eq_true. intros Hp Hin%list_elem_of_In%Hp. by apply is_ok_some.
Qed.

(** Every text the schema admits is one the code parses. *)
Lemma role_check_parses value : role_check value = true -> exists role, parse_role value = Ok role.
Proof. apply listed_parses. vm_compute. reflexivity. Qed.

Lemma account_state_check_parses value : account_state_check value = true -> exists st, parse_account_state value = Ok st.
Proof. apply listed_parses. vm_compute. reflexivity. Qed.

Lemma ceremony_kind_check_parses value :
  ceremony_kind_check value = true -> exists kind, parse_webauthn_ceremony_kind value = Ok kind.
Proof. apply listed_parses. vm_compute. reflexivity. Qed.

Lemma parse_roles_total l : Forall (fun r => role_check r = true) l -> exists roles, parse_roles l = Ok roles.
Proof.
  induction 1 as [|r l [role Hr]%role_check_parses _ [roles IH]]; [by exists []|]. exists (role :: roles).
  simpl. by rewrite Hr, IH.
Qed.

Lemma parse_role_exact value role : parse_role value = Ok role -> value = role_text role.
Proof. unfold parse_role. repeat (case_decide as Hd; [by intros [= <-]|clear Hd]). done. Qed.

Lemma parse_roles_exact l roles : parse_roles l = Ok roles -> l = role_text <$> roles.
Proof.
  revert roles. induction l as [|v l IH]; intros roles; cbn [parse_roles]; [by intros [= <-]|].
  intros (role & ->%parse_role_exact & (rest & ->%IH & [= <-])%res_bind_ok)%res_bind_ok. done.
Qed.

Lemma role_text_inj : Inj eq eq role_text.
Proof. intros [] []; try done; intros H; vm_compute in H; discriminate H. Qed.

(** The roles an account has are those whose texts are stored for it. *)
Definition stored_role db (t a : Uuid) (role : Role) : Prop := exists r, r ∈ account_roles db /\
  AccountRoles.tenant_id r = t /\ AccountRoles.account_id r = a /\ AccountRoles.role r = role_text role.

Lemma roles_stored t a db roles role :
  roles_for_account t a db = (db, Ok roles) ->
  role ∈ roles <-> stored_role db (tenant_as_uuid t) (account_as_uuid a) role.
Proof.
  unfold roles_for_account, bind, get, lift. intros [= Hp%parse_roles_exact].
  assert (Hin : role_text role ∈ role_text <$> roles <-> role ∈ roles).
  { rewrite list_elem_of_fmap. split; [by intros (x & ->%role_text_inj & Hx)|by exists role]. }
  rewrite <- Hin, <- Hp, merge_sort_Permutation. unfold role_texts, stored_role. rewrite list_elem_of_fmap.
  split; [intros (r & Hr & [[] ?]%list_elem_of_filter)|intros (r & ? & ? & ? & ?)]; exists r; [done|].
  split; [done|]. by apply list_elem_of_filter.
Qed.

Lemma roles_total t a db : store_wf db -> exists roles, roles_for_account t a db = (db, Ok roles).
Proof.
  intros Hwf. unfold roles_for_account, bind, get, lift.
  destruct (parse_roles_total (merge_sort (fun a b => text_leb a b = true)
    (role_texts db (tenant_as_uuid t) (account_as_uuid a)))) as [roles ->]; [|by exists roles].
  rewrite merge_sort_Permutation. apply list.Forall_forall.
  intros x (r & -> & [_ Hr]%list_elem_of_filter)%list_elem_of_fmap.
  by apply (role_values _ (st_accounts _ Hwf)).
Qed.

Lemma account_state_total a db :
  store_wf db -> a ∈ accounts db -> exists st, parse_account_state (Accounts.state a) = Ok st.
Proof. intros Hwf Ha. apply account_state_check_parses. by apply (account_states _ (st_accounts _ Hwf)). Qed.

Lemma ceremony_kind_total token binding cid new_audit now db db' :
  store_wf db -> consume_webauthn_ceremony token binding cid new_audit now db <> (db', Err CorruptWebauthnCeremonyKind).
Proof.
  intros Hwf. unfold consume_webauthn_ceremony, validate_correlation_id. unfold bind at 1, lift at 1.
  destruct (_ || _); [done|]. unfold transaction, consume_ceremony_rows, bind at 1 2 3, get, modify, ret.
  destruct (fetch_optional _) as [r|] eqn:Hq; [|done]. apply head_Some_elem_of, list_elem_of_filter in Hq as [_ Hr].
  destruct (ceremony_kind_check_parses (WebauthnCeremonies.kind r)) as [kind Hk];
    [by apply (ceremony_kinds _ (st_passkeys _ Hwf))|].
  unfold lift, bind at 1. rewrite Hk. unfold bind at 1. rewrite insert_audit_run. by case_decide.
Qed.

(** C34: Stored text is always one of the enumerations it stands for.  On every
    database the store's operations reach from an empty one, the schema's lists
    of texts are enough for the code's parsers: the role query returns exactly the
    roles whose texts are stored for the account, the two authorization queries of
    sessions and access tokens return a value, and consuming a ceremony never
    fails on its kind.  No query meets a corrupt role, account state or kind. *)
Theorem stored_values_typed db t a d now :
  rtc store_step empty_db db ->
  (exists roles, roles_for_account t a db = (db, Ok roles) /\
     forall role, role ∈ roles <-> stored_role db (tenant_as_uuid t) (account_as_uuid a) role) /\
  (exists context, session_authorization_context t a db = (db, Ok context)) /\
  (exists authorization, access_session_authorization_context d now db = (db, Ok authorization)) /\
  (forall token binding cid new_audit db',
     consume_webauthn_ceremony token binding cid new_audit now db <> (db', Err CorruptWebauthnCeremonyKind)).
Proof.
  intros Hs. assert (Hwf : store_wf db) by (eapply steps_store_wf; [exact Hs|apply empty_wf]).
  split; [destruct (roles_total t a db Hwf) as [roles Hr]; eauto using roles_stored|].
  split; [|split; [|intros; by apply ceremony_kind_total]].
  - unfold session_authorization_context. rewrite (bind_step get _ db db db eq_refl).
    destruct (fetch_optional _) as [r|] eqn:Hq; [|by eexists].
    apply head_Some_elem_of, list_elem_of_filter in Hq as [_ Hr].
    destruct (account_state_total r db Hwf Hr) as [st Hst]. unfold bind at 1, lift. rewrite Hst.
    destruct (negb (permits_session st)); [by eexists|].
    destruct (roles_total t a db Hwf) as [roles Hroles]. rewrite (bind_step _ _ db db roles Hroles). by eexists.
  - unfold access_session_authorization_context. rewrite (bind_step get _ db db db eq_refl).
    destruct (fetch_optional _) as [[[x f] r]|] eqn:Hq; [|by eexists].
    apply head_Some_elem_of in Hq. unfold access_rows in Hq.
    apply list_elem_of_bind in Hq as (x' & Hq & _). apply list_elem_of_bind in Hq as (f' & Hq & _).
    apply list_elem_of_bind in Hq as (r' & [= -> -> ->]%list_elem_of_singleton & (_ & Hr)%list_elem_of_filter).
    destruct (account_state_total r' db Hwf Hr) as [st Hst]. unfold bind at 1, lift. rewrite Hst.
    destruct (negb (permits_session st)); [by eexists|].
    destruct (roles_total (TenantId_from_uuid (AccessSessions.tenant_id x'))
      (AccountId_from_uuid (AccessSessions.account_id x')) db Hwf) as [roles Hroles].
    rewrite (bind_step _ _ db db roles Hroles). by eexists.
Qed.
End operations.

Module StoreExamples.
#[local] Existing Instance SampleClock.clock.
#[local] Existing Instance Dialects.lenient.
#[local] Existing Instance IngressExamples.library.

Definition uuid (z : Z) : Uuid := array_fill 16 (byte_of_Z z).
Definition tenant : TenantId := TenantId_from_uuid (uuid 1).
Definition owner : AccountId := AccountId_from_uuid (uuid 2).
Definition at_time (z : Z) : OffsetDateTime := SampleClock.second z.
Definition seed : EncryptedTotpSeed :=
  {| ciphertext := [x01]; nonce := array_fill 12 x02; key_reference := TotpExamples.reference;
     digits := 6; period_seconds := 30 |}.
Definition token (z : Z) : OpaqueTokenDigest := OpaqueTokenDigest_of (array_fill 32 (byte_of_Z z)).
Definition challenge : CreateLoginTransaction :=
  {| request_tenant_id := tenant; request_account_id := owner; request_token_digest := token 7;
     request_stage := MfaChallenge; request_binding_digest := array_fill 32 x08; request_factor_id := None;
     request_expires_at := at_time 300; request_correlation_id := lit "c" |}.
(** Recovery-code verifiers of one character. *)
Definition codes (z : Z) : list str := (fun i => [z + Z.of_nat i]) <$> seq 0 8.

(** A tenant's first owner enrolls a factor, gets recovery codes and signs in. *)
Definition enrolment : list StoreOp :=
  [ OpBootstrap {| BootstrapTenant.domain := DomainName_of (lit "parley.io");
                   BootstrapTenant.owner_localpart := Localpart_of (lit "alice");
                   BootstrapTenant.correlation_id := lit "c" |} (uuid 1) (uuid 2) (uuid 3) (at_time 10);
    OpPendingFactor tenant owner (uuid 4) seed (lit "c") (uuid 5) (at_time 20);
    OpActivateFactor tenant owner (uuid 4) 100 (lit "c") (uuid 6) (at_time 30);
    OpReplaceCodes tenant owner (codes 97) (lit "c") (uuid 7) (fun i => uuid (10 + Z.of_nat i)) (uuid 8) (at_time 40);
    OpCreateLogin challenge (uuid 20) (uuid 21) (at_time 50) ].

(** Every operation succeeds. *)
Fixpoint plays (ops : list StoreOp) (db : Db Document) : bool :=
  match ops with [] => true | op :: rest => is_ok (snd (exec op db)) && plays rest (fst (exec op db)) end.

Definition enrolled : Db Document := play enrolment empty_db.

Lemma enrolled_wf : store_wf enrolled.
Proof. eapply steps_store_wf; [apply play_steps|apply empty_wf]. Qed.

Lemma enrolled_plays : plays enrolment empty_db = true.
Proof. vm_compute. reflexivity. Qed.

Lemma store_operations_witness : exists db,
  exec (OpConsumeCode tenant owner [97] (lit "c") (uuid 30) (at_time 60)) enrolled = (db, Ok tt) /\ store_wf db /\
  audited (OpConsumeCode tenant owner [97] (lit "c") (uuid 30) (at_time 60)) enrolled db.
Proof.
  destruct (is_ok_run (exec (OpConsumeCode tenant owner [97] (lit "c") (uuid 30) (at_time 60)) enrolled))
    as [[] H]; [vm_compute; reflexivity|].
  revert H. generalize (fst (exec (OpConsumeCode tenant owner [97] (lit "c") (uuid 30) (at_time 60)) enrolled)).
  intros db H. exists db. split; [exact H|]. exact (store_operations _ enrolled db (Ok tt) enrolled_wf H).
Defined.

Lemma store_history_witness : store_wf enrolled /\ exists l, audit_events enrolled = [] ++ l.
Proof. exact (store_history empty_db enrolled (play_steps enrolment empty_db) empty_wf). Defined.

Lemma stored_values_typed_witness :
  snd (roles_for_account tenant owner enrolled) = Ok [Owner] /\
  (forall role, role ∈ [Owner] <-> stored_role enrolled (uuid 1) (uuid 2) role) /\
  (exists context, session_authorization_context tenant owner enrolled = (enrolled, Ok context)) /\
  (exists authorization, access_session_authorization_context (token 7) (at_time 60) enrolled =
     (enrolled, Ok authorization)).
Proof.
  destruct (stored_values_typed enrolled tenant owner (token 7) (at_time 60) (play_steps enrolment empty_db))
    as ((roles & Hr & Hs) & Hc & Ha & _).
  assert (Hroles : snd (roles_for_account tenant owner enrolled) = Ok [Owner]) by (vm_compute; reflexivity).
  rewrite Hr in Hroles. injection Hroles as ->. rewrite Hr. auto.
Defined.
End StoreExamples.
