(* ===== verification/Login.v ===== *)
(** * One-use credentials of the login flow

    Over every history of the store: a login transaction, a TOTP time step, a
    recovery code, a WebAuthn ceremony and a step-up grant are each accepted once. *)

From Stdlib Require Import ZArith Lia String.
From stdpp Require Import base list option numbers decidable sorting relations.
From S2P Require Import Prelude Bytes Str Domain Totp Clock Auth Db Ingress StoreAccounts StoreSessions Sessions StoreLogin StorePasskeys StoreStepUp.
From S2P Require Import StoreEffects Store.

Section login.
Context `{F : FabricLib} `{T : TimeLib} `{D : SqlDialect}.
Abbreviation Db := (Db Document).
Implicit Types db : Db.

(** ** What a history keeps *)

(** Consumed transactions, codes, ceremonies and grants and invalidated code sets stay as they are;
    a factor's last accepted step never decreases. *)
Record monotone (db db' : Db) : Prop := {
  mono_login : forall r, r ∈ login_transactions db -> LoginTransactions.consumed_at r <> None ->
    r ∈ login_transactions db';
  mono_factor : forall r, r ∈ mfa_totp_factors db -> exists r', r' ∈ mfa_totp_factors db' /\
    TotpFactors.id r' = TotpFactors.id r /\
    forall s, TotpFactors.last_accepted_time_step r = Some s ->
      exists s', TotpFactors.last_accepted_time_step r' = Some s' /\ s <= s';
  mono_verifier : forall r, r ∈ recovery_code_verifiers db -> exists r', r' ∈ recovery_code_verifiers db' /\
    RecoveryCodeVerifiers.id r' = RecoveryCodeVerifiers.id r /\
    (RecoveryCodeVerifiers.consumed_at r <> None -> r' = r);
  mono_set : forall s, s ∈ recovery_code_sets db -> exists s', s' ∈ recovery_code_sets db' /\
    RecoveryCodeSets.id s' = RecoveryCodeSets.id s /\
    RecoveryCodeSets.tenant_id s' = RecoveryCodeSets.tenant_id s /\
    RecoveryCodeSets.account_id s' = RecoveryCodeSets.account_id s /\
    (RecoveryCodeSets.invalidated_at s <> None -> s' = s);
  (** No code is added to a set that exists. *)
  mono_codes : forall r, r ∈ recovery_code_verifiers db' ->
    RecoveryCodeVerifiers.set_id r ∈ RecoveryCodeSets.id <$> recovery_code_sets db ->
    exists r0, r0 ∈ recovery_code_verifiers db /\ RecoveryCodeVerifiers.id r0 = RecoveryCodeVerifiers.id r /\
      RecoveryCodeVerifiers.set_id r0 = RecoveryCodeVerifiers.set_id r /\
      RecoveryCodeVerifiers.verifier r0 = RecoveryCodeVerifiers.verifier r;
  mono_ceremony : forall r, r ∈ webauthn_ceremonies db -> WebauthnCeremonies.consumed_at r <> None ->
    r ∈ webauthn_ceremonies db';
  mono_grant : forall r, r ∈ step_up_grants db -> StepUpGrants.consumed_at r <> None -> r ∈ step_up_grants db';
}.

#[local] Instance monotone_preorder : PreOrder monotone.
Proof.
  split.
  - intros db. split; [done| |intros r Hr; by exists r|intros s Hs; by exists s|intros r Hr _; by exists r|done|done].
    intros r Hr. exists r. split; [done|]. split; [done|]. intros s Hs. exists s. split; [done|lia].
  - intros db1 db2 db3 [L1 F1 V1 S1 C1 W1 G1] [L2 F2 V2 S2 C2 W2 G2]. split; [auto| | | | |auto|auto].
    + intros r Hr. destruct (F1 r Hr) as (r' & Hr' & Hid & Hs). destruct (F2 r' Hr') as (r'' & Hr'' & Hid' & Hs').
      exists r''. split; [done|]. split; [congruence|]. intros s (s' & H1 & Hle)%Hs.
      destruct (Hs' s' H1) as (s'' & H2 & Hle'). exists s''. split; [done|lia].
    + intros r Hr. destruct (V1 r Hr) as (r' & Hr' & Hid & Hc). destruct (V2 r' Hr') as (r'' & Hr'' & Hid' & Hc').
      exists r''. split; [done|]. split; [congruence|]. intros Hn. rewrite (Hc Hn) in *. auto.
    + intros s Hs. destruct (S1 s Hs) as (s' & Hs' & ? & ? & ? & Hc). destruct (S2 s' Hs') as (s'' & Hs'' & ? & ? & ? & Hc').
      exists s''. split_and!; [done|congruence..|]. intros Hn. rewrite (Hc Hn) in *. auto.
    + intros r Hr (s & Hset & Hs)%list_elem_of_fmap. destruct (S1 s Hs) as (s' & Hs' & Hid & _).
      destruct (C2 r Hr) as (r0 & Hr0 & ? & Hset0 & ?); [rewrite Hset, <- Hid; by apply list_elem_of_fmap_2|].
      destruct (C1 r0 Hr0) as (r1 & ? & ? & ? & ?); [rewrite Hset0, Hset; by apply list_elem_of_fmap_2|].
      exists r1. split_and!; congruence || done.
Qed.

Lemma monotone_same db db' :
  login_transactions db' = login_transactions db -> mfa_totp_factors db' = mfa_totp_factors db ->
  recovery_code_sets db' = recovery_code_sets db -> recovery_code_verifiers db' = recovery_code_verifiers db ->
  webauthn_ceremonies db' = webauthn_ceremonies db -> step_up_grants db' = step_up_grants db -> monotone db db'.
Proof.
  intros Hl Hf Hs Hv Hw Hg. destruct (reflexivity (R := monotone) db). split; rewrite ?Hl, ?Hf, ?Hs, ?Hv, ?Hw, ?Hg; auto.
Qed.

Lemma monotone_with_login r db : monotone db (with_login r db).
Proof.
  destruct (reflexivity (R := monotone) db). split; simpl; auto. intros x Hx _. apply elem_of_app. by left.
Qed.

Lemma monotone_consumed_login d b s now db : monotone db (consumed_login d b s now db).
Proof.
  destruct (reflexivity (R := monotone) db). split; simpl; auto. intros x Hx Hn.
  apply elem_of_update_where. exists x. split; [done|]. right. split; [|done]. by intros (_ & _ & _ & ? & _).
Qed.

Lemma monotone_with_factor r db : monotone db (with_factor r db).
Proof.
  destruct (reflexivity (R := monotone) db) as [L Fa V S Co We Gr]. split; simpl; auto. intros x Hx.
  destruct (Fa x Hx) as (x' & Hx' & ?). exists x'. split; [|done]. apply elem_of_app. by left.
Qed.

Lemma monotone_stepped f t a step db : monotone db (stepped f t a step db).
Proof.
  destruct (reflexivity (R := monotone) db) as [L Fa V S Co We Gr]. split; simpl; auto. intros x Hx.
  destruct (decide (step_usable db f t a step x)) as [Hp|Hp].
  - exists (TotpFactors.accept_step step x). split; [apply elem_of_update_where; eauto|]. split; [done|].
    intros s Hs. exists step. split; [done|]. destruct Hp as (_ & _ & Hlt & _). rewrite Hs in Hlt. lia.
  - destruct (Fa x Hx) as (x' & Hx' & Hid & Hs). exists x. split; [apply elem_of_update_where; eauto|].
    split; [done|]. intros s Hss. exists s. split; [done|lia].
Qed.

Lemma monotone_activated f t a now step db : store_wf db -> monotone db (activated f t a now step db).
Proof.
  intros Hwf. destruct (reflexivity (R := monotone) db) as [L Fa V S Co We Gr]. split; simpl; auto. intros x Hx.
  destruct (decide (activatable db f t a x)) as [Hp|Hp].
  - exists (TotpFactors.activate now step x). split; [apply elem_of_update_where; eauto|]. split; [done|].
    destruct Hp as [(_ & _ & Hpend) _]. rewrite (pending_unstepped _ (st_factors _ Hwf) x Hx Hpend). done.
  - exists x. split; [apply elem_of_update_where; eauto|]. split; [done|]. intros s Hss. exists s. split; [done|lia].
Qed.

Lemma monotone_with_new_set t a set_id now db : monotone db (with_new_set t a set_id now db).
Proof.
  destruct (reflexivity (R := monotone) db) as [L Fa V S Co We Gr]. split; simpl; auto. intros s Hs.
  destruct (decide (live_set t a s)) as [Hl|Hl].
  - exists (RecoveryCodeSets.invalidate (timestamptz now) s). split_and!; try done.
    + apply elem_of_app. left. apply elem_of_update_where. eauto.
    + by destruct Hl as (_ & _ & ->).
  - exists s. split_and!; try done. apply elem_of_app. left. apply elem_of_update_where. eauto.
Qed.

(** Codes added to a set that is new. *)
Lemma monotone_with_verifiers set_id drawn vs db0 db :
  monotone db0 db -> recovery_code_verifiers db = recovery_code_verifiers db0 ->
  Forall (fun s => RecoveryCodeSets.id s <> set_id) (recovery_code_sets db0) ->
  monotone db0 (with_verifiers (verifier_rows set_id drawn vs) db).
Proof.
  intros [L Fa V S Co We Gr] Heq Hfresh. split; simpl; auto.
  - intros x Hx. exists x. rewrite Heq. split; [apply elem_of_app; by left|done].
  - intros r [Hr|Hr]%elem_of_app Hs; [by apply Co|].
    assert (Hset : RecoveryCodeVerifiers.set_id r = set_id).
    { clear -Hr. revert drawn Hr. induction vs as [|v vs IH]; intros drawn; [by intros []%elem_of_nil|].
      intros [->|Hr]%elem_of_cons; [done|by eapply IH]. }
    rewrite Hset in Hs. apply list_elem_of_fmap in Hs as (s & Hid & Hs). rewrite list.Forall_forall in Hfresh.
    by destruct (Hfresh s Hs).
Qed.

Lemma monotone_consumed_code t a v now db : monotone db (consumed_code t a v now db).
Proof.
  destruct (reflexivity (R := monotone) db) as [L Fa V S Co We Gr]. split; simpl; auto.
  - intros x Hx. destruct (decide (code_usable db t a v x)) as [Hp|Hp].
    + exists (RecoveryCodeVerifiers.consume now x). split; [apply elem_of_update_where; eauto|]. split; [done|].
      by destruct Hp as (_ & _ & ->).
    + exists x. split; [apply elem_of_update_where; eauto|done].
  - intros r (y & Hy & [[_ ->]|[_ ->]])%elem_of_update_where _; by exists y.
Qed.

Lemma monotone_with_ceremony r db : monotone db (with_ceremony r db).
Proof.
  destruct (reflexivity (R := monotone) db). split; simpl; auto. intros x Hx _. apply elem_of_app. by left.
Qed.

Lemma monotone_consumed_ceremony token binding now db : monotone db (consumed_ceremony token binding now db).
Proof.
  destruct (reflexivity (R := monotone) db). split; simpl; auto. intros x Hx Hn.
  apply elem_of_update_where. exists x. split; [done|]. right. split; [|done]. by intros (_ & _ & ? & _).
Qed.

Lemma monotone_with_grant r db : monotone db (with_grant r db).
Proof.
  destruct (reflexivity (R := monotone) db). split; simpl; auto. intros x Hx _. apply elem_of_app. by left.
Qed.

Lemma monotone_consumed_grant request now db : monotone db (consumed_grant request now db).
Proof.
  destruct (reflexivity (R := monotone) db). split; simpl; auto. intros x Hx Hn.
  apply elem_of_update_where. exists x. split; [done|]. right. split; [|done]. by intros (_ & _ & _ & _ & _ & _ & ? & _).
Qed.

Lemma monotone_logged event db db' : monotone db db' -> monotone db (logged event db').
Proof. intros H. etrans; [exact H|by apply monotone_same]. Qed.

Lemma exec_monotone op db db' : store_wf db -> exec op db = (db', Ok tt) -> monotone db db'.
Proof.
  intros Hwf. destruct op; cbn [exec].
  - intros [b (_ & _ & _ & _ & event & _ & _ & _ & ->)%bootstrap_ok]%forget_ok. by apply monotone_same.
  - intros [b (_ & _ & _ & _ & event & _ & _ & _ & ->)%invite_ok]%forget_ok. by apply monotone_same.
  - intros (_ & _ & event & _ & _ & _ & ->)%change_role_ok. apply monotone_logged.
    unfold role_changed. destruct (ChangeRole.grant command); by apply monotone_same.
  - intros (_ & event & _ & _ & _ & ->)%store_password_ok. apply monotone_logged.
    unfold with_password. destruct (decide _); by apply monotone_same.
  - intros [b (_ & _ & _ & event & _ & _ & _ & ->)%create_login_ok]%forget_ok.
    apply monotone_logged, monotone_with_login.
  - intros [b (r & _ & _ & _ & _ & _ & _ & event & _ & _ & _ & ->)%consume_login_ok]%forget_ok.
    apply monotone_logged, monotone_consumed_login.
  - intros (_ & event & _ & _ & _ & ->)%create_pending_ok. apply monotone_logged, monotone_with_factor.
  - intros (_ & _ & event & _ & _ & _ & ->)%activate_ok. by apply monotone_logged, monotone_activated.
  - intros (_ & ->)%consume_step_ok. apply monotone_stepped.
  - intros [r ->]%envelope_ok_run. by apply monotone_same.
  - intros [b (_ & _ & Hfresh & _ & _ & event & _ & _ & _ & ->)%replace_codes_ok]%forget_ok. apply monotone_logged.
    by apply monotone_with_verifiers; [apply monotone_with_new_set|..].
  - intros [b [(_ & -> & _)|(_ & _ & event & _ & _ & _ & ->)]%consume_code_ok]%forget_ok; [done|].
    apply monotone_logged, monotone_consumed_code.
  - intros (_ & event & _ & _ & _ & ->)%create_ceremony_ok. apply monotone_logged, monotone_with_ceremony.
  - intros [b (r & _ & _ & _ & _ & _ & _ & event & _ & _ & _ & ->)%consume_ceremony_ok]%forget_ok.
    apply monotone_logged, monotone_consumed_ceremony.
  - intros (_ & event & _ & _ & _ & ->)%register_passkey_ok. by apply monotone_same.
  - intros (_ & ->)%update_passkey_ok. by apply monotone_same.
  - intros [b (_ & _ & event & _ & _ & _ & ->)%create_grant_ok]%forget_ok. apply monotone_logged, monotone_with_grant.
  - intros [b (_ & [(_ & -> & _)|(_ & _ & event & _ & _ & _ & ->)])%consume_grant_ok]%forget_ok; [done|].
    apply monotone_logged, monotone_consumed_grant.
  - intros [b (_ & _ & _ & _ & event & _ & ->)%create_ok]%forget_ok. by apply monotone_same.
  - intros [b H]%forget_ok. pose proof (rotate_ok _ _ _ _ _ _ (st_sessions _ Hwf) H) as Ho.
    destruct (fetch_optional _) as [[[c f] a]|]; [|by destruct Ho as [_ ->]].
    destruct Ho as (st & _ & Ho). destruct b; [| |by destruct Ho as [-> _]].
    + destruct Ho as (_ & _ & _ & _ & _ & _ & event & _ & ->). by apply monotone_same.
    + destruct Ho as (_ & _ & event & _ & ->). by apply monotone_same.
  - intros [b H%revoke_inv]%forget_ok.
    destruct (revoke_family_ok _ _ _ _ _ _ _ _ _ _ (st_sessions _ Hwf) H) as [(_ & -> & _)|(_ & _ & event & _ & ->)];
      [done|by apply monotone_same].
  - intros [b H]%forget_ok. pose proof (record_replay_run request now new_audit db) as Hr. rewrite H in Hr.
    destruct b; [destruct Hr as (_ & _ & _ & ->); by apply monotone_same|by destruct Hr as (_ & _ & ->)].
Qed.

Lemma steps_monotone db db' : rtc store_step db db' -> store_wf db -> monotone db db'.
Proof.
  induction 1 as [|db db1 db2 [op db0 db0' r H] _ IH]; intros Hwf; [done|].
  assert (Hm : monotone db0 db0') by (destruct r as [[]|e]; [by eapply exec_monotone|by apply exec_err in H as ->]).
  etrans; [exact Hm|]. apply IH. by eapply store_step_wf; [exact (store_step_exec _ _ _ _ H)|].
Qed.

(** ** Each credential is accepted once *)
Lemma consume_leaves_spent d s binding cid aid now db db' record :
  consume_login_transaction d s binding cid aid now db = (db', Ok record) ->
  exists r, r ∈ login_transactions db' /\ LoginTransactions.token_digest r = digest_as_bytes d /\
    LoginTransactions.consumed_at r <> None.
Proof.
  intros (r & Hr & Hc & _ & _ & _ & _ & event & _ & _ & _ & ->)%consume_login_ok.
  exists (LoginTransactions.consume (timestamptz now) r). split; [|split; [apply Hc|done]].
  apply elem_of_update_where. eauto.
Qed.

(** A login transaction is consumed at most once.  After its token was
    accepted, no later presentation of it is accepted, for any stage, browser
    binding and time, whatever operations the store ran in between. *)
Theorem login_token_once d s binding cid aid now db db1 record db2 s' binding' cid' aid' now' db3 record' :
  store_wf db ->
  consume_login_transaction d s binding cid aid now db = (db1, Ok record) ->
  rtc store_step db1 db2 ->
  consume_login_transaction d s' binding' cid' aid' now' db2 <> (db3, Ok record').
Proof.
  intros Hwf H Hs H'. assert (Hstep : store_step db db1).
  { apply (store_step_exec (OpConsumeLogin d s binding cid aid now) db db1 (Ok tt)). simpl. unfold forget, bind. by rewrite H. }
  assert (Hwf1 := store_step_wf _ _ Hstep Hwf). assert (Hwf2 := steps_store_wf _ _ Hs Hwf1).
  destruct (consume_leaves_spent _ _ _ _ _ _ _ _ _ H) as (r & Hr & Hd & Hn).
  apply (mono_login _ _ (steps_monotone _ _ Hs Hwf1)) in Hr; [|done].
  apply consume_login_ok in H' as (x & Hx & (Hxd & _ & _ & Hxn & _) & _).
  assert (x = r) as -> by (eapply unique_row; [apply (login_digests _ (st_login _ Hwf2))|done..|congruence]). done.
Qed.

(** C32: The time steps a TOTP factor accepts strictly increase over every
    history of the store, so no code is accepted twice. *)
Theorem totp_steps_increase t a f step db db1 db2 t' a' step' db3 :
  store_wf db ->
  consume_totp_step t a f step db = (db1, Ok tt) ->
  rtc store_step db1 db2 ->
  consume_totp_step t' a' f step' db2 = (db3, Ok tt) ->
  step < step'.
Proof.
  intros Hwf H Hs H'.
  assert (Hwf1 : store_wf db1).
  { eapply store_step_wf; [exact (store_step_exec (OpConsumeStep t a f step) db db1 (Ok tt) H)|done]. }
  assert (Hwf2 := steps_store_wf _ _ Hs Hwf1).
  apply consume_step_ok in H as [(r & Hr & Hu) ->].
  assert (Hin : TotpFactors.accept_step step r ∈ mfa_totp_factors (stepped f (tenant_as_uuid t) (account_as_uuid a) step db))
    by (apply elem_of_update_where; eauto).
  destruct (mono_factor _ _ (steps_monotone _ _ Hs Hwf1) _ Hin) as (r' & Hr' & Hid & Hstep).
  destruct (Hstep step eq_refl) as (s' & Hs' & Hle).
  apply consume_step_ok in H' as [(x & Hx & Hxi & _ & Hlt & _) _].
  assert (x = r') as ->.
  { eapply unique_row; [apply (factor_ids _ (st_factors _ Hwf2))|done..|]. rewrite Hid. simpl. destruct Hu as [-> _]. done. }
  rewrite Hs' in Hlt. lia.
Qed.

(** No code of the account's current set matches. *)
Definition retired (t : TenantId) (a : AccountId) (v : str) db : Prop :=
  forall x, x ∈ recovery_code_verifiers db -> ~ code_usable db (tenant_as_uuid t) (account_as_uuid a) v x.

(** A retired code is accepted again only from a set created since. *)
Lemma retired_until_new t a v db db' x :
  store_wf db -> store_wf db' -> monotone db db' -> retired t a v db ->
  x ∈ recovery_code_verifiers db' -> code_usable db' (tenant_as_uuid t) (account_as_uuid a) v x ->
  RecoveryCodeVerifiers.set_id x ∉ RecoveryCodeSets.id <$> recovery_code_sets db.
Proof.
  intros Hwf Hwf' [_ _ MV MS MC _ _] Hret Hx (Hset & Hv & Hn) Hold.
  apply list.Exists_exists in Hset as (s' & Hs' & Hxs & Ht & Ha & Hlive).
  destruct (MC x Hx Hold) as (x0 & Hx0 & Hid0 & Hset0 & Hv0).
  apply list_elem_of_fmap in Hold as (s & Hsid & Hs). destruct (MS s Hs) as (s1 & Hs1 & Hid & Hten & Hacc & Hinv).
  assert (s1 = s') as -> by
    (eapply unique_row; [apply (set_ids _ (st_codes _ Hwf'))|done..|congruence]).
  apply (Hret x0 Hx0). split_and!.
  - apply list.Exists_exists. exists s. split; [done|]. split; [congruence|]. split_and!; [congruence..|].
    destruct (RecoveryCodeSets.invalidated_at s) eqn:E; [|done]. rewrite Hinv in Hlive by done. congruence.
  - congruence.
  - destruct (RecoveryCodeVerifiers.consumed_at x0) eqn:E; [|done].
    destruct (MV x0 Hx0) as (x1 & Hx1 & Hid1 & Hc). rewrite Hc in * by congruence.
    assert (x = x0) as -> by (eapply unique_row; [apply (verifier_ids _ (st_codes _ Hwf'))|done..]). congruence.
Qed.

Lemma consumed_retired t a v cid aid now db db' b :
  consume_recovery_code t a v cid aid now db = (db', Ok b) -> verifier_bounded v = true -> retired t a v db'.
Proof.
  intros [(_ & -> & Hno)|(_ & _ & event & _ & _ & _ & ->)]%consume_code_ok Hb; [exact (Hno Hb)|].
  intros x (y & Hy & [[_ ->]|[Hu ->]])%elem_of_update_where; [by intros (_ & _ & ?)|].
  intros Hu'. by apply Hu.
Qed.

Lemma replaced_retired t a vs cid set_id drawn aid now db db' record v :
  store_wf db -> replace_recovery_code_set t a vs cid set_id drawn aid now db = (db', Ok record) -> v ∉ vs ->
  retired t a v db'.
Proof.
  intros Hwf (_ & _ & Hfresh & _ & _ & event & _ & _ & _ & ->)%replace_codes_ok Hv x Hx (Hset & Hxv & Hxn).
  rewrite list.Forall_forall in Hfresh.
  apply list.Exists_exists in Hset as (s & Hs & Hxs & Hl). simpl in Hs, Hx.
  apply elem_of_app in Hs as [(y & Hy & [[_ ->]|[Hn ->]])%elem_of_update_where| ->%list_elem_of_singleton];
    [by destruct Hl as (_ & _ & ?)|done|].
  apply elem_of_app in Hx as [Hx|Hx].
  - apply (verifier_sets _ (st_codes _ Hwf)) in Hx. rewrite Hxs in Hx.
    apply list_elem_of_fmap in Hx as (s & Hid & Hs). by destruct (Hfresh s Hs).
  - apply Hv. rewrite <- Hxv. clear -Hx. revert drawn Hx.
    induction vs as [|w vs IH]; intros drawn; [by intros []%elem_of_nil|].
    intros [->|Hx]%elem_of_cons; [by left|right; by eapply IH].
Qed.

(** C33: A recovery code is accepted at most once.  After it was presented,
    whether it was accepted or refused, and after its set was replaced by one
    without it, it is accepted again only if it belongs to a code set created
    since. *)
Theorem recovery_code_once t a v db db1 db2 cid aid now db3 :
  store_wf db ->
  (exists cid aid now b, consume_recovery_code t a v cid aid now db = (db1, Ok b)) \/
  (exists vs cid set_id drawn aid now record,
     replace_recovery_code_set t a vs cid set_id drawn aid now db = (db1, Ok record) /\ v ∉ vs) ->
  rtc store_step db1 db2 ->
  consume_recovery_code t a v cid aid now db2 = (db3, Ok true) ->
  exists x, x ∈ recovery_code_verifiers db2 /\ RecoveryCodeVerifiers.verifier x = v /\
    RecoveryCodeVerifiers.set_id x ∉ RecoveryCodeSets.id <$> recovery_code_sets db1.
Proof.
  intros Hwf Hfirst Hs H.
  assert (Hb : verifier_bounded v = true).
  { unfold consume_recovery_code in H. apply bind_ok in H as (db0 & [] & [= <- _] & H).
    by destruct (verifier_bounded v). }
  assert (store_wf db1 /\ retired t a v db1) as [Hwf1 Hret].
  { destruct Hfirst as [(c0 & a0 & n0 & b & H0)|(vs & c0 & set_id & drawn & a0 & n0 & record & H0 & Hv)].
    - split; [|by eapply consumed_retired].
      eapply store_step_wf; [|done]. apply (store_step_exec (OpConsumeCode t a v c0 a0 n0) db db1 (Ok tt)).
      simpl. unfold forget, bind. by rewrite H0.
    - split; [|by eapply replaced_retired].
      eapply store_step_wf; [|done]. apply (store_step_exec (OpReplaceCodes t a vs c0 set_id drawn a0 n0) db db1 (Ok tt)).
      simpl. unfold forget, bind. by rewrite H0. }
  apply consume_code_ok in H as [(? & _)|(_ & (x & Hx & Hu) & _)]; [done|].
  exists x. split; [done|]. split; [apply Hu|].
  eapply retired_until_new; [exact Hwf1|by eapply steps_store_wf|by apply steps_monotone|done..].
Qed.

(** A WebAuthn ceremony is finished at most once.  After its token was
    accepted, no later presentation of it is accepted, for any browser binding
    and time, whatever operations the store ran in between. *)
Theorem ceremony_once token binding cid aid now db db1 record db2 binding' cid' aid' now' db3 record' :
  store_wf db ->
  consume_webauthn_ceremony token binding cid aid now db = (db1, Ok record) ->
  rtc store_step db1 db2 ->
  consume_webauthn_ceremony token binding' cid' aid' now' db2 <> (db3, Ok record').
Proof.
  intros Hwf H Hs H'. assert (Hwf1 : store_wf db1).
  { eapply store_step_wf; [|done]. apply (store_step_exec (OpConsumeCeremony token binding cid aid now) db db1 (Ok tt)).
    simpl. unfold forget, bind. by rewrite H. }
  assert (Hwf2 := steps_store_wf _ _ Hs Hwf1).
  apply consume_ceremony_ok in H as (r & Hr & Hc & _ & _ & _ & _ & event & _ & _ & _ & Hdb1).
  assert (Hin : WebauthnCeremonies.consume (timestamptz now) r ∈ webauthn_ceremonies db1)
    by (rewrite Hdb1; apply elem_of_update_where; eauto).
  apply (mono_ceremony _ _ (steps_monotone _ _ Hs Hwf1)) in Hin; [|done].
  apply consume_ceremony_ok in H' as (x & Hx & (Hxd & _ & Hxn & _) & _).
  assert (x = WebauthnCeremonies.consume (timestamptz now) r) as ->; [|done].
  eapply unique_row; [apply (ceremony_digests _ (st_passkeys _ Hwf2))|done..|]. rewrite Hxd. symmetry. apply Hc.
Qed.

(** A step-up grant is consumed at most once.  After a token was accepted
    for an action, no later presentation of it is accepted, for any actor,
    family, target and time, whatever operations the store ran in between. *)
Theorem step_up_once request aid now db db1 db2 request' aid' now' db3 :
  store_wf db ->
  consume_step_up_grant request aid now db = (db1, Ok true) ->
  rtc store_step db1 db2 ->
  consumed_token_digest request' = consumed_token_digest request ->
  consume_step_up_grant request' aid' now' db2 <> (db3, Ok true).
Proof.
  intros Hwf H Hs Hd H'. assert (Hwf1 : store_wf db1).
  { eapply store_step_wf; [|done]. apply (store_step_exec (OpConsumeGrant request aid now) db db1 (Ok tt)).
    simpl. unfold forget, bind. by rewrite H. }
  assert (Hwf2 := steps_store_wf _ _ Hs Hwf1).
  apply consume_grant_ok in H as (_ & [(? & _)|(_ & (r & Hr & Hc) & event & _ & _ & _ & Hdb1)]); [done|].
  assert (Hin : StepUpGrants.consume (timestamptz now) r ∈ step_up_grants db1)
    by (rewrite Hdb1; apply elem_of_update_where; eauto).
  apply (mono_grant _ _ (steps_monotone _ _ Hs Hwf1)) in Hin; [|done].
  apply consume_grant_ok in H' as (_ & [(? & _)|(_ & (x & Hx & Hxd & _ & _ & _ & _ & _ & Hxn & _) & _)]); [done|].
  assert (x = StepUpGrants.consume (timestamptz now) r) as ->; [|done].
  eapply unique_row; [apply (grant_digests _ (st_grants _ Hwf2))|done..|]. rewrite Hxd, Hd. symmetry. apply Hc.
Qed.
End login.

Module LoginExamples.
#[local] Existing Instance SampleClock.clock.
#[local] Existing Instance Dialects.lenient.
#[local] Existing Instance IngressExamples.library.
Import StoreExamples.

Lemma login_token_once_witness : exists db1 record,
  consume_login_transaction (token 7) MfaChallenge (array_fill 32 x08) (lit "c") (uuid 30) (at_time 60) enrolled =
    (db1, Ok record) /\
  forall db3 record', consume_login_transaction (token 7) MfaChallenge (array_fill 32 x08) (lit "c") (uuid 31)
    (at_time 61) db1 <> (db3, Ok record').
Proof.
  destruct (is_ok_run (consume_login_transaction (token 7) MfaChallenge (array_fill 32 x08) (lit "c") (uuid 30)
    (at_time 60) enrolled)) as [record H]; [vm_compute; reflexivity|].
  eexists _, record. split; [exact H|]. intros db3 record'.
  exact (login_token_once _ _ _ _ _ _ _ _ _ _ _ _ _ _ _ db3 record' enrolled_wf H (rtc_refl _ _)).
Defined.

Definition accepts (step : Z) (db : Db Document) : Db Document * result StoreError unit :=
  consume_totp_step tenant owner (uuid 4) step db.

Lemma accepts_run step db : is_ok (snd (accepts step db)) = true -> accepts step db = (fst (accepts step db), Ok tt).
Proof. intros [[] H]%is_ok_run. exact H. Qed.

Lemma totp_steps_increase_witness :
  is_ok (snd (accepts 101 enrolled)) = true /\
  is_ok (snd (accepts 102 (fst (accepts 101 enrolled)))) = true /\ 101 < 102.
Proof.
  assert (H1 : is_ok (snd (accepts 101 enrolled)) = true) by (vm_compute; reflexivity).
  assert (H2 : is_ok (snd (accepts 102 (fst (accepts 101 enrolled)))) = true) by (vm_compute; reflexivity).
  split; [exact H1|]. split; [exact H2|].
  exact (totp_steps_increase tenant owner (uuid 4) 101 enrolled _ _ tenant owner 102 _ enrolled_wf
    (accepts_run 101 enrolled H1) (rtc_refl _ _) (accepts_run 102 (fst (accepts 101 enrolled)) H2)).
Defined.

(** A code of the first set, the set replaced, and the code in the new set. *)
Definition present (z : Z) (db : Db Document) : Db Document * result StoreError bool :=
  consume_recovery_code tenant owner [97] (lit "c") (uuid z) (at_time z) db.
Lemma present_run z db r : snd (present z db) = r ->
  consume_recovery_code tenant owner [97] (lit "c") (uuid z) (at_time z) db = (fst (present z db), r).
Proof. intros <-. unfold present. apply surjective_pairing. Qed.
Definition spent : Db Document := fst (present 60 enrolled).
Definition renewal : list StoreOp :=
  [OpReplaceCodes tenant owner (codes 97) (lit "c") (uuid 40) (fun i => uuid (50 + Z.of_nat i)) (uuid 41) (at_time 70)].

Lemma recovery_code_once_witness :
  snd (present 61 spent) = Ok false /\
  exists x, x ∈ recovery_code_verifiers (play renewal spent) /\ RecoveryCodeVerifiers.verifier x = [97] /\
    RecoveryCodeVerifiers.set_id x ∉ RecoveryCodeSets.id <$> recovery_code_sets spent.
Proof.
  split; [vm_compute; reflexivity|].
  assert (H1 : snd (present 60 enrolled) = Ok true) by (vm_compute; reflexivity).
  assert (H2 : snd (present 80 (play renewal spent)) = Ok true) by (vm_compute; reflexivity).
  apply (recovery_code_once tenant owner [97] enrolled spent (play renewal spent) (lit "c") (uuid 80) (at_time 80)
    (fst (present 80 (play renewal spent))) enrolled_wf).
  - left. exists (lit "c"), (uuid 60), (at_time 60), true. exact (present_run _ _ _ H1).
  - apply play_steps.
  - exact (present_run _ _ _ H2).
Defined.

(** A ceremony of the owner. *)
Definition ceremony : list StoreOp :=
  [OpCreateCeremony {| ceremony_tenant_id := tenant; ceremony_account_id := owner; ceremony_kind := Authentication;
     ceremony_state := (lit "a", lit "b"); ceremony_token_digest := token 90; ceremony_binding_digest := token 91;
     ceremony_expires_at := at_time 200; ceremony_correlation_id := lit "c" |} (uuid 92) (uuid 93) (at_time 60)].
Definition asked : Db Document := play ceremony enrolled.
Lemma asked_wf : store_wf asked.
Proof. eapply steps_store_wf; [apply play_steps|exact enrolled_wf]. Qed.

Lemma ceremony_once_witness : exists db1 record,
  consume_webauthn_ceremony (token 90) (token 91) (lit "c") (uuid 94) (at_time 70) asked = (db1, Ok record) /\
  forall db3 record', consume_webauthn_ceremony (token 90) (token 91) (lit "c") (uuid 95) (at_time 71) db1 <>
    (db3, Ok record').
Proof.
  destruct (is_ok_run (consume_webauthn_ceremony (token 90) (token 91) (lit "c") (uuid 94) (at_time 70) asked))
    as [record H]; [vm_compute; reflexivity|].
  eexists _, record. split; [exact H|]. intros db3 record'.
  exact (ceremony_once _ _ _ _ _ _ _ _ _ _ _ _ _ db3 record' asked_wf H (rtc_refl _ _)).
Defined.

(** A session of the owner and a grant within it. *)
Definition grant_steps : list StoreOp :=
  [OpCreateSession {| create_tenant_id := tenant; create_account_id := owner; refresh_digest := token 60;
     access_digest := token 61; refresh_expires_at := at_time 900; access_expires_at := at_time 800;
     create_correlation_id := lit "c" |} (at_time 60)
     {| new_family := uuid 62; new_credential := uuid 63; new_access := uuid 64; new_session_audit := uuid 65 |};
   OpCreateGrant {| grant_tenant_id := tenant; grant_account_id := owner; grant_family_id := uuid 62;
     grant_action := ChangeAccountRole; grant_target_digest := array_fill 32 x09; grant_token_digest := token 66;
     grant_expires_at := at_time 300; grant_correlation_id := lit "c" |} (uuid 67) (uuid 68) (at_time 61)].
Definition granted : Db Document := play grant_steps enrolled.
Lemma granted_wf : store_wf granted.
Proof. eapply steps_store_wf; [apply play_steps|exact enrolled_wf]. Qed.
Definition spend : ConsumeStepUpGrant :=
  {| consumed_tenant_id := tenant; consumed_account_id := owner; consumed_family_id := uuid 62;
     consumed_action := ChangeAccountRole; consumed_target_digest := array_fill 32 x09;
     consumed_token_digest := token 66; consumed_correlation_id := lit "c" |}.
Definition spends (z : Z) (db : Db Document) : Db Document * result StoreError bool :=
  consume_step_up_grant spend (uuid z) (at_time z) db.
Lemma spends_run z db r : snd (spends z db) = r ->
  consume_step_up_grant spend (uuid z) (at_time z) db = (fst (spends z db), r).
Proof. intros <-. unfold spends. apply surjective_pairing. Qed.

Lemma step_up_once_witness : snd (spends 70 granted) = Ok true /\
  forall db3, consume_step_up_grant spend (uuid 71) (at_time 71) (fst (spends 70 granted)) <> (db3, Ok true).
Proof.
  assert (H : snd (spends 70 granted) = Ok true) by (vm_compute; reflexivity). split; [exact H|]. intros db3.
  exact (step_up_once spend (uuid 70) (at_time 70) granted _ _ spend (uuid 71) (at_time 71) db3 granted_wf
    (spends_run 70 granted (Ok true) H) (rtc_refl _ _) eq_refl).
Defined.
End LoginExamples.
