(* ===== verification/Growth.v ===== *)
(** * How programs over the store move it

    A program logic for the services and the routes: the runs of a program are
    histories of store operations, and the login transactions, session
    families, WebAuthn ceremonies, passkeys, step-up grants and roles they add,
    and the roles they take away, are those the operations of the program do. *)

From Stdlib Require Import ZArith Lia String.
From stdpp Require Import base list option numbers decidable sorting relations.
From S2P Require Import Prelude Bytes Types Sample Str Domain Totp Clock Auth Db Ingress StoreAccounts StoreSessions.
From S2P Require Import Sessions StoreLogin StorePasskeys StoreStepUp LoginService StoreEffects Store.

(** ** Runs of programs *)
Section running.
Context {St : Type} (R : St -> St -> Prop) `{!PreOrder R}.

(** Started in [s], the program ends in a state related to [s]. *)
Definition moves {E B} (m : M St E B) (s : St) : Prop := forall s' r, m s = (s', r) -> R s s'.

Lemma moves_ret {E B} (b : B) s : moves (E := E) (ret b) s.
Proof. by intros s' r [= <- _]. Qed.
Lemma moves_fail {E B} (e : E) s : moves (B := B) (fail e) s.
Proof. by intros s' r [= <- _]. Qed.
Lemma moves_lift {E B} (v : result E B) s : moves (lift v) s.
Proof. by intros s' r [= <- _]. Qed.
Lemma moves_get {E} s : moves (E := E) get s.
Proof. by intros s' r [= <- _]. Qed.
Lemma moves_unwrapped {E B} (o : option B) s : moves (E := Fault E) (unwrapped o) s.
Proof. by destruct o; intros s' r [= <- _]. Qed.

Lemma moves_bind {E B B'} (m : M St E B) (k : B -> M St E B') s :
  moves m s -> (forall s1 b, m s = (s1, Ok b) -> moves (k b) s1) -> moves (bind m k) s.
Proof.
  intros Hm Hk s' r. unfold bind. destruct (m s) as [s1 [b|e]] eqn:E1.
  - intros H. etrans; [by eapply Hm|]. by eapply Hk.
  - intros [= <- _]. by eapply Hm.
Qed.

Lemma moves_calling {E G B} (f : E -> G) (m : M St E B) s : moves m s -> moves (calling f m) s.
Proof. intros Hm s' r. unfold calling. destruct (m s) as [s1 v] eqn:E1. intros [= <- _]. by eapply Hm. Qed.

Lemma moves_attempt {E G B} (m : M St E B) s : moves m s -> moves (E := G) (attempt m) s.
Proof. intros Hm s' r. unfold attempt. destruct (m s) as [s1 v] eqn:E1. intros [= <- _]. by eapply Hm. Qed.

End running.

(** A program that only reads. *)
Definition reads {St E B} (m : M St E B) : Prop := forall s s' r, m s = (s', r) -> s' = s.

Lemma reads_moves {St E B} (R : St -> St -> Prop) `{!PreOrder R} (m : M St E B) s : reads m -> moves R m s.
Proof. by intros Hm s' r ->%Hm. Qed.

Section reading.
Context {St : Type}.

Lemma reads_ret {E B} (b : B) : reads (St := St) (E := E) (ret b).
Proof. by intros s s' r [= <- _]. Qed.
Lemma reads_fail {E B} (e : E) : reads (St := St) (B := B) (fail e).
Proof. by intros s s' r [= <- _]. Qed.
Lemma reads_lift {E B} (v : result E B) : reads (St := St) (lift v).
Proof. by intros s s' r [= <- _]. Qed.
Lemma reads_get {E} : reads (St := St) (E := E) get.
Proof. by intros s s' r [= <- _]. Qed.
Lemma reads_bind {E B B'} (m : M St E B) (k : B -> M St E B') :
  reads m -> (forall b, reads (k b)) -> reads (bind m k).
Proof.
  intros Hm Hk s s' r. unfold bind. destruct (m s) as [s1 [b|e]] eqn:E1; apply Hm in E1 as ->.
  - apply Hk.
  - by intros [= <- _].
Qed.
Lemma reads_calling {E G B} (f : E -> G) (m : M St E B) : reads m -> reads (calling f m).
Proof. intros Hm s s' r. unfold calling. destruct (m s) as [s1 v] eqn:E1. apply Hm in E1 as ->. by intros [= <- _]. Qed.

Lemma calling_ok {E G B} (f : E -> G) (m : M St E B) s s' b :
  calling f m s = (s', Ok b) <-> m s = (s', Ok b).
Proof. unfold calling. destruct (m s) as [s1 [b1|e]]; simpl; split; congruence. Qed.

Lemma attempt_ok {E G B} (m : M St E B) s s' (v : result E B) :
  attempt (F := G) m s = (s', Ok v) -> m s = (s', v).
Proof. unfold attempt. destruct (m s) as [s1 v1]. by intros [= -> ->]. Qed.

End reading.

Create HintDb reads.
#[export] Hint Resolve reads_ret reads_fail reads_lift reads_get reads_bind reads_calling : reads.
(** Splits a query into its cases. *)
Ltac solve_reads :=
  repeat first [ progress intros | solve [eauto 1 with reads] | progress cbv zeta | apply reads_bind | apply reads_calling
    | match goal with |- reads (match ?x with _ => _ end) => destruct x end ].

(** ** Growth of a table *)
Section table.
Context {A : Type} (rel : relation A) `{!PreOrder rel}.

(** Each row comes from an earlier row, or from one that may be added. *)
Definition grown_table (P : A -> Prop) (old new : list A) : Prop :=
  forall r, r ∈ new -> exists r0, rel r0 r /\ (r0 ∈ old \/ P r0).

Lemma grown_same P old new : new = old -> grown_table P old new.
Proof. intros -> r Hr. exists r. split; [done|by left]. Qed.

Lemma grown_trans P l1 l2 l3 : grown_table P l1 l2 -> grown_table P l2 l3 -> grown_table P l1 l3.
Proof.
  intros H12 H23 r (r1 & Hr1 & [Hin|HP])%H23; [|by exists r1; split; [|right]].
  apply H12 in Hin as (r0 & Hr0 & Hin). exists r0. split; [by etrans|done].
Qed.

Lemma grown_impl (P Q : A -> Prop) old new : (forall r, P r -> Q r) -> grown_table P old new -> grown_table Q old new.
Proof. intros HPQ Hg r (r0 & Hr0 & [Hin|HP])%Hg; exists r0; auto. Qed.

Lemma grown_snoc (P : A -> Prop) old x : P x -> grown_table P old (old ++ [x]).
Proof. intros HP r [Hr| ->%list_elem_of_singleton]%elem_of_app; eexists; (split; [done|]); auto. Qed.

Lemma grown_update P (Q : A -> Prop) `{!forall x, Decision (Q x)} f old :
  (forall x, rel x (f x)) -> grown_table P old (update_where Q f old).
Proof. intros Hf r (x & Hx & [[_ ->]|[_ ->]])%elem_of_update_where; exists x; (split; [|by left]); [apply Hf|done]. Qed.

Lemma grown_sub P old new : (forall r, r ∈ new -> r ∈ old) -> grown_table P old new.
Proof. intros Hs r Hr%Hs. exists r. split; [done|by left]. Qed.
End table.

(** ** Growth of the store *)
Section growth.
Context `{F : FabricLib} `{T : TimeLib} `{D : SqlDialect}.
Abbreviation Db := (Db Document).
Implicit Types db : Db.

(** A transaction, a ceremony or a grant as it was written, or consumed since; what no
    operation changes of a family and of a passkey. *)
Definition derived (r0 r : LoginTransactions.row) : Prop := r = r0 \/ exists now, r = LoginTransactions.consume now r0.
Definition derived_ceremony (r0 r : WebauthnCeremonies.row Document) : Prop :=
  r = r0 \/ exists now, r = WebauthnCeremonies.consume now r0.
Definition derived_grant (r0 r : StepUpGrants.row) : Prop := r = r0 \/ exists now, r = StepUpGrants.consume now r0.
Definition same_family (f0 f : SessionFamilies.row) : Prop :=
  SessionFamilies.id f0 = SessionFamilies.id f /\ SessionFamilies.tenant_id f0 = SessionFamilies.tenant_id f /\
  SessionFamilies.account_id f0 = SessionFamilies.account_id f.
Definition same_credential (r0 r : WebauthnCredentials.row Document) : Prop :=
  WebauthnCredentials.tenant_id r0 = WebauthnCredentials.tenant_id r /\
  WebauthnCredentials.account_id r0 = WebauthnCredentials.account_id r /\
  WebauthnCredentials.credential_id r0 = WebauthnCredentials.credential_id r.

#[export] Instance derived_preorder : PreOrder derived.
Proof. split; [by left|]. intros r0 r1 r2 [->|[n ->]] [->|[n' ->]]; unfold derived; eauto. Qed.
#[export] Instance derived_ceremony_preorder : PreOrder derived_ceremony.
Proof. split; [by left|]. intros r0 r1 r2 [->|[n ->]] [->|[n' ->]]; unfold derived_ceremony; eauto. Qed.
#[export] Instance derived_grant_preorder : PreOrder derived_grant.
Proof. split; [by left|]. intros r0 r1 r2 [->|[n ->]] [->|[n' ->]]; unfold derived_grant; eauto. Qed.
#[export] Instance same_family_preorder : PreOrder same_family.
Proof. split; [done|]. intros f0 f1 f2 (? & ? & ?) (? & ? & ?). split_and!; congruence. Qed.
#[export] Instance same_credential_preorder : PreOrder same_credential.
Proof. split; [done|]. intros r0 r1 r2 (? & ? & ?) (? & ? & ?). split_and!; congruence. Qed.

(** The rows that may be added, and the roles that may be taken away. *)
Record Grants : Type := {
  may_login : LoginTransactions.row -> Prop;
  may_session : SessionFamilies.row -> Prop;
  may_ceremony : WebauthnCeremonies.row Document -> Prop;
  may_credential : WebauthnCredentials.row Document -> Prop;
  may_grant : StepUpGrants.row -> Prop;
  may_role : AccountRoles.row -> Prop;
  may_drop : AccountRoles.row -> Prop;
}.

Record grown_tables (G : Grants) db db' : Prop := {
  grown_logins : grown_table derived (may_login G) (login_transactions db) (login_transactions db');
  grown_families : grown_table same_family (may_session G) (session_families db) (session_families db');
  grown_ceremonies : grown_table derived_ceremony (may_ceremony G) (webauthn_ceremonies db) (webauthn_ceremonies db');
  grown_credentials : grown_table same_credential (may_credential G) (webauthn_credentials db) (webauthn_credentials db');
  grown_grants : grown_table derived_grant (may_grant G) (step_up_grants db) (step_up_grants db');
  grown_roles : grown_table eq (may_role G) (account_roles db) (account_roles db');
  kept_roles : forall r, r ∈ account_roles db -> r ∈ account_roles db' \/ may_drop G r;
}.

(** A history of operations that adds what may be added. *)
Record grown (G : Grants) db db' : Prop := {
  grown_wf : store_wf db';
  grown_steps : rtc store_step db db';
  grown_rows : grown_tables G db db';
}.
Definition grows (G : Grants) db db' : Prop := store_wf db -> grown G db db'.

Lemma tables_same G db db' :
  login_transactions db' = login_transactions db -> session_families db' = session_families db ->
  webauthn_ceremonies db' = webauthn_ceremonies db -> webauthn_credentials db' = webauthn_credentials db ->
  step_up_grants db' = step_up_grants db -> account_roles db' = account_roles db -> grown_tables G db db'.
Proof. intros. split; try (apply grown_same; [apply _|done]). intros r Hr. left. congruence. Qed.

#[export] Instance grows_preorder G : PreOrder (grows G).
Proof.
  split.
  - intros db Hwf. split; [done|done|by apply tables_same].
  - intros db1 db2 db3 H12 H23 Hwf. destruct (H12 Hwf) as [W2 T2 [L2 S2 C2 P2 G2 R2 K2]].
    destruct (H23 W2) as [W3 T3 [L3 S3 C3 P3 G3 R3 K3]].
    split; [done|by etrans|]. split; try (by eapply grown_trans; [apply _|..]).
    intros r [Hr|?]%K2; [|by right]. apply (K3 r Hr).
Qed.

(** What an operation may add. *)
Definition op_login (op : StoreOp) (r : LoginTransactions.row) : Prop :=
  match op with OpCreateLogin request id _ now => r = login_row request id now | _ => False end.
Definition op_family (op : StoreOp) (f : SessionFamilies.row) : Prop :=
  match op with OpCreateSession request now ids => f = new_family_row request now ids | _ => False end.
Definition op_ceremony (op : StoreOp) (r : WebauthnCeremonies.row Document) : Prop :=
  match op with OpCreateCeremony request id _ now => r = ceremony_row request id now | _ => False end.
Definition op_credential (op : StoreOp) (r : WebauthnCredentials.row Document) : Prop :=
  match op with OpRegisterPasskey request id _ now => r = credential_row request id now | _ => False end.
Definition op_grant (op : StoreOp) (r : StepUpGrants.row) : Prop :=
  match op with OpCreateGrant request id _ now => r = grant_row request id now | _ => False end.
Definition op_role (op : StoreOp) (r : AccountRoles.row) : Prop :=
  match op with
  | OpBootstrap command t o _ now => r = role_row t o Owner None now
  | OpInvite command a _ now => r = role_row (tenant_as_uuid (InviteAccount.tenant_id command)) a
      (InviteAccount.initial_role command)
      (Some (account_as_uuid (AdministrationActor.account_id (InviteAccount.actor command)))) now
  | OpChangeRole command _ now => ChangeRole.grant command = true /\ r = granted_row command now
  | _ => False
  end.
Definition op_drop (op : StoreOp) (r : AccountRoles.row) : Prop :=
  match op with
  | OpChangeRole command _ _ => ChangeRole.grant command = false /\
      role_is (tenant_as_uuid (ChangeRole.tenant_id command)) (account_as_uuid (ChangeRole.target_account_id command))
        (role_text (ChangeRole.role command)) r
  | _ => False
  end.
Definition op_grants (op : StoreOp) : Grants :=
  {| may_login := op_login op; may_session := op_family op; may_ceremony := op_ceremony op;
     may_credential := op_credential op; may_grant := op_grant op; may_role := op_role op; may_drop := op_drop op |}.

Lemma tables_revoked G event fam t a now reason db db1 :
  login_transactions db1 = login_transactions db -> session_families db1 = session_families db ->
  webauthn_ceremonies db1 = webauthn_ceremonies db -> webauthn_credentials db1 = webauthn_credentials db ->
  step_up_grants db1 = step_up_grants db -> account_roles db1 = account_roles db ->
  grown_tables G db (logged event (without_family fam t a now reason db1)).
Proof.
  intros Hl Hf Hc Hp Hg Hr. split; simpl; try (apply grown_same; [apply _|done]).
  - rewrite Hf. apply grown_update; [apply _|done].
  - rewrite Hr. by left.
Qed.

Lemma rotate_tables G request now ids db db' r :
  store_wf db -> rotate_refresh_credential request now ids db = (db', Ok r) -> grown_tables G db db'.
Proof.
  intros Hwf H. pose proof (rotate_ok _ _ _ _ _ _ (st_sessions _ Hwf) H) as Ho.
  destruct (fetch_optional _) as [[[c f] a]|]; [|destruct Ho as [_ ->]; by apply tables_same].
  destruct Ho as (st & _ & Ho). destruct r; [| |destruct Ho as [-> _]; by apply tables_same].
  - destruct Ho as (_ & _ & _ & _ & _ & _ & event & _ & ->). by apply tables_same.
  - destruct Ho as (_ & _ & event & _ & ->). by apply tables_revoked.
Qed.

(** One table grows, the others stay. *)
Ltac one_table := split; first [by left|by apply grown_same; [apply _|] | by apply grown_snoc; [apply _|] |
  apply grown_update; [apply _|by intros; right; eauto]| apply grown_update; [apply _|done]].

Lemma kept_snoc (P : AccountRoles.row -> Prop) rows x r : r ∈ rows -> r ∈ rows ++ [x] \/ P r.
Proof. intros Hr. left. apply elem_of_app. by left. Qed.

Lemma role_tables command new_audit now event db :
  grown_tables (op_grants (OpChangeRole command new_audit now)) db (logged event (role_changed command now db)).
Proof.
  unfold role_changed. destruct (ChangeRole.grant command) eqn:Hg; split; simpl; try (by apply grown_same; [apply _|]).
  - by apply grown_snoc; [apply _|].
  - apply kept_snoc.
  - apply grown_sub; [apply _|]. by intros r [_ ?]%list_elem_of_filter.
  - intros r Hr. destruct (decide (role_is (tenant_as_uuid (ChangeRole.tenant_id command))
      (account_as_uuid (ChangeRole.target_account_id command)) (role_text (ChangeRole.role command)) r)); [by right|].
    left. by apply list_elem_of_filter.
Qed.

Lemma exec_tables op db db' : store_wf db -> exec op db = (db', Ok tt) -> grown_tables (op_grants op) db db'.
Proof.
  intros Hwf. destruct op; cbn [exec].
  - intros [b (_ & _ & _ & _ & event & _ & _ & _ & ->)%bootstrap_ok]%forget_ok.
    split; simpl; try (by apply grown_same; [apply _|]); [by apply grown_snoc; [apply _|]|apply kept_snoc].
  - intros [b (_ & _ & _ & _ & event & _ & _ & _ & ->)%invite_ok]%forget_ok.
    split; simpl; try (by apply grown_same; [apply _|]); [by apply grown_snoc; [apply _|]|apply kept_snoc].
  - intros (_ & _ & event & _ & _ & _ & ->)%change_role_ok. by apply role_tables.
  - intros (_ & event & _ & _ & _ & ->)%store_password_ok. unfold with_password. destruct (decide _); by apply tables_same.
  - intros [b (_ & _ & _ & event & _ & _ & _ & ->)%create_login_ok]%forget_ok. one_table.
  - intros [b (x & _ & _ & _ & _ & _ & _ & event & _ & _ & _ & ->)%consume_login_ok]%forget_ok. one_table.
  - intros (_ & event & _ & _ & _ & ->)%create_pending_ok. by apply tables_same.
  - intros (_ & _ & event & _ & _ & _ & ->)%activate_ok. by apply tables_same.
  - intros (_ & ->)%consume_step_ok. by apply tables_same.
  - intros [r ->]%envelope_ok_run. by apply tables_same.
  - intros [b (_ & _ & _ & _ & _ & event & _ & _ & _ & ->)%replace_codes_ok]%forget_ok. by apply tables_same.
  - intros [b [(_ & -> & _)|(_ & _ & event & _ & _ & _ & ->)]%consume_code_ok]%forget_ok; by apply tables_same.
  - intros (_ & event & _ & _ & _ & ->)%create_ceremony_ok. one_table.
  - intros [b (x & _ & _ & _ & _ & _ & _ & event & _ & _ & _ & ->)%consume_ceremony_ok]%forget_ok. one_table.
  - intros (_ & event & _ & _ & _ & ->)%register_passkey_ok. one_table.
  - intros (_ & ->)%update_passkey_ok. one_table.
  - intros [b (_ & _ & event & _ & _ & _ & ->)%create_grant_ok]%forget_ok. one_table.
  - intros [b (_ & [(_ & -> & _)|(_ & _ & event & _ & _ & _ & ->)])%consume_grant_ok]%forget_ok;
      [by apply tables_same|one_table].
  - intros [b (_ & _ & _ & _ & event & _ & ->)%create_ok]%forget_ok. one_table.
  - intros [b H]%forget_ok. by eapply rotate_tables.
  - intros [b H%revoke_inv]%forget_ok.
    destruct (revoke_family_ok _ _ _ _ _ _ _ _ _ _ (st_sessions _ Hwf) H) as [(_ & -> & _)|(_ & _ & event & _ & ->)];
      [by apply tables_same|by apply tables_revoked].
  - intros [b H]%forget_ok. pose proof (record_replay_run request now new_audit db) as Hr. rewrite H in Hr.
    destruct b; [destruct Hr as (_ & _ & _ & ->)|destruct Hr as (_ & _ & ->)]; by apply tables_same.
Qed.

(** The operation does only what may be done. *)
Record adds (op : StoreOp) (G : Grants) : Prop := {
  adds_login : forall r, op_login op r -> may_login G r;
  adds_session : forall f, op_family op f -> may_session G f;
  adds_ceremony : forall r, op_ceremony op r -> may_ceremony G r;
  adds_credential : forall r, op_credential op r -> may_credential G r;
  adds_grant : forall r, op_grant op r -> may_grant G r;
  adds_role : forall r, op_role op r -> may_role G r;
  drops_role : forall r, op_drop op r -> may_drop G r;
}.

Lemma exec_grows op G db db' r : (r = Ok tt -> adds op G) -> exec op db = (db', r) -> grows G db db'.
Proof.
  intros Hadds H Hwf. assert (Hs : store_step db db') by exact (store_step_exec _ _ _ _ H).
  destruct r as [[]|e]; [|apply exec_err in H as ->; [by apply grows_preorder|done]].
  destruct (Hadds eq_refl) as [HL HS HC HP HG HR HD].
  destruct (exec_tables _ _ _ Hwf H). split; [by eapply store_step_wf|by apply rtc_once|].
  split; try by eapply grown_impl. intros x [?|?]%kept_roles0; auto.
Qed.

(** An operation moves the store by what it may do when it succeeds. *)
Lemma exec_moves_ok {B} op (m : M Db StoreError B) G db :
  (forall db' b, m db = (db', Ok b) -> adds op G) -> exec op = forget m -> moves (grows G) m db.
Proof.
  intros Hadds Heq db' r H. eapply (exec_grows op G db db' (match r with Ok _ => Ok tt | Err e => Err e end)).
  - destruct r; [intros _; by eapply Hadds|done].
  - rewrite Heq. unfold forget, bind. rewrite H. by destruct r.
Qed.

Lemma exec_moves {B} op (m : M Db StoreError B) G db : adds op G -> exec op = forget m -> moves (grows G) m db.
Proof. intros Hadds. by apply exec_moves_ok. Qed.

Lemma exec_moves_unit_ok op G db :
  (forall db', exec op db = (db', Ok tt) -> adds op G) -> moves (grows G) (exec op) db.
Proof. intros Hadds db' r H. eapply exec_grows; [|exact H]. intros ->. by eapply Hadds. Qed.

Lemma exec_moves_unit op G db : adds op G -> moves (grows G) (exec op) db.
Proof. intros Hadds. by apply exec_moves_unit_ok. Qed.
End growth.

(** ** Accounts without a second factor *)
Section settled.
Context `{F : FabricLib} `{T : TimeLib} `{D : SqlDialect}.
Abbreviation Db := (Db Document).
Implicit Types db : Db.

(** The account is active and has no active factor. *)
Definition settled (t a : Uuid) db : Prop :=
  Exists (account_in t a (lit "active")) (accounts db) /\ Forall (fun r => ~ active_factor t a r) (mfa_totp_factors db).

Lemma settled_same t a db db' :
  accounts db' = accounts db -> mfa_totp_factors db' = mfa_totp_factors db -> settled t a db -> settled t a db'.
Proof. by intros Ha Hf; unfold settled; rewrite Ha, Hf. Qed.

Lemma settled_accounts t a db db' rows :
  accounts db' = accounts db ++ rows -> mfa_totp_factors db' = mfa_totp_factors db -> settled t a db -> settled t a db'.
Proof. intros Ha Hf [H1 H2]. split; [|by rewrite Hf]. rewrite Ha. apply Exists_app. by left. Qed.

Lemma settled_pending t a db row : TotpFactors.status row = lit "pending" -> settled t a db -> settled t a (with_factor row db).
Proof.
  intros Hr [H1 H2]. split; [done|]. apply Forall_app. split; [done|]. apply list.Forall_singleton.
  intros [_ Hs]. by rewrite Hr in Hs.
Qed.

Lemma settled_stepped t a f t' a' step db : settled t a db -> settled t a (stepped f t' a' step db).
Proof.
  intros [H1 H2]. split; [done|]. apply list.Forall_forall. rewrite list.Forall_forall in H2.
  intros r (r0 & Hr0 & [[_ ->]|[_ ->]])%elem_of_update_where; exact (H2 r0 Hr0).
Qed.

Lemma settled_activated t a f t' a' now step db :
  store_wf db -> settled t a db -> settled t a (activated f t' a' now step db).
Proof.
  intros Hwf [H1 H2]. apply list.Exists_exists in H1 as (r & Hr & Hid & Hten & Hst).
  assert (Hno : forall x st, x ∈ accounts db -> account_in t a st x -> st = lit "active").
  { intros x st Hx (Hxi & Hxt & <-).
    assert (x = r) as -> by (eapply unique_row; [apply (account_ids _ (st_accounts _ Hwf))|done..|congruence]). done. }
  split.
  - apply list.Exists_exists. exists r. split; [|done]. apply elem_of_update_where. exists r. split; [done|]. right.
    split; [|done]. intros (_ & _ & Hx). rewrite Hst in Hx. done.
  - apply list.Forall_forall. rewrite list.Forall_forall in H2.
    intros x (x0 & Hx0 & [[[[_ [[Ht Ha] _]] Hacc] ->]|[_ ->]])%elem_of_update_where; [|by apply H2].
    intros [[Ht' Ha'] _]. simpl in Ht', Ha'. apply list.Exists_exists in Hacc as (y & Hy & Hin).
    rewrite <- Ht, <- Ha, Ht', Ha' in Hin. by specialize (Hno y _ Hy Hin).
Qed.

Lemma exec_settled t a op db db' : store_wf db -> exec op db = (db', Ok tt) -> settled t a db -> settled t a db'.
Proof.
  intros Hwf. destruct op; cbn [exec].
  - intros [b (_ & _ & _ & _ & event & _ & _ & _ & ->)%bootstrap_ok]%forget_ok. by eapply settled_accounts.
  - intros [b (_ & _ & _ & _ & event & _ & _ & _ & ->)%invite_ok]%forget_ok. by eapply settled_accounts.
  - intros (_ & _ & event & _ & _ & _ & ->)%change_role_ok. unfold role_changed.
    destruct (ChangeRole.grant command); by apply settled_same.
  - intros (_ & event & _ & _ & _ & ->)%store_password_ok. unfold with_password. destruct (decide _); by apply settled_same.
  - intros [b (_ & _ & _ & event & _ & _ & _ & ->)%create_login_ok]%forget_ok. by apply settled_same.
  - intros [b (r & _ & _ & _ & _ & _ & _ & event & _ & _ & _ & ->)%consume_login_ok]%forget_ok. by apply settled_same.
  - intros (_ & event & _ & _ & _ & ->)%create_pending_ok. by apply settled_pending.
  - intros (_ & _ & event & _ & _ & _ & ->)%activate_ok. by apply settled_activated.
  - intros (_ & ->)%consume_step_ok. apply settled_stepped.
  - intros [r ->]%envelope_ok_run. by apply settled_same.
  - intros [b (_ & _ & _ & _ & _ & event & _ & _ & _ & ->)%replace_codes_ok]%forget_ok. by apply settled_same.
  - intros [b [(_ & -> & _)|(_ & _ & event & _ & _ & _ & ->)]%consume_code_ok]%forget_ok; by apply settled_same.
  - intros (_ & event & _ & _ & _ & ->)%create_ceremony_ok. by apply settled_same.
  - intros [b (r & _ & _ & _ & _ & _ & _ & event & _ & _ & _ & ->)%consume_ceremony_ok]%forget_ok. by apply settled_same.
  - intros (_ & event & _ & _ & _ & ->)%register_passkey_ok. by apply settled_same.
  - intros (_ & ->)%update_passkey_ok. by apply settled_same.
  - intros [b (_ & _ & event & _ & _ & _ & ->)%create_grant_ok]%forget_ok. by apply settled_same.
  - intros [b (_ & [(_ & -> & _)|(_ & _ & event & _ & _ & _ & ->)])%consume_grant_ok]%forget_ok; by apply settled_same.
  - intros [b (_ & _ & _ & _ & event & _ & ->)%create_ok]%forget_ok. by apply settled_same.
  - intros [b H]%forget_ok. pose proof (rotate_ok _ _ _ _ _ _ (st_sessions _ Hwf) H) as Ho.
    destruct (fetch_optional _) as [[[c f] x]|]; [|by destruct Ho as [_ ->]].
    destruct Ho as (st & _ & Ho). destruct b; [| |by destruct Ho as [-> _]].
    + destruct Ho as (_ & _ & _ & _ & _ & _ & event & _ & ->). by apply settled_same.
    + destruct Ho as (_ & _ & event & _ & ->). by apply settled_same.
  - intros [b H%revoke_inv]%forget_ok.
    destruct (revoke_family_ok _ _ _ _ _ _ _ _ _ _ (st_sessions _ Hwf) H) as [(_ & -> & _)|(_ & _ & event & _ & ->)];
      [done|by apply settled_same].
  - intros [b H]%forget_ok. pose proof (record_replay_run request now new_audit db) as Hr. rewrite H in Hr.
    destruct b; [destruct Hr as (_ & _ & _ & ->); by apply settled_same|by destruct Hr as (_ & _ & ->)].
Qed.

Lemma steps_settled t a db db' : rtc store_step db db' -> store_wf db -> settled t a db -> settled t a db'.
Proof.
  induction 1 as [|db db1 db2 [op db0 db0' r H] _ IH]; intros Hwf Hs; [done|]. apply IH.
  - by eapply store_step_wf; [exact (store_step_exec _ _ _ _ H)|].
  - destruct r as [[]|e]; [by eapply exec_settled|by apply exec_err in H as ->].
Qed.
End settled.

(** ** Tenants and passwords stay *)
Section kept.
Context `{F : FabricLib} `{T : TimeLib} `{D : SqlDialect}.
Abbreviation Db := (Db Document).
Implicit Types db : Db.

(** A tenant is never removed, and an account that has a password keeps one. *)
Record kept db db' : Prop := {
  kept_tenants : tenants db ⊆ tenants db';
  kept_passwords : forall a, a ∈ PasswordCredentials.account_id <$> password_credentials db ->
    a ∈ PasswordCredentials.account_id <$> password_credentials db';
}.

#[local] Instance kept_preorder : PreOrder kept.
Proof. split; [by split|]. intros db1 db2 db3 [] []. split; [by etrans|auto]. Qed.

Lemma kept_same db db' : tenants db' = tenants db -> password_credentials db' = password_credentials db -> kept db db'.
Proof. intros Ht Hp. split; by rewrite ?Ht, ?Hp. Qed.

Lemma kept_with_tenant row db : kept db (with_tenant row db).
Proof. split; [|done]. intros r Hr. apply list.elem_of_app. by left. Qed.

Lemma kept_with_password acc ten v pepper now db : kept db (with_password acc ten v pepper now db).
Proof.
  unfold with_password. case_decide as He; (split; [done|]); intros a (p & -> & Hp)%list_elem_of_fmap;
    apply list_elem_of_fmap; simpl.
  - destruct (decide (PasswordCredentials.account_id p = acc)) as [E|E].
    + eexists. split; [|apply elem_of_update_where; exists p; split; [done|left; done]]. done.
    + exists p. split; [done|]. apply elem_of_update_where. exists p. split; [done|]. by right.
  - exists p. split; [done|]. apply list.elem_of_app. by left.
Qed.

Lemma exec_kept op db db' : store_wf db -> exec op db = (db', Ok tt) -> kept db db'.
Proof.
  intros Hwf. destruct op; cbn [exec].
  - intros [b (_ & _ & _ & _ & event & _ & _ & _ & ->)%bootstrap_ok]%forget_ok.
    etrans; [apply kept_with_tenant|by apply kept_same].
  - intros [b (_ & _ & _ & _ & event & _ & _ & _ & ->)%invite_ok]%forget_ok. by apply kept_same.
  - intros (_ & _ & event & _ & _ & _ & ->)%change_role_ok. unfold role_changed. destruct (ChangeRole.grant command); by apply kept_same.
  - intros (_ & event & _ & _ & _ & ->)%store_password_ok. etrans; [apply kept_with_password|by apply kept_same].
  - intros [b (_ & _ & _ & event & _ & _ & _ & ->)%create_login_ok]%forget_ok. by apply kept_same.
  - intros [b (r & _ & _ & _ & _ & _ & _ & event & _ & _ & _ & ->)%consume_login_ok]%forget_ok. by apply kept_same.
  - intros (_ & event & _ & _ & _ & ->)%create_pending_ok. by apply kept_same.
  - intros (_ & _ & event & _ & _ & _ & ->)%activate_ok. by apply kept_same.
  - intros (_ & ->)%consume_step_ok. by apply kept_same.
  - intros [r ->]%envelope_ok_run. by apply kept_same.
  - intros [b (_ & _ & _ & _ & _ & event & _ & _ & _ & ->)%replace_codes_ok]%forget_ok. by apply kept_same.
  - intros [b [(_ & -> & _)|(_ & _ & event & _ & _ & _ & ->)]%consume_code_ok]%forget_ok; by apply kept_same.
  - intros (_ & event & _ & _ & _ & ->)%create_ceremony_ok. by apply kept_same.
  - intros [b (r & _ & _ & _ & _ & _ & _ & event & _ & _ & _ & ->)%consume_ceremony_ok]%forget_ok. by apply kept_same.
  - intros (_ & event & _ & _ & _ & ->)%register_passkey_ok. by apply kept_same.
  - intros (_ & ->)%update_passkey_ok. by apply kept_same.
  - intros [b (_ & _ & event & _ & _ & _ & ->)%create_grant_ok]%forget_ok. by apply kept_same.
  - intros [b (_ & [(_ & -> & _)|(_ & _ & event & _ & _ & _ & ->)])%consume_grant_ok]%forget_ok; by apply kept_same.
  - intros [b (_ & _ & _ & _ & event & _ & ->)%create_ok]%forget_ok. by apply kept_same.
  - intros [b H]%forget_ok. pose proof (rotate_ok _ _ _ _ _ _ (st_sessions _ Hwf) H) as Ho.
    destruct (fetch_optional _) as [[[c f] x]|]; [|destruct Ho as [_ ->]; done].
    destruct Ho as (st & _ & Ho). destruct b; [| |destruct Ho as [-> _]; done].
    + destruct Ho as (_ & _ & _ & _ & _ & _ & event & _ & ->). by apply kept_same.
    + destruct Ho as (_ & _ & event & _ & ->). by apply kept_same.
  - intros [b H%revoke_inv]%forget_ok.
    destruct (revoke_family_ok _ _ _ _ _ _ _ _ _ _ (st_sessions _ Hwf) H) as [(_ & -> & _)|(_ & _ & event & _ & ->)];
      by apply kept_same.
  - intros [b H]%forget_ok. pose proof (record_replay_run request now new_audit db) as Hr. rewrite H in Hr.
    destruct b; [destruct Hr as (_ & _ & _ & ->)|destruct Hr as (_ & _ & ->)]; by apply kept_same.
Qed.

Lemma steps_kept db db' : rtc store_step db db' -> store_wf db -> kept db db'.
Proof.
  induction 1 as [|db db1 db2 [op db0 db0' r H] _ IH]; intros Hwf; [done|]. etrans.
  - destruct r as [[]|e]; [by eapply exec_kept|by apply exec_err in H as ->].
  - apply IH. by eapply store_step_wf; [exact (store_step_exec _ _ _ _ H)|].
Qed.
End kept.
