(* ===== verification/Kms.v ===== *)
(** * Data keys wrapped by AWS KMS

    [crates/fcp-fabric-service/src/aws_kms.rs]: provisioning a data key for
    time-based codes, and resolving the key a stored factor refers to.  The key
    management service is a parameter with a state of its own, which calls of
    other clients may move as well; the store is the one of [Store].  Erasing
    plaintext from memory leaves no trace in the values and is left out. *)

From Stdlib Require Import ZArith Lia String.
From stdpp Require Import base list option numbers decidable countable gmap relations.
From S2P Require Import Prelude Bytes Str Domain Totp Clock Auth Db Ingress StoreAccounts StoreSessions StoreLogin.
From S2P Require Import StorePasskeys StoreStepUp Sessions StoreEffects Store LoginService.

(** An encryption context, [HashMap<String, String>]. *)
Abbreviation EncryptionContext := (gmap str str).

(** [GenerateDataKey] at [AES_256] and [Decrypt]: the key that wraps, the context
    and the ciphertext; both members of an answer are optional in the SDK. *)
Class Kms : Type := {
  KmsState : Type;
  generate_data_key : str -> EncryptionContext -> KmsState -> KmsState * result unit (option bytes * option bytes);
  kms_decrypt : str -> bytes -> EncryptionContext -> KmsState -> KmsState * result unit (option bytes);
}.

(** Any client's calls. *)
Inductive kms_step `{Kms} : KmsState -> KmsState -> Prop :=
| kms_generates id context k k' r : generate_data_key id context k = (k', r) -> kms_step k k'
| kms_decrypts id c context k k' r : kms_decrypt id c context k = (k', r) -> kms_step k k'.

(** What the service documents: as long as it answers, it decrypts the ciphertext
    of a data key to that key, and only under the context it was made with. *)
Class KmsLaws (K : Kms) : Prop := {
  kms_opens : forall id context k k1 p c k2 k3 o,
    generate_data_key id context k = (k1, Ok (Some p, Some c)) -> rtc kms_step k1 k2 ->
    kms_decrypt id c context k2 = (k3, Ok o) -> o = Some p;
  kms_binds : forall id id' context context' k k1 p c k2 k3 o,
    generate_data_key id context k = (k1, Ok (Some p, Some c)) -> rtc kms_step k1 k2 ->
    kms_decrypt id' c context' k2 = (k3, Ok o) -> context' = context;
}.

Definition PROVIDER : str := lit "aws_kms".
Definition CONTEXT_PURPOSE_KEY : str := lit "fcp-fabric-purpose".
Definition CONTEXT_PURPOSE_VALUE : str := lit "totp-data-key/v1".
Definition CONTEXT_REFERENCE_KEY : str := lit "fcp-fabric-key-reference".

Definition encryption_context (reference : TotpKeyReference) : EncryptionContext :=
  <[CONTEXT_REFERENCE_KEY := key_reference_as_str reference]>
    (<[CONTEXT_PURPOSE_KEY := CONTEXT_PURPOSE_VALUE]> ∅).

Definition validate_wrapping_key_reference (value : str) : result TotpKeyResolutionError unit :=
  if bool_decide (value = []) || (2048 <? str_len value) || existsb is_control value
  then Err ProviderFailure else Ok tt.

Definition data_key_from_plaintext (plaintext : bytes) : result TotpKeyResolutionError (array 32) :=
  ok_or (array_try 32 plaintext) ProviderFailure.

Definition map_store_error (error : StoreError) : TotpKeyResolutionError :=
  match error with
  | InvalidTotpDataKeyEnvelope => ProviderFailure
  | _ => Unavailable
  end.

Module AwsKmsTotpKeyProvider.

(** The store and the client are the state the methods run on. *)
Record t : Type := { active_reference : TotpKeyReference }.

Section provider.
Context `{F : FabricLib} `{T : TimeLib} `{K : Kms}.
Abbreviation Db := (Db Document).
Abbreviation P := (M (Db * KmsState) TotpKeyResolutionError).

(** A store operation, and a call of the key management service. *)
Definition in_store {A} (m : M Db StoreError A) : P A :=
  fun '(db, k) => let '(db', r) := m db in ((db', k), map_err map_store_error r).
Definition in_kms {A} (m : KmsState -> KmsState * result unit A) : P A :=
  fun '(db, k) => let '(k', r) := m k in ((db, k'), map_err (fun _ => Unavailable) r).

(** [drawn] is what [Uuid::now_v7] returned. *)
Definition provision_data_key (wrapping_key_reference : str) (now : OffsetDateTime) (drawn : Uuid) :
    P TotpKeyReference :=
  do_ lift (validate_wrapping_key_reference wrapping_key_reference);
  do reference <- lift (map_err (fun _ => ProviderFailure)
    (TotpKeyReference_new (lit "aws-kms:totp-dek:" ++ uuid_text drawn)));
  do output <- in_kms (generate_data_key wrapping_key_reference (encryption_context reference));
  do plaintext <- lift (ok_or (fst output) ProviderFailure);
  do_ lift (data_key_from_plaintext plaintext);
  do ciphertext <- lift (ok_or (snd output) ProviderFailure);
  if bool_decide (ciphertext = []) || (6144 <? blen ciphertext) then fail ProviderFailure else
  do_ in_store (create_totp_data_key_envelope
    {| create_key_reference := reference; create_provider := PROVIDER;
       create_wrapping_key_reference := wrapping_key_reference;
       create_encrypted_data_key := ciphertext; create_created_at := now |});
  ret reference.

Definition resolve_envelope_key (reference : TotpKeyReference) : P (array 32) :=
  do envelope <- in_store (totp_data_key_envelope reference);
  do envelope <- lift (ok_or envelope Unavailable);
  if negb (bool_decide (envelope_provider envelope = PROVIDER)) then fail Unavailable else
  do output <- in_kms (kms_decrypt (envelope_wrapping_key_reference envelope)
    (envelope_encrypted_data_key envelope) (encryption_context reference));
  do plaintext <- lift (ok_or output ProviderFailure);
  lift (data_key_from_plaintext plaintext).

Definition resolve (reference : TotpKeyReference) : P (array 32) := resolve_envelope_key reference.

Definition active_key (self : t) : P ActiveTotpEncryptionKey :=
  do key <- resolve_envelope_key (active_reference self);
  ret {| LoginService.active_reference := active_reference self; active_data_key := key |}.

(** What the services of a request are given while the store and the key
    management service are in state [s]. *)
Definition provider_at (self : t) (s : Db * KmsState) : TotpKeyProvider :=
  {| resolve_key reference := eval (resolve reference) s; LoginService.active_key := eval (active_key self) s |}.

End provider.
End AwsKmsTotpKeyProvider.

(** ** Resolution over time *)
Module KeyResolution.
Import AwsKmsTotpKeyProvider.

Section resolution.
Context `{F : FabricLib} `{T : TimeLib} `{D : SqlDialect} `{K : Kms}.
Abbreviation Db := (Db Document).
Implicit Types db : Db.

Definition row_of (request : CreateTotpDataKeyEnvelope) : TotpDataKeyEnvelopes.row :=
  {| TotpDataKeyEnvelopes.key_reference := key_reference_as_str (create_key_reference request);
     TotpDataKeyEnvelopes.provider := create_provider request;
     TotpDataKeyEnvelopes.wrapping_key_reference := create_wrapping_key_reference request;
     TotpDataKeyEnvelopes.encrypted_data_key := create_encrypted_data_key request;
     TotpDataKeyEnvelopes.created_at := timestamptz (create_created_at request) |}.

Definition refers (reference : TotpKeyReference) (r : TotpDataKeyEnvelopes.row) : Prop :=
  TotpDataKeyEnvelopes.key_reference r = key_reference_as_str reference.
#[local] Instance refers_dec reference r : Decision (refers reference r).
Proof. unfold refers. apply _. Defined.

Lemma create_envelope_ok request db db' u :
  create_totp_data_key_envelope request db = (db', Ok u) ->
  envelope_ok (create_provider request) (create_wrapping_key_reference request) (create_encrypted_data_key request) = true /\
  Forall (fun r => ~ refers (create_key_reference request) r) (totp_data_key_envelopes db) /\
  db' = set_totp_data_key_envelopes (totp_data_key_envelopes db ++ [row_of request]) db.
Proof.
  unfold create_totp_data_key_envelope. destruct (envelope_ok _ _ _) eqn:Hok; simpl; [|done].
  intros (db1 & n & H & H')%bind_ok. unfold insert_envelope in H.
  apply bind_ok in H as (db2 & db3 & [= <- <-] & H). apply bind_ok in H as (db2 & [] & Hr & H).
  rewrite require_run in Hr. destruct (_ && _); [|done]. injection Hr as <-.
  case_bool_decide as Hx; injection H as <- <-; [done|]. injection H' as <-. split; [done|]. split; [|done].
  by rewrite <- Forall_Exists_neg in Hx.
Qed.

(** The stored envelopes of a history: a prefix stays. *)
Lemma exec_envelopes op db db' :
  store_wf db -> exec op db = (db', Ok tt) ->
  exists l, totp_data_key_envelopes db' = totp_data_key_envelopes db ++ l.
Proof.
  assert (Hsame : forall db', totp_data_key_envelopes db' = totp_data_key_envelopes db ->
    exists l, totp_data_key_envelopes db' = totp_data_key_envelopes db ++ l).
  { intros db1 ->. exists []. by rewrite app_nil_r. }
  intros Hwf. destruct op; cbn [exec].
  - intros [b (_ & _ & _ & _ & event & _ & _ & _ & ->)%bootstrap_ok]%forget_ok. by apply Hsame.
  - intros [b (_ & _ & _ & _ & event & _ & _ & _ & ->)%invite_ok]%forget_ok. by apply Hsame.
  - intros (_ & _ & event & _ & _ & _ & ->)%change_role_ok. apply Hsame. unfold role_changed. by destruct (ChangeRole.grant command).
  - intros (_ & event & _ & _ & _ & ->)%store_password_ok. apply Hsame. unfold with_password. by destruct (decide _).
  - intros [b (_ & _ & _ & event & _ & _ & _ & ->)%create_login_ok]%forget_ok. by apply Hsame.
  - intros [b (x & _ & _ & _ & _ & _ & _ & event & _ & _ & _ & ->)%consume_login_ok]%forget_ok. by apply Hsame.
  - intros (_ & event & _ & _ & _ & ->)%create_pending_ok. by apply Hsame.
  - intros (_ & _ & event & _ & _ & _ & ->)%activate_ok. by apply Hsame.
  - intros (_ & ->)%consume_step_ok. by apply Hsame.
  - intros (_ & _ & ->)%create_envelope_ok. by eexists.
  - intros [b (_ & _ & _ & _ & _ & event & _ & _ & _ & ->)%replace_codes_ok]%forget_ok. by apply Hsame.
  - intros [b [(_ & -> & _)|(_ & _ & event & _ & _ & _ & ->)]%consume_code_ok]%forget_ok; by apply Hsame.
  - intros (_ & event & _ & _ & _ & ->)%create_ceremony_ok. by apply Hsame.
  - intros [b (x & _ & _ & _ & _ & _ & _ & event & _ & _ & _ & ->)%consume_ceremony_ok]%forget_ok. by apply Hsame.
  - intros (_ & event & _ & _ & _ & ->)%register_passkey_ok. by apply Hsame.
  - intros (_ & ->)%update_passkey_ok. by apply Hsame.
  - intros [b (_ & _ & event & _ & _ & _ & ->)%create_grant_ok]%forget_ok. by apply Hsame.
  - intros [b (_ & [(_ & -> & _)|(_ & _ & event & _ & _ & _ & ->)])%consume_grant_ok]%forget_ok; by apply Hsame.
  - intros [b (_ & _ & _ & _ & event & _ & ->)%create_ok]%forget_ok. by apply Hsame.
  - intros [b H]%forget_ok. apply Hsame. pose proof (rotate_ok _ _ _ _ _ _ (st_sessions _ Hwf) H) as Ho.
    destruct (fetch_optional _) as [[[c f] a]|]; [|by destruct Ho as [_ ->]].
    destruct Ho as (st & _ & Ho). destruct b; [| |by destruct Ho as [-> _]].
    + by destruct Ho as (_ & _ & _ & _ & _ & _ & event & _ & ->).
    + by destruct Ho as (_ & _ & event & _ & ->).
  - intros [b H%revoke_inv]%forget_ok. apply Hsame.
    by destruct (revoke_family_ok _ _ _ _ _ _ _ _ _ _ (st_sessions _ Hwf) H) as [(_ & -> & _)|(_ & _ & event & _ & ->)].
  - intros [b H]%forget_ok. apply Hsame. pose proof (record_replay_run request now new_audit db) as Hr.
    rewrite H in Hr. destruct b; [by destruct Hr as (_ & _ & _ & ->)|by destruct Hr as (_ & _ & ->)].
Qed.

Lemma envelopes_kept db db' :
  rtc store_step db db' -> store_wf db ->
  exists l, totp_data_key_envelopes db' = totp_data_key_envelopes db ++ l.
Proof.
  induction 1 as [db|db db1 db2 [op db0 db0' r H] _ IH]; intros Hwf; [exists []; by rewrite app_nil_r|].
  destruct r as [[]|e]; [|apply exec_err in H as ->; auto].
  destruct (exec_envelopes _ _ _ Hwf H) as [l Hl]. apply exec_ok in H as [Hwf1 _]; [|done].
  destruct (IH Hwf1) as [l' Hl']. exists (l ++ l'). by rewrite Hl', Hl, app_assoc.
Qed.

(** Where the envelope of a reference is: the first row that carries it. *)
Definition placed (reference : TotpKeyReference) (r : TotpDataKeyEnvelopes.row) db : Prop :=
  exists l l', totp_data_key_envelopes db = l ++ r :: l' /\ Forall (fun r => ~ refers reference r) l /\
    refers reference r /\
    envelope_ok (TotpDataKeyEnvelopes.provider r) (TotpDataKeyEnvelopes.wrapping_key_reference r)
      (TotpDataKeyEnvelopes.encrypted_data_key r) = true.

Lemma placed_kept reference r db db' :
  rtc store_step db db' -> store_wf db -> placed reference r db -> placed reference r db'.
Proof.
  intros Hs Hwf (l & l' & He & Hp). destruct (envelopes_kept _ _ Hs Hwf) as [l2 Hl2].
  exists l, (l' ++ l2). split; [by rewrite Hl2, He, <- app_assoc|done].
Qed.

Lemma envelope_ok_provider provider id c : envelope_ok provider id c = true -> provider = PROVIDER.
Proof. unfold envelope_ok. case_bool_decide; [done|]. by rewrite orb_true_l. Qed.

(** Resolution asks the key management service for the key of that row. *)
Lemma resolve_run reference r db k :
  placed reference r db ->
  resolve reference (db, k) =
  let '(k', o) := kms_decrypt (TotpDataKeyEnvelopes.wrapping_key_reference r)
                    (TotpDataKeyEnvelopes.encrypted_data_key r) (encryption_context reference) k in
  ((db, k'), let? o := map_err (fun _ => Unavailable) o in
             let? p := ok_or o ProviderFailure in data_key_from_plaintext p).
Proof.
  intros (l & l' & He & Hl & Hr & Hok).
  assert (Hq : fetch_optional (filter (refers reference) (totp_data_key_envelopes db)) = Some r).
  { rewrite He, filter_app, filter_cons_True by done. replace (filter (refers reference) l) with (@nil TotpDataKeyEnvelopes.row); [done|].
    clear -Hl. induction Hl; [done|]. by rewrite filter_cons_False. }
  assert (Hs : totp_data_key_envelope reference db =
    (db, Ok (Some {| envelope_key_reference := reference; envelope_provider := TotpDataKeyEnvelopes.provider r;
       envelope_wrapping_key_reference := TotpDataKeyEnvelopes.wrapping_key_reference r;
       envelope_encrypted_data_key := TotpDataKeyEnvelopes.encrypted_data_key r |}))).
  { unfold totp_data_key_envelope, bind, get. unfold refers in Hq.
    replace (fetch_optional _) with (Some r). by rewrite Hok. }
  unfold resolve, resolve_envelope_key. unfold bind at 1, in_store. rewrite Hs. unfold bind at 1, lift. simpl.
  rewrite bool_decide_eq_true_2 by by eapply envelope_ok_provider. simpl.
  unfold bind, in_kms. destruct (kms_decrypt _ _ _ k) as [k' [[p|]|e]]; done.
Qed.

Lemma lift_inv {S E A} (r : result E A) (s s' : S) (x : result E A) : lift r s = (s', x) -> s' = s /\ r = x.
Proof. by intros [= <- <-]. Qed.

(** Provisioning: the ciphertext of a fresh key is stored, or nothing is. *)
Lemma provision_ok w now u db k db' k' reference :
  provision_data_key w now u (db, k) = ((db', k'), Ok reference) ->
  exists p c key r,
    generate_data_key w (encryption_context reference) k = (k', Ok (Some p, Some c)) /\
    data_key_from_plaintext p = Ok key /\ placed reference r db' /\
    db' = set_totp_data_key_envelopes (totp_data_key_envelopes db ++ [r]) db /\
    TotpDataKeyEnvelopes.wrapping_key_reference r = w /\ TotpDataKeyEnvelopes.encrypted_data_key r = c.
Proof.
  unfold provision_data_key. intros (s1 & [] & [-> _]%lift_inv & H)%bind_ok.
  apply bind_ok in H as (s1 & ref & [-> _]%lift_inv & H).
  apply bind_ok in H as ([db1 k1] & [p c] & Hg & H). unfold in_kms in Hg.
  destruct (generate_data_key w (encryption_context ref) k) as [k2 [o|e]] eqn:Hk; [|done]. injection Hg as <- <- ->.
  apply bind_ok in H as (s1 & p' & [-> Hp%ok_or_ok]%lift_inv & H). simpl in Hp. subst p.
  apply bind_ok in H as (s1 & key & [-> Hkey]%lift_inv & H).
  apply bind_ok in H as (s1 & c' & [-> Hc%ok_or_ok]%lift_inv & H). simpl in Hc. subst c.
  destruct (_ || _); [done|]. apply bind_ok in H as ([db2 k3] & [] & Hs & [= <- <- <-]).
  unfold in_store in Hs. destruct (create_totp_data_key_envelope _ db) as [db3 [[]|e]] eqn:Hc; [|done].
  injection Hs as <- <-. apply create_envelope_ok in Hc as (Hok & Hl & ->).
  eexists p', c', key, _. split; [done|]. split; [done|]. split; [|split; [reflexivity|done]].
  eexists _, []. split; [reflexivity|]. done.
Qed.

Lemma provision_failed w now u db k db' k' e :
  provision_data_key w now u (db, k) = ((db', k'), Err e) -> db' = db.
Proof.
  unfold provision_data_key. intros [[[= <- _] _]%lift_inv|(s1 & [] & [-> _]%lift_inv & H)]%bind_err; [done|].
  apply bind_err in H as [[[= <- _] _]%lift_inv|(s1 & ref & [-> _]%lift_inv & H)]; [done|].
  apply bind_err in H as [H|([db1 k1] & o & H1 & H)].
  { unfold in_kms in H. destruct (generate_data_key _ _ _). by injection H as <-. }
  unfold in_kms in H1. destruct (generate_data_key _ _ _). injection H1 as <- _ _.
  apply bind_err in H as [[[= <- _] _]%lift_inv|(s1 & p' & [-> _]%lift_inv & H)]; [done|].
  apply bind_err in H as [[[= <- _] _]%lift_inv|(s1 & key & [-> _]%lift_inv & H)]; [done|].
  apply bind_err in H as [[[= <- _] _]%lift_inv|(s1 & c' & [-> _]%lift_inv & H)]; [done|].
  destruct (_ || _); [by injection H as <-|]. apply bind_err in H as [H|(s1 & u' & _ & H)]; [|done].
  unfold in_store in H. destruct (create_totp_data_key_envelope _ db) as [db3 [[]|er]] eqn:Hc; [done|].
  injection H as <- _ _. by eapply envelope_err.
Qed.

Lemma provision_wf w now u db k db' k' reference :
  store_wf db -> provision_data_key w now u (db, k) = ((db', k'), Ok reference) -> store_wf db'.
Proof. intros Hwf (p & c & key & r & _ & _ & _ & -> & _)%provision_ok. by apply wf_with_envelope. Qed.

(** ** What the key management service adds *)
Context `{!KmsLaws K}.

(** The row that resolution reads for the reference holds the ciphertext. *)
Definition stored_under (reference : TotpKeyReference) (c : bytes) db : Prop :=
  exists r, placed reference r db /\ TotpDataKeyEnvelopes.encrypted_data_key r = c.

(** A provisioned key, over every later history of the store and of the service:
    resolution reads, and yields that key unless the service refuses the call. *)
Lemma provisioned_resolves w now u db k db1 k1 reference :
  store_wf db -> provision_data_key w now u (db, k) = ((db1, k1), Ok reference) ->
  exists key p c, generate_data_key w (encryption_context reference) k = (k1, Ok (Some p, Some c)) /\
    forall db2 k2, rtc store_step db1 db2 -> rtc kms_step k1 k2 ->
    stored_under reference c db2 /\ exists k3, kms_step k2 k3 /\
      (resolve reference (db2, k2) = ((db2, k3), Ok key) \/
       resolve reference (db2, k2) = ((db2, k3), Err Unavailable) /\
       kms_decrypt w c (encryption_context reference) k2 = (k3, Err tt)).
Proof.
  intros Hwf Hp. pose proof (provision_wf _ _ _ _ _ _ _ _ Hwf Hp) as Hwf1.
  apply provision_ok in Hp as (p & c & key & r & Hg & Hkey & Hr & _ & Hw & Hc).
  exists key, p, c. split; [done|]. intros db2 k2 Hs Hk.
  assert (Hr2 : placed reference r db2) by by eapply placed_kept.
  split; [by exists r|]. rewrite (resolve_run reference r), Hw, Hc by done.
  destruct (kms_decrypt w c (encryption_context reference) k2) as [k3 o] eqn:Hd.
  exists k3. split; [by eapply kms_decrypts|]. destruct o as [o|[]]; [left|by right].
  rewrite (kms_opens _ _ _ _ _ _ _ _ _ Hg Hk Hd). cbn [map_err res_bind ok_or]. by rewrite Hkey.
Qed.

Lemma encryption_context_inj r r' : encryption_context r' = encryption_context r -> r' = r.
Proof.
  intros E. assert (Hl : forall x, encryption_context x !! CONTEXT_REFERENCE_KEY = Some (key_reference_as_str x))
    by (intros x; apply lookup_insert_eq).
  pose proof (Hl r') as H. rewrite E, Hl in H. destruct r, r'. simpl in H. by simplify_eq.
Qed.

(** C30: a data key is bound to its reference.  The ciphertext the key management
    service returned for one reference, stored in the row of another one, does not
    resolve there: whatever the service was asked in between, resolving that
    reference finds no key, and changes nothing in the store. *)
Theorem kms_reference_bound w reference k k1 p c k2 moved r db :
  generate_data_key w (encryption_context reference) k = (k1, Ok (Some p, Some c)) ->
  rtc kms_step k1 k2 -> moved <> reference ->
  placed moved r db -> TotpDataKeyEnvelopes.encrypted_data_key r = c ->
  exists k3, resolve moved (db, k2) = ((db, k3), Err Unavailable).
Proof.
  intros Hg Hk Hne Hr Hc. rewrite (resolve_run moved r), Hc by done.
  destruct (kms_decrypt _ c (encryption_context moved) k2) as [k3 [o|[]]] eqn:Hd; [|by eexists].
  by apply (kms_binds _ _ _ _ _ _ _ _ _ _ _ Hg Hk), encryption_context_inj in Hd.
Qed.

Context `{C : TotpCrypto} `{!TotpCryptoLaws C}.

(** C29: a factor enrolled under a provisioned data key opens for good.  Once a key
    is provisioned and configured as the active one, a seed sealed with it can be
    opened after any further operations on the store and calls to the key
    management service: resolving the reference stored with the seed gives a key
    that decrypts it to the enrolled seed, and is reported as unavailable only if
    the service refuses to decrypt the ciphertext it returned when the key was
    provisioned, which is the one still stored under the reference. *)
Theorem kms_factor_opens w now u db0 k0 db1 k1 reference db2 k2 s active factor address issuer seed nonce e db3 k3 :
  store_wf db0 -> provision_data_key w now u (db0, k0) = ((db1, k1), Ok reference) ->
  rtc store_step db1 db2 -> rtc kms_step k1 k2 ->
  active_key {| active_reference := reference |} (db2, k2) = (s, Ok active) ->
  begin_totp_enrollment (active_data_key active) (LoginService.active_reference active) factor address issuer
    seed nonce = Ok e ->
  rtc store_step db2 db3 -> rtc kms_step (snd s) k3 ->
  match eval (resolve (key_reference (encrypted_seed e))) (db3, k3) with
  | Ok key => decrypt_seed key (encrypted_seed e) factor = Ok seed
  | Err err => err = Unavailable /\ exists p c k4,
      generate_data_key w (encryption_context reference) k0 = (k1, Ok (Some p, Some c)) /\
      stored_under reference c db3 /\ kms_decrypt w c (encryption_context reference) k3 = (k4, Err tt)
  end.
Proof.
  intros Hwf Hp Hs2 Hk2 Ha He Hs3 Hk3.
  destruct (provisioned_resolves _ _ _ _ _ _ _ _ Hwf Hp) as (key & p & c & Hg & Hkey).
  unfold active_key in Ha. apply bind_ok in Ha as (s1 & x & Hx & [= -> <-]). cbn [active_reference] in Hx.
  destruct (Hkey _ _ Hs2 Hk2) as (_ & k4 & Hk4 & [Hr|[Hr _]]); unfold resolve in Hr; rewrite Hr in Hx; [|done].
  injection Hx as <- <-. unfold begin_totp_enrollment in He. destruct (_ || _ || _); [done|].
  apply res_bind_ok in He as (sealed & Hsealed & [= <-]). cbn [encrypted_seed active_data_key LoginService.active_reference] in *.
  assert (Href : key_reference sealed = reference).
  { unfold encrypt_seed in Hsealed. by apply res_bind_ok in Hsealed as (sealing & _ & [= <-]). }
  rewrite Href. unfold eval.
  destruct (Hkey db3 k3) as (Hst & k5 & _ & [->|[-> Hd]]); simpl; [by etrans| |  |by eauto 10].
  { etrans; [exact Hk2|]. eapply rtc_l; [exact Hk4|exact Hk3]. }
  by apply encrypt_decrypt in Hsealed as (_ & _ & Hd & _).
Qed.

End resolution.
End KeyResolution.

(** ** A service that keeps the keys it made *)
Module KmsExamples.
Import AwsKmsTotpKeyProvider KeyResolution.
#[local] Existing Instance SampleClock.clock.
#[local] Existing Instance Dialects.lenient.
#[local] Existing Instance IngressExamples.library.
#[local] Existing Instance TotpExamples.sample.
#[local] Existing Instance TotpExamples.sample_laws.

(** The ciphertext of the n-th key is n bytes long; keys differ in their first byte. *)
Definition data_key (n : nat) : bytes := byte_of_Z (Z.of_nat n) :: replicate 31 x2a.

#[local] Instance keeping : Kms := {|
  KmsState := list (EncryptionContext * bytes);
  generate_data_key _ context k :=
    (k ++ [(context, data_key (length k))], Ok (Some (data_key (length k)), Some (replicate (S (length k)) x01)));
  kms_decrypt _ c context k :=
    (k, match k !! pred (length c) with
        | Some (context', p) => if decide (context' = context) then Ok (Some p) else Err tt
        | None => Err tt
        end);
|}.

Lemma keeping_prefix (k k' : KmsState) : rtc kms_step k k' -> exists l, k' = k ++ l.
Proof.
  induction 1 as [k|k k1 k2 [id context k0 k0' r H|id c context k0 k0' r H] _ [l ->]]; simpl in *.
  - exists []. by rewrite app_nil_r.
  - injection H as <- _. rewrite <- app_assoc. by eexists.
  - injection H as <- _. by eexists.
Qed.

Lemma keeping_finds context (k : KmsState) k1 p c k2 :
  generate_data_key (lit "id") context k = (k1, Ok (Some p, Some c)) -> rtc kms_step k1 k2 ->
  (k2 : list (EncryptionContext * bytes)) !! pred (length c) = Some (context, p).
Proof.
  simpl. intros [= <- <- <-] [l ->]%keeping_prefix. cbn [length pred]. rewrite length_replicate.
  rewrite <- app_assoc. simpl. by rewrite list_lookup_middle.
Qed.

#[local] Instance keeping_laws : KmsLaws keeping.
Proof.
  split.
  - intros id context k k1 p c k2 k3 o Hg Hk Hd.
    pose proof (keeping_finds context k k1 p c k2 Hg Hk) as Hf. unfold kms_decrypt, keeping in Hd. unfold KmsState in *. setoid_rewrite Hf in Hd.
    rewrite decide_True in Hd by done. by simplify_eq.
  - intros id id' context context' k k1 p c k2 k3 o Hg Hk Hd.
    pose proof (keeping_finds context k k1 p c k2 Hg Hk) as Hf. unfold kms_decrypt, keeping in Hd. unfold KmsState in *. setoid_rewrite Hf in Hd.
    by case_decide; simplify_eq.
Qed.

Definition uuid (z : Z) : Uuid := array_fill 16 (byte_of_Z z).
Definition wrapping : str := lit "alias/fabric".
Definition start : Db Document * KmsState := (empty_db, []).
Definition first_reference : TotpKeyReference :=
  TotpKeyReference_of (lit "aws-kms:totp-dek:" ++ uuid_text (uuid 1)).
Definition self : t := {| active_reference := first_reference |}.

(** A key is provisioned; a second one follows, and a factor is enrolled. *)
Definition provisioned := fst (provision_data_key wrapping (SampleClock.second 10) (uuid 1) start).
Definition again := fst (provision_data_key wrapping (SampleClock.second 20) (uuid 2) provisioned).
Definition used : ActiveTotpEncryptionKey :=
  {| LoginService.active_reference := first_reference;
     active_data_key := default (array_fill 32 x00) (array_try 32 (data_key 0)) |}.
Definition enrolled : TotpEnrollment :=
  match begin_totp_enrollment (active_data_key used) first_reference TotpExamples.factor TotpExamples.benjamin
          (lit "Parley") (array_fill 32 x05) (array_fill 12 x06) with
  | Ok e => e
  | Err _ => {| encrypted_seed := TotpExamples.sealed; provisioning := {| secret_base32 := []; uri := [] |} |}
  end.

Lemma again_steps : rtc store_step (fst provisioned) (fst again) /\ rtc kms_step (snd provisioned) (snd again).
Proof.
  split.
  - apply rtc_once, (store_step_exec (OpCreateEnvelope
      {| create_key_reference := TotpKeyReference_of (lit "aws-kms:totp-dek:" ++ uuid_text (uuid 2));
         create_provider := PROVIDER; create_wrapping_key_reference := wrapping;
         create_encrypted_data_key := replicate 2 x01; create_created_at := SampleClock.second 20 |}) _ _ (Ok tt)).
    vm_compute. reflexivity.
  - apply rtc_once. eapply (kms_generates wrapping
      (encryption_context (TotpKeyReference_of (lit "aws-kms:totp-dek:" ++ uuid_text (uuid 2))))).
    vm_compute. reflexivity.
Qed.

Lemma kms_factor_opens_witness :
  match eval (resolve (key_reference (encrypted_seed enrolled))) again with
  | Ok key => decrypt_seed key (encrypted_seed enrolled) TotpExamples.factor = Ok (array_fill 32 x05)
  | Err err => err = Unavailable /\
      exists p c k4,
        generate_data_key wrapping (encryption_context first_reference) (snd start) = (snd provisioned, Ok (Some p, Some c)) /\
        stored_under first_reference c (fst again) /\
        kms_decrypt wrapping c (encryption_context first_reference) (snd again) = (k4, Err tt)
  end /\
  is_ok (eval (resolve (key_reference (encrypted_seed enrolled))) again) = true.
Proof.
  split; [|vm_compute; reflexivity].
  apply (kms_factor_opens wrapping (SampleClock.second 10) (uuid 1) empty_db (snd start) (fst provisioned) (snd provisioned)
           first_reference (fst provisioned) (snd provisioned) provisioned used TotpExamples.factor
           TotpExamples.benjamin (lit "Parley") (array_fill 32 x05) (array_fill 12 x06) enrolled (fst again) (snd again)).
  - apply empty_wf.
  - vm_compute. reflexivity.
  - apply rtc_refl.
  - apply rtc_refl.
  - vm_compute. reflexivity.
  - vm_compute. reflexivity.
  - apply again_steps.
  - apply again_steps.
Defined.

(** The ciphertext of the first key, moved to another reference. *)
Definition moved : TotpKeyReference := TotpKeyReference_of (lit "moved").
Definition moved_row : TotpDataKeyEnvelopes.row :=
  {| TotpDataKeyEnvelopes.key_reference := lit "moved"; TotpDataKeyEnvelopes.provider := PROVIDER;
     TotpDataKeyEnvelopes.wrapping_key_reference := wrapping;
     TotpDataKeyEnvelopes.encrypted_data_key := [x01]; TotpDataKeyEnvelopes.created_at := 0 |}.
Definition tampered : Db Document := set_totp_data_key_envelopes [moved_row] empty_db.

Lemma kms_reference_bound_witness :
  exists k3, resolve moved (tampered, snd provisioned) = ((tampered, k3), Err Unavailable).
Proof.
  apply (kms_reference_bound wrapping first_reference (snd start) (snd provisioned) (data_key 0) [x01] (snd provisioned)
           moved moved_row tampered).
  - vm_compute. reflexivity.
  - apply rtc_refl.
  - intros E. apply (f_equal (fun r => length (key_reference_as_str r))) in E. vm_compute in E. discriminate E.
  - exists [], []. split; [reflexivity|]. split; [constructor|]. split; [reflexivity|]. vm_compute. reflexivity.
  - reflexivity.
Defined.

End KmsExamples.
