(* ===== verification/Routes.v ===== *)
(** * What accounts for what a request adds

    Over every request the router serves: the request is a history of store
    operations, and each login transaction, session family, WebAuthn ceremony,
    passkey, step-up grant and role it leaves behind was there before or is
    accounted for by what the request presented, as is each role it takes away. *)

From Stdlib Require Import ZArith Lia String.
From stdpp Require Import base list option numbers decidable sorting relations.
From S2P Require Import Prelude Bytes Types Str Domain Totp Clock Auth Db Ingress StoreAccounts StoreSessions.
From S2P Require Import Sessions StoreLogin StorePasskeys StoreStepUp LoginService Passkeys StepUp Browser Http StoreEffects Store Growth.

(** ** What a request presents *)
Section routes.
Context `{F : FabricLib} `{W : !WebauthnLib} `{V : UrlLib} `{T : TimeLib} `{K : Crypto} `{C : TotpCrypto} `{A : Argon2} `{U : Unicode} `{H : HttpLib} `{D : SqlDialect}.
Abbreviation Db := (Db Document).
Implicit Types db : Db.

(** The request's cookies and its proof against forgery name an unconsumed,
    unexpired transaction at the stage. *)
Definition presented (flow : FabricLoginFlow) (headers : HeaderMap) (stage : LoginTransactionStage)
    (now : OffsetDateTime) (tx : LoginTransactions.row) : Prop :=
  exists token binding,
    browser_cookie headers LOGIN_TRANSACTION_COOKIE = Some token /\
    browser_cookie headers LOGIN_BINDING_COOKIE = Some binding /\
    csrf_proof_is_valid headers LOGIN_CSRF_COOKIE = true /\
    consumable (derive_opaque_token_digest (login_digest_key (transaction_service flow)) token)
      (digest_as_bytes (derive_opaque_token_digest (binding_digest_key flow) binding)) stage (timestamptz now) tx.

(** The code is right for a stored factor of the account, at a step the factor
    did not accept last. *)
Definition code_verified (keys : TotpKeyProvider) (row : TotpFactors.row) (t a : Uuid) (code : str)
    (now : OffsetDateTime) : Prop :=
  exists factor key accepted, try_from_row row = Ok factor /\
    resolve_key keys (key_reference (persisted_seed factor)) = Ok key /\
    verify_totp key (persisted_seed factor)
      {| binding_tenant_id := TenantId_from_uuid t; binding_account_id := AccountId_from_uuid a;
         factor_id := TotpFactors.id row |} code (unix_timestamp now) (TotpFactors.last_accepted_time_step row) =
      Ok accepted.

(** The password is right for the verifier stored for the account. *)
Definition stored_password (flow : FabricLoginFlow) (a : Uuid) (password : str) db : Prop :=
  exists p verifier, p ∈ password_credentials db /\ PasswordCredentials.account_id p = a /\
    from_persisted (PasswordCredentials.phc_verifier p) = Ok verifier /\
    verify_password password verifier (maximum_password_bytes (password_service flow)) = Ok tt.

(** No verifier is stored for the account, and the password is right for the
    dummy verifier of the deployment, which then takes its place. *)
Definition dummy_password (flow : FabricLoginFlow) (a : Uuid) (password : str) db : Prop :=
  (a ∉ PasswordCredentials.account_id <$> password_credentials db) /\
  verify_password password (dummy_verifier (password_service flow))
    (maximum_password_bytes (password_service flow)) = Ok tt.

(** The password was taken for the account that the address names, and the
    transaction's stage is the one its state, roles and factors call for. *)
Definition password_verified (flow : FabricLoginFlow) (address password : str) db (tx : LoginTransactions.row) : Prop :=
  exists addr account, UserAddress.parse address = Ok addr /\ login_account addr db = (db, Ok (Some account)) /\
    (stored_password flow (account_as_uuid (login_account_id account)) password db \/
     dummy_password flow (account_as_uuid (login_account_id account)) password db) /\
    LoginTransactions.tenant_id tx = tenant_as_uuid (login_tenant_id account) /\
    LoginTransactions.account_id tx = account_as_uuid (login_account_id account) /\
    (LoginTransactions.stage tx = database_value MfaEnrollment /\ login_state account = MfaEnrollmentRequired \/
     LoginTransactions.stage tx = database_value MfaChallenge /\ login_state account = Active /\
       has_active_totp_factor (login_tenant_id account) (login_account_id account) db = (db, Ok true) \/
     LoginTransactions.stage tx = database_value SessionIssuance /\ login_state account = Active /\
       has_active_totp_factor (login_tenant_id account) (login_account_id account) db = (db, Ok false) /\
       exists roles, roles_for_account (login_tenant_id account) (login_account_id account) db = (db, Ok roles) /\
         (Owner ∉ roles) /\ (Admin ∉ roles)).

(** What accounts for a new login transaction. *)
Definition login_grant (state : FabricHttpState) (headers : HeaderMap) (r : Route) db (tx : LoginTransactions.row) : Prop :=
  exists flow, login_flow state = Some flow /\
  match r with
  | StartPasswordLogin address password _ => password_verified flow address password db tx
  | BeginTotpEnrollment draw => exists old, old ∈ login_transactions db /\
      presented flow headers MfaEnrollment (consume_now (enroll_consume draw)) old /\
      LoginTransactions.tenant_id tx = LoginTransactions.tenant_id old /\
      LoginTransactions.account_id tx = LoginTransactions.account_id old /\
      LoginTransactions.stage tx = database_value MfaEnrollment
  | _ => False
  end.

(** A transaction the request consumes at the stage accounts for the session. *)
Definition transaction_grant (state : FabricHttpState) (headers : HeaderMap) (stage : LoginTransactionStage)
    (now : OffsetDateTime) db (f : SessionFamilies.row) (P : LoginTransactions.row -> Prop) : Prop :=
  exists flow tx, login_flow state = Some flow /\ tx ∈ login_transactions db /\ presented flow headers stage now tx /\
    SessionFamilies.tenant_id f = LoginTransactions.tenant_id tx /\
    SessionFamilies.account_id f = LoginTransactions.account_id tx /\ P tx.

(** The request's cookies and its proof against forgery name an unconsumed,
    unexpired ceremony of the kind. *)
Definition ceremony_presented (self : WebauthnService) (headers : HeaderMap) (kind : WebauthnCeremonyKind)
    (now : OffsetDateTime) (c : WebauthnCeremonies.row Document) : Prop :=
  exists token binding,
    browser_cookie headers WEBAUTHN_CEREMONY_COOKIE = Some token /\
    browser_cookie headers WEBAUTHN_BINDING_COOKIE = Some binding /\
    csrf_proof_is_valid headers WEBAUTHN_CSRF_COOKIE = true /\
    ceremony_consumable (derive_opaque_token_digest (ceremony_digest_key self) token)
      (derive_opaque_token_digest (ceremony_binding_key self) binding) (timestamptz now) c /\
    parse_webauthn_ceremony_kind (WebauthnCeremonies.kind c) = Ok kind.

(** The assertion was verified against the ceremony's state, and names an active
    passkey of the ceremony's account. *)
Definition assertion_verified (self : WebauthnService) (response : PublicKeyCredential)
    (c : WebauthnCeremonies.row Document) (p : WebauthnCredentials.row Document) : Prop :=
  exists state verification, authentication_from_value (WebauthnCeremonies.state c) = Some state /\
    finish_passkey_authentication (webauthn self) response state = Ok verification /\
    credential_text (result_cred_id verification) = Ok (WebauthnCredentials.credential_id p) /\
    active_credential (WebauthnCeremonies.tenant_id c) (WebauthnCeremonies.account_id c) p.

(** The request carries the access token of the unrevoked session family. *)
Definition session_of (services : FabricMfaSessionServices) (headers : HeaderMap) (now : OffsetDateTime) db
    (f : SessionFamilies.row) : Prop :=
  exists token access,
    csrf_proof_is_valid headers SESSION_CSRF_COOKIE = true /\ browser_cookie headers ACCESS_COOKIE = Some token /\
    access ∈ access_sessions db /\
    AccessSessions.token_digest access =
      digest_as_bytes (derive_opaque_token_digest (access_digest_key (access_authenticator services)) token) /\
    AccessSessions.revoked_at access = None /\ timestamptz now < AccessSessions.expires_at access /\
    f ∈ session_families db /\ SessionFamilies.id f = AccessSessions.family_id access /\
    SessionFamilies.revoked_at f = None.

(** It is one of the account. *)
Definition signed_in (services : FabricMfaSessionServices) (headers : HeaderMap) (now : OffsetDateTime) db (t a : Uuid) : Prop :=
  exists f, session_of services headers now db f /\ SessionFamilies.tenant_id f = t /\ SessionFamilies.account_id f = a.

(** It is one of an account whose roles carry the permission. *)
Definition permitted (permission : Permission) db (f : SessionFamilies.row) : Prop :=
  exists roles, roles_for_account (TenantId_from_uuid (SessionFamilies.tenant_id f))
      (AccountId_from_uuid (SessionFamilies.account_id f)) db = (db, Ok roles) /\
    existsb (fun role => grants role permission) roles = true.

(** What accounts for a new session family. *)
Definition session_grant (state : FabricHttpState) (headers : HeaderMap) (r : Route) db (f : SessionFamilies.row) : Prop :=
  exists services, mfa_session state = Some services /\
  match r with
  | CompleteTotpLogin code draw =>
      transaction_grant state headers MfaChallenge (consume_now (finish_consume draw)) db f (fun tx =>
        exists row, row ∈ mfa_totp_factors db /\
          active_factor (LoginTransactions.tenant_id tx) (LoginTransactions.account_id tx) row /\
          code_verified (totp_login_keys services) row (LoginTransactions.tenant_id tx) (LoginTransactions.account_id tx)
            code (finish_now draw))
  | ConfirmTotpEnrollment code draw =>
      transaction_grant state headers MfaEnrollment (consume_now (finish_consume draw)) db f (fun tx =>
        exists id row, LoginTransactions.factor_id tx = Some id /\ row ∈ mfa_totp_factors db /\
          pending_factor id (LoginTransactions.tenant_id tx) (LoginTransactions.account_id tx) row /\
          Forall (fun r => ~ active_factor (LoginTransactions.tenant_id tx) (LoginTransactions.account_id tx) r)
            (mfa_totp_factors db) /\
          code_verified (key_provider (totp_enrollment services)) row (LoginTransactions.tenant_id tx)
            (LoginTransactions.account_id tx) code (finish_now draw))
  | CompletePasswordOnlyLogin draw =>
      transaction_grant state headers SessionIssuance (consume_now (finish_consume draw)) db f (fun _ => True)
  | FinishPasskeyLogin credential _ consume _ _ =>
      exists c p, c ∈ webauthn_ceremonies db /\ p ∈ webauthn_credentials db /\
        ceremony_presented (webauthn_service services) headers Authentication (consume_now consume) c /\
        assertion_verified (webauthn_service services) credential c p /\
        SessionFamilies.tenant_id f = WebauthnCeremonies.tenant_id c /\
        SessionFamilies.account_id f = WebauthnCeremonies.account_id c
  | _ => False
  end.

(** The state of a ceremony is that of a challenge to the passkeys. *)
Definition challenges (self : WebauthnService) (passkeys : list Passkey) (entropy : Entropy)
    (c : WebauthnCeremonies.row Document) : Prop :=
  exists challenge st, passkeys <> [] /\
    start_passkey_authentication (webauthn self) passkeys entropy = Ok (challenge, st) /\
    authentication_to_value st = Some (WebauthnCeremonies.state c).

(** What accounts for a new ceremony. *)
Definition ceremony_grant (state : FabricHttpState) (headers : HeaderMap) (r : Route) db
    (c : WebauthnCeremonies.row Document) : Prop :=
  exists services, mfa_session state = Some services /\
  match r with
  | BeginPasskeyLogin address draw => exists addr account passkeys,
      UserAddress.parse address = Ok addr /\ login_account addr db = (db, Ok (Some account)) /\
      login_state account = Active /\
      deserialize_active_passkeys (login_tenant_id account) (login_account_id account) db = (db, Ok passkeys) /\
      challenges (webauthn_service services) passkeys (ceremony_entropy (passkey_ceremony draw)) c /\
      WebauthnCeremonies.tenant_id c = tenant_as_uuid (login_tenant_id account) /\
      WebauthnCeremonies.account_id c = account_as_uuid (login_account_id account) /\
      WebauthnCeremonies.kind c = kind_value Authentication
  | BeginPasskeyRegistration label access_now draw =>
      signed_in services headers access_now db (WebauthnCeremonies.tenant_id c) (WebauthnCeremonies.account_id c) /\
      WebauthnCeremonies.kind c = kind_value Registration
  | _ => False
  end.

(** What accounts for a new passkey. *)
Definition credential_grant (state : FabricHttpState) (headers : HeaderMap) (r : Route) db
    (p : WebauthnCredentials.row Document) : Prop :=
  exists services, mfa_session state = Some services /\
  match r with
  | FinishPasskeyRegistration credential access_now _ consume _ _ _ =>
      signed_in services headers access_now db (WebauthnCredentials.tenant_id p) (WebauthnCredentials.account_id p) /\
      exists c st label passkey, c ∈ webauthn_ceremonies db /\
        ceremony_presented (webauthn_service services) headers Registration (consume_now consume) c /\
        WebauthnCeremonies.tenant_id c = WebauthnCredentials.tenant_id p /\
        WebauthnCeremonies.account_id c = WebauthnCredentials.account_id p /\
        registration_from_value (WebauthnCeremonies.state c) = Some (st, label) /\
        finish_passkey_registration (webauthn (webauthn_service services)) credential st = Ok passkey /\
        canonical_credential_id passkey = Ok (WebauthnCredentials.credential_id p) /\
        passkey_to_value passkey = Some (WebauthnCredentials.passkey p)
  | _ => False
  end.

(** The change of the target is covered by an unconsumed, unexpired grant of the
    request's session. *)
Definition stepped_up (services : FabricMfaSessionServices) (headers : HeaderMap) (now : OffsetDateTime) db
    (f : SessionFamilies.row) (target : RoleChangeTarget) (g : StepUpGrants.row) : Prop :=
  g ∈ step_up_grants db /\ StepUpGrants.consumed_at g = None /\ timestamptz now < StepUpGrants.expires_at g /\
  StepUpGrants.tenant_id g = SessionFamilies.tenant_id f /\ StepUpGrants.account_id g = SessionFamilies.account_id f /\
  StepUpGrants.family_id g = SessionFamilies.id f /\
  StepUpGrants.target_digest g = role_change_target_digest target /\
  exists token, browser_cookie headers STEP_UP_COOKIE = Some token /\
    StepUpGrants.token_digest g = digest_as_bytes (derive_opaque_token_digest (step_up_digest_key (step_up services)) token).

(** The role of the account is changed by a session that may, with a grant for it. *)
Definition role_change (state : FabricHttpState) (headers : HeaderMap) (r : Route) db (granted : bool)
    (row : AccountRoles.row) : Prop :=
  exists services, mfa_session state = Some services /\
  match r with
  | ChangeAccountRoleRoute account_id role grant access_now _ consume _ _ =>
      grant = granted /\ uuid_parse account_id = Some (AccountRoles.account_id row) /\
      AccountRoles.role row = role_text role /\ role <> Owner /\
      exists f g, session_of services headers access_now db f /\ permitted ManageRoles db f /\
        AccountRoles.tenant_id row = SessionFamilies.tenant_id f /\
        stepped_up services headers (consume_now consume) db f
          {| target_account := AccountId_from_uuid (AccountRoles.account_id row); target_role := role;
             target_grant := granted |} g
  | _ => False
  end.

(** What accounts for a new role: such a change, or the invitation of a new account. *)
Definition role_grant (state : FabricHttpState) (headers : HeaderMap) (r : Route) db (row : AccountRoles.row) : Prop :=
  role_change state headers r db true row \/
  exists services, mfa_session state = Some services /\
  match r with
  | InviteAccountRoute localpart initial_role _ new_account _ access_now _ =>
      AccountRoles.account_id row = new_account /\ (new_account ∉ Accounts.id <$> accounts db) /\
      AccountRoles.role row = role_text initial_role /\ initial_role <> Owner /\
      exists f, session_of services headers access_now db f /\ permitted ManageAccounts db f /\
        AccountRoles.tenant_id row = SessionFamilies.tenant_id f
  | _ => False
  end.

(** What accounts for a new step-up grant: a right code of the session's account. *)
Definition grant_grant (state : FabricHttpState) (headers : HeaderMap) (r : Route) db (g : StepUpGrants.row) : Prop :=
  exists services, mfa_session state = Some services /\
  match r with
  | BeginRoleChangeStepUp account_id code role grant access_now _ now _ =>
      exists f target row, session_of services headers access_now db f /\ permitted ManageRoles db f /\
        uuid_parse account_id = Some target /\
        StepUpGrants.tenant_id g = SessionFamilies.tenant_id f /\ StepUpGrants.account_id g = SessionFamilies.account_id f /\
        StepUpGrants.family_id g = SessionFamilies.id f /\
        StepUpGrants.target_digest g = role_change_target_digest
          {| target_account := AccountId_from_uuid target; target_role := role; target_grant := grant |} /\
        row ∈ mfa_totp_factors db /\
        active_factor (SessionFamilies.tenant_id f) (SessionFamilies.account_id f) row /\
        code_verified (step_up_totp_keys (step_up services)) row (SessionFamilies.tenant_id f)
          (SessionFamilies.account_id f) code now
  | _ => False
  end.

Definition request_grants (state : FabricHttpState) (headers : HeaderMap) (r : Route) db : Grants :=
  {| may_login := login_grant state headers r db; may_session := session_grant state headers r db;
     may_ceremony := ceremony_grant state headers r db; may_credential := credential_grant state headers r db;
     may_grant := grant_grant state headers r db; may_role := role_grant state headers r db;
     may_drop := role_change state headers r db false |}.

(** ** The queries *)
Lemma login_account_reads address : reads (login_account (Document := Document) address).
Proof. unfold login_account. solve_reads. Qed.
Lemma roles_reads t a : reads (roles_for_account (Document := Document) t a).
Proof. unfold roles_for_account. solve_reads. Qed.
Lemma address_reads t a : reads (user_address_for_account (Document := Document) t a).
Proof. unfold user_address_for_account. solve_reads. Qed.
Lemma context_reads t a : reads (session_authorization_context (Document := Document) t a).
Proof. unfold session_authorization_context. solve_reads. Qed.
Lemma access_reads d now : reads (access_session_authorization_context (Document := Document) d now).
Proof. unfold access_session_authorization_context. solve_reads. Qed.
Lemma has_active_reads t a : reads (has_active_totp_factor (Document := Document) t a).
Proof. unfold has_active_totp_factor. solve_reads. Qed.
Lemma active_reads t a : reads (active_totp_factor (Document := Document) t a).
Proof. unfold active_totp_factor. solve_reads. Qed.
Lemma pending_reads t a f : reads (pending_totp_factor (Document := Document) t a f).
Proof. unfold pending_totp_factor. solve_reads. Qed.
#[local] Hint Resolve login_account_reads roles_reads address_reads context_reads access_reads has_active_reads
  active_reads pending_reads : reads.

Lemma authenticate_reads self address password : reads (authenticate self address password).
Proof. unfold authenticate. solve_reads. Qed.
Lemma authenticate_session_reads self token now : reads (authenticate_session self token now).
Proof. unfold authenticate_session. solve_reads. Qed.

Lemma or_respond_reads {B} (o : option B) r : reads (or_respond o r).
Proof. destruct o; unfold or_respond, respond; eauto with reads. Qed.
Lemma respond_reads {B} r : reads (respond (B := B) r).
Proof. unfold respond. eauto with reads. Qed.
Lemma three_cookies_reads a b c : reads (three_cookies a b c).
Proof. unfold three_cookies, respond. solve_reads. Qed.
#[local] Hint Resolve or_respond_reads respond_reads three_cookies_reads authenticate_reads
  authenticate_session_reads : reads.
Lemma session_response_reads session csrf : reads (browser_session_response session csrf).
Proof. unfold browser_session_response. solve_reads. Qed.
#[local] Hint Resolve session_response_reads : reads.

Lemma or_respond_ok {B} (o : option B) r db db' b : or_respond o r db = (db', Ok b) -> o = Some b /\ db' = db.
Proof. destruct o; [by intros [= <- <-]|done]. Qed.

Lemma answering_ok {E B} (f : E -> Response) (m : M Db (Fault E) B) db db' b :
  answering f m db = (db', Ok b) <-> m db = (db', Ok b).
Proof. unfold answering. destruct (m db) as [db1 [b1|e]]; simpl; split; congruence. Qed.

Lemma within_ok {E G B} (f : E -> G) (m : M Db (Fault E) B) db db' b :
  within f m db = (db', Ok b) <-> m db = (db', Ok b).
Proof. unfold within. destruct (m db) as [db1 [b1|e]]; simpl; split; congruence. Qed.

Section moving.
Context (R : Db -> Db -> Prop) `{!PreOrder R}.

Lemma moves_answering {E B} (f : E -> Response) (m : M Db (Fault E) B) db : moves R m db -> moves R (answering f m) db.
Proof. intros Hm s' r. unfold answering. destruct (m db) as [s1 v] eqn:E1. intros [= <- _]. by eapply Hm. Qed.

Lemma moves_within {E G B} (f : E -> G) (m : M Db (Fault E) B) db : moves R m db -> moves R (within f m) db.
Proof. intros Hm s' r. unfold within. destruct (m db) as [s1 v] eqn:E1. intros [= <- _]. by eapply Hm. Qed.

Lemma moves_run h db db' r : moves R h db -> run h db = (db', r) -> R db db'.
Proof.
  intros Hm. unfold run. destruct (h db) as [s1 v] eqn:E1. apply Hm in E1. by destruct v as [|[]]; intros [= <- _].
Qed.
End moving.

(** ** The services *)

(** The verifier of a login account is the stored one, if there is one. *)
Lemma login_account_verifier addr account db db' :
  login_account addr db = (db', Ok (Some account)) ->
  match login_verifier account with
  | Some v => exists p, p ∈ password_credentials db /\
      PasswordCredentials.account_id p = account_as_uuid (login_account_id account) /\
      from_persisted (PasswordCredentials.phc_verifier p) = Ok v
  | None => account_as_uuid (login_account_id account) ∉ PasswordCredentials.account_id <$> password_credentials db
  end.
Proof.
  unfold login_account. intros (db1 & db2 & [= <- <-] & H0)%bind_ok.
  destruct (fetch_optional _) as [[[acc ten] pass]|] eqn:Hq; [|done]. apply head_Some_elem_of in Hq.
  apply bind_ok in H0 as (db1 & st & [= <- _] & H0). apply bind_ok in H0 as (db1 & v & [= <- Hv] & [= <- <-]).
  cbn [login_verifier login_account_id account_as_uuid].
  unfold login_rows in Hq. apply list_elem_of_bind in Hq as (t & Hq & _).
  apply list_elem_of_bind in Hq as (a & Hq & _).
  destruct (filter _ (password_credentials db)) as [|p l] eqn:Hp.
  - apply list_elem_of_singleton in Hq. injection Hq as -> -> ->. injection Hv as <-.
    intros (p & Ha & Hin)%list_elem_of_fmap. assert (Hx : p ∈ @nil PasswordCredentials.row); [|by apply elem_of_nil in Hx].
    rewrite <- Hp. by apply list_elem_of_filter.
  - apply list_elem_of_fmap in Hq as (q & [= -> -> ->] & Hq). rewrite <- Hp in Hq.
    apply list_elem_of_filter in Hq as [Ha Hin].
    apply res_bind_ok in Hv as (w & Hw%map_err_ok & [= <-]). by exists q.
Qed.

Lemma login_password flow addr account password db db' :
  login_account addr db = (db', Ok (Some account)) ->
  verify_password password (default (dummy_verifier (password_service flow)) (login_verifier account))
    (maximum_password_bytes (password_service flow)) = Ok tt ->
  stored_password flow (account_as_uuid (login_account_id account)) password db \/
  dummy_password flow (account_as_uuid (login_account_id account)) password db.
Proof.
  intros Hl%login_account_verifier Hv. destruct (login_verifier account) as [v|]; [|by right].
  left. destruct Hl as (p & ? & ? & ?). by exists p, v.
Qed.

(** The dummy verifier is more than work for the clock: an account that still has
    to enrol, as a tenant's first owner, and that has no stored password proceeds
    with the password of the dummy verifier. *)
Lemma dummy_password_enrolls self addr account password db :
  login_account addr db = (db, Ok (Some account)) -> login_verifier account = None ->
  login_state account = MfaEnrollmentRequired ->
  verify_password password (dummy_verifier self) (maximum_password_bytes self) = Ok tt ->
  authenticate self addr password db =
  (db, Ok (PasswordMfaEnrollmentRequired (login_tenant_id account) (login_account_id account))).
Proof.
  intros Hl Hn Hst Hv. unfold authenticate, calling, bind at 1. rewrite Hl. cbn [map_err].
  rewrite Hn. cbn [from_option]. unfold id. rewrite Hv, Hst. done.
Qed.

Lemma authenticate_stage flow address password addr db db1 outcome tx t a s context :
  UserAddress.parse address = Ok addr ->
  authenticate (password_service flow) addr password db = (db1, Ok outcome) ->
  stage_for outcome = Some (t, a, s, context) ->
  LoginTransactions.tenant_id tx = tenant_as_uuid t -> LoginTransactions.account_id tx = account_as_uuid a ->
  LoginTransactions.stage tx = database_value s ->
  db1 = db /\ password_verified flow address password db tx.
Proof.
  intros Haddr Hau Hs Ht Ha Hst. assert (db1 = db) as -> by by eapply authenticate_reads. split; [done|].
  unfold authenticate in Hau. apply bind_ok in Hau as (db1 & found & Hf%calling_ok & Hau).
  assert (db1 = db) as -> by by eapply login_account_reads.
  destruct found as [account|]; [|by injection Hau as <-].
  exists addr, account. split; [done|]. split; [done|].
  destruct (verify_password _ _ _) as [[]|e] eqn:Hv; cbn [is_ok negb] in Hau; [|by injection Hau as <-].
  split; [by eapply login_password|].
  destruct (permits_session (login_state account)) eqn:Hp; cbn [negb] in Hau.
  - assert (Hact : login_state account = Active) by by destruct (login_state account).
    apply bind_ok in Hau as (db1 & roles & Hr%calling_ok & Hau). assert (db1 = db) as -> by by eapply roles_reads.
    apply bind_ok in Hau as (db1 & has & Hh%calling_ok & Hau). assert (db1 = db) as -> by by eapply has_active_reads.
    destruct (existsb _ roles) eqn:He, has; cbn [orb negb] in Hau; injection Hau as <-; try done;
      injection Hs as <- <- <- _; (split; [done|]); (split; [done|]); right; [by left..|right].
    split; [done|]. split; [done|]. split; [done|]. exists roles. split; [done|].
    split; intros Hin; apply list_elem_of_In in Hin.
    + assert (Ht' := proj2 (existsb_exists (fun role => match role with Owner | Admin => true | _ => false end) roles)
        (ex_intro _ Owner (conj Hin eq_refl))). congruence.
    + assert (Ht' := proj2 (existsb_exists (fun role => match role with Owner | Admin => true | _ => false end) roles)
        (ex_intro _ Admin (conj Hin eq_refl))). congruence.
  - case_bool_decide as Hm; injection Hau as <-; [|done]. injection Hs as <- <- <- _.
    split; [done|]. split; [done|]. by left.
Qed.

(** Queries and pure parts of a program move nothing. *)
Ltac quiet := solve [apply reads_moves; [apply _|]; solve_reads].

Lemma issue_transaction_moves self t a s binding factor context cid now draw (G : Grants) db :
  (forall tx, LoginTransactions.tenant_id tx = tenant_as_uuid t -> LoginTransactions.account_id tx = account_as_uuid a ->
     LoginTransactions.stage tx = database_value s -> may_login G tx) ->
  moves (grows G) (issue_transaction self t a s binding factor context cid now draw) db.
Proof.
  intros HL. unfold issue_transaction. apply moves_bind; [apply _|apply moves_unwrapped; apply _|].
  intros db1 expires _. apply moves_bind; [apply _| |intros; quiet].
  eapply moves_calling, (exec_moves (OpCreateLogin _ _ _ _)); [|reflexivity].
  split; try (by intros ? []). intros tx ->. by apply HL.
Qed.

Lemma start_moves state headers address password draw db :
  moves (grows (request_grants state headers (StartPasswordLogin address password draw) db))
    (start_password_login state address password draw) db.
Proof.
  unfold start_password_login. apply moves_bind; [apply _|quiet|]. intros db1 flow [Hflow ->]%or_respond_ok.
  apply moves_bind; [apply _|quiet|]. intros db1 addr [Haddr ->]%or_respond_ok.
  assert (Hp : UserAddress.parse address = Ok addr) by (destruct (UserAddress.parse address); congruence).
  apply moves_bind; [apply _| |intros; destruct b; quiet]. apply moves_answering. unfold start_flow.
  apply moves_bind; [apply _|apply moves_within; quiet|]. intros db1 outcome Ho%within_ok.
  assert (db1 = db) as -> by by eapply authenticate_reads.
  assert (Hb : forall s t a x, stage_for outcome = Some (t, a, s, x) -> forall tx,
    LoginTransactions.tenant_id tx = tenant_as_uuid t -> LoginTransactions.account_id tx = account_as_uuid a ->
    LoginTransactions.stage tx = database_value s -> login_grant state headers (StartPasswordLogin address password draw) db tx).
  { intros s t a x Hs tx Ht Ha Hst. exists flow. split; [done|]. by eapply authenticate_stage. }
  unfold begin_transaction. destruct outcome; cbn [stage_for] in *; [quiet|..];
    (apply moves_bind; [apply _| |intros db2 st _; destruct st; quiet]; apply moves_within, moves_bind; [apply _| |intros; quiet];
     apply issue_transaction_moves; eapply Hb; reflexivity).
Qed.

(** A consumed transaction: what the route gets and what it leaves. *)
Lemma next_step_ok state headers stage cid draw db db1 flow services binding record :
  next_step state headers stage cid draw db = (db1, Ok (flow, services, binding, record)) ->
  login_flow state = Some flow /\ mfa_session state = Some services /\
  exists tx, tx ∈ login_transactions db /\ presented flow headers stage (consume_now draw) tx /\
    transaction_tenant_id record = TenantId_from_uuid (LoginTransactions.tenant_id tx) /\
    transaction_account_id record = AccountId_from_uuid (LoginTransactions.account_id tx) /\
    transaction_factor_id record = LoginTransactions.factor_id tx /\ mfa_totp_factors db1 = mfa_totp_factors db.
Proof.
  unfold next_step. destruct (login_flow state) as [flow'|]; [|done]. destruct (mfa_session state) as [services'|]; [|done].
  intros (db2 & token & [Ht ->]%or_respond_ok & H0)%bind_ok. apply bind_ok in H0 as (db2 & b & [Hb ->]%or_respond_ok & H0).
  destruct (csrf_proof_is_valid _ _) eqn:Hcsrf; [|done]. cbn [negb] in H0.
  apply bind_ok in H0 as (db2 & record' & Hc%answering_ok & [= -> -> -> -> ->]).
  split; [done|]. split; [done|]. unfold consume_next_step in Hc. apply within_ok in Hc. unfold consume_transaction in Hc.
  apply calling_ok, consume_login_ok in Hc as (tx & Hin & Hcon & Hten & Hacc & _ & Hfac & event & _ & _ & _ & ->).
  exists tx. split; [done|]. split; [|done]. exists token, binding. done.
Qed.

Lemma next_step_moves state headers stage cid draw (G : Grants) db :
  moves (grows G) (next_step state headers stage cid draw) db.
Proof.
  unfold next_step. destruct (login_flow state) as [flow|]; [|quiet]. destruct (mfa_session state) as [services|]; [|quiet].
  apply moves_bind; [apply _|quiet|]. intros db1 token _. apply moves_bind; [apply _|quiet|]. intros db2 b _.
  destruct (negb _); [quiet|]. apply moves_bind; [apply _| |intros; quiet].
  by eapply moves_answering, moves_within, moves_calling, (exec_moves (OpConsumeLogin _ _ _ _ _ _)); [split; intros ? []|].
Qed.

Lemma load_factor_ok rows factor :
  load_factor rows = Ok (Some factor) -> exists row, row ∈ rows /\ try_from_row row = Ok factor /\
    persisted_factor_id factor = TotpFactors.id row /\
    last_accepted_step factor = TotpFactors.last_accepted_time_step row.
Proof.
  unfold load_factor. destruct (fetch_optional rows) as [row|] eqn:Hr; [|done].
  apply head_Some_elem_of in Hr. intros (f & Hf & [= ->])%res_bind_ok. exists row. split; [done|]. split; [done|].
  unfold try_from_row in Hf. apply res_bind_ok in Hf as (nonce & _ & Hf). apply res_bind_ok in Hf as (d & _ & Hf).
  destruct (_ || _); [done|]. apply res_bind_ok in Hf as (reference & _ & [= <-]). done.
Qed.

Lemma context_owner t a db db' context :
  session_authorization_context t a db = (db', Ok (Some context)) ->
  AuthorizationContext.tenant_id context = t /\ AuthorizationContext.account_id context = a.
Proof.
  unfold session_authorization_context. intros (db1 & db2 & [= <- <-] & H0)%bind_ok.
  destruct (fetch_optional _) as [r|]; [|done]. apply bind_ok in H0 as (db1 & st & _ & H0).
  destruct (negb _); [done|]. apply bind_ok in H0 as (db2 & roles & _ & [= <- <-]). done.
Qed.

Lemma complete_totp_ok keys t a code now db db' context :
  complete_totp keys (TenantId_from_uuid t) (AccountId_from_uuid a) code now db = (db', Ok (TotpAuthenticated context)) ->
  AuthorizationContext.tenant_id context = TenantId_from_uuid t /\
  AuthorizationContext.account_id context = AccountId_from_uuid a /\
  exists row, row ∈ mfa_totp_factors db /\ active_factor t a row /\ code_verified keys row t a code now.
Proof.
  unfold complete_totp. intros (db1 & found & Hf%calling_ok & H0)%bind_ok.
  destruct found as [factor|]; [|done]. unfold active_totp_factor in Hf.
  apply bind_ok in Hf as (db2 & db3 & [= <- <-] & [= <- (row & [Hact Hin]%list_elem_of_filter & Hrow & Hid & Hlast)%load_factor_ok]).
  apply bind_ok in H0 as (db2 & key & [= <- Hk%map_err_ok] & H0).
  destruct (verify_totp _ _ _ _ _ _) as [accepted|[]] eqn:Hv; try done.
  apply bind_ok in H0 as (db2 & consumed & _ & H0). destruct consumed as [[]|[]]; try done.
  apply bind_ok in H0 as (db3 & found & Hc%calling_ok & H0). destruct found as [context'|]; [|done].
  injection H0 as _ ->. apply context_owner in Hc as [Ht Ha]. split; [done|]. split; [done|].
  exists row. split; [done|]. split; [done|]. exists factor, key, accepted. rewrite <- Hid, <- Hlast. done.
Qed.

Lemma confirm_ok self t a id code cid now aid store_now db db' context :
  confirm_enrollment self (TenantId_from_uuid t) (AccountId_from_uuid a) id code cid now aid store_now db =
    (db', Ok (EnrollmentAuthenticated context)) ->
  AuthorizationContext.tenant_id context = TenantId_from_uuid t /\
  AuthorizationContext.account_id context = AccountId_from_uuid a /\
  exists row, row ∈ mfa_totp_factors db /\ pending_factor id t a row /\
    Forall (fun r => ~ active_factor t a r) (mfa_totp_factors db) /\
    code_verified (key_provider self) row t a code now.
Proof.
  unfold confirm_enrollment. intros (db1 & found & Hf%calling_ok & H0)%bind_ok.
  destruct found as [factor|]; [|done]. unfold pending_totp_factor in Hf.
  apply bind_ok in Hf as (db2 & db3 & [= <- <-] & [= <- (row & [Hact Hin]%list_elem_of_filter & Hrow & Hid & Hlast)%load_factor_ok]).
  apply bind_ok in H0 as (db2 & key & [= <- Hk%map_err_ok] & H0).
  destruct (verify_totp _ _ _ _ _ _) as [accepted|[]] eqn:Hv; try done.
  apply bind_ok in H0 as (db2 & activated & Hact'%attempt_ok & H0). destruct activated as [[]|[]]; try done.
  apply activate_ok in Hact' as (_ & Hnone & _).
  apply bind_ok in H0 as (db3 & found & Hc%calling_ok & H0). destruct found as [context'|]; [|done].
  injection H0 as _ ->. apply context_owner in Hc as [Ht Ha]. split; [done|]. split; [done|].
  exists row. split; [done|]. split; [done|]. split; [done|]. exists factor, key, accepted. rewrite <- Hid, <- Hlast. done.
Qed.

(** An operation that adds nothing. *)
Ltac store_moves op := eapply (exec_moves op); [by split; intros ? []|reflexivity].
Ltac store_moves_unit op := eapply (exec_moves_unit op); by split; intros ? [].

Lemma complete_totp_moves keys t a code now (G : Grants) db : moves (grows G) (complete_totp keys t a code now) db.
Proof.
  unfold complete_totp. apply moves_bind; [apply _|quiet|]. intros db1 found _. destruct found as [factor|]; [|quiet].
  apply moves_bind; [apply _|quiet|]. intros db2 key _. cbv zeta. destruct (verify_totp _ _ _ _ _ _) as [accepted|[]]; try quiet.
  apply moves_bind; [apply _|apply moves_attempt; store_moves_unit (OpConsumeStep t a (persisted_factor_id factor) (step accepted))|].
  intros db3 consumed _. quiet.
Qed.

Lemma confirm_moves self t a id code cid now aid store_now (G : Grants) db :
  moves (grows G) (confirm_enrollment self t a id code cid now aid store_now) db.
Proof.
  unfold confirm_enrollment. apply moves_bind; [apply _|quiet|]. intros db1 found _. destruct found as [factor|]; [|quiet].
  apply moves_bind; [apply _|quiet|]. intros db2 key _. cbv zeta. destruct (verify_totp _ _ _ _ _ _) as [accepted|[]]; try quiet.
  apply moves_bind; [apply _|apply moves_attempt; store_moves_unit (OpActivateFactor t a (persisted_factor_id factor)
    (step accepted) cid aid store_now)|]. intros db3 consumed _. quiet.
Qed.

Lemma begin_enrollment_moves self t a cid id seed nonce aid now (G : Grants) db :
  moves (grows G) (begin_enrollment self t a cid id seed nonce aid now) db.
Proof.
  unfold begin_enrollment. apply moves_bind; [apply _|quiet|]. intros db1 found _. destruct found as [address|]; [|quiet].
  apply moves_bind; [apply _|quiet|]. intros db2 active _. cbv zeta. apply moves_bind; [apply _|quiet|]. intros db3 enrollment _.
  apply moves_bind; [apply _|apply moves_calling; store_moves_unit (OpPendingFactor t a id (encrypted_seed enrollment) cid aid now)|].
  intros db4 [] _. quiet.
Qed.

Lemma issue_session_moves self context cid now draw (G : Grants) db :
  (forall f, SessionFamilies.tenant_id f = tenant_as_uuid (AuthorizationContext.tenant_id context) ->
     SessionFamilies.account_id f = account_as_uuid (AuthorizationContext.account_id context) -> may_session G f) ->
  moves (grows G) (issue_session self context cid now draw) db.
Proof.
  intros HS. unfold issue_session. cbv zeta. apply moves_bind; [apply _|apply moves_unwrapped; apply _|]. intros db1 e1 _.
  apply moves_bind; [apply _|apply moves_unwrapped; apply _|]. intros db2 e2 _. apply moves_bind; [apply _| |intros; quiet].
  eapply moves_calling, (exec_moves (OpCreateSession _ _ _)); [|reflexivity].
  split; try (by intros ? []). intros f ->. by apply HS.
Qed.

Lemma issue_browser_moves issuer context cid draw (G : Grants) db :
  (forall f, SessionFamilies.tenant_id f = tenant_as_uuid (AuthorizationContext.tenant_id context) ->
     SessionFamilies.account_id f = account_as_uuid (AuthorizationContext.account_id context) -> may_session G f) ->
  moves (grows G) (issue_browser_session issuer context cid draw) db.
Proof.
  intros HS. unfold issue_browser_session. apply moves_bind; [apply _|by apply moves_answering, issue_session_moves|].
  intros db1 session _ db2 r. destruct (run _ db1) as [db3 v] eqn:E. intros [= <- _].
  eapply moves_run; [|exact E]. quiet.
Qed.

Lemma refresh_moves state headers correlation now draw csrf (G : Grants) db :
  moves (grows G) (refresh_session state headers correlation now draw csrf) db.
Proof.
  unfold refresh_session. apply moves_bind; [apply _|quiet|]. intros db1 services _. apply moves_bind; [apply _|quiet|].
  intros db2 token _. destruct (negb _); [quiet|]. cbv zeta. apply moves_bind; [apply _| |intros db3 [] _; quiet].
  apply moves_answering. unfold rotate_session. cbv zeta. apply moves_bind; [apply _|apply moves_unwrapped; apply _|]. intros db3 e1 _.
  apply moves_bind; [apply _|apply moves_unwrapped; apply _|]. intros db4 e2 _. apply moves_bind; [apply _| |intros; quiet].
  apply moves_calling. store_moves (OpRotate {|
    presented_digest := derive_opaque_token_digest (rotator_digest_key (session_rotator services)) token;
    rotation_successor := digest (issue_opaque_token (rotator_digest_key (session_rotator services)) (drawn_refresh draw));
    rotation_successor_access := digest (issue_opaque_token (rotator_digest_key (session_rotator services)) (drawn_access draw));
    rotation_successor_expires := e1; rotation_successor_access_expires := e2;
    rotation_correlation_id := lit "http-refresh-" ++ uuid_text correlation |} (session_now draw) (drawn_ids draw)).
Qed.

Lemma authenticate_access_reads services headers now : reads (authenticate_access services headers now).
Proof.
  unfold authenticate_access. destruct (negb _); [solve_reads|]. apply reads_bind; [solve_reads|]. intros token.
  apply reads_bind; [|solve_reads]. intros s s' r. unfold answering.
  destruct (authenticate_session _ _ _ s) as [s1 v] eqn:E. apply authenticate_session_reads in E as ->. by intros [= <- _].
Qed.
#[local] Hint Resolve authenticate_access_reads : reads.

Lemma moves_wf {E B} G (m : M Db E B) db : (store_wf db -> moves (grows G) m db) -> moves (grows G) m db.
Proof. intros Hm db' r Hr Hwf. by eapply Hm. Qed.

Lemma authenticate_access_ok services headers now db db' session :
  store_wf db -> authenticate_access services headers now db = (db', Ok session) ->
  db' = db /\ exists f, session_of services headers now db f /\
    AuthorizationContext.tenant_id (session_context session) = TenantId_from_uuid (SessionFamilies.tenant_id f) /\
    AuthorizationContext.account_id (session_context session) = AccountId_from_uuid (SessionFamilies.account_id f) /\
    access_family_id session = SessionFamilies.id f /\
    roles_for_account (TenantId_from_uuid (SessionFamilies.tenant_id f)) (AccountId_from_uuid (SessionFamilies.account_id f))
      db = (db, Ok (AuthorizationContext.roles (session_context session))).
Proof.
  intros Hwf H0. assert (db' = db) as -> by by eapply authenticate_access_reads. split; [done|].
  unfold authenticate_access in H0. destruct (csrf_proof_is_valid _ _) eqn:Hcsrf; [|done]. cbn [negb] in H0.
  apply bind_ok in H0 as (db1 & token & [Ht ->]%or_respond_ok & H0).
  apply bind_ok in H0 as (db1 & found & Hf%answering_ok & [-> _]%or_respond_ok).
  unfold authenticate_session in Hf. apply bind_ok in Hf as (db2 & [auth|] & Hf%calling_ok & Hs); [|done].
  injection Hs as _ <-.
  apply authorised_rows in Hf as (_ & x & y & z & Hx & Hd & Hr & Hexp & Hy & Hid & Hyr & _ & _ & Hten & Hacc & Hroles & Hfam).
  destruct (wf_access_owned _ (st_sessions _ Hwf) x Hx) as (f & Hin & Hfid & Hft & Hfa).
  assert (f = y) as -> by (eapply unique_row; [apply (wf_families _ (st_sessions _ Hwf))|done..|congruence]).
  exists y. cbn. rewrite Hten, Hacc, Hfam in *. rewrite Hft, Hfa. split_and!; try done. exists token, x. split_and!; done.
Qed.

Lemma authenticate_admin_ok services headers permission now db db' session :
  store_wf db -> authenticate_admin services headers permission now db = (db', Ok session) ->
  db' = db /\ exists f, session_of services headers now db f /\ permitted permission db f /\
    AuthorizationContext.tenant_id (session_context session) = TenantId_from_uuid (SessionFamilies.tenant_id f) /\
    AuthorizationContext.account_id (session_context session) = AccountId_from_uuid (SessionFamilies.account_id f) /\
    access_family_id session = SessionFamilies.id f.
Proof.
  intros Hwf. unfold authenticate_admin.
  intros (db1 & s1 & (-> & f & Hf & Ht & Ha & Hid & Hroles)%authenticate_access_ok & H0)%bind_ok; [|done].
  unfold AuthorizationContext.require in H0. destruct (permits_session _); cbn [negb is_ok] in H0; [|done].
  destruct (existsb _ _) eqn:He; [|done]. cbn [negb is_ok] in H0. injection H0 as <- <-. split; [done|].
  exists f. split_and!; try done. by exists (AuthorizationContext.roles (session_context s1)).
Qed.

Lemma authenticate_admin_reads services headers permission now : reads (authenticate_admin services headers permission now).
Proof. unfold authenticate_admin. solve_reads. Qed.
#[local] Hint Resolve authenticate_admin_reads : reads.

Lemma invite_moves state headers localpart role correlation account aid access_now store_now db :
  moves (grows (request_grants state headers
    (InviteAccountRoute localpart role correlation account aid access_now store_now) db))
    (invite_account_route state headers localpart role correlation account aid access_now store_now) db.
Proof.
  unfold invite_account_route. apply moves_bind; [apply _|quiet|]. intros db1 services [Hserv ->]%or_respond_ok.
  apply moves_wf. intros Hwf. apply moves_bind; [apply _|quiet|].
  intros db1 session (-> & f & Hf & Hperm & Ht & Ha & _)%authenticate_admin_ok; [|done].
  apply moves_bind; [apply _|quiet|]. intros db1 part [_ ->]%or_respond_ok. cbv zeta.
  apply moves_bind; [apply _| |intros; quiet].
  eapply moves_answering, moves_calling, (exec_moves_ok (OpInvite _ _ _ _)); [|reflexivity].
  intros db' b (Hval & (Hfresh & _) & _)%invite_ok. split; try (by intros ? []). intros r ->. right.
  exists services. split; [done|]. cbn. split; [done|]. split; [|split; [done|]].
  - intros (x & Hxi & Hx)%list_elem_of_fmap. rewrite list.Forall_forall in Hfresh. by apply (Hfresh x Hx).
  - split; [exact (invite_not_owner _ Hval)|]. exists f. split; [done|]. split; [done|]. by rewrite Ht.
Qed.

Lemma deliver_moves state path request m (G : Grants) db : moves (grows G) (deliver_route state path request m) db.
Proof.
  intros db' r. unfold deliver_route. destruct (deliver_federation _ _ _ _ _) as [[db1 status]|] eqn:E;
    [|by intros [= <- _]]. intros [= <- _]. unfold deliver_federation in E.
  destruct (negb _); [by injection E as <-|]. destruct (uuid_parse path) as [id|]; [|by injection E as <-].
  destruct (into_signed request) as [signed|]; [|by injection E as <-].
  destruct (decide _); [|by injection E as <-]. destruct (admit_ingress _ _ _ _) as [[db2 outcome]|] eqn:Ha; [|done].
  injection E as <- _. unfold admit_ingress in Ha. destruct (resolve _ _ _ _) as [[peer|]|e0]; [|by injection Ha as <-..].
  destruct (xbind _ _) as [[body|e0]|]; [|by injection Ha as <-|done].
  destruct (record_federation_replay _ _ _ db) as [db3 inserted] eqn:Hr. injection Ha as <- _.
  revert Hr. by eapply (exec_moves (OpRecordReplay _ _ _)); [split; intros ? []|].
Qed.

(** The routes that end in a session. *)
Lemma totp_moves state headers code draw db :
  moves (grows (request_grants state headers (CompleteTotpLogin code draw) db)) (complete_totp_login state headers code draw) db.
Proof.
  unfold complete_totp_login. cbv zeta. apply moves_bind; [apply _|apply next_step_moves|].
  intros db1 [[[flow services] binding] record] (Hflow & Hserv & tx & Hin & Hpres & Ht & Ha & _ & Hfac)%next_step_ok.
  rewrite Ht, Ha. apply moves_bind; [apply _|apply moves_answering, complete_totp_moves|].
  intros db2 [|context] Hc%answering_ok; [quiet|]. apply complete_totp_ok in Hc as (Hct & Hca & row & Hrow & Hact & Hv).
  apply issue_browser_moves. rewrite Hct, Hca. intros f Hft Hfa. exists services. split; [done|].
  exists flow, tx. rewrite Hfac in Hrow. split_and!; try done. by exists row.
Qed.

Lemma confirm_route_moves state headers code draw db :
  moves (grows (request_grants state headers (ConfirmTotpEnrollment code draw) db)) (confirm_totp_enrollment state headers code draw) db.
Proof.
  unfold confirm_totp_enrollment. cbv zeta. apply moves_bind; [apply _|apply next_step_moves|].
  intros db1 [[[flow services] binding] record] (Hflow & Hserv & tx & Hin & Hpres & Ht & Ha & Hid & Hfac)%next_step_ok.
  rewrite Ht, Ha. apply moves_bind; [apply _|quiet|]. intros db2 id [Hidr ->]%or_respond_ok.
  apply moves_bind; [apply _|apply moves_answering, confirm_moves|].
  intros db2 [|context] Hc%answering_ok; [quiet|]. apply confirm_ok in Hc as (Hct & Hca & row & Hrow & Hact & Hnone & Hv).
  apply issue_browser_moves. rewrite Hct, Hca. intros f Hft Hfa. exists services. split; [done|].
  exists flow, tx. rewrite Hfac in Hrow, Hnone. split_and!; try done. exists id, row. split; [congruence|done].
Qed.

Lemma password_only_moves state headers draw db :
  moves (grows (request_grants state headers (CompletePasswordOnlyLogin draw) db)) (complete_password_only_login state headers draw) db.
Proof.
  unfold complete_password_only_login. cbv zeta. apply moves_bind; [apply _|apply next_step_moves|].
  intros db1 [[[flow services] binding] record] (Hflow & Hserv & tx & Hin & Hpres & Ht & Ha & _ & Hfac)%next_step_ok.
  apply moves_bind; [apply _|apply moves_answering; quiet|]. intros db2 found Hc%answering_ok%calling_ok.
  apply moves_bind; [apply _|quiet|]. intros db3 context [-> ->]%or_respond_ok. apply context_owner in Hc as [Hct Hca].
  apply issue_browser_moves. rewrite Hct, Hca, Ht, Ha. intros f Hft Hfa. exists services. split; [done|].
  exists flow, tx. split_and!; done.
Qed.

Lemma begin_route_moves state headers draw db :
  moves (grows (request_grants state headers (BeginTotpEnrollment draw) db)) (begin_totp_enrollment_route state headers draw) db.
Proof.
  unfold begin_totp_enrollment_route. cbv zeta. apply moves_bind; [apply _|apply next_step_moves|].
  intros db1 [[[flow services] binding] record] (Hflow & Hserv & tx & Hin & Hpres & Ht & Ha & _ & _)%next_step_ok.
  apply moves_bind; [apply _|apply moves_answering, begin_enrollment_moves|]. intros db2 enrollment _.
  apply moves_bind; [apply _| |intros; quiet]. apply moves_answering, moves_within, issue_transaction_moves.
  rewrite Ht, Ha. intros new Hnt Hna Hns. exists flow. split; [done|]. by exists tx.
Qed.

(** ** The passkey service *)
Lemma library_reads {B} (r : result WebauthnError B) : reads (library r).
Proof. unfold library. eauto with reads. Qed.
Lemma serialized_reads {B} (o : option B) : reads (serialized o).
Proof. unfold serialized. eauto with reads. Qed.
Lemma active_passkeys_reads t a : reads (active_webauthn_passkeys (Document := Document) t a).
Proof. unfold active_webauthn_passkeys. solve_reads. Qed.
#[local] Hint Resolve library_reads serialized_reads active_passkeys_reads : reads.
Lemma deserialize_reads t a : reads (deserialize_active_passkeys t a).
Proof. unfold deserialize_active_passkeys. solve_reads. Qed.
Lemma ceremony_cookies_reads headers : reads (ceremony_cookies headers).
Proof. unfold ceremony_cookies. solve_reads. Qed.
Lemma challenge_response_reads ceremony challenge csrf : reads (passkey_challenge_response ceremony challenge csrf).
Proof. unfold passkey_challenge_response. solve_reads. Qed.
#[local] Hint Resolve deserialize_reads ceremony_cookies_reads challenge_response_reads : reads.

Lemma serialized_ok {B} (o : option B) db db' b : serialized o db = (db', Ok b) -> o = Some b /\ db' = db.
Proof. destruct o; [by intros [= <- <-]|done]. Qed.
Lemma library_ok {B} (r : result WebauthnError B) db db' b : library r db = (db', Ok b) -> r = Ok b /\ db' = db.
Proof. destruct r; [by intros [= <- <-]|done]. Qed.

Lemma consume_ceremony_row self token binding cid aid now db db' record :
  consume_ceremony self token binding cid aid now db = (db', Ok record) ->
  exists c, c ∈ webauthn_ceremonies db /\
    ceremony_consumable (derive_opaque_token_digest (ceremony_digest_key self) token)
      (derive_opaque_token_digest (ceremony_binding_key self) binding) (timestamptz now) c /\
    record_tenant_id record = TenantId_from_uuid (WebauthnCeremonies.tenant_id c) /\
    record_account_id record = AccountId_from_uuid (WebauthnCeremonies.account_id c) /\
    parse_webauthn_ceremony_kind (WebauthnCeremonies.kind c) = Ok (record_kind record) /\
    record_state record = WebauthnCeremonies.state c /\ webauthn_credentials db' = webauthn_credentials db.
Proof.
  intros (c & Hin & Hc & Ht & Ha & Hk & Hs & event & _ & _ & _ & ->)%calling_ok%consume_ceremony_ok.
  exists c. split_and!; done.
Qed.

Lemma consume_ceremony_moves self token binding cid aid now G db :
  moves (grows G) (consume_ceremony self token binding cid aid now) db.
Proof.
  apply moves_calling. store_moves (OpConsumeCeremony (derive_opaque_token_digest (ceremony_digest_key self) token)
    (derive_opaque_token_digest (ceremony_binding_key self) binding) cid aid now).
Qed.

Lemma persist_ceremony_moves self t a kind state cid now draw (G : Grants) db :
  (forall c, WebauthnCeremonies.tenant_id c = tenant_as_uuid t -> WebauthnCeremonies.account_id c = account_as_uuid a ->
     WebauthnCeremonies.kind c = kind_value kind -> WebauthnCeremonies.state c = state -> may_ceremony G c) ->
  moves (grows G) (persist_ceremony self t a kind state cid now draw) db.
Proof.
  intros HC. unfold persist_ceremony. cbv zeta. apply moves_bind; [apply _|apply moves_unwrapped; apply _|].
  intros db1 expires _. apply moves_bind; [apply _| |intros; quiet].
  eapply moves_calling, (exec_moves_unit (OpCreateCeremony _ _ _ _)). split; try (by intros ? []). intros c ->. by apply HC.
Qed.

Lemma finish_authentication_ok self token binding response cid aid now update_now db db' context :
  finish_authentication self token binding response cid aid now update_now db = (db', Ok (FinishAuthenticated context)) ->
  exists c p, c ∈ webauthn_ceremonies db /\ p ∈ webauthn_credentials db /\
    ceremony_consumable (derive_opaque_token_digest (ceremony_digest_key self) token)
      (derive_opaque_token_digest (ceremony_binding_key self) binding) (timestamptz now) c /\
    parse_webauthn_ceremony_kind (WebauthnCeremonies.kind c) = Ok Authentication /\
    assertion_verified self response c p /\
    AuthorizationContext.tenant_id context = TenantId_from_uuid (WebauthnCeremonies.tenant_id c) /\
    AuthorizationContext.account_id context = AccountId_from_uuid (WebauthnCeremonies.account_id c).
Proof.
  unfold finish_authentication. intros (db1 & record & (c & Hin & Hc & Ht & Ha & Hk & Hst & Hcred)%consume_ceremony_row & H0)%bind_ok.
  rewrite Ht, Ha, Hst in H0. case_bool_decide as Hkind; [|done]. cbn [negb] in H0. rewrite Hkind in Hk.
  apply bind_ok in H0 as (db2 & st & [Hs ->]%serialized_ok & H0).
  apply bind_ok in H0 as (db2 & verification & [Hv ->]%library_ok & H0).
  apply bind_ok in H0 as (db2 & cred & [= <- Hid%map_err_ok] & H0).
  apply bind_ok in H0 as (db2 & passkeys & Hp & H0). apply deserialize_reads in Hp as ->.
  destruct (List.find _ passkeys) as [passkey|]; [|done].
  apply bind_ok in H0 as (db2 & value & [_ ->]%serialized_ok & H0).
  apply bind_ok in H0 as (db2 & updated & Hu%attempt_ok & H0). destruct updated as [u|[]]; try done.
  apply update_passkey_ok in Hu as [(p & Hpin & Hact & Hpid & _) _].
  apply bind_ok in H0 as (db3 & found & Hf%calling_ok & H0). apply bind_ok in H0 as (db4 & ctx & [= <- Hfound] & [= _ ->]).
  destruct found as [ctx|]; [|done]. injection Hfound as ->. apply context_owner in Hf as [Hct Hca].
  exists c, p. rewrite Hcred in Hpin. split_and!; try done. exists st, verification. rewrite Hpid. done.
Qed.

Lemma finish_authentication_moves self token binding response cid aid now update_now G db :
  moves (grows G) (finish_authentication self token binding response cid aid now update_now) db.
Proof.
  unfold finish_authentication. apply moves_bind; [apply _|apply consume_ceremony_moves|]. intros db1 record _.
  destruct (negb _); [quiet|]. cbv zeta. apply moves_bind; [apply _|quiet|]. intros db2 st _.
  apply moves_bind; [apply _|quiet|]. intros db3 verification _. apply moves_bind; [apply _|quiet|]. intros db4 cred _.
  apply moves_bind; [apply _|quiet|]. intros db5 passkeys _. destruct (List.find _ _) as [passkey|]; [|quiet].
  apply moves_bind; [apply _|quiet|]. intros db6 value _. apply moves_bind; [apply _| |intros; quiet].
  apply moves_attempt. store_moves_unit (OpUpdatePasskey (record_tenant_id record) (record_account_id record) cred value update_now).
Qed.

Lemma finish_registration_moves self t a token binding response cid aid now id aid' store_now (G : Grants) db :
  (forall p c st label passkey, c ∈ webauthn_ceremonies db ->
     ceremony_consumable (derive_opaque_token_digest (ceremony_digest_key self) token)
       (derive_opaque_token_digest (ceremony_binding_key self) binding) (timestamptz now) c ->
     parse_webauthn_ceremony_kind (WebauthnCeremonies.kind c) = Ok Registration ->
     WebauthnCeremonies.tenant_id c = tenant_as_uuid t -> WebauthnCeremonies.account_id c = account_as_uuid a ->
     WebauthnCredentials.tenant_id p = tenant_as_uuid t -> WebauthnCredentials.account_id p = account_as_uuid a ->
     registration_from_value (WebauthnCeremonies.state c) = Some (st, label) ->
     finish_passkey_registration (webauthn self) response st = Ok passkey ->
     canonical_credential_id passkey = Ok (WebauthnCredentials.credential_id p) ->
     passkey_to_value passkey = Some (WebauthnCredentials.passkey p) -> may_credential G p) ->
  moves (grows G) (finish_registration self t a token binding response cid aid now id aid' store_now) db.
Proof.
  intros HP. unfold finish_registration. apply moves_bind; [apply _|apply consume_ceremony_moves|].
  intros db1 record (c & Hin & Hc & Ht & Ha & Hk & Hst & _)%consume_ceremony_row.
  destruct (negb _ || _ || _) eqn:Hg; [quiet|]. rewrite !orb_false_iff, !negb_false_iff, !bool_decide_eq_true in Hg.
  destruct Hg as [[Hkind Hten] Hacc].
  apply moves_bind; [apply _|quiet|]. intros db2 [st label] [Hs ->]%serialized_ok.
  apply moves_bind; [apply _|quiet|]. intros db2 passkey [Hf ->]%library_ok.
  apply moves_bind; [apply _|quiet|]. intros db2 cred [= <- Hid%map_err_ok].
  apply moves_bind; [apply _|quiet|]. intros db2 value [Hv ->]%serialized_ok.
  apply moves_bind; [apply _| |intros; quiet].
  eapply moves_calling, (exec_moves_unit (OpRegisterPasskey _ _ _ _)). split; try (by intros ? []). intros p ->.
  rewrite Hst in Hs. rewrite Hkind in Hk.
  eapply HP; [exact Hin|exact Hc|exact Hk|..|exact Hs|exact Hf|exact Hid|exact Hv];
    cbn; rewrite <- ?Hten, <- ?Hacc, ?Ht, ?Ha; done.
Qed.

(** ** The passkey routes *)
Lemma moves_captured R h db : moves R h db -> moves R (captured h) db.
Proof.
  intros Hm db' r. unfold captured. destruct (h db) as [db1 v] eqn:E1. apply Hm in E1.
  by destruct v as [|[]]; intros [= <- _].
Qed.

Lemma ceremony_cookies_ok headers db db' token binding :
  ceremony_cookies headers db = (db', Ok (token, binding)) ->
  db' = db /\ browser_cookie headers WEBAUTHN_CEREMONY_COOKIE = Some token /\
  browser_cookie headers WEBAUTHN_BINDING_COOKIE = Some binding.
Proof. unfold ceremony_cookies. do 2 destruct (browser_cookie _ _); by intros [= <- <- <-]. Qed.

Lemma begin_passkey_login_moves state headers address draw db :
  moves (grows (request_grants state headers (BeginPasskeyLogin address draw) db)) (begin_passkey_login state address draw) db.
Proof.
  unfold begin_passkey_login. apply moves_bind; [apply _|quiet|]. intros db1 services [Hserv ->]%or_respond_ok.
  apply moves_bind; [apply _|quiet|]. intros db1 addr [Haddr ->]%or_respond_ok.
  assert (Hp : UserAddress.parse address = Ok addr) by (destruct (UserAddress.parse address); congruence).
  cbv zeta. apply moves_bind; [apply _|apply moves_answering|intros db1 [] _; quiet]. unfold begin_authentication.
  destruct (negb _); [quiet|]. apply moves_bind; [apply _|quiet|]. intros db1 found Hf%calling_ok.
  assert (db1 = db) as -> by by eapply login_account_reads. destruct found as [account|]; [|quiet].
  destruct (permits_session (login_state account)) eqn:Hperm; cbn [negb]; [|quiet].
  apply moves_bind; [apply _|quiet|]. intros db1 passkeys Hk. assert (db1 = db) as -> by by eapply deserialize_reads.
  destruct passkeys as [|k ks] eqn:Hks; [quiet|]. rewrite <- Hks in *.
  apply moves_bind; [apply _|quiet|]. intros db1 [challenge st] [Hstart ->]%library_ok.
  apply moves_bind; [apply _|quiet|]. intros db1 value [Hv ->]%serialized_ok. apply moves_bind; [apply _| |intros; quiet].
  apply persist_ceremony_moves. intros c Ht Ha Hkind Hst. exists services. split; [done|].
  exists addr, account, passkeys. split_and!; try done; [by destruct (login_state account)|].
  exists challenge, st. split_and!; [by rewrite Hks|done|congruence].
Qed.

Lemma finish_passkey_login_moves state headers credential correlation consume update_now draw db :
  moves (grows (request_grants state headers (FinishPasskeyLogin credential correlation consume update_now draw) db))
    (finish_passkey_login state headers credential correlation consume update_now draw) db.
Proof.
  unfold finish_passkey_login. apply moves_bind; [apply _|quiet|]. intros db1 services [Hserv ->]%or_respond_ok.
  destruct (csrf_proof_is_valid _ _) eqn:Hcsrf; cbn [negb]; [|quiet].
  apply moves_bind; [apply _|quiet|]. intros db1 [token binding] (-> & Htok & Hbind)%ceremony_cookies_ok. cbv zeta.
  apply moves_bind; [apply _|apply moves_answering, finish_authentication_moves|].
  intros db1 [| |context] Hf%answering_ok; [quiet..|].
  apply finish_authentication_ok in Hf as (c & p & Hc & Hp & Hcon & Hkind & Hver & Hct & Hca).
  apply moves_bind; [apply _| |intros; quiet]. apply moves_captured, issue_browser_moves. rewrite Hct, Hca.
  intros f Hft Hfa. exists services. split; [done|]. exists c, p. split_and!; try done. exists token, binding. split_and!; done.
Qed.

Lemma begin_passkey_registration_moves state headers label access_now draw db :
  moves (grows (request_grants state headers (BeginPasskeyRegistration label access_now draw) db))
    (begin_passkey_registration state headers label access_now draw) db.
Proof.
  unfold begin_passkey_registration. apply moves_bind; [apply _|quiet|]. intros db1 services [Hserv ->]%or_respond_ok.
  apply moves_wf. intros Hwf. apply moves_bind; [apply _|quiet|].
  intros db1 session (-> & f & Hf & Hft & Hfa & _)%authenticate_access_ok; [|done]. cbv zeta.
  apply moves_bind; [apply _|apply moves_answering|intros db1 [] _; quiet]. unfold begin_registration.
  apply moves_bind; [apply _|quiet|]. intros db1 [address|] _; [|quiet]. destruct (negb _); [quiet|].
  apply moves_bind; [apply _|quiet|]. intros db2 existing _. cbv zeta. apply moves_bind; [apply _|quiet|]. intros db3 [challenge st] _.
  apply moves_bind; [apply _|quiet|]. intros db4 value _. apply moves_bind; [apply _| |intros; quiet].
  apply persist_ceremony_moves. intros c Ht Ha Hkind Hst. exists services. split; [done|]. rewrite Ht, Ha, Hft, Hfa. split; [by exists f|done].
Qed.

Lemma finish_passkey_registration_moves state headers credential access_now correlation consume id aid store_now db :
  moves (grows (request_grants state headers
    (FinishPasskeyRegistration credential access_now correlation consume id aid store_now) db))
    (finish_passkey_registration_route state headers credential access_now correlation consume id aid store_now) db.
Proof.
  unfold finish_passkey_registration_route. apply moves_bind; [apply _|quiet|]. intros db1 services [Hserv ->]%or_respond_ok.
  apply moves_wf. intros Hwf. apply moves_bind; [apply _|quiet|].
  intros db1 session (-> & f & Hf & Hft & Hfa & _)%authenticate_access_ok; [|done].
  destruct (csrf_proof_is_valid _ _) eqn:Hcsrf; cbn [negb]; [|quiet].
  apply moves_bind; [apply _|quiet|]. intros db1 [token binding] (-> & Htok & Hbind)%ceremony_cookies_ok. cbv zeta.
  apply moves_bind; [apply _|apply moves_answering|intros db1 [] _; quiet]. apply finish_registration_moves.
  intros p c st label passkey Hc Hcon Hkind Hct Hca Hpt Hpa Hst Hfin Hid Hval. exists services. split; [done|].
  rewrite ?Hpt, ?Hpa. split; [exists f; by rewrite Hft, Hfa|]. exists c, st, label, passkey. split_and!; try done. exists token, binding. done.
Qed.

(** ** The role routes *)
Lemma begin_step_up_moves state headers account_id code role grant access_now correlation now draw db :
  moves (grows (request_grants state headers
    (BeginRoleChangeStepUp account_id code role grant access_now correlation now draw) db))
    (begin_role_change_step_up state headers account_id code role grant access_now correlation now draw) db.
Proof.
  unfold begin_role_change_step_up. apply moves_bind; [apply _|quiet|]. intros db1 services [Hserv ->]%or_respond_ok.
  apply moves_wf. intros Hwf. apply moves_bind; [apply _|quiet|].
  intros db1 session (-> & f & Hf & Hperm & Ht & Ha & Hfam)%authenticate_admin_ok; [|done].
  apply moves_bind; [apply _|quiet|]. intros db1 target [Htar ->]%or_respond_ok. cbv zeta. rewrite Ht, Ha, Hfam.
  apply moves_bind; [apply _|apply moves_answering|intros db1 [] _; quiet]. unfold issue_role_change.
  apply moves_bind; [apply _|apply moves_within, complete_totp_moves|].
  intros db1 [|context] Hc%within_ok; [quiet|].
  apply complete_totp_ok in Hc as (_ & _ & row & Hrow & Hact & Hcode).
  destruct (negb _ || _); [quiet|]. cbv zeta.
  apply moves_bind; [apply _|apply moves_unwrapped; apply _|]. intros db2 expires _.
  apply moves_bind; [apply _| |intros; quiet].
  eapply moves_calling, (exec_moves (OpCreateGrant _ _ _ _)); [|reflexivity]. split; try (by intros ? []).
  intros g ->. exists services. split; [done|]. exists f, target, row. split_and!; done.
Qed.

Lemma change_role_moves state headers account_id role grant access_now correlation consume aid store_now db :
  moves (grows (request_grants state headers
    (ChangeAccountRoleRoute account_id role grant access_now correlation consume aid store_now) db))
    (change_account_role state headers account_id role grant access_now correlation consume aid store_now) db.
Proof.
  unfold change_account_role. apply moves_bind; [apply _|quiet|]. intros db1 services [Hserv ->]%or_respond_ok.
  apply moves_wf. intros Hwf. apply moves_bind; [apply _|quiet|].
  intros db1 session (-> & f & Hf & Hperm & Ht & Ha & Hfam)%authenticate_admin_ok; [|done].
  apply moves_bind; [apply _|quiet|]. intros db1 target [Htar ->]%or_respond_ok. cbv zeta.
  destruct (negb _); [quiet|]. apply moves_bind; [apply _|quiet|]. intros db1 token [Htok ->]%or_respond_ok.
  apply moves_bind; [apply _|apply moves_answering, moves_calling|].
  { by eapply (exec_moves (OpConsumeGrant _ _ _)); [split; intros ? []|]. }
  intros db1 accepted Hc%answering_ok%calling_ok. apply consume_grant_ok in Hc as [_ Hc].
  destruct accepted; cbn [negb]; [|quiet]. destruct Hc as [[? _]|(_ & (g & Hg & Hcon) & _)]; [done|].
  destruct Hcon as (Hd & Hgt & Hga & Hgf & _ & Hgd & Hgn & Hge & _). cbn in Hd, Hgt, Hga, Hgf, Hgd.
  rewrite Ht, Ha, Hfam in *. apply moves_bind; [apply _|apply moves_attempt|intros; quiet].
  eapply (exec_moves_unit_ok (OpChangeRole _ _ _)). intros db' (Hval & _)%change_role_ok.
  apply change_not_owner in Hval. cbn in Hval.
  assert (Hch : forall granted (r : AccountRoles.row), grant = granted ->
    AccountRoles.tenant_id r = SessionFamilies.tenant_id f -> AccountRoles.account_id r = target ->
    AccountRoles.role r = role_text role ->
    role_change state headers (ChangeAccountRoleRoute account_id role grant access_now correlation consume aid store_now)
      db granted r).
  { intros granted r <- Hrt Hra Hrr. exists services. split; [done|]. rewrite Hra. split_and!; try done.
    exists f, g. split_and!; try done. split_and!; try done. by exists token. }
  split; try (by intros ? []).
  - intros r [Hgr ->]. left. by apply Hch.
  - intros r [Hgr (Hrt & Hra & Hrr)]. by apply Hch.
Qed.

Lemma handle_moves state headers r db :
  moves (grows (request_grants state headers r db)) (handle state headers r) db.
Proof.
  destruct r; cbn [handle]; [quiet|quiet|apply start_moves|apply totp_moves|apply password_only_moves|apply begin_route_moves
    |apply confirm_route_moves|apply refresh_moves|apply invite_moves|apply begin_passkey_login_moves|apply finish_passkey_login_moves
    |apply begin_passkey_registration_moves|apply finish_passkey_registration_moves|apply begin_step_up_moves
    |apply change_role_moves|apply deliver_moves].
Qed.

Lemma serve_grows state request db db' reply :
  serve state request db = (db', reply) ->
  grows (request_grants state (request_headers request) (route request) db) db db'.
Proof.
  unfold serve. destruct (host_accepted _ _); [|by intros [= <- _]].
  destruct (run _ db) as [db1 r] eqn:E. intros [= <- _]. by eapply moves_run; [apply handle_moves|].
Qed.

End routes.
