(* ===== verification/Provenance.v ===== *)
(** * Where sessions come from

    Over every history of requests: no session without a verified password, not
    even through a passkey, no session past a second factor, no passkey login
    without a challenge, and no change of an account's roles without a fresh
    code of the session that asks for it. *)

From Stdlib Require Import ZArith Lia String.
From stdpp Require Import base list option numbers decidable sorting relations.
From S2P Require Import Prelude Bytes Types Sample Str Domain Totp Clock Auth Db Ingress StoreAccounts StoreSessions.
From S2P Require Import Sessions StoreLogin StorePasskeys StoreStepUp LoginService Passkeys StepUp Browser Http StoreEffects Store Growth Routes.

Section histories.
Context `{F : FabricLib} `{W : !WebauthnLib} `{V : UrlLib} `{T : TimeLib} `{K : Crypto} `{C : TotpCrypto} `{A : Argon2} `{U : Unicode} `{H : HttpLib} `{D : SqlDialect}.
Abbreviation Db := (Db Document).
Implicit Types db : Db.

(** ** Histories of requests *)

(** The state the requests, served in order from [db0], lead to. *)
Inductive served (state : FabricHttpState) (db0 : Db) : list HttpRequest -> Db -> Prop :=
| served_nil : served state db0 [] db0
| served_snoc past request db db' reply :
    served state db0 past db -> serve state request db = (db', reply) -> served state db0 (past ++ [request]) db'.

Lemma served_history state db0 past db : store_wf db0 -> served state db0 past db -> store_wf db /\ rtc store_step db0 db.
Proof.
  intros Hwf. induction 1 as [|past request db db' reply _ [Hdb Hs] H0]; [done|].
  destruct (serve_grows _ _ _ _ _ H0 Hdb). split; [done|by etrans].
Qed.

(** An earlier request presented a password that was taken for the account of [tx]. *)
Definition password_in (state : FabricHttpState) db0 (past : list HttpRequest) (tx : LoginTransactions.row) db : Prop :=
  exists before request after db1 flow address password draw,
    past = before ++ request :: after /\ served state db0 before db1 /\ rtc store_step db1 db /\
    route request = StartPasswordLogin address password draw /\ login_flow state = Some flow /\
    password_verified flow address password db1 tx.

Lemma password_later state db0 past request tx db db' :
  rtc store_step db db' -> password_in state db0 past tx db -> password_in state db0 (past ++ [request]) tx db'.
Proof.
  intros Hs (before & r & after & db1 & flow & address & password & draw & -> & Hb & Hs1 & Hrest).
  exists before, r, (after ++ [request]), db1, flow, address, password, draw.
  split; [by rewrite <- app_assoc|]. split; [done|]. split; [by etrans|done].
Qed.

(** The tenant and the account of a transaction, and its stage but for the
    confirmation stage, are those a password was presented for. *)
Definition accounted (state : FabricHttpState) db0 past db (tx : LoginTransactions.row) : Prop :=
  exists tx0, password_in state db0 past tx0 db /\
    LoginTransactions.tenant_id tx0 = LoginTransactions.tenant_id tx /\
    LoginTransactions.account_id tx0 = LoginTransactions.account_id tx /\
    (LoginTransactions.stage tx = LoginTransactions.stage tx0 \/ LoginTransactions.stage tx = database_value MfaEnrollment).

Lemma transactions_accounted state db0 past db tx :
  store_wf db0 -> login_transactions db0 = [] -> served state db0 past db -> tx ∈ login_transactions db ->
  exists tx0, derived tx0 tx /\ accounted state db0 past db tx0.
Proof.
  intros Hwf Hnone Hserved. revert tx. induction Hserved as [|past request db db' reply Hserved IH H0]; intros tx Htx.
  { rewrite Hnone in Htx. by apply elem_of_nil in Htx. }
  destruct (served_history _ _ _ _ Hwf Hserved) as [Hdb _].
  destruct (serve_grows _ _ _ _ _ H0 Hdb) as [_ Hsteps [Hl _ _ _ _ _ _]].
  apply Hl in Htx as (tx0 & Hd & [Hin|(flow & Hflow & Hg)]).
  - apply IH in Hin as (tx1 & Hd1 & tx2 & Hp & Hrest). exists tx1. split; [by etrans|].
    exists tx2. split; [by eapply password_later|done].
  - exists tx0. split; [done|]. destruct (route request) eqn:Hr; try done.
    + exists tx0. split_and!; [|done..|by left].
      exists past, request, [], db, flow, address, password, draw. split_and!; done.
    + destruct Hg as (old & Hold & _ & Ht & Ha & Hst).
      apply IH in Hold as (tx1 & Hd1 & tx2 & Hp & Ht2 & Ha2 & _). exists tx2. split; [by eapply password_later|].
      assert (Heq : LoginTransactions.tenant_id old = LoginTransactions.tenant_id tx1 /\
        LoginTransactions.account_id old = LoginTransactions.account_id tx1) by by destruct Hd1 as [->|[n ->]].
      destruct Heq. split_and!; [congruence..|by right].
Qed.

(** C9: Everything a request leaves behind is accounted for.  Serving a request
    is a history of store operations; each login transaction afterwards was there
    before, or the request presented the password stored for its account, or the
    dummy one where none is stored (its stage being the one the account's state,
    roles and factors call for), or consumed
    an enrollment transaction of that account; each session family afterwards
    was there before, or the request consumed, with its cookies and its proof
    against forgery, an unexpired transaction of that account at the route's
    stage and presented a right code where the stage calls for one, or consumed
    an unexpired ceremony of that account with an assertion that was verified and
    names an active passkey of it; each ceremony and each passkey afterwards was
    there before, or is a challenge to an active account's own passkeys, or was
    asked for with the access token of a live session of its account. *)
Theorem request_provenance state request db db' reply :
  store_wf db -> serve state request db = (db', reply) ->
  grown (request_grants state (request_headers request) (route request) db) db db'.
Proof. intros Hwf Hs. exact (serve_grows _ _ _ _ _ Hs Hwf). Qed.

(** An earlier request presented a password that was taken for the account. *)
Definition password_known (state : FabricHttpState) db0 past db (t a : Uuid) : Prop :=
  exists tx, password_in state db0 past tx db /\ LoginTransactions.tenant_id tx = t /\ LoginTransactions.account_id tx = a.

Lemma known_later state db0 past request db db' t a :
  rtc store_step db db' -> password_known state db0 past db t a -> password_known state db0 (past ++ [request]) db' t a.
Proof. intros Hs (tx & Hp & Ht & Ha). exists tx. split; [by eapply password_later|done]. Qed.

Lemma transaction_known state db0 past db headers stage now f P :
  store_wf db0 -> login_transactions db0 = [] -> served state db0 past db ->
  transaction_grant state headers stage now db f P ->
  password_known state db0 past db (SessionFamilies.tenant_id f) (SessionFamilies.account_id f).
Proof.
  intros Hwf Hnone Hserved (flow & tx & _ & Htx & _ & -> & -> & _).
  destruct (transactions_accounted _ _ _ _ _ Hwf Hnone Hserved Htx) as (tx1 & Hd & tx2 & Hp & Ht2 & Ha2 & _).
  exists tx2. split; [done|]. by destruct Hd as [->|[n ->]].
Qed.

(** The account has neither a session nor a passkey. *)
Definition signed_out (t a : Uuid) db : Prop :=
  (forall f, f ∈ session_families db -> SessionFamilies.tenant_id f = t -> SessionFamilies.account_id f <> a) /\
  (forall p, p ∈ webauthn_credentials db -> WebauthnCredentials.tenant_id p = t -> WebauthnCredentials.account_id p <> a).

(** Its sessions and its passkeys follow its password. *)
Lemma sessions_and_passkeys state db0 past db t a :
  store_wf db0 -> login_transactions db0 = [] -> signed_out t a db0 -> served state db0 past db ->
  (forall f, f ∈ session_families db -> SessionFamilies.tenant_id f = t -> SessionFamilies.account_id f = a ->
     password_known state db0 past db t a) /\
  (forall p, p ∈ webauthn_credentials db -> WebauthnCredentials.tenant_id p = t -> WebauthnCredentials.account_id p = a ->
     password_known state db0 past db t a).
Proof.
  intros Hwf Hnone [Hf0 Hp0]. induction 1 as [|past request db db' reply Hserved [IHf IHp] H0].
  { split; [intros f Hf Ht Ha; by destruct (Hf0 f Hf Ht)|intros p Hp Ht Ha; by destruct (Hp0 p Hp Ht)]. }
  destruct (served_history _ _ _ _ Hwf Hserved) as [Hdb _].
  destruct (serve_grows _ _ _ _ _ H0 Hdb) as [_ Hsteps [_ Hs _ Hc _ _ _]]. split.
  - intros f (f0 & (_ & <- & <-) & [Hf|(services & _ & Hg)])%Hs Ht Ha; eapply known_later; try done; [by eapply IHf|].
    rewrite <- Ht, <- Ha. destruct (route request); try done; try by eapply transaction_known.
    destruct Hg as (c & p & _ & Hp & _ & (_ & _ & _ & _ & _ & Hact & Hacc & _) & Hft & Hfa).
    rewrite Ht, Ha. apply (IHp p Hp); congruence.
  - intros p (p0 & (<- & <- & _) & [Hp|(services & _ & Hg)])%Hc Ht Ha; eapply known_later; try done; [by eapply IHp|].
    destruct (route request); try done.
    destruct Hg as [(f & (token & x & _ & _ & _ & _ & _ & _ & Hf & _) & Hft & Hfa) _]. apply (IHf f Hf); congruence.
Qed.

(** The address is that of the account. *)
Definition named (address : str) (t a : Uuid) db : Prop := exists addr account,
  UserAddress.parse address = Ok addr /\ login_account addr db = (db, Ok (Some account)) /\
  t = tenant_as_uuid (login_tenant_id account) /\ a = account_as_uuid (login_account_id account).

(** C4: No session without a password.  In every history of requests that starts
    without login transactions, an account that had neither a session nor a
    passkey at the start has a session only if an earlier request gave its address
    with a password that was right, when that request was served, for the verifier
    stored for the account; or, if none was stored, for the dummy verifier of the
    deployment.  For an account that had a stored password at the start it was the
    stored one.  Sessions opened with passkeys are no exception: a passkey is added
    only within a session of its account. *)
Theorem session_needs_password state db0 past db f :
  store_wf db0 -> login_transactions db0 = [] ->
  signed_out (SessionFamilies.tenant_id f) (SessionFamilies.account_id f) db0 ->
  served state db0 past db -> f ∈ session_families db ->
  exists before request after db1 flow address password draw,
    past = before ++ request :: after /\ served state db0 before db1 /\
    route request = StartPasswordLogin address password draw /\ login_flow state = Some flow /\
    named address (SessionFamilies.tenant_id f) (SessionFamilies.account_id f) db1 /\
    (stored_password flow (SessionFamilies.account_id f) password db1 \/
     dummy_password flow (SessionFamilies.account_id f) password db1) /\
    (SessionFamilies.account_id f ∈ PasswordCredentials.account_id <$> password_credentials db0 ->
     stored_password flow (SessionFamilies.account_id f) password db1).
Proof.
  intros Hwf Hnone Hout Hserved Hf.
  destruct (proj1 (sessions_and_passkeys _ _ _ _ _ _ Hwf Hnone Hout Hserved) f Hf) as (tx & Hp & <- & <-); [done..|].
  destruct Hp as (before & r & after & db1 & flow & address & password & draw & -> & Hb & _ & Hr & Hflow & Hv).
  destruct Hv as (addr & account & Haddr & Hl & Hpw & Ht & Ha & _). rewrite <- Ha in Hpw.
  exists before, r, after, db1, flow, address, password, draw.
  split; [done|]. split; [done|]. split; [done|]. split; [done|]. split; [by exists addr, account|]. split; [done|].
  intros Hin. destruct Hpw as [?|[Hno _]]; [done|]. destruct Hno.
  destruct (served_history _ _ _ _ Hwf Hb) as [_ Hs]. by apply (kept_passwords _ _ (steps_kept _ _ Hs Hwf)).
Qed.

Lemma login_account_row address account db db' :
  login_account address db = (db', Ok (Some account)) -> login_state account = Active ->
  Exists (account_in (tenant_as_uuid (login_tenant_id account)) (account_as_uuid (login_account_id account)) (lit "active"))
    (accounts db).
Proof.
  unfold login_account. intros (db1 & db2 & [= <- <-] & H0)%bind_ok Hst.
  destruct (fetch_optional _) as [[[acc ten] pass]|] eqn:Hq; [|done]. apply head_Some_elem_of in Hq.
  apply bind_ok in H0 as (db1 & st & [= <- Hp] & H0). apply bind_ok in H0 as (db1 & v & _ & [= <- <-]). simpl in *.
  subst st. unfold login_rows in Hq. apply list_elem_of_bind in Hq as (t & Hq & _).
  apply list_elem_of_bind in Hq as (a & Hq & [[Ht _] Ha]%list_elem_of_filter).
  assert (acc = a /\ ten = t) as [-> ->].
  { destruct (filter _ _) as [|p ps]; [by apply list_elem_of_singleton in Hq as [= -> -> _]|].
    by apply list_elem_of_fmap in Hq as (q & [= -> -> _] & _). }
  apply list.Exists_exists. exists a. split; [done|]. split; [done|]. split; [done|].
  unfold parse_account_state in Hp. destruct (decide _); [done|]. by repeat destruct (decide _) in Hp.
Qed.

Lemma no_factor_settled address account db :
  login_account address db = (db, Ok (Some account)) -> login_state account = Active ->
  has_active_totp_factor (login_tenant_id account) (login_account_id account) db = (db, Ok false) ->
  settled (tenant_as_uuid (login_tenant_id account)) (account_as_uuid (login_account_id account)) db.
Proof.
  intros Hl Hst Hf. split; [by eapply login_account_row|]. unfold has_active_totp_factor in Hf.
  injection Hf as Hf%bool_decide_eq_false. by apply not_Exists_Forall in Hf; [|apply _].
Qed.

(** A transaction at the issuing stage is of an account without a second factor. *)
Lemma issuance_settled state db0 past db tx :
  store_wf db0 -> login_transactions db0 = [] -> served state db0 past db -> tx ∈ login_transactions db ->
  LoginTransactions.consumed_at tx = None -> LoginTransactions.stage tx = database_value SessionIssuance ->
  settled (LoginTransactions.tenant_id tx) (LoginTransactions.account_id tx) db.
Proof.
  intros Hwf Hnone Hserved Htx Hcons Hstage.
  destruct (transactions_accounted _ _ _ _ _ Hwf Hnone Hserved Htx) as (tx1 & Hd & tx2 & Hp & Ht2 & Ha2 & Hst).
  destruct Hd as [->|[n ->]]; [|done]. destruct Hst as [Hst|Hst]; [|by rewrite Hst in Hstage].
  destruct Hp as (before & r & after & db1 & flow & address & password & draw & _ & Hb & Hsteps & _ & _ & addr & account
    & _ & Hl & _ & Htx2 & Hax2 & Hcases). destruct (served_history _ _ _ _ Hwf Hb) as [Hdb1 _].
  destruct Hcases as [[Hc _]|[[Hc _]|(_ & Hstate & Hno & _)]];
    [by rewrite <- Hst, Hstage in Hc|by rewrite <- Hst, Hstage in Hc|].
  rewrite <- Ht2, <- Ha2, Htx2, Hax2. eapply steps_settled; [done..|]. by eapply no_factor_settled.
Qed.

(** C5: The second factor cannot be skipped.  In every history of requests that
    starts without login transactions, a session for an account that has an
    active TOTP factor is created only by the TOTP route, for a code that is
    right for one of the account's active factors, or by the passkey route, for
    a verified assertion that names one of the account's active passkeys. *)
Theorem second_factor_enforced state db0 past db request db' reply f row :
  store_wf db0 -> login_transactions db0 = [] -> served state db0 past db -> serve state request db = (db', reply) ->
  f ∈ session_families db' -> SessionFamilies.id f ∉ SessionFamilies.id <$> session_families db ->
  row ∈ mfa_totp_factors db -> active_factor (SessionFamilies.tenant_id f) (SessionFamilies.account_id f) row ->
  exists services, mfa_session state = Some services /\
  match route request with
  | CompleteTotpLogin code draw => exists factor, factor ∈ mfa_totp_factors db /\
      active_factor (SessionFamilies.tenant_id f) (SessionFamilies.account_id f) factor /\
      code_verified (totp_login_keys services) factor (SessionFamilies.tenant_id f) (SessionFamilies.account_id f)
        code (finish_now draw)
  | FinishPasskeyLogin credential _ _ _ _ => exists c p, c ∈ webauthn_ceremonies db /\ p ∈ webauthn_credentials db /\
      active_credential (SessionFamilies.tenant_id f) (SessionFamilies.account_id f) p /\
      assertion_verified (webauthn_service services) credential c p
  | _ => False
  end.
Proof.
  intros Hwf Hnone Hserved H0 Hf Hnew Hrow Hact. destruct (served_history _ _ _ _ Hwf Hserved) as [Hdb _].
  destruct (serve_grows _ _ _ _ _ H0 Hdb) as [_ _ [_ Hs _ _ _ _ _]].
  apply Hs in Hf as (f0 & (Hid & Htf & Haf) & [Hf0|(services & Hserv & Hg)]).
  { destruct Hnew. rewrite <- Hid. by apply list_elem_of_fmap_2. }
  exists services. split; [done|]. rewrite <- Htf, <- Haf in *.
  destruct (route request); try done.
  - destruct Hg as (flow & tx & _ & _ & _ & -> & -> & r & Hr & Hra & Hv). by exists r.
  - destruct Hg as (flow & tx & _ & Htx & (token & binding & _ & _ & _ & _ & _ & Hstage & Hcons & _) & Ht & Ha & _).
    destruct (issuance_settled _ _ _ _ _ Hwf Hnone Hserved Htx Hcons Hstage) as [_ Hall].
    rewrite list.Forall_forall in Hall. apply (Hall row Hrow). by rewrite <- Ht, <- Ha.
  - destruct Hg as (flow & tx & _ & _ & _ & Ht & Ha & id & r & _ & _ & _ & Hall & _).
    rewrite <- Ht, <- Ha, list.Forall_forall in Hall. by destruct (Hall row Hrow).
  - destruct Hg as (c & p & Hc & Hp & _ & Hv & -> & ->). exists c, p. split_and!; try done.
    by destruct Hv as (_ & _ & _ & _ & _ & Hv).
Qed.

(** An earlier request began the ceremony, for the account's own passkeys. *)
Definition challenged_in (state : FabricHttpState) (services : FabricMfaSessionServices) db0 (past : list HttpRequest)
    (c : WebauthnCeremonies.row Document) : Prop :=
  exists before request after db1 address draw addr account passkeys,
    past = before ++ request :: after /\ served state db0 before db1 /\
    route request = BeginPasskeyLogin address draw /\ UserAddress.parse address = Ok addr /\
    login_account addr db1 = (db1, Ok (Some account)) /\ login_state account = Active /\
    deserialize_active_passkeys (login_tenant_id account) (login_account_id account) db1 = (db1, Ok passkeys) /\
    challenges (webauthn_service services) passkeys (ceremony_entropy (passkey_ceremony draw)) c /\
    WebauthnCeremonies.tenant_id c = tenant_as_uuid (login_tenant_id account) /\
    WebauthnCeremonies.account_id c = account_as_uuid (login_account_id account).

Lemma ceremonies_accounted state services db0 past db c :
  store_wf db0 -> webauthn_ceremonies db0 = [] -> mfa_session state = Some services -> served state db0 past db ->
  c ∈ webauthn_ceremonies db -> parse_webauthn_ceremony_kind (WebauthnCeremonies.kind c) = Ok Authentication ->
  challenged_in state services db0 past c.
Proof.
  intros Hwf Hnone Hserv Hserved. revert c. induction Hserved as [|past request db db' reply Hserved IH H0]; intros c Hc Hk.
  { rewrite Hnone in Hc. by apply elem_of_nil in Hc. }
  destruct (served_history _ _ _ _ Hwf Hserved) as [Hdb _]. destruct (serve_grows _ _ _ _ _ H0 Hdb) as [_ _ [_ _ Hs _ _ _ _]].
  apply Hs in Hc as (c0 & Hd & Hin).
  assert (Hk0 : parse_webauthn_ceremony_kind (WebauthnCeremonies.kind c0) = Ok Authentication) by by destruct Hd as [->|[n ->]].
  cut (challenged_in state services db0 (past ++ [request]) c0); [by destruct Hd as [->|[n ->]]|].
  destruct Hin as [(before & r & after & db1 & address & draw & addr & account & ks & -> & Hrest)%IH|(services' & Hs' & Hg)]; [|done|].
  - exists before, r, (after ++ [request]), db1, address, draw, addr, account, ks. by rewrite <- app_assoc.
  - simplify_eq. destruct (route request) eqn:Hr; try done.
    + destruct Hg as (addr & account & ks & ? & ? & ? & ? & ? & ? & ? & _).
      by exists past, request, [], db, address, draw, addr, account, ks.
    + destruct Hg as [_ Hreg]. by rewrite Hreg in Hk0.
Qed.

(** C10: Passkey logins answer challenges.  When the state of an authentication
    survives its JSON form, in every history of requests that starts without
    ceremonies, a session the passkey route opens was opened by an assertion
    that [webauthn-rs] verified against the challenge an earlier request of the
    history had issued, to that account's own active passkeys at that time, and
    that names a passkey active when the session was opened. *)
Theorem passkey_login_challenged state db0 past db request db' reply f credential correlation consume update_now draw :
  (forall st v, authentication_to_value st = Some v -> authentication_from_value v = Some st) ->
  store_wf db0 -> webauthn_ceremonies db0 = [] -> served state db0 past db -> serve state request db = (db', reply) ->
  route request = FinishPasskeyLogin credential correlation consume update_now draw ->
  f ∈ session_families db' -> SessionFamilies.id f ∉ SessionFamilies.id <$> session_families db ->
  exists services before begin after db1 address bdraw addr account passkeys challenge st verification p,
    mfa_session state = Some services /\
    past = before ++ begin :: after /\ served state db0 before db1 /\ route begin = BeginPasskeyLogin address bdraw /\
    UserAddress.parse address = Ok addr /\ login_account addr db1 = (db1, Ok (Some account)) /\
    SessionFamilies.tenant_id f = tenant_as_uuid (login_tenant_id account) /\
    SessionFamilies.account_id f = account_as_uuid (login_account_id account) /\
    deserialize_active_passkeys (login_tenant_id account) (login_account_id account) db1 = (db1, Ok passkeys) /\
    start_passkey_authentication (webauthn (webauthn_service services)) passkeys
      (ceremony_entropy (passkey_ceremony bdraw)) = Ok (challenge, st) /\
    finish_passkey_authentication (webauthn (webauthn_service services)) credential st = Ok verification /\
    p ∈ webauthn_credentials db /\ active_credential (SessionFamilies.tenant_id f) (SessionFamilies.account_id f) p /\
    credential_text (result_cred_id verification) = Ok (WebauthnCredentials.credential_id p).
Proof.
  intros Hjson Hwf Hnone Hserved H0 Hr Hf Hnew. destruct (served_history _ _ _ _ Hwf Hserved) as [Hdb _].
  destruct (serve_grows _ _ _ _ _ H0 Hdb) as [_ _ [_ Hs _ _ _ _ _]].
  apply Hs in Hf as (f0 & (Hid & Htf & Haf) & [Hf0|(services & Hserv & Hg)]).
  { destruct Hnew. rewrite <- Hid. by apply list_elem_of_fmap_2. }
  rewrite Hr in Hg. destruct Hg as (c & p & Hc & Hp & (token & binding & _ & _ & _ & _ & Hkind) & Hv & Ht & Ha).
  destruct (ceremonies_accounted _ _ _ _ _ _ Hwf Hnone Hserv Hserved Hc Hkind)
    as (before & begin & after & db1 & address & bdraw & addr & account & ks & Hpast & Hb & Hbr & Haddr & Hl & _ & Hks & Hch & Hct & Hca).
  destruct Hch as (challenge & st & _ & Hstart & Hto). destruct Hv as (st' & verification & Hfrom & Hfin & Htext & Hact).
  rewrite (Hjson _ _ Hto) in Hfrom. injection Hfrom as <-.
  exists services, before, begin, after, db1, address, bdraw, addr, account, ks, challenge, st, verification, p.
  rewrite <- Htf, <- Haf, Ht, Ha. split_and!; done.
Qed.

(** ** Changes of roles *)

(** An earlier request within the session presented a right code for the target. *)
Definition code_presented (state : FabricHttpState) (services : FabricMfaSessionServices) db0 (past : list HttpRequest)
    (f : SessionFamilies.row) (target : RoleChangeTarget) : Prop :=
  exists before begin after db1 account_id code role grant access_now correlation now draw f0 account factor,
    past = before ++ begin :: after /\ served state db0 before db1 /\
    route begin = BeginRoleChangeStepUp account_id code role grant access_now correlation now draw /\
    uuid_parse account_id = Some account /\
    session_of services (request_headers begin) access_now db1 f0 /\ permitted ManageRoles db1 f0 /\ same_family f0 f /\
    factor ∈ mfa_totp_factors db1 /\ active_factor (SessionFamilies.tenant_id f) (SessionFamilies.account_id f) factor /\
    code_verified (step_up_totp_keys (step_up services)) factor (SessionFamilies.tenant_id f)
      (SessionFamilies.account_id f) code now /\
    (** The target is the one that is changed, or SHA-256 collides on the two. *)
    let target' := {| target_account := AccountId_from_uuid account; target_role := role; target_grant := grant |} in
    role_change_target_digest target' = role_change_target_digest target /\
    (target' = target \/ role_change_target_bytes target' <> role_change_target_bytes target).

Lemma grants_accounted state db0 past db g :
  store_wf db0 -> step_up_grants db0 = [] -> served state db0 past db -> g ∈ step_up_grants db ->
  exists before begin after db1 g0, past = before ++ begin :: after /\ served state db0 before db1 /\
    grant_grant state (request_headers begin) (route begin) db1 g0 /\ derived_grant g0 g.
Proof.
  intros Hwf Hnone Hserved. revert g. induction Hserved as [|past request db db' reply Hserved IH H0]; intros g Hg.
  { rewrite Hnone in Hg. by apply elem_of_nil in Hg. }
  destruct (served_history _ _ _ _ Hwf Hserved) as [Hdb _]. destruct (serve_grows _ _ _ _ _ H0 Hdb) as [_ _ [_ _ _ _ Hs _ _]].
  apply Hs in Hg as (g0 & Hd & [(before & begin & after & db1 & g1 & -> & Hb & Hg1 & Hd1)%IH|Hg]).
  - exists before, begin, (after ++ [request]), db1, g1. split; [by rewrite <- app_assoc|]. split_and!; try done. by etrans.
  - by exists past, request, [], db, g0.
Qed.

(** The grant a change consumes was bought with a code. *)
Lemma stepped_up_presented state services db0 past db headers now f target g :
  store_wf db0 -> step_up_grants db0 = [] -> served state db0 past db -> mfa_session state = Some services ->
  stepped_up services headers now db f target g -> code_presented state services db0 past f target.
Proof.
  intros Hwf Hnone Hserved Hserv (Hg & _ & _ & Hgt & Hga & Hgf & Hgd & _).
  destruct (grants_accounted _ _ _ _ _ Hwf Hnone Hserved Hg)
    as (before & begin & after & db1 & g0 & Hpast & Hb & (services' & Hserv' & Hgr) & Hd).
  rewrite Hserv in Hserv'. injection Hserv' as <-. destruct (route begin) eqn:Hr; try done.
  destruct Hgr as (f0 & account & factor & Hf0 & Hperm & Hpath & Ht0 & Ha0 & Hfam0 & Hd0 & Hin & Hact & Hcode).
  assert (Heq : StepUpGrants.tenant_id g = StepUpGrants.tenant_id g0 /\ StepUpGrants.account_id g = StepUpGrants.account_id g0 /\
    StepUpGrants.family_id g = StepUpGrants.family_id g0 /\ StepUpGrants.target_digest g = StepUpGrants.target_digest g0)
    by by destruct Hd as [->|[n ->]]. destruct Heq as (E1 & E2 & E3 & E4).
  assert (Hst : SessionFamilies.tenant_id f0 = SessionFamilies.tenant_id f) by congruence.
  assert (Hsa : SessionFamilies.account_id f0 = SessionFamilies.account_id f) by congruence.
  rewrite Hst, Hsa in Hact, Hcode. exists before, begin, after, db1, account_id, code, role, grant, access_now, correlation, now0, draw, f0, account, factor.
  split_and!; try done; [split_and!; congruence|].
  cbv zeta. split; [congruence|]. destruct (decide (role_change_target_bytes {| target_account := AccountId_from_uuid account; target_role := role;
    target_grant := grant |} = role_change_target_bytes target)) as [?%role_change_target_bytes_inj|]; auto.
Qed.

(** C6: Roles change only with a fresh code.  In every history of requests that
    starts without step-up grants, when a request gives an existing account a
    role, or takes a role away, it is the role route, for a role other than
    owner, within a live session whose account may manage roles, with an
    unconsumed and unexpired grant of that session for that very account, role
    and direction; and an earlier request within the session presented a right
    code of an active TOTP factor for it. *)
Theorem role_changes_stepped_up state db0 past db request db' reply row :
  store_wf db0 -> step_up_grants db0 = [] -> served state db0 past db -> serve state request db = (db', reply) ->
  (row ∈ account_roles db' /\ row ∉ account_roles db /\ AccountRoles.account_id row ∈ (Accounts.id <$> accounts db)) \/
  (row ∈ account_roles db /\ row ∉ account_roles db') ->
  exists services account_id role grant access_now correlation consume aid store_now f g,
    let target := {| target_account := AccountId_from_uuid (AccountRoles.account_id row); target_role := role;
                     target_grant := grant |} in
    mfa_session state = Some services /\
    route request = ChangeAccountRoleRoute account_id role grant access_now correlation consume aid store_now /\
    uuid_parse account_id = Some (AccountRoles.account_id row) /\ AccountRoles.role row = role_text role /\ role <> Owner /\
    session_of services (request_headers request) access_now db f /\ permitted ManageRoles db f /\
    AccountRoles.tenant_id row = SessionFamilies.tenant_id f /\
    stepped_up services (request_headers request) (consume_now consume) db f target g /\
    code_presented state services db0 past f target.
Proof.
  intros Hwf Hnone Hserved H0 Hrow. destruct (served_history _ _ _ _ Hwf Hserved) as [Hdb _].
  destruct (serve_grows _ _ _ _ _ H0 Hdb) as [_ _ [_ _ _ _ _ Hadd Hkept]].
  assert (Hch : exists granted, role_change state (request_headers request) (route request) db granted row).
  { destruct Hrow as [(Hin & Hnew & Hacc)|[Hin Hgone]].
    - apply Hadd in Hin as (r0 & -> & [?|[Hch|(services & _ & Hinv)]]); [done|by exists true|].
      destruct (route request); try done. destruct Hinv as (Heq & Hfresh & _). by rewrite Heq in Hacc.
    - apply Hkept in Hin as [?|Hch]; [done|by exists false]. }
  destruct Hch as (granted & services & Hserv & Hch). destruct (route request) eqn:Hr; try done.
  destruct Hch as (-> & Hpath & Hrole & Howner & f & g & Hf & Hperm & Hten & Hup).
  exists services, account_id, role, granted, access_now, correlation, consume, new_audit, store_now, f, g.
  split_and!; try done. by eapply stepped_up_presented.
Qed.

Lemma reserved_consumption request aid now db db' r :
  table_alias (lit "grant") = false -> consume_step_up_grant request aid now db = (db', r) -> db' = db /\ exists e, r = Err e.
Proof.
  intros Hno H0. destruct r as [b|e]; [apply consume_grant_ok in H0 as [Hyes _]; congruence|].
  split; [|by exists e]. assert (Hat : atomic (consume_step_up_grant (Document := Document) request aid now))
    by (unfold consume_step_up_grant; auto with fabric). by eapply Hat.
Qed.

(** A part of a handler that changes nothing and whose early answers are not 204,
    and one that always ends in such an answer. *)
Definition declines {B} (m : M Db (Fault Response) B) : Prop := forall db db' r, m db = (db', r) ->
  db' = db /\ match r with Err (Failed x) => response_status x <> NO_CONTENT | _ => True end.
Definition refuses {B} (m : M Db (Fault Response) B) : Prop := declines m /\ forall db db' b, m db <> (db', Ok b).

Lemma declines_or_respond {B} (o : option B) r : response_status r <> NO_CONTENT -> declines (or_respond o r).
Proof. intros Hr db db' v. destruct o; by intros [= <- <-]. Qed.

Lemma declines_answering {E B} (m : M Db (Fault E) B) : reads m -> declines (answering unavailable m).
Proof.
  intros Hm db db' r. unfold answering. destruct (m db) as [db1 v] eqn:E1. apply Hm in E1 as ->.
  by destruct v as [|[]]; intros [= <- <-].
Qed.

Lemma refuses_respond {B} r : response_status r <> NO_CONTENT -> refuses (respond (B := B) r).
Proof. intros Hr. split; [by intros db db' v [= <- <-]|done]. Qed.

Lemma declines_bind {B B'} (m : M Db (Fault Response) B) (k : B -> M Db (Fault Response) B') :
  declines m -> (forall b, declines (k b)) -> declines (bind m k).
Proof.
  intros Hm Hk db db' r. unfold bind. destruct (m db) as [db1 [b|e]] eqn:E1; apply Hm in E1 as [-> E1]; [apply Hk|].
  by intros [= <- <-].
Qed.

Lemma refuses_bind {B B'} (m : M Db (Fault Response) B) (k : B -> M Db (Fault Response) B') :
  declines m -> (forall b, refuses (k b)) -> refuses (bind m k).
Proof.
  intros Hm Hk. split; [apply declines_bind; [done|intros b; by apply Hk]|].
  intros db db' b. unfold bind. destruct (m db) as [db1 [b1|e]]; [|done]. by apply Hk.
Qed.

Lemma refuses_bind_first {B B'} (m : M Db (Fault Response) B) (k : B -> M Db (Fault Response) B') :
  refuses m -> refuses (bind m k).
Proof.
  intros [Hm Hno]. split.
  - intros db db' r. unfold bind. destruct (m db) as [db1 [b|e]] eqn:E1; [by apply Hno in E1|].
    apply Hm in E1 as [-> E1]. by intros [= <- <-].
  - intros db db' b. unfold bind. destruct (m db) as [db1 [b1|e]] eqn:E1; [by apply Hno in E1|done].
Qed.

Lemma declines_admin services headers permission now : declines (authenticate_admin services headers permission now).
Proof.
  unfold authenticate_admin, authenticate_access. apply declines_bind.
  - destruct (negb _); [apply refuses_respond; done|]. apply declines_bind; [by apply declines_or_respond|]. intros token.
    apply declines_bind; [apply declines_answering, authenticate_session_reads|]. intros found. by apply declines_or_respond.
  - intros session. destruct (negb _); [by apply refuses_respond|by intros db db' r [= <- <-]].
Qed.

(** C40: Where the database does not take the word [grant] for an alias, as
    PostgreSQL does not, no role is ever changed over HTTP: the role route
    leaves the store as it was, and never answers that it changed a role. *)
Theorem reserved_alias_blocks_role_changes state request db db' reply
    account_id role grant access_now correlation consume aid store_now :
  table_alias (lit "grant") = false ->
  route request = ChangeAccountRoleRoute account_id role grant access_now correlation consume aid store_now ->
  serve state request db = (db', reply) ->
  db' = db /\ response_status (response reply) <> NO_CONTENT.
Proof.
  intros Hno Hr. unfold serve. rewrite Hr. cbn [handle].
  destruct (host_accepted _ _); [|by intros [= <- <-]].
  assert (Href : refuses (change_account_role state (request_headers request) account_id role grant access_now correlation
    consume aid store_now)).
  { unfold change_account_role. apply refuses_bind; [by apply declines_or_respond|]. intros services.
    apply refuses_bind; [apply declines_admin|]. intros session. apply refuses_bind; [by apply declines_or_respond|].
    intros target. cbv zeta. destruct (negb _); [by apply refuses_respond|].
    apply refuses_bind; [by apply declines_or_respond|]. intros token. apply refuses_bind_first. split.
    - intros db0 db1 r. unfold answering, consume_role_change, calling. destruct (consume_step_up_grant _ _ _ _) as [db2 v] eqn:E.
      apply reserved_consumption in E as [-> [e ->]]; [|done]. by intros [= <- <-].
    - intros db0 db1 b. unfold answering, consume_role_change, calling. destruct (consume_step_up_grant _ _ _ _) as [db2 v] eqn:E.
      by apply reserved_consumption in E as [-> [e ->]]. }
  unfold run. destruct (change_account_role _ _ _ _ _ _ _ _ _ _ db) as [db1 [r|[|r]]] eqn:E.
  - by apply (proj2 Href) in E.
  - apply (proj1 Href) in E as [-> _]. by intros [= <- <-].
  - apply (proj1 Href) in E as [-> E]. by intros [= <- <-].
Qed.
End histories.

Module RouteExamples.
#[local] Existing Instance SampleClock.clock.
#[local] Existing Instance Dialects.lenient.
#[local] Existing Instance Sample.crypto.
#[local] Existing Instance TotpExamples.sample.
#[local] Existing Instance DomainExamples.ascii_only.

(** Base64 with the URL-safe alphabet, without padding. *)
Definition digit64 (n : Z) : Z :=
  if n <? 26 then 65 + n else if n <? 52 then 71 + n else if n <? 62 then n - 4 else if n =? 62 then 45 else 95.
Fixpoint encode64 (l : bytes) : str :=
  match l with
  | a :: b :: c :: rest =>
      let n := Z_of_byte a * 65536 + Z_of_byte b * 256 + Z_of_byte c in
      [digit64 (n / 262144); digit64 (n / 4096 mod 64); digit64 (n / 64 mod 64); digit64 (n mod 64)] ++ encode64 rest
  | [a; b] =>
      let n := Z_of_byte a * 1024 + Z_of_byte b * 4 in
      [digit64 (n / 4096); digit64 (n / 64 mod 64); digit64 (n mod 64)]
  | [a] => let n := Z_of_byte a * 16 in [digit64 (n / 64); digit64 (n mod 64)]
  | [] => []
  end.

#[local] Instance library : FabricLib := {|
  sha256 m := Sample.padded 24 (Sample.checksum 0 m);
  base64url_decode s := Some (byte_of_Z <$> s);
  base64url_encode := encode64;
  uuid_parse s := array_try 16 (byte_of_Z <$> s);
  uuid_text := TotpExamples.hyphenated;
  Document := str * str;
  document_from_value d := Some d;
|}.

(** Passkeys are their identifiers; a challenge is its entropy and its first
    passkey, and an assertion answers it by repeating both. *)
#[local] Instance parroting : WebauthnLib := {|
  Webauthn := unit; WebauthnError := unit; CredentialID := str; Passkey := str;
  PasskeyRegistration := str; PasskeyAuthentication := str * str;
  CreationChallengeResponse := str; RequestChallengeResponse := str;
  RegisterPublicKeyCredential := str; PublicKeyCredential := str * str; AuthenticationResult := str; Entropy := str;
  start_passkey_registration _ _ _ _ _ entropy := Ok (entropy, entropy);
  finish_passkey_registration _ response state := if bool_decide (response = state) then Ok response else Err tt;
  start_passkey_authentication _ passkeys entropy :=
    match passkeys with [] => Err tt | p :: _ => Ok (entropy, (entropy, p)) end;
  finish_passkey_authentication _ response state := if bool_decide (response = state) then Ok (snd response) else Err tt;
  passkey_cred_id p := p; result_cred_id r := r; update_credential p _ := p;
  passkey_to_value p := Some (p, []); passkey_from_value d := Some (fst d);
  authentication_to_value st := Some st; authentication_from_value d := Some d;
  registration_to_value st := Some (fst st, default [] (snd st));
  registration_from_value d := Some (fst d, if bool_decide (snd d = []) then None else Some (snd d));
  cred_id_to_value id := Some (id, []); value_as_string d := Some (fst d);
  creation_json c := Some c; request_json c := Some c;
|}.

(** The address of the service. *)
#[local] Instance urls : UrlLib := {|
  Url := str; url_scheme _ := lit "https"; url_host_str u := Some u; url_username _ := []; url_password _ := None;
  url_port _ := None; url_query _ := None; url_fragment _ := None; url_path _ := lit "/";
|}.

(** A verifier that is its password after a prefix. *)
#[local] Instance plain : Argon2 := {|
  params_ok _ _ _ := true;
  phc_parse s := if bool_decide (take 1 s = lit "$") then Some (lit "argon2id", Some 19) else None;
  argon2_hash _ m _ := Some (lit "$" ++ (Z_of_byte <$> m));
  argon2_verify m s := bool_decide (s = lit "$" ++ (Z_of_byte <$> m));
|}.

(** Header values are their texts. *)
#[local] Instance headers_as_text : HttpLib := {|
  HeaderValue := str; header_from_str := Some; header_to_str := Some;
|}.

#[local] Instance headers_laws : HttpLaws headers_as_text.
Proof. split. intros s _. by exists s. Qed.

Definition uuid (z : Z) : Uuid := array_fill 16 (byte_of_Z z).
Definition drawn (z : Z) : array 32 := array_fill 32 (byte_of_Z z).
Definition tenant : TenantId := TenantId_from_uuid (uuid 1).
Definition owner : AccountId := AccountId_from_uuid (uuid 2).
Definition at_time (z : Z) : OffsetDateTime := SampleClock.second z.
Definition key (z : Z) : TokenDigestKey := TokenDigestKey_from_bytes (drawn z).
Definition password : str := lit "correct horse".
Definition verifier : PasswordVerifierString := PasswordVerifierString_of (lit "$" ++ password).
Definition keys : TotpKeyProvider :=
  {| resolve_key _ := Ok (drawn 7);
     active_key := Ok {| active_reference := TotpExamples.reference; active_data_key := drawn 7 |} |}.
Definition factor : TotpBinding :=
  {| binding_tenant_id := tenant; binding_account_id := owner; factor_id := uuid 4 |}.
Definition sealed : EncryptedTotpSeed :=
  {| ciphertext := replicate 32 x05 ++ associated_data factor; nonce := array_fill 12 x06;
     key_reference := TotpExamples.reference; digits := 6; period_seconds := 30 |}.

(** An owner with a password, an active factor and, for some, a passkey. *)
Definition setup : list StoreOp :=
  [ OpBootstrap {| BootstrapTenant.domain := DomainName_of (lit "parley.io");
                   BootstrapTenant.owner_localpart := Localpart_of (lit "alice");
                   BootstrapTenant.correlation_id := lit "c" |} (uuid 1) (uuid 2) (uuid 3) (at_time 10);
    OpStorePassword tenant owner verifier None (lit "c") (uuid 5) (at_time 11);
    OpPendingFactor tenant owner (uuid 4) sealed (lit "c") (uuid 6) (at_time 20);
    OpActivateFactor tenant owner (uuid 4) 1 (lit "c") (uuid 7) (at_time 30) ].
Definition start : Db Document := play setup empty_db.
Definition registration : list StoreOp :=
  [ OpRegisterPasskey {| register_tenant_id := tenant; register_account_id := owner; register_credential_id := lit "key";
                         register_passkey := (lit "key", []); register_label := None;
                         register_correlation_id := lit "c" |} (uuid 70) (uuid 71) (at_time 40) ].
Definition keyed : Db Document := play registration start.
Lemma setup_wf : store_wf start.
Proof. eapply steps_store_wf; [apply play_steps|apply empty_wf]. Qed.
Lemma keyed_wf : store_wf keyed.
Proof. eapply steps_store_wf; [apply play_steps|exact setup_wf]. Qed.

Definition flow : FabricLoginFlow :=
  {| password_service := {| dummy_verifier := PasswordVerifierString_of (lit "$x"); maximum_password_bytes := 1024 |};
     transaction_service := {| login_digest_key := key 1; login_policy := LoginTransactionPolicy_standard |};
     binding_digest_key := key 2 |}.
Definition policy : SessionPolicy := {| refresh_lifetime := duration_days 30; access_lifetime := duration_minutes 15 |}.
Definition state : FabricHttpState :=
  {| transport := {| public_domain := DomainName_of (lit "parley.io"); enable_hsts := true |};
     login_flow := Some flow;
     mfa_session := Some {| totp_login_keys := keys; totp_enrollment := {| key_provider := keys; issuer := lit "Parley" |};
                            session_issuer := {| issuer_digest_key := key 3; issuer_policy := policy |};
                            session_rotator := {| rotator_digest_key := key 3; rotator_policy := policy |};
                            access_authenticator := {| access_digest_key := key 3 |};
                            webauthn_service := {| webauthn := tt;
                              webauthn_policy := {| rp_domain := DomainName_of (lit "parley.io"); origin := lit "parley.io" |};
                              ceremony_digest_key := key 4; ceremony_binding_key := key 5 |};
                            step_up := {| step_up_totp_keys := keys; step_up_digest_key := key 6;
                                          step_up_policy := StepUpPolicy_standard |} |};
     federation_ingress := false |}.

(** The browser logs in with the password, then with a code. *)
Definition login : HttpRequest :=
  {| request_headers := [(HOST, lit "Parley.io")];
     route := StartPasswordLogin (lit "alice@parley.io") password
       {| start_correlation := uuid 40; start_now := at_time 80; start_binding := drawn 9;
          start_transaction := {| drawn_token := drawn 10; drawn_transaction := uuid 41;
                                  drawn_transaction_audit := uuid 42; transaction_now := at_time 80 |};
          start_csrf := drawn 11 |};
     drawn_request_id := lit "r" |}.
Definition cookies : str :=
  LOGIN_TRANSACTION_COOKIE ++ lit "=" ++ encode64 (abytes (drawn 10)) ++ lit "; "
  ++ LOGIN_BINDING_COOKIE ++ lit "=" ++ encode64 (abytes (drawn 9)) ++ lit "; "
  ++ LOGIN_CSRF_COOKIE ++ lit "=" ++ encode64 (abytes (drawn 11)).
Definition finish : HttpRequest :=
  {| request_headers := [(HOST, lit "parley.io:443"); (COOKIE, cookies); (CSRF_HEADER, encode64 (abytes (drawn 11)))];
     route := CompleteTotpLogin (show_digits 6 (code (array_fill 32 x05) 3))
       {| finish_correlation := uuid 50; finish_consume := {| consume_audit := uuid 51; consume_now := at_time 95 |};
          finish_now := at_time 95; finish_audit := uuid 52; finish_store_now := at_time 95;
          finish_issue := {| issue_now := at_time 95;
            issue_session_draw := {| drawn_refresh := drawn 12; drawn_access := drawn 13;
              drawn_ids := {| new_family := uuid 60; new_credential := uuid 61; new_access := uuid 62;
                              new_session_audit := uuid 63 |}; session_now := at_time 95 |};
            issue_csrf := drawn 14 |} |};
     drawn_request_id := lit "r" |}.
Definition challenged : Db Document := fst (serve state login start).
Definition signed_in : Db Document := fst (serve state finish challenged).

Lemma serve_served db0 past request db :
  served state db0 past db -> served state db0 (past ++ [request]) (fst (serve state request db)).
Proof. intros Hs. eapply served_snoc; [exact Hs|]. apply surjective_pairing. Qed.

Lemma challenged_served : served state start [login] challenged.
Proof. exact (serve_served start [] login start (served_nil _ _)). Qed.

Lemma start_empty : login_transactions start = [].
Proof. vm_compute. reflexivity. Qed.

Lemma only_family (fs old : list SessionFamilies.row) t a :
  ((fun f => (SessionFamilies.tenant_id f, SessionFamilies.account_id f)) <$> fs) = [(t, a)] ->
  (SessionFamilies.id <$> old) = [] ->
  exists f, f ∈ fs /\ SessionFamilies.id f ∉ SessionFamilies.id <$> old /\
    SessionFamilies.tenant_id f = t /\ SessionFamilies.account_id f = a.
Proof.
  intros Hl Hn. rewrite Hn. destruct fs as [|f l]; [done|]. injection Hl as Ht Ha _.
  exists f. split; [by left|]. split; [apply not_elem_of_nil|done].
Qed.

(** The session the code led to. *)
Lemma signed_in_family : exists f, f ∈ session_families signed_in /\
  SessionFamilies.id f ∉ SessionFamilies.id <$> session_families challenged /\
  SessionFamilies.tenant_id f = uuid 1 /\ SessionFamilies.account_id f = uuid 2.
Proof.
  assert (Hl : bool_decide (((fun f => (SessionFamilies.tenant_id f, SessionFamilies.account_id f)) <$>
    session_families signed_in) = [(uuid 1, uuid 2)]) = true) by (vm_compute; reflexivity).
  assert (Hn : bool_decide ((SessionFamilies.id <$> session_families challenged) = []) = true) by (vm_compute; reflexivity).
  exact (only_family _ _ _ _ (bool_decide_eq_true_1 _ Hl) (bool_decide_eq_true_1 _ Hn)).
Qed.

Lemma challenged_factor : exists row, row ∈ mfa_totp_factors challenged /\ active_factor (uuid 1) (uuid 2) row.
Proof.
  assert (He : bool_decide (Exists (active_factor (uuid 1) (uuid 2)) (mfa_totp_factors challenged)) = true)
    by (vm_compute; reflexivity).
  apply bool_decide_eq_true in He. by apply list.Exists_exists in He.
Qed.

Lemma request_provenance_witness :
  grown (request_grants state (request_headers login) (route login) start) start challenged.
Proof. exact (request_provenance state login start challenged _ setup_wf (surjective_pairing _)). Defined.

Lemma signed_in_served : served state start [login; finish] signed_in.
Proof. exact (serve_served start [login] finish challenged challenged_served). Qed.

Lemma empty_signed_out t a (db : Db Document) :
  session_families db = [] -> webauthn_credentials db = [] -> signed_out t a db.
Proof. intros Hf Hc. split; rewrite ?Hf, ?Hc; by intros ? []%elem_of_nil. Qed.

Lemma start_password : uuid 2 ∈ PasswordCredentials.account_id <$> password_credentials start.
Proof. apply (bool_decide_eq_true_1 _). vm_compute. reflexivity. Qed.

(** The account starts with a stored password. *)
Lemma session_needs_password_witness : exists f before request after db1 flow address password draw,
  f ∈ session_families signed_in /\ [login; finish] = before ++ request :: after /\
  route request = StartPasswordLogin address password draw /\ login_flow state = Some flow /\
  stored_password flow (SessionFamilies.account_id f) password db1.
Proof.
  destruct signed_in_family as (f & Hf & _ & _ & Ha). assert (Hn : session_families start = []) by (vm_compute; reflexivity).
  assert (Hc : webauthn_credentials start = []) by (vm_compute; reflexivity).
  destruct (session_needs_password state start [login; finish] signed_in f setup_wf start_empty
    (empty_signed_out _ _ _ Hn Hc) signed_in_served Hf)
    as (before & request & after & db1 & flow & address & password & draw & Hpast & _ & Hr & Hflow & _ & _ & Hstored).
  exists f, before, request, after, db1, flow, address, password, draw.
  split; [exact Hf|]. split; [exact Hpast|]. split; [exact Hr|]. split; [exact Hflow|]. apply Hstored.
  rewrite Ha. apply start_password.
Defined.

Lemma second_factor_enforced_witness : exists services row, mfa_session state = Some services /\
  row ∈ mfa_totp_factors challenged /\
  code_verified (totp_login_keys services) row (uuid 1) (uuid 2) (show_digits 6 (code (array_fill 32 x05) 3)) (at_time 95).
Proof.
  destruct signed_in_family as (f & Hf & Hnew & Ht & Ha). destruct challenged_factor as (row & Hrow & Hact).
  destruct (second_factor_enforced state start [login] challenged finish signed_in (snd (serve state finish challenged))
    f row setup_wf start_empty challenged_served (surjective_pairing _) Hf Hnew Hrow)
    as (services & Hs & r & Hin & _ & Hv); [by rewrite Ht, Ha|].
  exists services, r. rewrite Ht, Ha in Hv. split; [exact Hs|]. split; [exact Hin|exact Hv].
Defined.

(** The browser logs in with the passkey. *)
Definition passkey_begin : HttpRequest :=
  {| request_headers := [(HOST, lit "parley.io")];
     route := BeginPasskeyLogin (lit "alice@parley.io")
       {| passkey_correlation := uuid 80; passkey_now := at_time 100;
          passkey_ceremony := {| ceremony_entropy := lit "nonce"; drawn_ceremony_token := drawn 20;
            drawn_ceremony_binding := drawn 21; drawn_ceremony := uuid 81; drawn_ceremony_audit := uuid 82;
            ceremony_store_now := at_time 100 |};
          passkey_csrf := drawn 22 |};
     drawn_request_id := lit "r" |}.
Definition passkey_cookies : str :=
  WEBAUTHN_CEREMONY_COOKIE ++ lit "=" ++ encode64 (abytes (drawn 20)) ++ lit "; "
  ++ WEBAUTHN_BINDING_COOKIE ++ lit "=" ++ encode64 (abytes (drawn 21)) ++ lit "; "
  ++ WEBAUTHN_CSRF_COOKIE ++ lit "=" ++ encode64 (abytes (drawn 22)).
Definition passkey_issue : IssueDraw :=
  {| issue_now := at_time 105;
     issue_session_draw := {| drawn_refresh := drawn 30; drawn_access := drawn 31;
       drawn_ids := {| new_family := uuid 90; new_credential := uuid 91; new_access := uuid 92;
                       new_session_audit := uuid 93 |}; session_now := at_time 105 |};
     issue_csrf := drawn 32 |}.
Definition passkey_consume : ConsumeDraw := {| consume_audit := uuid 84; consume_now := at_time 105 |}.
Definition passkey_finish : HttpRequest :=
  {| request_headers := [(HOST, lit "parley.io"); (COOKIE, passkey_cookies); (CSRF_HEADER, encode64 (abytes (drawn 22)))];
     route := FinishPasskeyLogin (lit "nonce", lit "key") (uuid 83) passkey_consume (at_time 105) passkey_issue;
     drawn_request_id := lit "r" |}.
Definition begun : Db Document := fst (serve state passkey_begin keyed).
Definition passed : Db Document := fst (serve state passkey_finish begun).

Lemma passed_family : exists f, f ∈ session_families passed /\
  SessionFamilies.id f ∉ SessionFamilies.id <$> session_families begun /\
  SessionFamilies.tenant_id f = uuid 1 /\ SessionFamilies.account_id f = uuid 2.
Proof.
  assert (Hl : bool_decide (((fun f => (SessionFamilies.tenant_id f, SessionFamilies.account_id f)) <$>
    session_families passed) = [(uuid 1, uuid 2)]) = true) by (vm_compute; reflexivity).
  assert (Hn : bool_decide ((SessionFamilies.id <$> session_families begun) = []) = true) by (vm_compute; reflexivity).
  exact (only_family _ _ _ _ (bool_decide_eq_true_1 _ Hl) (bool_decide_eq_true_1 _ Hn)).
Qed.

Lemma passkey_login_challenged_witness : exists before begin after db1 account passkeys p,
  [passkey_begin] = before ++ begin :: after /\ served state keyed before db1 /\
  deserialize_active_passkeys (login_tenant_id account) (login_account_id account) db1 = (db1, Ok passkeys) /\
  p ∈ webauthn_credentials begun /\ active_credential (uuid 1) (uuid 2) p.
Proof.
  destruct passed_family as (f & Hf & Hnew & Ht & Ha).
  assert (Hn : webauthn_ceremonies keyed = []) by (vm_compute; reflexivity).
  destruct (passkey_login_challenged state keyed [passkey_begin] begun passkey_finish passed
    (snd (serve state passkey_finish begun)) f (lit "nonce", lit "key") (uuid 83) passkey_consume (at_time 105) passkey_issue)
    as (services & before & begin & after & db1 & address & bdraw & addr & account & ks & challenge & st & verification & p
        & _ & Hpast & Hserved & _ & _ & _ & _ & _ & Hks & _ & _ & Hp & Hact & _).
  - intros st v [= <-]. reflexivity.
  - exact keyed_wf.
  - exact Hn.
  - exact (serve_served keyed [] passkey_begin keyed (served_nil _ _)).
  - apply surjective_pairing.
  - reflexivity.
  - exact Hf.
  - exact Hnew.
  - rewrite Ht, Ha in Hact. exists before, begin, after, db1, account, ks, p.
    split; [exact Hpast|]. split; [exact Hserved|]. split; [exact Hks|]. split; [exact Hp|exact Hact].
Defined.

(** The owner, signed in, makes another account an auditor. *)
Definition invitation : list StoreOp :=
  [ OpInvite {| InviteAccount.tenant_id := tenant; InviteAccount.localpart := Localpart_of (lit "bob");
                InviteAccount.initial_role := Member;
                InviteAccount.actor := {| AdministrationActor.tenant_id := tenant; AdministrationActor.account_id := owner;
                  AdministrationActor.roles := [Owner]; AdministrationActor.step_up_verified := false;
                  AdministrationActor.account_state := Active |};
                InviteAccount.correlation_id := lit "c" |} (uuid 100) (uuid 101) (at_time 100) ].
Definition staffed : Db Document := play invitation signed_in.
Lemma signed_in_wf : store_wf signed_in.
Proof. exact (proj1 (served_history _ _ _ _ setup_wf signed_in_served)). Qed.
Lemma staffed_wf : store_wf staffed.
Proof. eapply steps_store_wf; [apply play_steps|exact signed_in_wf]. Qed.

Definition session_headers (more : str) : HeaderMap :=
  [(HOST, lit "parley.io");
   (COOKIE, ACCESS_COOKIE ++ lit "=" ++ encode64 (abytes (drawn 13)) ++ lit "; "
      ++ SESSION_CSRF_COOKIE ++ lit "=" ++ encode64 (abytes (drawn 14)) ++ more);
   (CSRF_HEADER, encode64 (abytes (drawn 14)))].
Definition colleague : str := replicate 16 100.
Definition step_up_begin : HttpRequest :=
  {| request_headers := session_headers [];
     route := BeginRoleChangeStepUp colleague (show_digits 6 (code (array_fill 32 x05) 4)) Auditor true (at_time 125)
       (uuid 102) (at_time 125)
       {| drawn_grant_token := drawn 40; drawn_grant := uuid 103; drawn_grant_audit := uuid 104;
          grant_store_now := at_time 125 |};
     drawn_request_id := lit "r" |}.
Definition change_consume : ConsumeDraw := {| consume_audit := uuid 106; consume_now := at_time 130 |}.
Definition change : HttpRequest :=
  {| request_headers := session_headers (lit "; " ++ STEP_UP_COOKIE ++ lit "=" ++ encode64 (abytes (drawn 40)));
     route := ChangeAccountRoleRoute colleague Auditor true (at_time 130) (uuid 105) change_consume (uuid 107) (at_time 130);
     drawn_request_id := lit "r" |}.
Definition proven : Db Document := fst (serve state step_up_begin staffed).
Definition changed : Db Document := fst (serve state change proven).

(** The row the change adds. *)
Definition auditor : AccountRoles.row :=
  role_row (uuid 1) (uuid 100) Auditor (Some (uuid 2)) (at_time 130).
#[local] Instance role_row_eq_dec : EqDecision AccountRoles.row.
Proof. solve_decision. Defined.

Lemma role_changes_stepped_up_witness :
  response_status (response (snd (serve state change proven))) = NO_CONTENT /\
  exists services f, mfa_session state = Some services /\
    code_presented state services staffed [step_up_begin] f
      {| target_account := AccountId_from_uuid (uuid 100); target_role := Auditor; target_grant := true |}.
Proof.
  split; [vm_compute; reflexivity|].
  assert (Hin : bool_decide (auditor ∈ account_roles changed) = true) by (vm_compute; reflexivity).
  assert (Hout : bool_decide (auditor ∉ account_roles proven) = true) by (vm_compute; reflexivity).
  assert (Hacc : bool_decide (AccountRoles.account_id auditor ∈ (Accounts.id <$> accounts proven)) = true)
    by (vm_compute; reflexivity).
  assert (Hn : step_up_grants staffed = []) by (vm_compute; reflexivity).
  destruct (role_changes_stepped_up state staffed [step_up_begin] proven change changed (snd (serve state change proven)) auditor)
    as (services & account_id & role & grant & access_now & correlation & consume & aid & store_now & f & g & Hs & Hr
        & _ & _ & _ & _ & _ & _ & _ & Hcode).
  - exact staffed_wf.
  - exact Hn.
  - exact (serve_served staffed [] step_up_begin staffed (served_nil _ _)).
  - apply surjective_pairing.
  - left. split; [exact (bool_decide_eq_true_1 _ Hin)|]. split; [exact (bool_decide_eq_true_1 _ Hout)|].
    exact (bool_decide_eq_true_1 _ Hacc).
  - injection Hr as _ <- <- _ _ _ _ _. exists services, f. split; [exact Hs|exact Hcode].
Defined.

Lemma reserved_alias_blocks_role_changes_witness :
  table_alias (SqlDialect := Dialects.reserving) (lit "grant") = false /\
  fst (serve (D := Dialects.reserving) state change proven) = proven.
Proof.
  split; [vm_compute; reflexivity|].
  exact (proj1 (reserved_alias_blocks_role_changes (D := Dialects.reserving) state change proven _ _ _ _ _ _ _ _ _ _
    eq_refl eq_refl (surjective_pairing _))).
Defined.
End RouteExamples.
