(* ===== verification/Launch.v ===== *)
(** * The service process

    [crates/fcp-fabric-service/src/main.rs] and the router constructors of
    [transport.rs]: what the environment configures, which services are built
    from it and which routes they answer.  The environment is what
    [std::env::var] reads; socket addresses are parsed as the standard library
    parses them.  Connecting to the database, binding the listener, parsing a URL
    and building the WebAuthn library are parameters; [None] is a panic. *)

From Stdlib Require Import ZArith Lia String.
From stdpp Require Import base list option numbers decidable relations.
From S2P Require Import Prelude Bytes Types Identity Sample Str Domain Totp Clock Auth Db Ingress StoreAccounts StoreSessions StoreLogin.
From S2P Require Import StorePasskeys StoreStepUp Sessions StoreEffects Store LoginService Passkeys StepUp Browser Http Growth Routes Kms Provenance.

(** ** Socket addresses ([core::net]) *)
Module Net.

Inductive IpAddr : Type :=
| V4 (octets : list Z)
| V6 (segments : list Z).
Record SocketAddr : Type := { ip : IpAddr; port : Z; scope_id : Z }.

Definition is_loopback (a : IpAddr) : bool :=
  match a with
  | V4 octets => bool_decide (head octets = Some 127)
  | V6 segments => bool_decide (segments = [0; 0; 0; 0; 0; 0; 0; 1])
  end.

(** A parser that fails leaves its input as it was. *)
Definition Parser (A : Type) : Type := bytes -> option (A * bytes).

Definition to_digit (radix c : Z) : option Z :=
  let d := if (48 <=? c) && (c <=? 57) then c - 48
           else if (97 <=? c) && (c <=? 122) then c - 87
           else if (65 <=? c) && (c <=? 90) then c - 55 else radix in
  if d <? radix then Some d else None.

Definition read_given_char (c : Z) : Parser unit := fun s =>
  match s with
  | b :: s' => if Z_of_byte b =? c then Some (tt, s') else None
  | [] => None
  end.

(** The digits of a number: too many of them, or a value that does not fit, fail. *)
Fixpoint few_digits (radix : Z) (max : nat) (s : bytes) (value : Z) (count : nat) : option (Z * nat * bytes) :=
  match s with
  | [] => Some (value, count, s)
  | b :: s' =>
      match to_digit radix (Z_of_byte b) with
      | None => Some (value, count, s)
      | Some d => if (max <=? count)%nat then None else few_digits radix max s' (value * radix + d) (S count)
      end
  end.
Fixpoint fitting_digits (radix limit : Z) (s : bytes) (value : Z) (count : nat) : option (Z * nat * bytes) :=
  match s with
  | [] => Some (value, count, s)
  | b :: s' =>
      match to_digit radix (Z_of_byte b) with
      | None => Some (value, count, s)
      | Some d => if value * radix + d <? limit then fitting_digits radix limit s' (value * radix + d) (S count) else None
      end
  end.

Definition read_number (radix limit : Z) (max_digits : option nat) (allow_zero_prefix : bool) : Parser Z := fun s =>
  '(value, count, rest) ← match max_digits with
                          | Some max => few_digits radix max s 0 0
                          | None => fitting_digits radix limit s 0 0
                          end;
  if (count =? 0)%nat then None
  else if negb allow_zero_prefix && bool_decide (Z_of_byte <$> head s = Some 48) && (1 <? count)%nat then None
  else if value <? limit then Some (value, rest) else None.

Definition read_separator {A} (sep : Z) (index : nat) (inner : Parser A) : Parser A := fun s =>
  match index with
  | O => inner s
  | S _ => '(_, s) ← read_given_char sep s; inner s
  end.

Definition read_octet (index : nat) : Parser Z := read_separator 46 index (read_number 10 256 (Some 3%nat) false).

Definition read_ipv4_addr : Parser (list Z) := fun s =>
  '(a, s) ← read_octet 0 s; '(b, s) ← read_octet 1 s; '(c, s) ← read_octet 2 s; '(d, s) ← read_octet 3 s;
  Some ([a; b; c; d], s).

(** Up to [room] more groups; the flag tells of an IPv4 address at the end. *)
Fixpoint read_groups (room index : nat) (s : bytes) : list Z * bool * bytes :=
  match room with
  | O => ([], false, s)
  | S room =>
      match (if (room =? 0)%nat then None else read_separator 58 index read_ipv4_addr s) with
      | Some ([a; b; c; d], s) => ([a * 256 + b; c * 256 + d], true, s)
      | _ =>
          match read_separator 58 index (read_number 16 65536 (Some 4%nat) true) s with
          | Some (g, s) => let '(gs, v4, s) := read_groups room (S index) s in (g :: gs, v4, s)
          | None => ([], false, s)
          end
      end
  end.

Definition read_ipv6_addr : Parser (list Z) := fun s =>
  let '(head, head_ipv4, s) := read_groups 8 0 s in
  if (length head =? 8)%nat then Some (head, s) else
  if head_ipv4 then None else
  '(_, s) ← read_given_char 58 s; '(_, s) ← read_given_char 58 s;
  let '(tail, _, s) := read_groups (7 - length head) 0 s in
  Some (head ++ replicate (8 - length head - length tail) 0 ++ tail, s).

Definition read_port : Parser Z := fun s =>
  '(_, s) ← read_given_char 58 s; read_number 10 65536 None true s.

Definition read_scope_id : Parser Z := fun s =>
  '(_, s) ← read_given_char 37 s; read_number 10 (2 ^ 32) None true s.

Definition read_socket_addr_v4 : Parser SocketAddr := fun s =>
  '(a, s) ← read_ipv4_addr s; '(p, s) ← read_port s;
  Some ({| ip := V4 a; port := p; scope_id := 0 |}, s).

Definition read_socket_addr_v6 : Parser SocketAddr := fun s =>
  '(_, s) ← read_given_char 91 s; '(a, s) ← read_ipv6_addr s;
  let '(scope, s) := default (0, s) (read_scope_id s) in
  '(_, s) ← read_given_char 93 s; '(p, s) ← read_port s;
  Some ({| ip := V6 a; port := p; scope_id := scope |}, s).

(** [SocketAddr::from_str]: the whole text is an address. *)
Definition from_str (text : str) : option SocketAddr :=
  let s := str_bytes text in
  '(a, rest) ← match read_socket_addr_v4 s with
               | Some r => Some r
               | None => read_socket_addr_v6 s
               end;
  if bool_decide (rest = []) then Some a else None.

End Net.

(** ** The environment *)
Definition Environment : Type := str -> option bytes.

(** [std::env::var]: a variable that is unset, or not Unicode, is an error. *)
Definition var (env : Environment) (name : str) : option str := b ← env name; from_utf8 b.

(** [Option::expect]. *)
Definition expect {E A} (o : option A) : X E A := match o with Some a => Some (Ok a) | None => None end.

Inductive ServiceLaunchError {Error : Type} : Type :=
| MissingPublicDomain
| LaunchDomain (source : DomainError)
| BindAddress
| PublicBindForbidden
| PartialLoginConfiguration
| MfaRequiresLoginConfiguration
| PartialMfaConfiguration
| AwsKmsFeatureRequired
| DatabasePoolSize
| InvalidDatabasePoolSize
| MalformedDigestKey
| DummyVerifier (source : PasswordError)
| ActiveTotpKeyReference (source : TotpError)
| WebauthnOrigin
| LaunchWebauthnPolicy (source : Error)
| LaunchWebauthn (source : Error)
| LaunchSessionPolicy (source : SessionIssueError)
| LaunchStore (source : StoreError)
| Bind
| Serve.
Arguments ServiceLaunchError : clear implicits.

Record MfaRuntimeConfig : Type := {
  active_totp_key_reference : str;
  totp_issuer : str;
  session_digest_key : array 32;
  mfa_step_up_digest_key : array 32;
  webauthn_ceremony_digest_key : array 32;
  webauthn_binding_digest_key : array 32;
}.

Record LoginRuntimeConfig : Type := {
  database_url : str;
  login_dummy_verifier : str;
  transaction_digest_key : array 32;
  login_binding_digest_key : array 32;
  max_connections : Z;
  mfa : option MfaRuntimeConfig;
}.

Record LaunchConfig : Type := {
  launch_bind : Net.SocketAddr;
  launch_transport : FabricTransportConfig;
  launch_login : option LoginRuntimeConfig;
}.

Definition LOGIN_VARIABLES : list str :=
  [lit "FCP_DATABASE_URL"; lit "FABRIC_PASSWORD_DUMMY_VERIFIER"; lit "FABRIC_LOGIN_TRANSACTION_DIGEST_KEY";
   lit "FABRIC_LOGIN_BINDING_DIGEST_KEY"].
Definition VARIABLES : list str :=
  [lit "FABRIC_TOTP_ACTIVE_KEY_REFERENCE"; lit "FABRIC_TOTP_ISSUER"; lit "FABRIC_SESSION_DIGEST_KEY";
   lit "FABRIC_STEP_UP_DIGEST_KEY"; lit "FABRIC_WEBAUTHN_CEREMONY_DIGEST_KEY";
   lit "FABRIC_WEBAUTHN_BINDING_DIGEST_KEY"].

(** What the process calls outside: the connection pool, the URL parser, the
    builder of the WebAuthn library, the listener and the server loop. *)
Class LaunchLib `{F : FabricLib} `{!WebauthnLib} `{UrlLib} : Type := {
  connect : str -> Z -> result StoreError unit;
  url_parse : str -> option Url;
  webauthn_build : str -> Url -> str -> result WebauthnError Webauthn;
  tcp_bind : Net.SocketAddr -> bool;
  serve_until_shutdown : Net.SocketAddr -> bool;
}.

Definition is_set (o : option str) : bool := match o with Some _ => true | None => false end.

Section launch.
Context `{F : FabricLib} `{W : !WebauthnLib} `{V : UrlLib} `{T : TimeLib} `{A : Argon2} `{U : Unicode} `{L : !LaunchLib}.
Abbreviation E := (ServiceLaunchError WebauthnServiceError).

(** ** Configuration *)
Definition decode_key (value : str) : result E (array 32) :=
  let? decoded := ok_or (base64url_decode value) MalformedDigestKey in
  ok_or (array_try 32 decoded) MalformedDigestKey.

Definition any_environment_variable_is_set (env : Environment) : bool :=
  existsb (fun name => is_set (var env name)) VARIABLES.

Definition MfaRuntimeConfig_from_environment (env : Environment) : X E (option MfaRuntimeConfig) :=
  let active_totp_key_reference := var env (lit "FABRIC_TOTP_ACTIVE_KEY_REFERENCE") in
  let totp_issuer := var env (lit "FABRIC_TOTP_ISSUER") in
  let session_digest_key := var env (lit "FABRIC_SESSION_DIGEST_KEY") in
  let step_up_digest_key := var env (lit "FABRIC_STEP_UP_DIGEST_KEY") in
  let webauthn_ceremony_digest_key := var env (lit "FABRIC_WEBAUTHN_CEREMONY_DIGEST_KEY") in
  let webauthn_binding_digest_key := var env (lit "FABRIC_WEBAUTHN_BINDING_DIGEST_KEY") in
  let configured := [is_set active_totp_key_reference; is_set totp_issuer; is_set session_digest_key;
    is_set step_up_digest_key; is_set webauthn_ceremony_digest_key; is_set webauthn_binding_digest_key] in
  if forallb negb configured then xret (Ok None) else
  if existsb negb configured then xret (Err PartialMfaConfiguration) else
  let* active_totp_key_reference := expect active_totp_key_reference in
  let* totp_issuer := expect totp_issuer in
  let* session := expect session_digest_key in
  let* session := xret (decode_key session) in
  let* step_up := expect step_up_digest_key in
  let* step_up := xret (decode_key step_up) in
  let* ceremony := expect webauthn_ceremony_digest_key in
  let* ceremony := xret (decode_key ceremony) in
  let* binding := expect webauthn_binding_digest_key in
  let* binding := xret (decode_key binding) in
  xret (Ok (Some {| active_totp_key_reference := active_totp_key_reference; totp_issuer := totp_issuer;
    session_digest_key := session; mfa_step_up_digest_key := step_up;
    webauthn_ceremony_digest_key := ceremony; webauthn_binding_digest_key := binding |})).

Definition LoginRuntimeConfig_from_environment (env : Environment) : X E (option LoginRuntimeConfig) :=
  let database_url := var env (lit "FCP_DATABASE_URL") in
  let dummy_verifier := var env (lit "FABRIC_PASSWORD_DUMMY_VERIFIER") in
  let transaction_digest_key := var env (lit "FABRIC_LOGIN_TRANSACTION_DIGEST_KEY") in
  let binding_digest_key := var env (lit "FABRIC_LOGIN_BINDING_DIGEST_KEY") in
  let configured := [is_set database_url; is_set dummy_verifier; is_set transaction_digest_key;
    is_set binding_digest_key] in
  if forallb negb configured then
    if any_environment_variable_is_set env then xret (Err MfaRequiresLoginConfiguration) else xret (Ok None) else
  if existsb negb configured then xret (Err PartialLoginConfiguration) else
  let* max_connections := xret (ok_or
    (parse_u32 (default (lit "10") (var env (lit "FABRIC_DATABASE_MAX_CONNECTIONS")))) DatabasePoolSize) in
  if (max_connections =? 0) || (64 <? max_connections) then xret (Err InvalidDatabasePoolSize) else
  let* database_url := expect database_url in
  let* dummy_verifier := expect dummy_verifier in
  let* transaction := expect transaction_digest_key in
  let* transaction := xret (decode_key transaction) in
  let* binding := expect binding_digest_key in
  let* binding := xret (decode_key binding) in
  let* mfa := MfaRuntimeConfig_from_environment env in
  xret (Ok (Some {| database_url := database_url; login_dummy_verifier := dummy_verifier;
    transaction_digest_key := transaction; login_binding_digest_key := binding;
    max_connections := max_connections; mfa := mfa |})).

(** [FabricTransportConfig::new] and [with_hsts]. *)
Definition transport_new (domain : DomainName) : FabricTransportConfig :=
  {| public_domain := domain; enable_hsts := false |}.
Definition with_hsts (config : FabricTransportConfig) : FabricTransportConfig :=
  {| public_domain := public_domain config; enable_hsts := true |}.

Definition LaunchConfig_from_environment (env : Environment) : X E LaunchConfig :=
  let* domain := xret (ok_or (var env (lit "FABRIC_PUBLIC_DOMAIN")) MissingPublicDomain) in
  let* domain := xret (map_err LaunchDomain (DomainName.parse domain)) in
  let bind := default (lit "127.0.0.1:8080") (var env (lit "FABRIC_BIND")) in
  let* bind := xret (ok_or (Net.from_str bind) BindAddress) in
  if negb (Net.is_loopback (Net.ip bind)) then xret (Err PublicBindForbidden) else
  let transport := if bool_decide (var env (lit "FABRIC_ENABLE_HSTS") = Some (lit "true"))
                   then with_hsts (transport_new domain) else transport_new domain in
  let* login := LoginRuntimeConfig_from_environment env in
  xret (Ok {| launch_bind := bind; launch_transport := transport; launch_login := login |}).

(** ** Routers ([transport.rs]) *)
Definition router_inner (config : FabricTransportConfig) (flow : option FabricLoginFlow)
    (services : option FabricMfaSessionServices) (ingress : bool) : FabricHttpState :=
  {| transport := config; login_flow := flow; mfa_session := services; federation_ingress := ingress |}.
Definition router (config : FabricTransportConfig) : FabricHttpState := router_inner config None None false.
Definition router_with_login (config : FabricTransportConfig) (flow : FabricLoginFlow) : FabricHttpState :=
  router_inner config (Some flow) None false.
Definition router_with_mfa_session (config : FabricTransportConfig) (flow : FabricLoginFlow)
    (services : FabricMfaSessionServices) : FabricHttpState :=
  router_inner config (Some flow) (Some services) false.
Definition router_with_federation (config : FabricTransportConfig) : FabricHttpState := router_inner config None None true.
Definition router_with_mfa_session_and_federation (config : FabricTransportConfig) (flow : FabricLoginFlow)
    (services : FabricMfaSessionServices) : FabricHttpState :=
  router_inner config (Some flow) (Some services) true.

(** [WebauthnService::new]. *)
Definition WebauthnService_new (policy : WebauthnPolicy) (ceremony_key binding_key : TokenDigestKey) :
    result WebauthnServiceError WebauthnService :=
  let? built := map_err WebauthnFailure
    (webauthn_build (domain_as_str (rp_domain policy)) (origin policy) (lit "FCP Fabric")) in
  Ok {| webauthn := built; webauthn_policy := policy; ceremony_digest_key := ceremony_key;
        ceremony_binding_key := binding_key |}.

(** [aws_kms]: whether the binary has the feature; [provide]: the keys the
    provider of a reference resolves. *)
Definition full_mfa_router (aws_kms : bool) (provide : AwsKmsTotpKeyProvider.t -> TotpKeyProvider)
    (transport : FabricTransportConfig) (flow : FabricLoginFlow) (mfa : MfaRuntimeConfig) :
    result E FabricHttpState :=
  if negb aws_kms then Err AwsKmsFeatureRequired else
  let? active_reference := map_err ActiveTotpKeyReference (TotpKeyReference_new (active_totp_key_reference mfa)) in
  let provider := provide {| AwsKmsTotpKeyProvider.active_reference := active_reference |} in
  let? session_policy := map_err LaunchSessionPolicy (SessionPolicy_new (duration_days 30)) in
  let session_digest_key := TokenDigestKey_from_bytes (session_digest_key mfa) in
  let? webauthn_origin := ok_or
    (url_parse (lit "https://" ++ domain_as_str (public_domain transport) ++ lit "/")) WebauthnOrigin in
  let? webauthn_policy := map_err LaunchWebauthnPolicy
    (WebauthnPolicy_new (public_domain transport) webauthn_origin) in
  let? webauthn := map_err LaunchWebauthn (WebauthnService_new webauthn_policy
    (TokenDigestKey_from_bytes (webauthn_ceremony_digest_key mfa))
    (TokenDigestKey_from_bytes (webauthn_binding_digest_key mfa))) in
  Ok (router_with_mfa_session transport flow
    {| totp_login_keys := provider;
       totp_enrollment := {| key_provider := provider; issuer := totp_issuer mfa |};
       session_issuer := {| issuer_digest_key := session_digest_key; issuer_policy := session_policy |};
       session_rotator := {| rotator_digest_key := session_digest_key; rotator_policy := session_policy |};
       access_authenticator := {| access_digest_key := session_digest_key |};
       webauthn_service := webauthn;
       step_up := {| step_up_totp_keys := provider;
                     step_up_digest_key := TokenDigestKey_from_bytes (mfa_step_up_digest_key mfa);
                     step_up_policy := StepUpPolicy_standard |} |}).

(** The part of [run] before the server loop: the address and the router. *)
Definition startup (aws_kms : bool) (provide : AwsKmsTotpKeyProvider.t -> TotpKeyProvider) (env : Environment) :
    X E (Net.SocketAddr * FabricHttpState) :=
  let* config := LaunchConfig_from_environment env in
  let* app :=
    match launch_login config with
    | Some login =>
        let* _ := xret (map_err LaunchStore (connect (database_url login) (max_connections login))) in
        let* dummy_verifier := xret (map_err DummyVerifier (from_persisted (login_dummy_verifier login))) in
        let flow :=
          {| password_service := {| dummy_verifier := dummy_verifier; maximum_password_bytes := 1024 |};
             transaction_service :=
               {| login_digest_key := TokenDigestKey_from_bytes (transaction_digest_key login);
                  login_policy := LoginTransactionPolicy_standard |};
             binding_digest_key := TokenDigestKey_from_bytes (login_binding_digest_key login) |} in
        xret (match mfa login with
              | Some mfa => full_mfa_router aws_kms provide (launch_transport config) flow mfa
              | None => Ok (router_with_login (launch_transport config) flow)
              end)
    | None => xret (Ok (router (launch_transport config)))
    end in
  if tcp_bind (launch_bind config) then xret (Ok (launch_bind config, app)) else xret (Err Bind).

Definition run (aws_kms : bool) (provide : AwsKmsTotpKeyProvider.t -> TotpKeyProvider) (env : Environment) : X E unit :=
  let* (address, _) := startup aws_kms provide env in
  xret (if serve_until_shutdown address then Ok tt else Err Serve).

(** ** What is configured *)
Definition unset (env : Environment) (names : list str) : Prop := Forall (fun name => var env name = None) names.

Definition mfa_configured (env : Environment) (o : option MfaRuntimeConfig) : Prop :=
  match o with
  | None => unset env VARIABLES
  | Some c => exists session step_up ceremony binding,
      (var env <$> VARIABLES) = Some <$> [active_totp_key_reference c; totp_issuer c; session; step_up; ceremony; binding] /\
      decode_key session = Ok (session_digest_key c) /\ decode_key step_up = Ok (mfa_step_up_digest_key c) /\
      decode_key ceremony = Ok (webauthn_ceremony_digest_key c) /\
      decode_key binding = Ok (webauthn_binding_digest_key c)
  end.

Definition login_configured (env : Environment) (o : option LoginRuntimeConfig) : Prop :=
  match o with
  | None => unset env LOGIN_VARIABLES /\ unset env VARIABLES
  | Some c => exists transaction binding,
      (var env <$> LOGIN_VARIABLES) = Some <$> [database_url c; login_dummy_verifier c; transaction; binding] /\
      decode_key transaction = Ok (transaction_digest_key c) /\ decode_key binding = Ok (login_binding_digest_key c) /\
      parse_u32 (default (lit "10") (var env (lit "FABRIC_DATABASE_MAX_CONNECTIONS"))) = Some (max_connections c) /\
      1 <= max_connections c <= 64 /\ mfa_configured env (mfa c)
  end.

Definition configured (env : Environment) (c : LaunchConfig) : Prop :=
  (exists domain, var env (lit "FABRIC_PUBLIC_DOMAIN") = Some domain /\
     DomainName.parse domain = Ok (public_domain (launch_transport c))) /\
  Net.from_str (default (lit "127.0.0.1:8080") (var env (lit "FABRIC_BIND"))) = Some (launch_bind c) /\
  Net.is_loopback (Net.ip (launch_bind c)) = true /\
  enable_hsts (launch_transport c) = bool_decide (var env (lit "FABRIC_ENABLE_HSTS") = Some (lit "true")) /\
  login_configured env (launch_login c).

(** A computation that does not panic, and when it succeeds with what. *)
Definition yields {B} (m : X E B) (P : B -> Prop) : Prop :=
  exists r, m = Some r /\ forall b, r = Ok b <-> P b.

Lemma yields_ok {B} (b : B) (P : B -> Prop) : (forall b', b' = b <-> P b') -> yields (xret (Ok b)) P.
Proof. intros HP. exists (Ok b). split; [done|]. intros b'. rewrite <- HP. split; congruence. Qed.
Lemma yields_err {B} (e : E) (P : B -> Prop) : (forall b, ~ P b) -> yields (xret (Err e)) P.
Proof. intros HP. exists (Err e). split; [done|]. intros b. split; [done|]. intros []%HP. Qed.
Lemma yields_xbind {B B'} (m : X E B) (k : B -> X E B') (Q : B -> Prop) (P : B' -> Prop) :
  yields m Q -> (forall b, Q b -> yields (k b) (fun b' => P b')) -> ((forall b, ~ Q b) -> forall b', ~ P b') ->
  yields (xbind m k) P.
Proof.
  intros (r & -> & Hr) Hk Hn. destruct r as [b|e]; simpl.
  - apply Hk. by apply Hr.
  - apply yields_err, Hn. intros b Hb%Hr. done.
Qed.

Lemma yields_result {B} (r : result E B) : yields (xret r) (fun b => r = Ok b).
Proof. by exists r. Qed.

Lemma yields_ext {B} (m : X E B) (P Q : B -> Prop) : (forall b, P b <-> Q b) -> yields m P -> yields m Q.
Proof. intros HPQ (r & -> & Hr). exists r. split; [done|]. intros b. by rewrite Hr. Qed.

Lemma mfa_yields env : yields (MfaRuntimeConfig_from_environment env) (mfa_configured env).
Proof.
  eapply (yields_ext _ (fun o =>
    match o with
    | None => var env (lit "FABRIC_TOTP_ACTIVE_KEY_REFERENCE") = None /\ var env (lit "FABRIC_TOTP_ISSUER") = None /\
        var env (lit "FABRIC_SESSION_DIGEST_KEY") = None /\ var env (lit "FABRIC_STEP_UP_DIGEST_KEY") = None /\
        var env (lit "FABRIC_WEBAUTHN_CEREMONY_DIGEST_KEY") = None /\ var env (lit "FABRIC_WEBAUTHN_BINDING_DIGEST_KEY") = None
    | Some c => exists session step_up ceremony binding,
        (var env (lit "FABRIC_TOTP_ACTIVE_KEY_REFERENCE") = Some (active_totp_key_reference c) /\
         var env (lit "FABRIC_TOTP_ISSUER") = Some (totp_issuer c) /\
         var env (lit "FABRIC_SESSION_DIGEST_KEY") = Some session /\ var env (lit "FABRIC_STEP_UP_DIGEST_KEY") = Some step_up /\
         var env (lit "FABRIC_WEBAUTHN_CEREMONY_DIGEST_KEY") = Some ceremony /\
         var env (lit "FABRIC_WEBAUTHN_BINDING_DIGEST_KEY") = Some binding) /\
        decode_key session = Ok (session_digest_key c) /\ decode_key step_up = Ok (mfa_step_up_digest_key c) /\
        decode_key ceremony = Ok (webauthn_ceremony_digest_key c) /\
        decode_key binding = Ok (webauthn_binding_digest_key c)
    end)).
  { intros [c|]; unfold mfa_configured, unset, VARIABLES.
    - cbn [fmap list_fmap]. split; intros (s & u & ce & b & Hv & Hd); exists s, u, ce, b; (split; [|done]).
      + destruct Hv as (-> & -> & -> & -> & -> & ->). done.
      + by injection Hv.
    - rewrite !Forall_cons, Forall_nil. tauto. }
  unfold MfaRuntimeConfig_from_environment.
  generalize (var env (lit "FABRIC_TOTP_ACTIVE_KEY_REFERENCE")), (var env (lit "FABRIC_TOTP_ISSUER")),
    (var env (lit "FABRIC_SESSION_DIGEST_KEY")), (var env (lit "FABRIC_STEP_UP_DIGEST_KEY")),
    (var env (lit "FABRIC_WEBAUTHN_CEREMONY_DIGEST_KEY")), (var env (lit "FABRIC_WEBAUTHN_BINDING_DIGEST_KEY")).
  intros a b c d e f. clear env.
  destruct a as [a|], b as [b|], c as [c|], d as [d|], e as [e|], f as [f|]; cbn [is_set negb forallb existsb andb orb expect xbind];
    try (apply yields_err; intros [o|]; [intros (s & u & ce & bi & (? & ? & ? & ? & ? & ?) & _); discriminate|intros (? & ? & ? & ? & ? & ?); discriminate]).
  - unfold xret. destruct (decode_key c) eqn:H1, (decode_key d) eqn:H2, (decode_key e) eqn:H3, (decode_key f) eqn:H4;
      cbn [xbind]; try (apply yields_err; intros [o|]; [|by intros [? _]];
        intros (s & u & ce & bi & (_ & _ & [= <-] & [= <-] & [= <-] & [= <-]) & G1 & G2 & G3 & G4); congruence).
    apply yields_ok. intros [o|]; [|by split; [|intros [? _]]]. split.
    + intros [= ->]. by exists c, d, e, f.
    + intros (s & u & ce & bi & ([= Ha] & [= Hb] & [= <-] & [= <-] & [= <-] & [= <-]) & G1 & G2 & G3 & G4).
      destruct o. cbn in *. rewrite H1 in G1. rewrite H2 in G2. rewrite H3 in G3. rewrite H4 in G4. by simplify_eq.
  - apply yields_ok. intros [o|]; split; try done. by intros (s & u & ce & bi & [? _] & _).
Qed.

Lemma parse_u32_nonneg s n : parse_u32 s = Some n -> 0 <= n.
Proof.
  assert (Hd : forall s acc n, 0 <= acc -> parse_digits s acc = Some n -> 0 <= n).
  { clear. intros s. induction s as [|c s IH]; simpl; intros acc n Hacc; [by intros [= <-]|].
    destruct (Z.leb_spec 48 c); simpl; [|done]. destruct (c <=? 57); [|done].
    destruct (_ <? _); [|done]. apply IH. lia. }
  unfold parse_u32. destruct s as [|c s]; [done|]. destruct (_ && _); by apply Hd.
Qed.

Lemma any_set env : any_environment_variable_is_set env = false <-> unset env VARIABLES.
Proof.
  unfold any_environment_variable_is_set, unset. generalize VARIABLES. intros l.
  induction l as [|name l IH]; simpl; [split; [by intros _; constructor|done]|].
  rewrite Forall_cons, orb_false_iff, IH. destruct (var env name); naive_solver.
Qed.

Lemma login_yields env : yields (LoginRuntimeConfig_from_environment env) (login_configured env).
Proof.
  eapply (yields_ext _ (fun o =>
    match o with
    | None => (var env (lit "FCP_DATABASE_URL") = None /\ var env (lit "FABRIC_PASSWORD_DUMMY_VERIFIER") = None /\
        var env (lit "FABRIC_LOGIN_TRANSACTION_DIGEST_KEY") = None /\ var env (lit "FABRIC_LOGIN_BINDING_DIGEST_KEY") = None) /\
        any_environment_variable_is_set env = false
    | Some c => exists transaction binding,
        (var env (lit "FCP_DATABASE_URL") = Some (database_url c) /\
         var env (lit "FABRIC_PASSWORD_DUMMY_VERIFIER") = Some (login_dummy_verifier c) /\
         var env (lit "FABRIC_LOGIN_TRANSACTION_DIGEST_KEY") = Some transaction /\
         var env (lit "FABRIC_LOGIN_BINDING_DIGEST_KEY") = Some binding) /\
        decode_key transaction = Ok (transaction_digest_key c) /\ decode_key binding = Ok (login_binding_digest_key c) /\
        parse_u32 (default (lit "10") (var env (lit "FABRIC_DATABASE_MAX_CONNECTIONS"))) = Some (max_connections c) /\
        1 <= max_connections c <= 64 /\ mfa_configured env (mfa c)
    end)).
  { intros [c|]; unfold login_configured, unset, LOGIN_VARIABLES.
    - cbn [fmap list_fmap]. split; intros (tr & bi & Hv & Hd); exists tr, bi; (split; [|done]).
      + destruct Hv as (-> & -> & -> & ->). done.
      + by injection Hv.
    - rewrite any_set, !Forall_cons, Forall_nil. unfold unset. tauto. }
  unfold LoginRuntimeConfig_from_environment. destruct (mfa_yields env) as (rm & -> & Hm).
  assert (Hpos : forall n, parse_u32 (default (lit "10") (var env (lit "FABRIC_DATABASE_MAX_CONNECTIONS"))) = Some n -> 0 <= n)
    by (intros n; apply parse_u32_nonneg).
  revert Hpos. generalize (parse_u32 (default (lit "10") (var env (lit "FABRIC_DATABASE_MAX_CONNECTIONS")))).
  generalize (var env (lit "FCP_DATABASE_URL")), (var env (lit "FABRIC_PASSWORD_DUMMY_VERIFIER")),
    (var env (lit "FABRIC_LOGIN_TRANSACTION_DIGEST_KEY")), (var env (lit "FABRIC_LOGIN_BINDING_DIGEST_KEY")).
  intros a b c d pool Hpos.
  destruct a as [a|], b as [b|], c as [c|], d as [d|]; cbn [is_set negb forallb existsb andb orb expect xbind];
    try (apply yields_err; intros [o|]; [intros (tr & bi & (? & ? & ? & ?) & _); discriminate|intros [(? & ? & ? & ?) _]; discriminate]).
  - destruct pool as [n|]; cbn [ok_or xret xbind];
      [|apply yields_err; intros [o|]; [by intros (tr & bi & _ & _ & _ & Hp & _)|by intros [[? _] _]]].
    specialize (Hpos n eq_refl). destruct (Z.eqb_spec n 0), (Z.ltb_spec 64 n); cbn [orb];
      try (apply yields_err; intros [o|]; [intros (tr & bi & _ & _ & _ & [= Hp] & ? & _); lia|by intros [[? _] _]]).
    unfold xret. destruct (decode_key c) eqn:H1, (decode_key d) eqn:H2; cbn [xbind];
      try (apply yields_err; intros [o|]; [|by intros [[? _] _]];
        intros (tr & bi & (_ & _ & [= <-] & [= <-]) & G1 & G2 & _); congruence).
    destruct rm as [m|e]; cbn [xbind].
    + apply yields_ok. intros [o|]; [|by split; [|intros [[? _] _]]]. split.
      * intros [= ->]. exists c, d. simpl. split_and!; try done; [lia|by apply Hm].
      * intros (tr & bi & ([= Ha] & [= Hb] & [= <-] & [= <-]) & G1 & G2 & [= G3] & _ & G4%Hm).
        destruct o. cbn in *. rewrite H1 in G1. rewrite H2 in G2. by simplify_eq.
    + apply yields_err. intros [o|]; [|by intros [[? _] _]].
      intros (tr & bi & _ & _ & _ & _ & _ & G4%Hm). done.
  - destruct (any_environment_variable_is_set env).
    + apply yields_err. intros [o|]; [by intros (tr & bi & [? _] & _)|by intros [_ ?]].
    + apply yields_ok. intros [o|]; split; try done. by intros (tr & bi & [? _] & _).
Qed.

Lemma config_yields env : yields (LaunchConfig_from_environment env) (configured env).
Proof.
  unfold LaunchConfig_from_environment, configured. destruct (login_yields env) as (rl & -> & Hl).
  generalize (default (lit "127.0.0.1:8080") (var env (lit "FABRIC_BIND"))).
  generalize (bool_decide (var env (lit "FABRIC_ENABLE_HSTS") = Some (lit "true"))).
  generalize (var env (lit "FABRIC_PUBLIC_DOMAIN")). intros domain hsts bind. unfold xret.
  destruct domain as [domain|]; cbn [ok_or xbind]; [|apply yields_err; by intros c [(d & ? & _) _]].
  destruct (DomainName.parse domain) as [d|e] eqn:Hd; cbn [map_err xbind];
    [|apply yields_err; intros c [(d & [= <-] & Hx) _]; congruence].
  destruct (Net.from_str bind) as [a|]; cbn [ok_or xbind]; [|apply yields_err; by intros c (_ & ? & _)].
  destruct (Net.is_loopback (Net.ip a)) eqn:Ha; cbn [negb]; [|apply yields_err; intros c (_ & [= <-] & ? & _); congruence].
  destruct rl as [login|e]; cbn [xbind]; [|apply yields_err; intros c (_ & _ & _ & _ & Hx%Hl); done].
  apply yields_ok. intros c. split.
  - intros ->. simpl. split; [exists domain; by destruct hsts|]. split; [done|]. split; [done|].
    split; [by destruct hsts|by apply Hl].
  - intros ((d' & [= <-] & Hx) & [= Hb] & _ & Hh & Hx2%Hl). rewrite Hd in Hx.
    destruct c as [cb [cd ch] cl]. simpl in *. simplify_eq. by destruct hsts.
Qed.

(** C12: the environment configures the process all or nothing.  Reading it never
    panics, and it yields a configuration exactly when the public domain is valid,
    the bind address, [127.0.0.1:8080] unless set, is a loopback one, and each
    group of variables, the four of the login routes and the six of the second
    factors, is complete and well formed or absent altogether, the second only
    with the first; the pool has 1 to 64 connections, every digest key is 32
    decoded bytes, and strict transport security is on exactly for [true]. *)
Theorem launch_config_iff env :
  exists r, LaunchConfig_from_environment env = Some r /\ forall c, r = Ok c <-> configured env c.
Proof. apply config_yields. Qed.

(** What a process that started is made of. *)
Lemma startup_shape aws_kms provide env addr state :
  startup aws_kms provide env = Some (Ok (addr, state)) ->
  exists c, configured env c /\ addr = launch_bind c /\ federation_ingress state = false /\
    match launch_login c with
    | None => login_flow state = None /\ mfa_session state = None
    | Some l => mfa l = None -> mfa_session state = None
    end.
Proof.
  unfold startup. destruct (config_yields env) as (r & -> & Hr). destruct r as [c|e]; cbn [xbind]; [|done].
  intros Hs. exists c. split; [by apply Hr|]. destruct (launch_login c) as [l|] eqn:Hl.
  - unfold xret in Hs. destruct (connect _ _) as [[]|e]; cbn [map_err xbind] in Hs; [|done].
    destruct (from_persisted _) as [v|e]; cbn [map_err xbind] in Hs; [|done].
    destruct (mfa l) as [m|]; cbn [xbind] in Hs; [|destruct (tcp_bind _); [injection Hs as <- <-; done|done]].
    destruct (full_mfa_router _ _ _ _ m) as [app|e] eqn:Hm; cbn [xbind] in Hs; [|done].
    destruct (tcp_bind _); [|done]. injection Hs as <- <-. split; [done|]. split; [|done].
    unfold full_mfa_router in Hm. destruct aws_kms; simpl in Hm; [|done].
    do 5 (apply res_bind_ok in Hm as (? & _ & Hm)). by injection Hm as <-.
  - cbn [xret xbind] in Hs. destruct (tcp_bind _); [|done]. by injection Hs as <- <-.
Qed.

Lemma unset_mfa env c l :
  configured env c -> launch_login c = Some l -> unset env VARIABLES -> mfa l = None.
Proof.
  intros (_ & _ & _ & _ & Hl) El Hu. rewrite El in Hl. destruct Hl as (tr & bi & _ & _ & _ & _ & _ & Hm).
  destruct (mfa l) as [m|]; [|done]. destruct Hm as (s & u & ce & b & Hv & _).
  unfold unset, VARIABLES in *. apply Forall_cons in Hu as [Hu _]. cbn [fmap list_fmap] in Hv. rewrite Hu in Hv. done.
Qed.

Lemma unset_login env c : configured env c -> unset env LOGIN_VARIABLES -> launch_login c = None.
Proof.
  intros (_ & _ & _ & _ & Hl) Hu. destruct (launch_login c) as [l|]; [|done]. destruct Hl as (tr & bi & Hv & _).
  unfold unset, LOGIN_VARIABLES in *. apply Forall_cons in Hu as [Hu _]. cbn [fmap list_fmap] in Hv. rewrite Hu in Hv. done.
Qed.

End launch.

(** ** What the process answers *)
Section surface.
Context `{F : FabricLib} `{W : !WebauthnLib} `{V : UrlLib} `{T : TimeLib} `{K : Crypto} `{C : TotpCrypto} `{A : Argon2} `{U : Unicode} `{H : HttpLib} `{D : SqlDialect} `{L : !LaunchLib}.
Abbreviation Db := (Db Document).
Implicit Types db : Db.

(** A request that is not found, or meant for another host, and changes nothing. *)
Definition unserved (state : FabricHttpState) (request : HttpRequest) db : Prop :=
  fst (serve state request db) = db /\
  (response_status (response (snd (serve state request db))) = NOT_FOUND \/
   response_status (response (snd (serve state request db))) = MISDIRECTED_REQUEST).

Lemma serve_not_found state request db :
  Http.run (handle state (request_headers request) (route request)) db = (db, status_response NOT_FOUND) ->
  unserved state request db.
Proof. unfold unserved, serve. intros ->. destruct (host_accepted _ _); simpl; auto. Qed.

Lemma serve_quiet state request db :
  fst (Http.run (handle state (request_headers request) (route request)) db) = db ->
  fst (serve state request db) = db.
Proof. unfold serve. destruct (host_accepted _ _); [|done]. by destruct (Http.run _ db). Qed.

(** Without the services behind the second factors, only the password route acts. *)
Definition password_surface (state : FabricHttpState) (request : HttpRequest) db : Prop :=
  match route request with
  | Liveness | Readiness => fst (serve state request db) = db
  | StartPasswordLogin _ _ _ => store_wf db -> forall f, f ∈ session_families (fst (serve state request db)) ->
      exists f0, f0 ∈ session_families db /\ same_family f0 f
  | _ => unserved state request db
  end.

Lemma delivery_unserved state request path delivery m db :
  federation_ingress state = false -> route request = DeliverFederation path delivery m -> unserved state request db.
Proof. intros Hf Hr. apply serve_not_found. rewrite Hr. cbn [handle]. unfold deliver_route. by rewrite Hf. Qed.

Lemma next_step_missing state headers stage cid draw db :
  mfa_session state = None -> next_step state headers stage cid draw db = (db, Err (Failed (status_response NOT_FOUND))).
Proof. intros Hm. unfold next_step. rewrite Hm. by destruct (login_flow state). Qed.

Lemma without_services state request db :
  mfa_session state = None -> federation_ingress state = false -> password_surface state request db.
Proof.
  intros Hm Hf. unfold password_surface.
  destruct (route request) eqn:Hr;
    try (apply serve_quiet; rewrite Hr; reflexivity);
    try (by eapply delivery_unserved);
    try (apply serve_not_found; rewrite Hr; cbn [handle];
         first [progress unfold begin_totp_enrollment_route | progress unfold confirm_totp_enrollment | progress unfold complete_totp_login
               | progress unfold complete_password_only_login]; unfold Http.run, bind at 1;
         rewrite (next_step_missing _ _ _ _ _ _ Hm); reflexivity);
    try (apply serve_not_found; rewrite Hr; cbn [handle];
         first [progress unfold refresh_session | progress unfold invite_account_route | progress unfold begin_passkey_login
               | progress unfold finish_passkey_login | progress unfold begin_passkey_registration | progress unfold finish_passkey_registration_route
               | progress unfold begin_role_change_step_up | progress unfold change_account_role]; rewrite Hm; reflexivity).
  intros Hwf f Hin. destruct (serve state request db) as [db' reply] eqn:Hs.
  pose proof (serve_grows _ _ _ _ _ Hs Hwf) as [_ _ Hg]. rewrite Hr in Hg.
  apply (grown_families _ _ _ Hg) in Hin as (f0 & Hsame & [Hold|(x & _ & [])]). eauto.
Qed.

(** C11: what the process serves follows from its environment.  A process that
    started listens on a loopback address and never takes federation deliveries.
    Without the variables of the second factors the password route is the only one
    that reaches the store, it adds no session, and every route that would end in
    one is not found; without those of the login no request changes the store. *)
Theorem launched_surface aws_kms provide env addr state :
  startup aws_kms provide env = Some (Ok (addr, state)) ->
  Net.is_loopback (Net.ip addr) = true /\
  (forall request path delivery m db, route request = DeliverFederation path delivery m -> unserved state request db) /\
  (unset env VARIABLES -> forall request db, password_surface state request db) /\
  (unset env LOGIN_VARIABLES -> forall request db, fst (serve state request db) = db).
Proof.
  intros (c & Hc & -> & Hf & Hl)%startup_shape. split; [by destruct Hc as (_ & _ & ? & _)|].
  split; [intros; by eapply delivery_unserved|]. split; intros Hu request db.
  - apply without_services; [|done]. destruct (launch_login c) as [l|] eqn:El; [|by destruct Hl].
    by eapply Hl, unset_mfa.
  - rewrite (unset_login _ _ Hc Hu) in Hl. destruct Hl as [Hlogin Hm].
    pose proof (without_services state request db Hm Hf) as Hp. unfold password_surface in Hp.
    destruct (route request) eqn:Hr; try (by destruct Hp); try done.
    apply serve_quiet. rewrite Hr. cbn [handle]. unfold start_password_login. by rewrite Hlogin.
Qed.

End surface.

(** ** A process with the login routes *)
Module LaunchExamples.
#[local] Existing Instance SampleClock.clock.
#[local] Existing Instance Dialects.lenient.
#[local] Existing Instance Sample.crypto.
#[local] Existing Instance TotpExamples.sample.
#[local] Existing Instance DomainExamples.ascii_only.
#[local] Existing Instance RouteExamples.library.
#[local] Existing Instance RouteExamples.parroting.
#[local] Existing Instance RouteExamples.urls.
#[local] Existing Instance RouteExamples.plain.
#[local] Existing Instance RouteExamples.headers_as_text.

#[local] Instance reachable : LaunchLib := {|
  connect _ _ := Ok tt;
  url_parse _ := Some (lit "parley.io");
  webauthn_build _ _ _ := Ok tt;
  tcp_bind _ := true;
  serve_until_shutdown _ := true;
|}.

Definition settings : list (str * str) :=
  [(lit "FABRIC_PUBLIC_DOMAIN", lit "parley.io"); (lit "FABRIC_BIND", lit "[::1]:8080");
   (lit "FCP_DATABASE_URL", lit "postgres://fabric");
   (lit "FABRIC_PASSWORD_DUMMY_VERIFIER", lit "$correct horse");
   (lit "FABRIC_LOGIN_TRANSACTION_DIGEST_KEY", replicate 32 65);
   (lit "FABRIC_LOGIN_BINDING_DIGEST_KEY", replicate 32 66)].
Definition env : Environment := fun name =>
  (fun p => str_bytes (snd p)) <$> head (filter (fun p => fst p = name) settings).
Definition provide (_ : AwsKmsTotpKeyProvider.t) : TotpKeyProvider := RouteExamples.keys.

Definition refresh : HttpRequest :=
  {| request_headers := [(HOST, lit "parley.io")];
     route := RefreshSession (RouteExamples.uuid 1) (RouteExamples.at_time 1)
       {| drawn_refresh := RouteExamples.drawn 1; drawn_access := RouteExamples.drawn 2;
          drawn_ids := {| new_family := RouteExamples.uuid 60; new_credential := RouteExamples.uuid 61;
                          new_access := RouteExamples.uuid 62; new_session_audit := RouteExamples.uuid 63 |};
          session_now := RouteExamples.at_time 1 |} (RouteExamples.drawn 3);
     drawn_request_id := lit "r" |}.

Lemma launched_surface_witness :
  exists addr state, startup true provide env = Some (Ok (addr, state)) /\
    Net.is_loopback (Net.ip addr) = true /\ unserved state refresh empty_db.
Proof.
  assert (Hs : match startup true provide env with Some (Ok _) => true | _ => false end = true) by (vm_compute; reflexivity).
  destruct (startup true provide env) as [[[addr state]|e]|] eqn:E; [|discriminate Hs|discriminate Hs].
  exists addr, state. split; [reflexivity|].
  destruct (launched_surface true provide env addr state E) as (Hl & _ & Hp & _). split; [exact Hl|].
  assert (Hu : unset env VARIABLES) by (unfold unset, VARIABLES; repeat (constructor; [vm_compute; reflexivity|]); constructor).
  exact (Hp Hu refresh empty_db).
Defined.

End LaunchExamples.
