(* ===== verification/Cli.v ===== *)
(** * The offline administration client

    [crates/fcp-fabricctl/src/main.rs]: the [migrate] and [tenant bootstrap]
    commands.  The pool, the migration runner and the JSON printer are
    parameters; the argument parser hands over a [Command].  The theorem is what
    "one-time tenant bootstrap" promises: over every later history of the store,
    no command creates the tenant of the same domain again. *)

From Stdlib Require Import ZArith Lia String.
From stdpp Require Import base list option numbers decidable relations.
From S2P Require Import Prelude Bytes Types Identity Sample Str Domain Totp Clock Auth Db Ingress StoreAccounts StoreSessions StoreLogin.
From S2P Require Import StorePasskeys StoreStepUp Sessions StoreEffects Store Growth Launch.

(** ** The commands *)
Record ConnectionOptions : Type := { pool_limit : Z }.

Inductive Command : Type :=
| Migrate (options : ConnectionOptions)
| Tenant_Bootstrap (options : ConnectionOptions) (domain_text owner_text correlation_id_text : str).

Inductive CliError : Type :=
| CliDomain (source : DomainError)
| CliLocalpart (source : LocalpartError)
| MissingDatabaseUrl
| CliStore (source : StoreError)
| CliJson.

(** The pool of a URL, the runner of the embedded migrations, which the tables of
    the model already satisfy, and the JSON text of a result. *)
Class CliLib : Type := {
  pool_connect : str -> Z -> result StoreError unit;
  run_migrations : result StoreError unit;
  to_string_pretty : BootstrapResult -> option str;
}.

(** What the store draws for one bootstrap: the ids and the time. *)
Record Drawn `{TimeLib} : Type := { drawn_tenant : Uuid; drawn_owner : Uuid; drawn_event : Uuid; drawn_time : OffsetDateTime }.

Section cli.
Context `{F : FabricLib} `{T : TimeLib} `{D : SqlDialect} `{U : Unicode} `{L : CliLib}.
Abbreviation Db := (Db Document).
Implicit Types db : Db.

Definition cli_connect (env : Environment) (options : ConnectionOptions) : M Db CliError unit :=
  do database_url <- lift (ok_or (var env (lit "FCP_DATABASE_URL")) MissingDatabaseUrl);
  lift (map_err CliStore (pool_connect database_url (pool_limit options))).

(** A store operation of the client. *)
Definition stored {B} (m : M Db StoreError B) : M Db CliError B :=
  fun db => let '(db', r) := m db in (db', map_err CliStore r).

(** Returns the line printed. *)
Definition main (env : Environment) (cli : Command) (drawn : Drawn) : M Db CliError str :=
  match cli with
  | Migrate connection =>
      do_ cli_connect env connection;
      do_ lift (map_err CliStore run_migrations);
      ret (lit "FCP Fabric schema migrations applied")
  | Tenant_Bootstrap connection domain owner correlation_id =>
      do_ cli_connect env connection;
      do_ lift (map_err CliStore run_migrations);
      do domain <- lift (map_err CliDomain (DomainName.parse domain));
      do owner_localpart <- lift (map_err CliLocalpart (Localpart.parse owner));
      do result <- stored
        (bootstrap_tenant {| BootstrapTenant.domain := domain; BootstrapTenant.owner_localpart := owner_localpart;
                             BootstrapTenant.correlation_id := correlation_id |}
           (drawn_tenant drawn) (drawn_owner drawn) (drawn_event drawn) (drawn_time drawn));
      lift (ok_or (to_string_pretty result) CliJson)
  end.

(** ** A tenant is bootstrapped once *)
Definition owner_awaits db (d : DomainName) (o : Localpart) : Prop := exists t a r,
  t ∈ tenants db /\ a ∈ accounts db /\ r ∈ account_roles db /\
  Tenants.canonical_domain t = domain_as_str d /\
  Accounts.tenant_id a = Tenants.id t /\ Accounts.normalized_localpart a = localpart_as_str o /\
  Accounts.state a = lit "mfa_enrollment_required" /\
  AccountRoles.tenant_id r = Tenants.id t /\ AccountRoles.account_id r = Accounts.id a /\ AccountRoles.role r = lit "owner".

Lemma cli_connect_reads env options db db' r : cli_connect env options db = (db', r) -> db' = db.
Proof.
  unfold cli_connect, bind, lift. destruct (ok_or (var env _) _); simpl; by intros [= <- _].
Qed.

Lemma cli_connect_error env options db db' e : cli_connect env options db = (db', Err e) -> e <> CliJson.
Proof.
  unfold cli_connect, bind, lift. destruct (var env _) as [url|]; cbn [ok_or]; [|by intros [= _ <-]].
  destruct (pool_connect url _); [done|by intros [= _ <-]].
Qed.

Lemma bootstrap_atomic command t o aid now db db' e :
  bootstrap_tenant command t o aid now db = (db', Err e) -> db' = db.
Proof.
  unfold bootstrap_tenant. apply atomic_after_lift. intros []. apply atomic_transaction.
Qed.

Lemma bootstrap_wf command t o aid now db db' b :
  store_wf db -> bootstrap_tenant command t o aid now db = (db', Ok b) -> store_wf db'.
Proof.
  intros Hwf Hb. apply (exec_ok (OpBootstrap command t o aid now) db); [done|].
  cbn [exec]. unfold forget, bind. by rewrite Hb.
Qed.

Lemma main_bootstrap env connection domain owner cid drawn db db' r :
  main env (Tenant_Bootstrap connection domain owner cid) drawn db = (db', r) ->
  (db' = db /\ exists e, r = Err e /\ e <> CliJson) \/
  exists d o b, DomainName.parse domain = Ok d /\ Localpart.parse owner = Ok o /\
    bootstrap_tenant {| BootstrapTenant.domain := d; BootstrapTenant.owner_localpart := o; BootstrapTenant.correlation_id := cid |}
      (drawn_tenant drawn) (drawn_owner drawn) (drawn_event drawn) (drawn_time drawn) db = (db', Ok b) /\
    r = ok_or (to_string_pretty b) CliJson.
Proof.
  cbn [main]. unfold bind at 1. destruct (cli_connect env connection db) as [db0 [[]|e]] eqn:Hc.
  2:{ intros [= <- <-]. left. split; [by eapply cli_connect_reads|]. exists e. split; [done|].
      by eapply cli_connect_error. }
  apply cli_connect_reads in Hc as ->.
  unfold bind, lift. destruct run_migrations as [[]|e]; cbn [map_err]; [|intros [= <- <-]; eauto 6].
  destruct (DomainName.parse domain) as [d|e]; cbn [map_err]; [|intros [= <- <-]; eauto 6].
  destruct (Localpart.parse owner) as [o|e]; cbn [map_err]; [|intros [= <- <-]; eauto 6].
  unfold stored. destruct (bootstrap_tenant _ _ _ _ _ db) as [db1 [b|e]] eqn:Hb; cbn [map_err]; intros [= <- <-].
  - right. by exists d, o, b.
  - left. split; [by eapply bootstrap_atomic|]. by eexists.
Qed.

Lemma bootstrap_taken command t o aid now r db db' b :
  bootstrap_tenant command t o aid now db = (db', Ok b) -> r ∈ tenants db ->
  Tenants.canonical_domain r <> domain_as_str (BootstrapTenant.domain command).
Proof.
  intros (_ & [_ Hd] & _)%bootstrap_ok Hr. rewrite list.Forall_forall in Hd. by apply Hd.
Qed.

(** C31: Tenant bootstrap is one-time.  The client's bootstrap command either fails,
    not in printing, and leaves the database as it was, or creates the tenant of
    the canonical domain with its first owner, who must still enrol a second
    factor; from then on, whatever the service and other clients do to the store,
    every bootstrap command whose domain has the same canonical form fails and
    changes nothing. *)
Theorem tenant_bootstrap_once env connection domain owner cid drawn db db1 r :
  store_wf db -> main env (Tenant_Bootstrap connection domain owner cid) drawn db = (db1, r) ->
  (db1 = db /\ exists e, r = Err e /\ e <> CliJson) \/
  exists d o, DomainName.parse domain = Ok d /\ Localpart.parse owner = Ok o /\ owner_awaits db1 d o /\
    forall db2 env' connection' domain' owner' cid' drawn', rtc store_step db1 db2 ->
      DomainName.parse domain' = Ok d ->
      exists e, main env' (Tenant_Bootstrap connection' domain' owner' cid') drawn' db2 = (db2, Err e).
Proof.
  intros Hwf [?|(d & o & b & Hd & Ho & Hb & _)]%main_bootstrap; [by left|right].
  exists d, o. split; [done|]. split; [done|].
  assert (Hwf1 : store_wf db1) by (eapply bootstrap_wf; eauto).
  destruct (bootstrap_ok _ _ _ _ _ _ _ _ Hb) as (_ & _ & _ & _ & event & _ & _ & _ & Hdb1).
  assert (Ht : tenant_row {| BootstrapTenant.domain := d; BootstrapTenant.owner_localpart := o;
      BootstrapTenant.correlation_id := cid |} (drawn_tenant drawn) (drawn_time drawn) ∈ tenants db1).
  { rewrite Hdb1. simpl. apply list.elem_of_app. right. by left. }
  split.
  - rewrite Hdb1. do 3 eexists. simpl. do 3 (split; [apply list.elem_of_app; right; by left|]). done.
  - intros db2 env' connection' domain' owner' cid' drawn' Hsteps Hd'.
    destruct (main env' _ drawn' db2) as [db3 r3] eqn:Hm.
    destruct (main_bootstrap _ _ _ _ _ _ _ _ _ Hm) as [(-> & e & -> & _)|(d' & o' & b' & Hp & _ & Hb' & _)]; [by exists e|].
    rewrite Hd' in Hp. injection Hp as <-.
    by destruct (bootstrap_taken _ _ _ _ _ _ _ _ _ Hb' (kept_tenants _ _ (steps_kept _ _ Hsteps Hwf1) _ Ht)).
Qed.

End cli.

Module CliExamples.
#[local] Existing Instance SampleClock.clock.
#[local] Existing Instance Dialects.lenient.
#[local] Existing Instance IngressExamples.library.
#[local] Existing Instance DomainExamples.ascii_only.

#[local] Instance library : CliLib :=
  {| pool_connect := fun _ _ => Ok tt; run_migrations := Ok tt; to_string_pretty := fun _ => Some (lit "{}") |}.

Definition env : Environment := fun name =>
  if bool_decide (name = lit "FCP_DATABASE_URL") then Some (str_bytes (lit "postgres://fabric")) else None.
Definition bootstrap (domain : str) : Command := Tenant_Bootstrap {| pool_limit := 2 |} domain (lit "alice") (lit "c").
Definition drawn (z : Z) : Drawn :=
  {| drawn_tenant := StoreExamples.uuid z; drawn_owner := StoreExamples.uuid (z + 1);
     drawn_event := StoreExamples.uuid (z + 2); drawn_time := StoreExamples.at_time z |}.
Definition bootstrapped : Db Document * result CliError str := main env (bootstrap (lit "parley.io")) (drawn 1) empty_db.

(** The second command spells the domain in capitals. *)
Lemma tenant_bootstrap_once_witness :
  snd bootstrapped = Ok (lit "{}") /\
  exists e, main env (bootstrap (lit "PARLEY.IO")) (drawn 7) (fst bootstrapped) = (fst bootstrapped, Err e).
Proof.
  split; [vm_compute; reflexivity|].
  destruct (tenant_bootstrap_once env {| pool_limit := 2 |} (lit "parley.io") (lit "alice") (lit "c") (drawn 1) empty_db
    (fst bootstrapped) (snd bootstrapped) empty_wf (surjective_pairing _)) as [(_ & e & He & _)|(d & o & Hd & _ & _ & Hnext)].
  - vm_compute in He. discriminate He.
  - apply Hnext; [apply rtc_refl|]. rewrite <- Hd. vm_compute. reflexivity.
Defined.
End CliExamples.
